(* ===== verification/_CoqProject ===== *)
-Q . S2P
Prelude.v
Types.v
Mailbox.v
Resolver.v
Registry.v
Routing.v
Outcomes.v
Monitors.v
PubSub.v
Fnv.v
Program.v
State.v
Emit.v
Send.v
Lifecycle.v
Broker.v
Cron.v
Actor.v
Prim.v
System.v
Invariants.v
Scheduler.v
Safety.v
Machine.v
Sequential.v
Delivery.v
Asks.v
Shutdown.v
Schedules.v
Publish.v
Refs.v
GoSort.v
Nodes.v
Metrics.v
Topology.v
Ring.v
Placement.v
Election.v
Feed.v
Seeds.v
Polling.v
Detection.v
Cluster.v
Links.v
Remote.v
Relay.v
Daemons.v
DistRegistry.v
ServiceRouter.v
Singleton.v
Handover.v
Transfer.v
Wiring.v
ByteStream.v
Join.v
Auth.v
Grpc.v
Multicast.v
Gossip.v
Spread.v
Routes.v
Replication.v
Certs.v
Secure.v
Clouds.v
Startup.v
Drain.v
Failover.v
Supervision.v
Loops.v
Testnode.v
