(* ===== verification/Prelude.v ===== *)
(** * A verification library for westcoast, a Go actor runtime and its cluster

    The program is an actor runtime in the style of Erlang, and a layer that
    joins several runtimes into a cluster.  This library models the packages
    [src/src/actor], [src/src/actor/cluster] (with its [grpctransport]),
    [src/src/internal/metrics] and [src/pkg], and the program
    [src/cmd/testnode], as executable Rocq definitions and proves that they
    keep their invariants and do what their documentation promises, or exhibits
    where they do not.

    ** The program: one runtime

    A [Runtime] owns actors.  An actor is an instance with a bounded mailbox, a
    handler (user code), a state and a goroutine that drains the mailbox;
    a failing handler is referred to a supervision policy, which restarts or
    stops the actor.  Around this core:
    - messages reach an actor by its ID ([Send]), by PID ([SendPID]: the PID's
      generation must be the current one), by registered name, through a router
      that picks one of its workers, or as a request that waits for a reply
      ([Ask]);
    - type routes filter what a mailbox accepts;
    - monitors tell a watcher that an actor stopped; dead letters, events,
      metrics and outcomes record what happened;
    - timers, a pub/sub broker and a cron timer are services on top, the last two
      being actors whose handlers are part of the runtime;
    - a cluster layer hooks in through injected functions (remote send and ask,
      cluster-wide names, broadcast).

    ** The program: a cluster

    A node is a runtime with a [Cluster].  A membership provider - seeds, a
    polled cloud account, multicast - reports who joins, leaves and fails on a
    bounded channel.  The cluster keeps the peers and the connections its
    topology (a full mesh or a hash ring) asks for, and passes every event to a
    callback that [Start] installs, which drives the other parts: the leader
    election, the table of reachable nodes, the singletons, the registry of
    names and the membership topic.  Envelopes carry messages, replies and the
    parts' own messages; a node that is not the target sends them on.  On top:
    - singletons run on the leader of their scope and are handed over with their
      state; daemons run on every node their placement matches; service groups
      pick a registered worker; a supervisor decides where the actors of a failed
      node are to run; a drain takes a node out of service;
    - gossip spreads metadata and publications, the CRDT library replicates names
      and subscriptions over the cluster's envelopes;
    - a node gets its certificates by a join protocol, and the gRPC transport
      authenticates streams by an HMAC or by certificates.

    ** How the runtime is modelled

    Components that are plain data structures are modelled by themselves, with
    an abstract specification and a refinement theorem each.  The runtime is a
    record of these parts; its operations are state transformers.  An operation
    that may follow routers, whose graph may be cyclic, runs in the monad [M]
    of [Emit.v] with a fuel argument that bounds only the depth of router
    nesting: [None] means that the bound was too small.
    [Delivery.send_terminates] shows that any fuel above the rank of the
    target suffices when the routers are acyclic (two for routers whose workers
    are plain actors), and [Delivery.router_cycle_diverges] that no fuel does
    for a router that is its own worker, where the code recurses without end.
    The theorems about results hold for every fuel that gives one.

    Handlers are programs ([Program.v]): inductive trees of calls to the
    runtime's operations, so that a handler can send, publish, create and stop
    actors, fail or panic, but always returns.  The running system
    ([System.v]) is a step relation: clients call operations, goroutines take
    the pieces of their loops, time passes.  A step is atomic; any
    interleaving of steps is possible, interleavings inside a step (inside one
    operation or the processing of one message) are not modelled, and locks
    are therefore invisible.  [Prim.v] breaks every step into primitive
    mutations so that an invariant is proved once per mutation.

    Parameters of the model, in [State.config]: the supervision policy, the
    random source, the injected cluster functions with their results, and the
    parser and clock of the cron library.  [time.Now] reads a clock that the
    environment advances; times are integers (nanoseconds).  Sequence numbers
    of type [uint64] wrap around ([u64]); [int] counters do not.  A map whose
    iteration order the code leaves open is iterated in the fixed order of
    [map_to_list] or [elements] where the order does not matter, and the
    definition takes the choice as an argument where it does.  The elections and
    the rings of the cluster are filled from maps and sorted by hash alone, so
    equal hashes leave their order open.  An election carries arbitrary choices,
    one for each computation of a leader ([Election.el_orders]), and the theorems
    on who leads assume that the hashes of the members are distinct;
    [Election.ties_divide_leadership] shows what happens otherwise.  A ring is
    built for any choice by [Topology.buildRingOrdered], and with distinct
    positions every choice gives the same ([Placement.ring_of_any_order]), which
    is what the theorems on placement assume; those on routing ([Ring], [Relay],
    [Spread]) do not, but speak of nodes whose rings order equal positions alike.

    ** How the cluster is modelled

    Each part is a record with one definition per operation.  A critical section
    (what the code does under one lock) is one operation, so a sequence of
    operations is an interleaving of the goroutines, and an invariant is proved
    over all sequences.  Goroutines that wait between two sections (dialling a
    peer, asking the previous owner of a singleton, waiting in a drain) are
    separate operations for what comes before and after the wait; [Loops.v] puts
    the periodic ones back into their loops.  What comes from outside is an
    argument of the operation that receives it: results of dials, probes,
    discovery and sockets, random numbers, the clock.  A send on a closed channel,
    a nil dereference and a slice out of bounds are [None].

    A network of nodes is a map from identities to nodes; [Relay.v] runs an
    envelope from hop to hop with a fuel that bounds the hops, and
    [Ring.ring_routes_are_logarithmic] and [Relay.remote_messages_arrive] show
    that a distance that is at most about the logarithm of the size of the
    cluster suffices.  The two ends of the join protocol are programs over a byte
    stream ([ByteStream.v]) that run against each other or against any bytes.

    Code that is not in the repository is an interface or a parameter: a class
    with laws for the maps of the CRDT library ([DistRegistry.ORMap],
    [Routes.DeltaMap], each with a finite map as instance), for the binary
    encodings of certificates and keys ([Certs.v]) and for the types of the cloud
    libraries ([Clouds.v]); a function for the HMAC, for the encoding of gob
    values and for the codec of a payload, with a round-trip hypothesis where a
    theorem needs one.  Certificates and signatures are symbolic.

    ** The files of the runtime

    - [Prelude]: integers of machine width, tactics, hint database, lists.
    - [Types]: [types.go], [pid.go], [events.go], [cron_commands.go] and the
      other structs: structs, enumerations, error texts.
    - [Mailbox]: [mailbox.go]; refinement to a bounded queue, no lost wake-up.
    - [Resolver]: [pid_resolver.go] and [cluster/remote_resolver.go]; the
      interface [PIDResolver] with its laws as type classes and both
      implementations as instances; keys and generations.
    - [Registry]: [registry.go]; actor IDs and names.
    - [Routing]: [routing.go]; rules by type and version.
    - [Outcomes]: [outcome.go]; histories and the ring buffer.
    - [Monitors]: the tables of [monitors.go].
    - [PubSub]: [pubsub_pattern.go], [pubsub_trie.go], [pubsub_commands.go],
      [pubsub_dispatch.go] and the tables of [pubsub_broker.go]; the trie
      against a direct matcher, the tables against the list of subscriptions.
    - [Fnv]: the hash of the [consistent_hash] strategy and of the cluster.
    - [Program], [State], [Emit]: user code ([state.go], [supervisor.go]), the
      state of [Runtime] ([runtime.go]), recording ([dead_letters.go], the
      [emit...] functions), the monad.
    - [Send]: [Send], routers, asks, [SendPID] and replies ([runtime.go]).
    - [Lifecycle]: names, monitors, configuration, creation, stopping and
      removal of actors, timers ([runtime.go], [monitors.go], [timers.go]).
    - [Broker]: [pubsub_broker.go], [pubsub_runtime.go].
    - [Cron]: [cron_broker.go], [cron_runtime.go].
    - [Actor]: [processMessage], [processBatch], [runActor] and the
      interpreter of user programs.
    - [Prim], [System]: primitive mutations and the step relation; how many
      messages a piece of a goroutine takes and answers.
    - [Invariants]: well-formedness of the running system.
    - [Scheduler]: an executable scheduler, for concrete runs.
    - [Safety], [Delivery], [Asks], [Shutdown], [Schedules], [Publish]: the
      properties of the running system.
    - [Machine]: an abstract machine of actors (inbox, state, status, restarts,
      and a directory) with labelled steps, which the running system refines.
    - [Sequential]: actors whose handler is a function.
    - [Refs]: the options of [NewRuntime] and [ActorRef] ([actor_ref.go]).
    - [Metrics]: [internal/metrics]; the percentile with its rounding.

    ** The files of the cluster (under [cluster/] unless said otherwise)

    - [GoSort]: the sorting and searching functions the code uses.
    - [Nodes]: [node.go], [provider.go], [matcher.go]; metadata, events, tags.
    - [Topology], [Ring], [Placement]: [topology*.go]; the interface with its
      laws, the full mesh and the hash ring, routing, placement of keys.
    - [Election]: [election*.go]; scopes, terms, watchers.
    - [Feed], [Seeds], [Polling], [Detection]: the event channel,
      [provider_fixed.go], [pkg/providerutil] and what they guarantee.
    - [Cluster], [Links]: [cluster.go], [transport.go], [envelope.go]; peers and
      connections, and their accounting.
    - [Remote], [Relay]: [remote_send.go], [inbound_handler.go]; envelopes in and
      out, and their way through the network.
    - [Daemons]: [daemonset*.go], [cron_daemon.go].
    - [DistRegistry], [ServiceRouter]: [registry_crdt.go], [cluster_router.go].
    - [Singleton], [Handover], [Transfer]: [singleton.go], [cron_singleton.go];
      the manager and its handoff, where singletons run, and the handoff through
      the network.
    - [Wiring], [Startup]: [start.go], [placement.go],
      [supervision_cluster.go] and the high-level operations of [cluster.go]; a
      node with all its parts.
    - [Drain], [Failover], [Supervision]: [drain.go], and the composition of
      provider, election, singletons, registry and supervisor.
    - [ByteStream], [Join], [Auth], [Certs], [Secure]: [join.go], [auth.go],
      [auth_cert.go], [pkg/certmanager], [provider_secure.go].
    - [Grpc]: [grpctransport/transport.go].
    - [Multicast], [Clouds]: [pkg/multicastprovider] and the three cloud
      providers of [pkg].
    - [Gossip], [Spread], [Routes], [Replication]: [gossip.go],
      [metadata_gossip.go], [codec.go], [pubsub_adapter*.go],
      [registry_transport.go] and the constructors of [registry_crdt.go].
    - [Loops]: the goroutines of the providers, of gossip and of the join server.
    - [Testnode]: [cmd/testnode/main.go]; a program on top of both layers.

    ** What is proved of the runtime

    - Every reachable state is well formed ([Safety]); in particular a goroutine
      that sleeps on a non-empty mailbox has a wake-up pending, and events are
      numbered without gaps.
    - Only an actor's own goroutine changes its state or removes from its
      mailbox, which it does from the front; a failing handler leads to what
      the policy decides, a succeeding one to the state it returned; restarts
      are bounded under the default supervisor.
    - Every step of the running system is a trace of the abstract machine, with
      the labels of the caller or of the one goroutine that ran.  A whole
      execution is one trace from the empty machine, from which the life of every
      actor can be read: what was accepted is what was taken and what is queued, in
      order; its state is the replay of what answered its messages, at most one
      answer per message; nothing happens in the name of a goroutine that has
      returned ([Machine]).  An actor whose handler is a function is the fold of it
      over what was accepted and taken ([Sequential]).
    - A send returns the verdict its target determines and enqueues exactly once
      or not at all; sends by PID reach the current generation only; routed
      sends terminate; round robin is fair ([Delivery]).
    - A reply reaches the ask it belongs to, once ([Asks]); stopping shuts
      everything down that belongs to the actor, and a supervised restart makes
      its older PIDs stale ([Shutdown]); the cron tables follow the messages and
      survive a hand-over, and their index agrees unless a hand-over left a
      reference to be given twice ([Schedules]); a broker's targets have matching
      subscriptions, and all that have one are targets but those whose patterns
      end in [+] ([PubSub]), and a publication goes to each target once
      ([Publish]).
    - The options of a runtime do what they say, in order ([Refs]).
    - Each component refines its specification (in the component's file).
    - The test node starts with its echo actor, which answers asks with what they
      carried ([Testnode]).

    ** What is proved of the cluster

    - Without dropped events a consumer's view is the provider's members, for
      every provider ([Detection], [Multicast], [Clouds]); a node counts as
      failed exactly after its threshold of absences, or its time of silence.
      The connections, the election and the resolver of a node made by [Start]
      follow its provider ([Links], [Failover]).
    - Every connection a node dialled or was given is kept for one node or
      closed, but for the inbound ones it declines ([Links]).
    - Routes on the ring have about a logarithm of hops and a change of one member
      moves the least number of keys ([Ring], [Placement]); messages reach their
      node, replies their asker ([Relay]).
    - Nodes that know the same members agree on every leader, if the members'
      hashes are distinct; terms fence ([Election]).  A running singleton stays, moves with its state on a
      rebalance, through the network if the nodes are connected, and after a
      failure is started by exactly one node, unless a planned departure before
      it stranded the singleton ([Handover], [Transfer], [Failover]); a drained
      node runs no singleton and no daemon ([Drain]); a failure is decided by
      exactly one supervisor ([Supervision]).
    - A send to a service group goes to a worker that joined the group and passes
      the filter, if no other group's name extends this one's ([ServiceRouter]).
    - Who completes a join knows the token, on either side; the handshake carries
      request and certificates unchanged ([Join]); nodes of one secure cluster
      accept each other's certificates ([Secure]); a stream is admitted by the
      shared secret within its window ([Grpc]).
    - Publications reach every node ([Spread]), or exactly the nodes with a
      matching subscription that has no wildcards ([Routes]); metadata gossip updates its receivers, and its peers
      are a uniform choice ([Gossip]); CRDT messages arrive ([Replication]).
    - A loop runs at most one round per tick, returns after its end, and does not
      panic while its invariant holds ([Loops]).

    Other theorems and examples, at the ends of the files, show by evaluation
    behaviour that the comments or the purpose of the code speak against: a
    renewed subscription that keeps a stale PID, routes that outlive their actor,
    subscriptions that are never cleaned up, a singleton whose name is lost after
    a failover or that is stranded by a planned departure, a secure restart that
    forgets its seeds, wildcard subscribers that are missed across nodes, two
    leaders after a tie of hashes, service groups that share their workers, inbound
    connections that are neither kept nor closed, a gossip adapter that drops
    every batch, a handoff through a relay that loses the state,
    a supervisor that silences the rest of its node, asks that look neither at the
    generation nor at the node of a PID, and others.

    ** What is not modelled

    - A handler that blocks or calls a blocking operation ([Ask],
      [CronSubscribe] and the pub/sub requests, which wait for a reply) from
      inside an actor; their non-blocking halves are steps of the system.
    - Emitters other than the in-memory one, and the runtime's calls of its
      metrics hooks; [scheduler.go] holds an unused setting.
    - The wire format of gob and of protocol buffers, TLS, sockets, and the calls
      of the gRPC library: they are arguments and parameters.  The generated code
      ([envelope.pb.go], [envelope_grpc.pb.go]) is left out.
    - The CRDT library: its merging of replicas, its anti-entropy and its
      persistence.  What arrives from other replicas is another value of the map.
    - Of [cmd/testnode], the flags, the HTTP server, the JSON encoder, the probe of
      its provider and the list of types it registers with its codec. *)

From stdpp Require Export base gmap strings list fin_maps sorting relations pretty.
From Stdlib Require Export ZArith Lia Ascii.

#[global] Set Default Goal Selector "!".
#[global] Open Scope Z_scope.

(** ** Machine integers

    [uint64] and [uint32] values are integers kept in range by an explicit
    wrap-around; Go's [int] counters are plain integers. *)

Definition u64_modulus : Z := 2 ^ 64.

Definition u64 (z : Z) : Z := z mod u64_modulus.

Definition u32_modulus : Z := 2 ^ 32.

Definition u32 (z : Z) : Z := z mod u32_modulus.

(** [atomic.Uint64.Add(1)]. *)
Definition u64_succ (z : Z) : Z := u64 (z + 1).

Lemma u64_range z : 0 <= u64 z < u64_modulus.
Proof. apply Z.mod_pos_bound. reflexivity. Qed.

Lemma u32_range z : 0 <= u32 z < u32_modulus.
Proof. apply Z.mod_pos_bound. reflexivity. Qed.

Lemma u64_small z : 0 <= z < u64_modulus -> u64 z = z.
Proof. apply Z.mod_small. Qed.

Lemma u64_succ_small z : 0 <= z -> z + 1 < u64_modulus -> u64_succ z = z + 1.
Proof. intros ??. apply u64_small. lia. Qed.

(** ** Tactics *)

(** Case analysis on the scrutinee of the first match of the goal. *)
Ltac dmatch :=
  match goal with
  | |- context [match ?x with _ => _ end] => destruct x eqn:?
  end.

(** Case analysis on the scrutinee of a match of a hypothesis. *)
Ltac dmatch_in H :=
  match type of H with
  | context [match ?x with _ => _ end] => destruct x eqn:?
  end.

(** Split every match, simplifying, and close the easy branches. *)
Ltac dmatch_all := repeat (dmatch; simplify_eq/=); try done.

(** Turn boolean equations into propositions. *)
Ltac bprop :=
  repeat match goal with
  | H : bool_decide _ = true |- _ => apply bool_decide_eq_true in H
  | H : bool_decide _ = false |- _ => apply bool_decide_eq_false in H
  | H : negb _ = true |- _ => apply negb_true_iff in H
  | H : negb _ = false |- _ => apply negb_false_iff in H
  | H : _ && _ = true |- _ => apply andb_true_iff in H as [??]
  | H : _ || _ = false |- _ => apply orb_false_iff in H as [??]
  end.

(** The lemmas that close the routine goals of the components. *)
Create HintDb wc.
#[export] Hint Resolve u64_range u32_range : wc.

(** ** Lists *)

Section lists.
Context {A : Type}.
Implicit Types l : list A.

(** The last [n] elements of a list. *)
Definition lastn (n : nat) (l : list A) : list A := drop (length l - n) l.

Lemma lastn_all n l : (length l <= n)%nat -> lastn n l = l.
Proof. intros. unfold lastn. by replace (length l - n)%nat with 0%nat by lia. Qed.

Lemma lastn_snoc n l x :
  (0 < n)%nat -> (n <= length l)%nat ->
  lastn n (l ++ [x]) = drop 1 (lastn n l) ++ [x].
Proof.
  intros Hn Hl. unfold lastn. rewrite drop_drop, length_app. cbn.
  rewrite drop_app_le by lia. f_equal. f_equal. lia.
Qed.
(** A filter keeps a list all of whose elements satisfy the predicate. *)
Lemma filter_all (P : A -> Prop) `{forall x, Decision (P x)} l :
  (forall x, x ∈ l -> P x) -> filter P l = l.
Proof.
  induction l as [|x l IH]; intros Hl; [done|].
  rewrite filter_cons_True by (apply Hl; left). f_equal. apply IH. intros y Hy. apply Hl. by right.
Qed.

(** Two filters that exclude each other leave nothing. *)
Lemma filter_none (P Q : A -> Prop) `{forall x, Decision (P x)} `{forall x, Decision (Q x)} l :
  (forall x, P x -> Q x -> False) -> filter P (filter Q l) = [].
Proof.
  intros Hpq. destruct (filter P (filter Q l)) as [|x xs] eqn:Heq; [done|].
  assert (x ∈ filter P (filter Q l)) as Hx by (rewrite Heq; left).
  apply list_elem_of_filter in Hx as [Hp Hx]. apply list_elem_of_filter in Hx as [Hq _].
  by destruct (Hpq x).
Qed.

Lemma filter_comm (P Q : A -> Prop) `{forall x, Decision (P x)} `{forall x, Decision (Q x)} l :
  filter P (filter Q l) = filter Q (filter P l).
Proof. rewrite !list_filter_filter. apply list_filter_iff. intros x. tauto. Qed.
End lists.

(** ** Step relations *)

(** An invariant of every step holds along every run. *)
Lemma rtc_invariant {A} (R : relation A) (P : A -> Prop) x y :
  (forall a b, R a b -> P a -> P b) -> rtc R x y -> P x -> P y.
Proof. intros Hstep Hrun. induction Hrun; eauto. Qed.

(** ** Sequences of operations *)

(** Run operations in order, collecting their results. *)
Fixpoint run_ops {S O X} (run : O -> S -> S * X) (os : list O) (s : S) : S * list X :=
  match os with
  | [] => (s, [])
  | o :: os' => let '(s, x) := run o s in let '(s, xs) := run_ops run os' s in (s, x :: xs)
  end.

(** ** Finite maps *)

(** [m[k]] on a Go map whose missing keys read as the zero value. *)
Definition lookup_default {A} (d : A) (k : string) (m : gmap string A) : A :=
  default d (m !! k).

(** ** Strings *)

#[global] Arguments Ascii.eqb : simpl never.

(** [strings.HasPrefix]. *)
Fixpoint hasPrefix (s prefix : string) {struct prefix} : bool :=
  match prefix, s with
  | EmptyString, _ => true
  | String c p, String d s' => if Ascii.eqb c d then hasPrefix s' p else false
  | _, EmptyString => false
  end.

(** [strings.Contains] with a one-byte needle. *)
Fixpoint containsByte (s : string) (c : Ascii.ascii) : bool :=
  match s with
  | EmptyString => false
  | String d s' => Ascii.eqb c d || containsByte s' c
  end.

(** [fmt.Sprintf("%d", n)] for a non-negative integer. *)
Definition itoa (n : Z) : string := pretty (Z.to_N n).

Lemma str_app_cons c p s : String c p +:+ s = String c (p +:+ s).
Proof. reflexivity. Qed.

Lemma str_app_nil s : "" +:+ s = s.
Proof. reflexivity. Qed.

Lemma hasPrefix_app p s : hasPrefix (p +:+ s) p = true.
Proof.
  induction p as [|c p IH]; [by destruct s|].
  rewrite str_app_cons. simpl. by rewrite Ascii.eqb_refl.
Qed.

Lemma hasPrefix_inv s p : hasPrefix s p = true -> exists t, s = p +:+ t.
Proof.
  revert s. induction p as [|c p IH]; intros s Hp; [by exists s|].
  destruct s as [|d s]; [done|]. cbn in Hp.
  destruct (Ascii.eqb_spec c d) as [->|]; [|done].
  destruct (IH _ Hp) as [t ->]. by exists t.
Qed.

Lemma itoa_inj a b : 0 <= a -> 0 <= b -> itoa a = itoa b -> a = b.
Proof.
  intros Ha Hb H. unfold itoa in H. apply (inj pretty) in H.
  by apply Z2N.inj in H.
Qed.
