(* ===== verification/Types.v ===== *)
(** * Data of the actor package

    The structs, enumerations and sentinel errors of [src/src/actor/types.go],
    [pid.go], [events.go], [cron_commands.go] and the message structs of
    [monitors.go] and [dead_letters.go].

    Go's string-typed enumerations are inductive types with one constructor
    per constant; a type whose values can come from user code (a supervision
    decision, a router strategy, a policy or gateway mode) also has an
    [...Other] constructor for every other string.  Values of type [any] that
    travel through mailboxes are [payload]s: one constructor per struct the
    runtime itself inspects, and [PUser] for everything else, with exactly what
    the runtime can observe of it (its type name, its optional [SchemaVersion]
    and [HashKey] methods).  Times are integers (nanoseconds). *)

From S2P Require Import Prelude.

(** ** Process identifiers ([pid.go]) *)

Record PID := mkPID {
  Namespace : string;
  ActorID : string;
  Generation : Z
}.

Definition zeroPID : PID := mkPID "" "" 0.

#[export] Instance PID_eq_dec : EqDecision PID.
Proof. solve_decision. Defined.

(** [PID.Validate]: the error text, or [None] when the PID is well formed. *)
Definition Validate (p : PID) : option string :=
  if bool_decide (Namespace p = ""%string) then Some "namespace required"%string
  else if bool_decide (ActorID p = ""%string) then Some "actor_id required"%string
  else if bool_decide (Generation p = 0) then Some "generation must be >=1"%string
  else None.

(** [PID.Key]: "namespace:actorID". *)
Definition Key (p : PID) : string := Namespace p +:+ ":" +:+ ActorID p.

Definition askReplyNamespace : string := "__ask_reply".

(** [PID.IsRemote]. *)
Definition IsRemote (p : PID) (localNamespace : string) : bool :=
  if bool_decide (Namespace p = ""%string) || bool_decide (Namespace p = localNamespace)
  then false
  else if bool_decide (Namespace p = askReplyNamespace) then false
  else if negb (bool_decide (localNamespace = ""%string))
          && bool_decide (Namespace p = "__ask_reply@" +:+ localNamespace)
  then false
  else true.

(** [isAskReplyNamespace]. *)
Definition isAskReplyNamespace (ns : string) : bool :=
  bool_decide (ns = askReplyNamespace) || hasPrefix ns "__ask_reply@".

Inductive PIDDeliveryOutcome :=
  | PIDDelivered | PIDUnresolved | PIDRejectedStopped
  | PIDRejectedStaleGeneration | PIDRejectedNotFound.

Definition PIDDeliveryOutcome_string (o : PIDDeliveryOutcome) : string :=
  match o with
  | PIDDelivered => "delivered"
  | PIDUnresolved => "unresolved"
  | PIDRejectedStopped => "rejected_stopped"
  | PIDRejectedStaleGeneration => "rejected_stale_generation"
  | PIDRejectedNotFound => "rejected_not_found"
  end.

Inductive PIDRouteState :=
  | PIDRouteReachable | PIDRouteUnresolved | PIDRouteStopped | PIDRouteRestarting.

Record PIDSendAck := mkPIDSendAck {
  psa_Outcome : PIDDeliveryOutcome;
  psa_MessageID : Z
}.

#[export] Instance PIDDeliveryOutcome_eq_dec : EqDecision PIDDeliveryOutcome.
Proof. solve_decision. Defined.
#[export] Instance PIDRouteState_eq_dec : EqDecision PIDRouteState.
Proof. solve_decision. Defined.

(** ** Sentinel errors ([types.go], [cron_commands.go]) *)

Definition ErrDuplicateActorID : string := "duplicate_actor_id".
Definition ErrActorNotFound : string := "actor_not_found".
Definition ErrActorStillRunning : string := "actor_still_running".
Definition ErrStateMutationForbidden : string := "state_mutation_forbidden".
Definition ErrRegistryNameInvalid : string := "registry_name_invalid".
Definition ErrRegistryDuplicateName : string := "registry_duplicate_name".
Definition ErrRegistryNameNotFound : string := "registry_name_not_found".
Definition ErrLifecycleStartFailed : string := "lifecycle_start_failed".
Definition ErrNonPIDCrossActor : string := "non_pid_cross_actor_rejected".
Definition ErrGatewayRouteFailed : string := "gateway_route_failed".
Definition ErrAskTimeout : string := "ask_timeout".
Definition ErrAskCanceled : string := "ask_canceled".
Definition ErrAskInvalidTimeout : string := "ask_invalid_timeout".
Definition ErrAskReplyTargetInvalid : string := "ask_reply_target_invalid".
Definition ErrBatchConfigInvalid : string := "batch_config_invalid".
Definition ErrPubSubInvalidCommand : string := "pubsub_invalid_command".
Definition ErrPubSubInvalidPattern : string := "pubsub_invalid_pattern".
Definition ErrPubSubInvalidTopic : string := "pubsub_invalid_topic".
Definition ErrCronInvalidSchedule : string := "cron_invalid_schedule".
Definition ErrCronInvalidCommand : string := "cron_invalid_command".
Definition ErrCronRefNotFound : string := "cron_ref_not_found".

(** ** Enumerations ([types.go]) *)

Inductive ActorStatus :=
  | ActorStarting | ActorRunning | ActorRestarting | ActorStopping | ActorStopped.

Definition ActorStatus_string (s : ActorStatus) : string :=
  match s with
  | ActorStarting => "starting"
  | ActorRunning => "running"
  | ActorRestarting => "restarting"
  | ActorStopping => "stopping"
  | ActorStopped => "stopped"
  end.

Inductive LifecycleHookPhase := LifecyclePhaseStart | LifecyclePhaseStop.

Definition LifecycleHookPhase_string (p : LifecycleHookPhase) : string :=
  match p with LifecyclePhaseStart => "start" | LifecyclePhaseStop => "stop" end.

Inductive LifecycleHookResult :=
  | LifecycleStartSuccess | LifecycleStartFailed
  | LifecycleStopSuccess | LifecycleStopFailed.

Definition LifecycleHookResult_string (r : LifecycleHookResult) : string :=
  match r with
  | LifecycleStartSuccess => "start_success"
  | LifecycleStartFailed => "start_failed"
  | LifecycleStopSuccess => "stop_success"
  | LifecycleStopFailed => "stop_failed"
  end.

Inductive PIDInteractionPolicyMode :=
  | PIDInteractionPolicyDisabled | PIDInteractionPolicyPIDOnly
  | PIDInteractionPolicyOther (s : string).

Inductive GatewayRouteMode :=
  | GatewayRouteLocalDirect | GatewayRouteGatewayMediated
  | GatewayRouteOther (s : string).

Definition GatewayRouteMode_string (m : GatewayRouteMode) : string :=
  match m with
  | GatewayRouteLocalDirect => "local_direct"
  | GatewayRouteGatewayMediated => "gateway_mediated"
  | GatewayRouteOther s => s
  end.

Inductive GuardrailOutcomeType :=
  | GuardrailPolicyAccept | GuardrailPolicyRejectNonPID
  | GuardrailGatewayRouteSuccess | GuardrailGatewayRouteFailure.

Definition GuardrailOutcomeType_string (o : GuardrailOutcomeType) : string :=
  match o with
  | GuardrailPolicyAccept => "policy_accept"
  | GuardrailPolicyRejectNonPID => "policy_reject_non_pid"
  | GuardrailGatewayRouteSuccess => "gateway_route_success"
  | GuardrailGatewayRouteFailure => "gateway_route_failure"
  end.

Inductive ReadinessScope :=
  | ReadinessScopePIDPolicy | ReadinessScopeGatewayBoundary
  | ReadinessScopeLocationTransparency.

Definition ReadinessScope_string (s : ReadinessScope) : string :=
  match s with
  | ReadinessScopePIDPolicy => "pid_policy"
  | ReadinessScopeGatewayBoundary => "gateway_boundary"
  | ReadinessScopeLocationTransparency => "location_transparency"
  end.

Inductive ReadinessResult := ReadinessPass | ReadinessFail.

Definition ReadinessResult_string (r : ReadinessResult) : string :=
  match r with ReadinessPass => "pass" | ReadinessFail => "fail" end.

Inductive SubmitResult :=
  | SubmitAccepted | SubmitRejectedFull | SubmitRejectedStop | SubmitRejectedFound
  | SubmitRejectedUnsupportedType | SubmitRejectedNilPayload
  | SubmitRejectedVersionMismatch.

Definition SubmitResult_string (r : SubmitResult) : string :=
  match r with
  | SubmitAccepted => "accepted"
  | SubmitRejectedFull => "rejected_full"
  | SubmitRejectedStop => "rejected_stopped"
  | SubmitRejectedFound => "rejected_not_found"
  | SubmitRejectedUnsupportedType => "rejected_unsupported_type"
  | SubmitRejectedNilPayload => "rejected_nil_payload"
  | SubmitRejectedVersionMismatch => "rejected_version_mismatch"
  end.

Inductive StopResult := StopStopped | StopAlready | StopNotFound.

Inductive ProcessingResult :=
  | ResultSuccess | ResultDelivered | ResultFailed | ResultRejectedFull
  | ResultRejectedStop | ResultRejectedFound | ResultRejectedUnsupportedType
  | ResultRejectedNilPayload | ResultRejectedVersionMismatch.

Definition ProcessingResult_string (r : ProcessingResult) : string :=
  match r with
  | ResultSuccess => "success"
  | ResultDelivered => "delivered"
  | ResultFailed => "failed"
  | ResultRejectedFull => "rejected_full"
  | ResultRejectedStop => "rejected_stopped"
  | ResultRejectedFound => "rejected_not_found"
  | ResultRejectedUnsupportedType => "rejected_unsupported_type"
  | ResultRejectedNilPayload => "rejected_nil_payload"
  | ResultRejectedVersionMismatch => "rejected_version_mismatch"
  end.

Inductive SupervisionDecision :=
  | DecisionRestart | DecisionStop | DecisionEscalate | DecisionOther (s : string).

Definition SupervisionDecision_string (d : SupervisionDecision) : string :=
  match d with
  | DecisionRestart => "restart"
  | DecisionStop => "stop"
  | DecisionEscalate => "escalate"
  | DecisionOther s => s
  end.

Inductive AskOutcomeType :=
  | AskOutcomeSuccess | AskOutcomeTimeout | AskOutcomeCanceled
  | AskOutcomeReplyTargetInvalid | AskOutcomeLateReplyDropped.

Definition AskOutcomeType_string (o : AskOutcomeType) : string :=
  match o with
  | AskOutcomeSuccess => "ask_success"
  | AskOutcomeTimeout => "ask_timeout"
  | AskOutcomeCanceled => "ask_canceled"
  | AskOutcomeReplyTargetInvalid => "ask_reply_target_invalid"
  | AskOutcomeLateReplyDropped => "ask_late_reply_dropped"
  end.

Inductive RouterStrategy :=
  | RouterStrategyRoundRobin | RouterStrategyRandom | RouterStrategyConsistentKey
  | RouterStrategyOther (s : string).

Definition RouterStrategy_string (s : RouterStrategy) : string :=
  match s with
  | RouterStrategyRoundRobin => "round_robin"
  | RouterStrategyRandom => "random"
  | RouterStrategyConsistentKey => "consistent_hash"
  | RouterStrategyOther s => s
  end.

Inductive RoutingOutcomeType :=
  | RouteSuccess | RouteFailedNoWorkers | RouteFailedInvalidKey
  | RouteFailedWorkerUnavailable.

Definition RoutingOutcomeType_string (o : RoutingOutcomeType) : string :=
  match o with
  | RouteSuccess => "route_success"
  | RouteFailedNoWorkers => "route_failed_no_workers"
  | RouteFailedInvalidKey => "route_failed_invalid_key"
  | RouteFailedWorkerUnavailable => "route_failed_worker_unavailable"
  end.

Inductive BatchResult :=
  | BatchResultSuccess | BatchResultFailedHandler | BatchResultFailedSupervision.

Definition BatchResult_string (r : BatchResult) : string :=
  match r with
  | BatchResultSuccess => "batch_success"
  | BatchResultFailedHandler => "batch_failed_handler"
  | BatchResultFailedSupervision => "batch_failed_supervision"
  end.

Inductive RegistryOperationResult :=
  | RegistryRegisterSuccess | RegistryRegisterRejectedDup | RegistryLookupHit
  | RegistryLookupNotFound | RegistryUnregisterSuccess
  | RegistryUnregisterLifecycleTerm.

Definition RegistryOperationResult_string (r : RegistryOperationResult) : string :=
  match r with
  | RegistryRegisterSuccess => "register_success"
  | RegistryRegisterRejectedDup => "register_rejected_duplicate"
  | RegistryLookupHit => "lookup_hit"
  | RegistryLookupNotFound => "lookup_not_found"
  | RegistryUnregisterSuccess => "unregister_success"
  | RegistryUnregisterLifecycleTerm => "unregister_lifecycle_terminal"
  end.

Inductive BrokerOperation :=
  | BrokerOperationSubscribe | BrokerOperationUnsubscribe | BrokerOperationPublish.

Inductive BrokerOutcomeType :=
  | BrokerOutcomeSubscribeSuccess | BrokerOutcomeUnsubscribeSuccess
  | BrokerOutcomePublishSuccess | BrokerOutcomePublishPartialDelivery
  | BrokerOutcomeInvalidCommand | BrokerOutcomeInvalidPattern
  | BrokerOutcomeInvalidTopic | BrokerOutcomeTargetUnreachable
  | BrokerOutcomeNotFoundNoop.

Definition BrokerOutcomeType_string (o : BrokerOutcomeType) : string :=
  match o with
  | BrokerOutcomeSubscribeSuccess => "subscribe_success"
  | BrokerOutcomeUnsubscribeSuccess => "unsubscribe_success"
  | BrokerOutcomePublishSuccess => "publish_success"
  | BrokerOutcomePublishPartialDelivery => "publish_partial_delivery"
  | BrokerOutcomeInvalidCommand => "invalid_command"
  | BrokerOutcomeInvalidPattern => "invalid_pattern"
  | BrokerOutcomeInvalidTopic => "invalid_topic"
  | BrokerOutcomeTargetUnreachable => "target_unreachable"
  | BrokerOutcomeNotFoundNoop => "not_found_noop"
  end.

Inductive CronOperation :=
  | CronOperationSubscribe | CronOperationUnsubscribe
  | CronOperationUnsubscribeAll | CronOperationList.

Inductive CronOutcomeType :=
  | CronOutcomeSubscribeSuccess | CronOutcomeUnsubscribeSuccess
  | CronOutcomeListSuccess | CronOutcomeInvalidSchedule
  | CronOutcomeInvalidCommand | CronOutcomeNotFound.

#[export] Instance ActorStatus_eq_dec : EqDecision ActorStatus.
Proof. solve_decision. Defined.
#[export] Instance SubmitResult_eq_dec : EqDecision SubmitResult.
Proof. solve_decision. Defined.
#[export] Instance SupervisionDecision_eq_dec : EqDecision SupervisionDecision.
Proof. solve_decision. Defined.
#[export] Instance RouterStrategy_eq_dec : EqDecision RouterStrategy.
Proof. solve_decision. Defined.
#[export] Instance RoutingOutcomeType_eq_dec : EqDecision RoutingOutcomeType.
Proof. solve_decision. Defined.
#[export] Instance PIDInteractionPolicyMode_eq_dec : EqDecision PIDInteractionPolicyMode.
Proof. solve_decision. Defined.
#[export] Instance GatewayRouteMode_eq_dec : EqDecision GatewayRouteMode.
Proof. solve_decision. Defined.
#[export] Instance RegistryOperationResult_eq_dec : EqDecision RegistryOperationResult.
Proof. solve_decision. Defined.
#[export] Instance BrokerOperation_eq_dec : EqDecision BrokerOperation.
Proof. solve_decision. Defined.

(** ** Messages and payloads *)

(** [MonitorRef] is its identifier. *)
Definition MonitorRef : Type := Z.

Record DownMessage := mkDownMessage {
  down_Ref : MonitorRef;
  down_Target : PID;
  down_Reason : string
}.

Record BrokerCommandAck := mkBrokerCommandAck {
  back_Operation : BrokerOperation;
  back_Result : BrokerOutcomeType;
  back_TopicPattern : string;
  back_MatchedCount : Z;
  back_ReasonCode : string
}.

Record CronRef := mkCronRef {
  cref_ID : string;
  cref_Schedule : string;
  cref_ActorID : string
}.

Record CronCommandAck := mkCronCommandAck {
  cack_Operation : CronOperation;
  cack_Result : CronOutcomeType;
  cack_Ref : CronRef;
  cack_Refs : list CronRef;
  cack_ReasonCode : string
}.

Record ClusterMemberInfo := mkClusterMemberInfo {
  cmi_ID : string;
  cmi_Addr : string;
  cmi_Tags : gmap string string
}.

(** A value of a type declared outside the runtime: its [reflect] type name,
    the results of its [SchemaVersion] and [HashKey] methods when it has them,
    and its content. *)
Record UserValue := mkUserValue {
  uv_TypeName : string;
  uv_SchemaVersion : option string;
  uv_HashKey : option string;
  uv_Content : Z
}.

#[local] Set Warnings "-register-all".

(** [CronHandoffEntry], over the type of its payload. *)
Record CronHandoffEntry_ (P : Type) := mkCronHandoffEntry {
  che_RefID : string;
  che_ActorID : string;
  che_Schedule : string;
  che_Tag : string;
  che_Payload : P
}.
Arguments mkCronHandoffEntry {P} _ _ _ _ _.
Arguments che_RefID {P} _.
Arguments che_ActorID {P} _.
Arguments che_Schedule {P} _.
Arguments che_Tag {P} _.
Arguments che_Payload {P} _.

Inductive payload :=
  | PNil
  | PUser (v : UserValue)
  | PAskReplyEnvelope (RequestID : string) (Payload : payload) (RepliedAt : Z)
  | PDownMessage (d : DownMessage)
  | PBrokerSubscribeCommand (Subscriber : PID) (Pattern : string)
  | PBrokerUnsubscribeCommand (Subscriber : PID) (Pattern : string)
  | PBrokerPublishCommand (Topic : string) (Payload : payload) (PublisherActorID : string)
  | PBrokerRemotePublishCommand (Topic : string) (Payload : payload) (PublisherActorID : string)
  | PBrokerPublishedMessage (Topic : string) (Payload : payload)
      (PublisherActorID : string) (PublishedAt : Z)
  | PBrokerCommandAck (a : BrokerCommandAck)
  | PClusterMembershipEvent (Type_ : string) (Member : ClusterMemberInfo)
  | PCronSubscribeCommand (Subscriber : PID) (Schedule : string) (Payload : payload) (Tag : string)
  | PCronUnsubscribeCommand (Subscriber : PID) (RefID : string)
  | PCronUnsubscribeAllCommand (Subscriber : PID)
  | PCronListCommand (Subscriber : PID)
  | PCronTickMessage (Ref : CronRef) (Payload : payload) (FiredAt : Z) (Tag : string)
  | PCronCommandAck (a : CronCommandAck)
  | PCronHandoffState (Entries : list (CronHandoffEntry_ payload)).

Definition CronHandoffEntry : Type := CronHandoffEntry_ payload.

Definition is_nil (p : payload) : bool :=
  match p with PNil => true | _ => false end.

(** [AskRequestContext]. *)
Record AskRequestContext := mkAskRequestContext {
  arc_RequestID : string;
  arc_ReplyTo : PID
}.

(** [Message]. *)
Record Message := mkMessage {
  msg_ID : Z;
  msg_ActorID : string;
  msg_SenderActorID : string;
  msg_Payload : payload;
  msg_Ask : option AskRequestContext;
  msg_TypeName : string;
  msg_SchemaVersion : string;
  msg_AcceptedAt : Z;
  msg_Attempt : Z
}.

(** [Message{}]. *)
Definition zeroMessage : Message := mkMessage 0 "" "" PNil None "" "" 0 0.

(** [Message.IsAsk]. *)
Definition IsAsk (m : Message) : bool :=
  match msg_Ask m with Some _ => true | None => false end.

(** [Message.AskRequestID]. *)
Definition AskRequestID (m : Message) : string :=
  match msg_Ask m with Some a => arc_RequestID a | None => "" end.

(** [Message.AskReplyTo]; the PID of [PID{}, false] is [zeroPID]. *)
Definition AskReplyTo (m : Message) : PID * bool :=
  match msg_Ask m with Some a => (arc_ReplyTo a, true) | None => (zeroPID, false) end.

(** [SubmitAck] ([actor_ref.go]). *)
Record SubmitAck := mkSubmitAck {
  sa_Result : SubmitResult;
  sa_MessageID : Z
}.

(** [AskReplyEnvelope], as the value read from the waiting channel. *)
Record AskReplyEnvelope := mkAskReplyEnvelope {
  are_RequestID : string;
  are_Payload : payload;
  are_RepliedAt : Z
}.

Record AskResult := mkAskResult {
  ar_RequestID : string;
  ar_Payload : payload
}.

Record RegistryRegisterAck := mkRegistryRegisterAck {
  rra_Result : RegistryOperationResult;
  rra_Name : string;
  rra_PID : PID
}.

Record RegistryLookupAck := mkRegistryLookupAck {
  rla_Result : RegistryOperationResult;
  rla_Name : string;
  rla_PID : PID
}.

(** ** Outcome records *)

Record LifecycleHookOutcome := mkLifecycleHookOutcome {
  lho_ActorID : string;
  lho_Phase : LifecycleHookPhase;
  lho_Result : LifecycleHookResult;
  lho_CompletedAt : Z;
  lho_ErrorCode : string
}.

Record GuardrailOutcome := mkGuardrailOutcome {
  go_ActorID : string;
  go_PolicyMode : PIDInteractionPolicyMode;
  go_GatewayMode : GatewayRouteMode;
  go_Outcome : GuardrailOutcomeType;
  go_ReasonCode : string;
  go_At : Z
}.

Record ReadinessValidationRecord := mkReadinessValidationRecord {
  rvr_Scope : ReadinessScope;
  rvr_Result : ReadinessResult;
  rvr_CheckedAt : Z;
  rvr_EvidenceRef : string
}.

Record ProcessingOutcome := mkProcessingOutcome {
  po_MessageID : Z;
  po_ActorID : string;
  po_Result : ProcessingResult;
  po_SupervisionDecision : SupervisionDecision;
  po_SupervisionIteration : Z;
  po_CompletedAt : Z;
  po_ErrorCode : string
}.

Record AskOutcome := mkAskOutcome {
  ao_RequestID : string;
  ao_ActorID : string;
  ao_ReplyTo : PID;
  ao_Outcome : AskOutcomeType;
  ao_ReasonCode : string;
  ao_CompletedAt : Z
}.

Record RoutingOutcome := mkRoutingOutcome {
  ro_RouterID : string;
  ro_MessageID : Z;
  ro_Strategy : RouterStrategy;
  ro_SelectedWorker : string;
  ro_Outcome : RoutingOutcomeType;
  ro_ReasonCode : string;
  ro_At : Z
}.

Record BatchOutcome := mkBatchOutcome {
  bo_ActorID : string;
  bo_BatchSize : Z;
  bo_Result : BatchResult;
  bo_ReasonCode : string;
  bo_CompletedAt : Z
}.

Record BrokerOutcome := mkBrokerOutcome {
  bro_BrokerID : string;
  bro_Operation : BrokerOperation;
  bro_TopicPattern : string;
  bro_Subscriber : PID;
  bro_MatchedCount : Z;
  bro_Result : BrokerOutcomeType;
  bro_ReasonCode : string;
  bro_At : Z
}.

(** [DeadLetter]. *)
Record DeadLetter := mkDeadLetter {
  dl_TargetActorID : string;
  dl_TargetPID : PID;
  dl_Payload : payload;
  dl_Reason : string;
  dl_Timestamp : Z
}.

(** ** Events ([events.go]) *)

Inductive EventType :=
  | EventActorStarted | EventActorStopped | EventActorFailed | EventActorRestarted
  | EventActorEscalated | EventMessageRoutedExact | EventMessageRoutedFallback
  | EventMessageProcessed | EventMessageRejected | EventPIDResolved
  | EventPIDUnresolved | EventPIDRejected | EventPIDDelivered
  | EventRegistryRegister | EventRegistryLookup | EventRegistryUnregister
  | EventLifecycleHook | EventGuardrailDecision | EventReadinessValidation
  | EventAskLifecycle | EventRouterLifecycle | EventBatchLifecycle
  | EventBrokerLifecycle.

#[export] Instance EventType_eq_dec : EqDecision EventType.
Proof. solve_decision. Defined.

Record Event := mkEvent {
  ev_EventID : Z;
  ev_Type : EventType;
  ev_ActorID : string;
  ev_MessageID : Z;
  ev_PIDNamespace : string;
  ev_PIDActorID : string;
  ev_PIDGeneration : Z;
  ev_TypeName : string;
  ev_SchemaVersion : string;
  ev_SupervisionDecision : string;
  ev_RestartCount : Z;
  ev_RegistryName : string;
  ev_LifecyclePhase : string;
  ev_GatewayMode : string;
  ev_ReadinessScope : string;
  ev_RequestID : string;
  ev_ReplyToNamespace : string;
  ev_ReplyToActorID : string;
  ev_ReplyToGeneration : Z;
  ev_RouterStrategy : string;
  ev_SelectedWorker : string;
  ev_BatchSize : Z;
  ev_Timestamp : Z;
  ev_Result : string;
  ev_ErrorCode : string
}.
