(* ===== verification/Mailbox.v ===== *)
(** * The actor mailbox ([src/src/actor/mailbox.go])

    The mailbox keeps its messages in a slice of which the first [head] slots
    are already consumed (and overwritten by [Message{}]); the slice is
    compacted when it is drained and when more than 64 consumed slots make up
    half of it.  [notify] is the one-slot channel that wakes the actor
    goroutine: [true] when it holds a token.

    The file defines every operation, an abstract bounded queue that says what
    a mailbox promises, the abstraction function between the two, and a
    refinement lemma per operation.  The last section interleaves producers
    with the consumer loop of [runActor] and shows that no wake-up is lost. *)

From S2P Require Import Prelude Types.

(** ** State and operations *)

Record Mailbox := mkMailbox {
  mb_queue : list Message;
  mb_head : nat;
  mb_max : Z;
  mb_notify : bool;
  mb_closed : bool
}.

(** [len(m.queue) - m.head]. *)
Definition Depth (m : Mailbox) : Z :=
  Z.of_nat (length (mb_queue m)) - Z.of_nat (mb_head m).

Definition NewMailbox (capacity : Z) : Mailbox :=
  let capacity := if capacity <=? 0 then 16 else capacity in
  mkMailbox [] 0 capacity false false.

Definition Enqueue (msg : Message) (m : Mailbox) : Mailbox * SubmitResult :=
  if mb_closed m then (m, SubmitRejectedStop)
  else if mb_max m <=? Depth m then (m, SubmitRejectedFull)
  else
    let wasEmpty := Depth m =? 0 in
    (mkMailbox (mb_queue m ++ [msg]) (mb_head m) (mb_max m)
       (if wasEmpty then true else mb_notify m) (mb_closed m),
     SubmitAccepted).

(** The compaction that ends [Dequeue] and [DequeueBatch]. *)
Definition compact (q : list Message) (head : nat) : list Message * nat :=
  if (length q <=? head)%nat then ([], 0%nat)
  else if (64 <? head)%nat && (length q <=? head * 2)%nat then
    let remaining := (length q - head)%nat in
    (* copy(m.queue[:remaining], m.queue[m.head:]) *)
    let q' := take remaining (drop head q) ++ drop remaining q in
    (take remaining q', 0%nat)
  else (q, head).

(** The final notification, when messages remain. *)
Definition renotify (q : list Message) (head : nat) (notify : bool) : bool :=
  if (head <? length q)%nat then true else notify.

(** The slice access of the last branch is in range by [mailbox_ok]. *)
Definition Dequeue (m : Mailbox) : Mailbox * option Message :=
  if Depth m =? 0 then (m, None)
  else match mb_queue m !! mb_head m with
  | None => (m, None)
  | Some msg =>
      let q := <[mb_head m := zeroMessage]> (mb_queue m) in
      let '(q, head) := compact q (S (mb_head m)) in
      (mkMailbox q head (mb_max m) (renotify q head (mb_notify m)) (mb_closed m),
       Some msg)
  end.

(** [for i := 0; i < limit; i++ { m.queue[m.head+i] = Message{} }]. *)
Fixpoint clear_slots (head limit : nat) (q : list Message) : list Message :=
  match limit with
  | O => q
  | S limit' => clear_slots (S head) limit' (<[head := zeroMessage]> q)
  end.

Definition DequeueBatch (limit : Z) (m : Mailbox) : Mailbox * list Message :=
  let limit := if limit <=? 0 then 1 else limit in
  let available := Depth m in
  if available <=? 0 then (m, [])
  else
    let limit := Z.to_nat (if available <? limit then available else limit) in
    let out := take limit (drop (mb_head m) (mb_queue m)) in
    let q := clear_slots (mb_head m) limit (mb_queue m) in
    let '(q, head) := compact q (mb_head m + limit) in
    (mkMailbox q head (mb_max m) (renotify q head (mb_notify m)) (mb_closed m), out).

Definition Close (m : Mailbox) : Mailbox :=
  mkMailbox (mb_queue m) (mb_head m) (mb_max m) (mb_notify m) true.

(** The consumer's [<-inst.mailbox.Notify()]: take the token, if any. *)
Definition take_token (m : Mailbox) : option Mailbox :=
  if mb_notify m
  then Some (mkMailbox (mb_queue m) (mb_head m) (mb_max m) false (mb_closed m))
  else None.

(** ** The abstract queue *)

Module Spec.
Record queue := mkQueue {
  items : list Message;
  capacity : Z;
  stopped : bool
}.

Definition new (capacity : Z) : queue :=
  mkQueue [] (if capacity <=? 0 then 16 else capacity) false.

Definition push (msg : Message) (q : queue) : queue * SubmitResult :=
  if stopped q then (q, SubmitRejectedStop)
  else if capacity q <=? Z.of_nat (length (items q)) then (q, SubmitRejectedFull)
  else (mkQueue (items q ++ [msg]) (capacity q) (stopped q), SubmitAccepted).

Definition pop (q : queue) : queue * option Message :=
  match items q with
  | [] => (q, None)
  | msg :: rest => (mkQueue rest (capacity q) (stopped q), Some msg)
  end.

Definition pop_many (limit : Z) (q : queue) : queue * list Message :=
  let n := Z.to_nat (if limit <=? 0 then 1 else limit) in
  (mkQueue (drop n (items q)) (capacity q) (stopped q), take n (items q)).

Definition stop (q : queue) : queue := mkQueue (items q) (capacity q) true.
End Spec.

(** ** Invariant and abstraction function *)

(** The consumed prefix of the slice is cleared, the head is inside the slice,
    a drained slice is reset, and the depth never exceeds the capacity. *)
Record mailbox_ok (m : Mailbox) : Prop := {
  ok_head : (mb_head m <= length (mb_queue m))%nat;
  ok_reset : mb_queue m <> [] -> (mb_head m < length (mb_queue m))%nat;
  ok_cleared : Forall (eq zeroMessage) (take (mb_head m) (mb_queue m));
  ok_bounded : 0 < mb_max m /\ Depth m <= mb_max m
}.

Definition abs (m : Mailbox) : Spec.queue :=
  Spec.mkQueue (drop (mb_head m) (mb_queue m)) (mb_max m) (mb_closed m).

(** ** Lemmas *)

Lemma abs_length m :
  mailbox_ok m -> Z.of_nat (length (Spec.items (abs m))) = Depth m.
Proof. intros [? _ _ _]. cbn. rewrite length_drop. unfold Depth. lia. Qed.

Lemma depth_nonneg m : mailbox_ok m -> 0 <= Depth m.
Proof. intros [? _ _ _]. unfold Depth. lia. Qed.

Lemma clear_slots_length head limit q :
  length (clear_slots head limit q) = length q.
Proof.
  revert head q. induction limit as [|n IH]; intros head q; cbn; [done|].
  by rewrite IH, length_insert.
Qed.

Lemma clear_slots_drop head limit n q :
  (head + limit <= n)%nat -> drop n (clear_slots head limit q) = drop n q.
Proof.
  revert head q. induction limit as [|k IH]; intros head q Hn; cbn; [done|].
  rewrite IH by lia. by apply drop_insert_lt; lia.
Qed.

Lemma clear_slots_take head limit q :
  (head + limit <= length q)%nat ->
  Forall (eq zeroMessage) (take head q) ->
  Forall (eq zeroMessage) (take (head + limit) (clear_slots head limit q)).
Proof.
  revert head q. induction limit as [|k IH]; intros head q Hl Hq; cbn.
  { by rewrite Nat.add_0_r. }
  replace (head + S k)%nat with (S head + k)%nat by lia.
  apply IH; [rewrite length_insert; lia|].
  rewrite (take_S_r _ _ zeroMessage) by (apply list_lookup_insert_eq; lia).
  apply Forall_app; split; [|by repeat constructor].
  by rewrite take_insert_ge by lia.
Qed.

(** Compaction keeps the live messages and the cleared prefix. *)
Lemma compact_spec q head q' head' :
  (head <= length q)%nat ->
  Forall (eq zeroMessage) (take head q) ->
  compact q head = (q', head') ->
  drop head' q' = drop head q /\ (head' <= length q')%nat /\
  (q' <> [] -> (head' < length q')%nat) /\ Forall (eq zeroMessage) (take head' q').
Proof.
  intros Hh Hz. unfold compact.
  destruct (Nat.leb_spec (length q) head).
  { intros [= <- <-]. rewrite (drop_ge q head) by lia. by repeat split. }
  destruct (_ && _).
  - intros [= <- <-].
    rewrite take_app_le by (rewrite length_take, length_drop; lia).
    rewrite take_take, Nat.min_id, (take_ge (drop head q)) by (rewrite length_drop; lia).
    rewrite take_0, length_drop. repeat split; [lia|lia|constructor].
  - intros [= <- <-]. by repeat split.
Qed.

Lemma renotify_true q head b : (head < length q)%nat -> renotify q head b = true.
Proof. intros H. unfold renotify. by apply Nat.ltb_lt in H as ->. Qed.

(** ** Every operation preserves the invariant and implements the queue *)

Lemma NewMailbox_ok cap : mailbox_ok (NewMailbox cap).
Proof.
  unfold NewMailbox. split; cbn; try done.
  unfold Depth; cbn. destruct (Z.leb_spec cap 0); lia.
Qed.

Lemma NewMailbox_abs cap : abs (NewMailbox cap) = Spec.new cap.
Proof. reflexivity. Qed.

Lemma Enqueue_ok msg m : mailbox_ok m -> mailbox_ok (Enqueue msg m).1.
Proof.
  intros Hok. pose proof (depth_nonneg _ Hok) as Hd. unfold Enqueue.
  destruct (mb_closed m); [done|].
  destruct (Z.leb_spec (mb_max m) (Depth m)); [done|]. cbn.
  destruct Hok as [Hh Hr Hc Hb]. split; cbn.
  - rewrite length_app. cbn. lia.
  - intros _. rewrite length_app. cbn. lia.
  - by rewrite take_app_le by done.
  - unfold Depth in *; cbn. rewrite length_app. cbn. lia.
Qed.

Lemma Enqueue_refines msg m :
  mailbox_ok m ->
  Spec.push msg (abs m) = (abs (Enqueue msg m).1, (Enqueue msg m).2).
Proof.
  intros Hok. unfold Enqueue, Spec.push. rewrite (abs_length _ Hok).
  cbn [abs Spec.stopped Spec.capacity]. destruct (mb_closed m) eqn:Hc; [done|].
  destruct (mb_max m <=? Depth m); [done|]. unfold abs; cbn; rewrite ?Hc.
  by rewrite drop_app_le by apply Hok.
Qed.

Lemma Dequeue_eq m :
  mailbox_ok m ->
  Dequeue m =
    match drop (mb_head m) (mb_queue m) with
    | [] => (m, None)
    | msg :: _ =>
        let '(q, h) := compact (<[mb_head m := zeroMessage]> (mb_queue m)) (S (mb_head m)) in
        (mkMailbox q h (mb_max m) (renotify q h (mb_notify m)) (mb_closed m), Some msg)
    end.
Proof.
  intros Hok. unfold Dequeue, Depth. destruct Hok as [Hh _ _ _].
  destruct (mb_queue m !! mb_head m) as [msg|] eqn:E.
  - rewrite (drop_S _ _ _ E). apply lookup_lt_Some in E.
    by rewrite (proj2 (Z.eqb_neq _ _)) by lia.
  - apply lookup_ge_None in E. rewrite drop_ge by done.
    by destruct (_ =? _).
Qed.

Lemma Dequeue_spec m :
  mailbox_ok m ->
  mailbox_ok (Dequeue m).1 /\ Spec.pop (abs m) = (abs (Dequeue m).1, (Dequeue m).2).
Proof.
  intros Hok. rewrite Dequeue_eq by done. unfold Spec.pop; cbn [abs Spec.items].
  destruct (drop (mb_head m) (mb_queue m)) as [|msg rest] eqn:E;
    [split; [done|]; unfold abs; cbn; by rewrite ?E|].
  assert (mb_queue m !! mb_head m = Some msg) as Hl.
  { rewrite <- (Nat.add_0_r (mb_head m)), <- lookup_drop, E. done. }
  assert (drop (S (mb_head m)) (mb_queue m) = rest) as Hrest.
  { rewrite (drop_S _ _ _ Hl) in E. by injection E. }
  destruct (compact _ _) as [q h] eqn:Hcomp. destruct Hok as [Hh Hr Hc Hb].
  pose proof (lookup_lt_Some _ _ _ Hl) as Hlt.
  apply compact_spec in Hcomp as (Hd & Hh' & Hr' & Hz').
  - rewrite drop_insert_lt, Hrest in Hd by lia. split.
    + split; [done|done|done|]. cbn. unfold Depth in *; cbn.
      apply (f_equal length) in Hd, Hrest. rewrite length_drop in Hd, Hrest. lia.
    + unfold abs; cbn. by rewrite Hd.
  - rewrite length_insert. lia.
  - apply (clear_slots_take (mb_head m) 1) in Hc; [|lia].
    by rewrite Nat.add_1_r in Hc.
Qed.

(** The number of messages a batch takes. *)
Definition batch_size (limit : Z) : nat := Z.to_nat (if limit <=? 0 then 1 else limit).

Lemma DequeueBatch_spec limit m :
  mailbox_ok m ->
  mailbox_ok (DequeueBatch limit m).1 /\
  Spec.pop_many limit (abs m) = (abs (DequeueBatch limit m).1, (DequeueBatch limit m).2).
Proof.
  intros Hok. pose proof (abs_length _ Hok) as Hlen.
  unfold DequeueBatch, Spec.pop_many; fold (batch_size limit).
  destruct (Z.leb_spec (Depth m) 0) as [Hz|Hpos].
  { cbn in *. destruct (drop (mb_head m) (mb_queue m)) as [|x l] eqn:E; cbn in Hlen; [|lia].
    rewrite drop_nil, take_nil. unfold abs. by rewrite E. }
  set (lim := if limit <=? 0 then 1 else limit) in *.
  assert (0 < lim) by (unfold lim; destruct (Z.leb_spec limit 0); lia).
  set (n := Z.to_nat (if Depth m <? lim then Depth m else lim)).
  assert (n <= Z.to_nat (Depth m) /\ take n (Spec.items (abs m)) = take (batch_size limit) (Spec.items (abs m))
          /\ drop n (Spec.items (abs m)) = drop (batch_size limit) (Spec.items (abs m)))%nat
    as (Hn & Ht & Hdr).
  { unfold n, batch_size; fold lim. destruct (Z.ltb_spec (Depth m) lim); [|by split; [lia|]].
    rewrite !take_ge, !drop_ge by lia. by split; [lia|]. }
  destruct (compact _ _) as [q h] eqn:Hcomp. destruct Hok as [Hh Hr Hc Hb]. cbn in Ht, Hdr.
  assert (mb_head m + n <= length (mb_queue m))%nat by (unfold Depth in *; lia).
  apply compact_spec in Hcomp as (Hd & Hh' & Hr' & Hz').
  - rewrite clear_slots_drop, <- drop_drop, Hdr in Hd by lia. split.
    + split; [done|done|done|]. cbn. unfold Depth in *; cbn.
      apply (f_equal length) in Hd. rewrite !length_drop in Hd. lia.
    + unfold abs; cbn. by rewrite Hd, Ht.
  - by rewrite clear_slots_length.
  - by apply clear_slots_take.
Qed.

Lemma Close_ok m : mailbox_ok m -> mailbox_ok (Close m).
Proof. intros [????]. by split. Qed.

(** ** Refinement of the abstract queue by any sequence of operations *)

Inductive mailbox_op :=
  | OpEnqueue (msg : Message)
  | OpDequeue
  | OpDequeueBatch (limit : Z)
  | OpDepth
  | OpClose.

Inductive mailbox_result :=
  | ResSubmit (r : SubmitResult)
  | ResMessage (m : option Message)
  | ResBatch (ms : list Message)
  | ResDepth (d : Z)
  | ResUnit.

Definition run_op (o : mailbox_op) (m : Mailbox) : Mailbox * mailbox_result :=
  match o with
  | OpEnqueue msg => let '(m, r) := Enqueue msg m in (m, ResSubmit r)
  | OpDequeue => let '(m, r) := Dequeue m in (m, ResMessage r)
  | OpDequeueBatch limit => let '(m, r) := DequeueBatch limit m in (m, ResBatch r)
  | OpDepth => (m, ResDepth (Depth m))
  | OpClose => (Close m, ResUnit)
  end.

Definition spec_op (o : mailbox_op) (q : Spec.queue) : Spec.queue * mailbox_result :=
  match o with
  | OpEnqueue msg => let '(q, r) := Spec.push msg q in (q, ResSubmit r)
  | OpDequeue => let '(q, r) := Spec.pop q in (q, ResMessage r)
  | OpDequeueBatch limit => let '(q, r) := Spec.pop_many limit q in (q, ResBatch r)
  | OpDepth => (q, ResDepth (Z.of_nat (length (Spec.items q))))
  | OpClose => (Spec.stop q, ResUnit)
  end.

(** Run a sequence of operations and collect their results. *)
Fixpoint run_ops {S} (f : mailbox_op -> S -> S * mailbox_result)
    (os : list mailbox_op) (s : S) : S * list mailbox_result :=
  match os with
  | [] => (s, [])
  | o :: os =>
      let '(s, r) := f o s in
      let '(s, rs) := run_ops f os s in (s, r :: rs)
  end.

Lemma run_op_spec o m :
  mailbox_ok m ->
  mailbox_ok (run_op o m).1 /\ spec_op o (abs m) = (abs (run_op o m).1, (run_op o m).2).
Proof.
  intros Hok. destruct o as [msg| |limit| |]; cbn [run_op spec_op].
  - rewrite Enqueue_refines by done. pose proof (Enqueue_ok msg _ Hok).
    by destruct (Enqueue msg m).
  - destruct (Dequeue_spec _ Hok) as [? ->]. by destruct (Dequeue m).
  - destruct (DequeueBatch_spec limit _ Hok) as [? ->]. by destruct (DequeueBatch limit m).
  - rewrite abs_length by done. done.
  - split; [by apply Close_ok|done].
Qed.

Lemma run_ops_spec os m :
  mailbox_ok m ->
  mailbox_ok (run_ops run_op os m).1 /\
  run_ops spec_op os (abs m) = (abs (run_ops run_op os m).1, (run_ops run_op os m).2).
Proof.
  revert m. induction os as [|o os IH]; intros m Hok; cbn; [done|].
  destruct (run_op_spec o _ Hok) as [Hok' ->].
  destruct (run_op o m) as [m' r]; cbn in *.
  destruct (IH _ Hok') as [Hok'' ->]. by destruct (run_ops run_op os m') as [m'' rs].
Qed.

(** C15: whatever the capacity and whatever sequence of enqueues, dequeues,
    batch dequeues, depth queries and closes is run on a new mailbox, the
    results are those of a bounded FIFO queue: messages come out in the order
    they were accepted, none is lost or duplicated by the slice compaction, a
    full mailbox rejects, a closed one rejects but can still be drained. *)
Theorem mailbox_refines_queue (cap : Z) (os : list mailbox_op) :
  (run_ops run_op os (NewMailbox cap)).2 = (run_ops spec_op os (Spec.new cap)).2 /\
  abs (run_ops run_op os (NewMailbox cap)).1 = (run_ops spec_op os (Spec.new cap)).1 /\
  mailbox_ok (run_ops run_op os (NewMailbox cap)).1.
Proof.
  destruct (run_ops_spec os _ (NewMailbox_ok cap)) as [Hok Hrun].
  rewrite NewMailbox_abs in Hrun. by rewrite Hrun.
Qed.

(** ** A batch is a run of single dequeues *)

(** Dequeue up to [n] times, stopping at the first empty answer. *)
Fixpoint dequeue_n (n : nat) (m : Mailbox) : Mailbox * list Message :=
  match n with
  | O => (m, [])
  | S n =>
      match Dequeue m with
      | (m, None) => (m, [])
      | (m, Some msg) => let '(m, out) := dequeue_n n m in (m, msg :: out)
      end
  end.

Lemma dequeue_n_spec n m :
  mailbox_ok m ->
  mailbox_ok (dequeue_n n m).1 /\
  (dequeue_n n m).2 = take n (Spec.items (abs m)) /\
  abs (dequeue_n n m).1 =
    Spec.mkQueue (drop n (Spec.items (abs m))) (mb_max m) (mb_closed m).
Proof.
  revert m. induction n as [|n IH]; intros m Hok; cbn; [done|].
  destruct (Dequeue_spec _ Hok) as [Hok' Hpop]. unfold Spec.pop in Hpop.
  destruct (Dequeue m) as [m' [msg|]] eqn:Hm; cbn [fst snd] in *;
    destruct (Spec.items (abs m)) as [|x rest] eqn:Hit; try discriminate Hpop.
  - injection Hpop as Hi Hmax Hcl <-. destruct (IH _ Hok') as (? & Hout & Habs).
    cbn in *. rewrite <- Hi in Hout, Habs. rewrite Hit.
    destruct (dequeue_n n m') as [m'' out]; cbn in *.
    split; [done|split; [by rewrite Hout|]]. by rewrite Habs, Hmax, Hcl.
  - cbn in *. injection Hpop as Hi Hmax Hcl. rewrite Hit. split; [done|split; [done|]].
    unfold abs. by rewrite <- Hi, Hit, Hmax, Hcl.
Qed.

(** One [DequeueBatch] hands out exactly the messages that the same number
    of [Dequeue] calls would, in the same order, and leaves the same queue: the
    optimised batch path is equivalent to the one-message path. *)
Theorem DequeueBatch_is_repeated_Dequeue (limit : Z) (m : Mailbox) :
  mailbox_ok m ->
  (DequeueBatch limit m).2 = (dequeue_n (batch_size limit) m).2 /\
  abs (DequeueBatch limit m).1 = abs (dequeue_n (batch_size limit) m).1.
Proof.
  intros Hok. destruct (DequeueBatch_spec limit _ Hok) as [_ Hb].
  destruct (dequeue_n_spec (batch_size limit) _ Hok) as (_ & Hout & Habs).
  unfold Spec.pop_many in Hb; fold (batch_size limit) in Hb. simplify_eq.
  rewrite Hout, Habs. done.
Qed.

Definition example_message (n : Z) : Message :=
  mkMessage n "a" "" (PUser (mkUserValue "main.Job" None None n)) None "main.Job" "v1" 0 1.

Definition example_mailbox : Mailbox :=
  (run_ops run_op (OpEnqueue <$> (example_message <$> [1; 2; 3])) (NewMailbox 4)).1.

Lemma DequeueBatch_is_repeated_Dequeue_witness :
  mailbox_ok example_mailbox /\
  (DequeueBatch 2 example_mailbox).2 = [example_message 1; example_message 2].
Proof.
  assert (mailbox_ok example_mailbox) as Hok.
  { apply (run_ops_spec _ _ (NewMailbox_ok 4)). }
  split; [exact Hok|].
  rewrite (proj1 (DequeueBatch_is_repeated_Dequeue 2 _ Hok)). vm_compute. reflexivity.
Defined.

(** ** Producers against the consumer loop: no lost wake-up

    [runActor] waits on the notification channel and then drains the mailbox
    until a dequeue finds it empty.  Every operation holds the mailbox's mutex,
    so a run is an interleaving of whole operations. *)

Inductive consumer := Waiting | Draining.

Inductive step : Mailbox * consumer -> Mailbox * consumer -> Prop :=
  | step_enqueue msg m c : step (m, c) ((Enqueue msg m).1, c)
  | step_close m c : step (m, c) (Close m, c)
  | step_wake m m' : take_token m = Some m' -> step (m, Waiting) (m', Draining)
  | step_dequeue m m' msg :
      Dequeue m = (m', Some msg) -> step (m, Draining) (m', Draining)
  | step_dequeue_batch m m' limit msgs :
      DequeueBatch limit m = (m', msgs) -> msgs <> [] -> step (m, Draining) (m', Draining)
  | step_drained m m' : Dequeue m = (m', None) -> step (m, Draining) (m', Waiting)
  | step_drained_batch m m' limit :
      DequeueBatch limit m = (m', []) -> step (m, Draining) (m', Waiting).

(** A waiting consumer with messages behind it has a token to wake it. *)
Definition wakeable (s : Mailbox * consumer) : Prop :=
  mailbox_ok s.1 /\ (s.2 = Waiting -> 0 < Depth s.1 -> mb_notify s.1 = true).

Lemma Dequeue_None_empty m m' :
  mailbox_ok m -> Dequeue m = (m', None) -> m' = m /\ Depth m = 0.
Proof.
  intros Hok Hm. pose proof (abs_length _ Hok) as Hlen. cbn in Hlen.
  rewrite Dequeue_eq in Hm by done.
  destruct (drop _ _); [|by destruct (compact _ _)]. simplify_eq. cbn in Hlen. done.
Qed.

Lemma DequeueBatch_nil_empty limit m m' :
  mailbox_ok m -> DequeueBatch limit m = (m', []) -> m' = m /\ Depth m = 0.
Proof.
  intros Hok Hm. pose proof (depth_nonneg _ Hok) as Hd. pose proof (abs_length _ Hok) as Hlen.
  destruct (DequeueBatch_spec limit _ Hok) as [_ Hb]. rewrite Hm in Hb.
  apply (f_equal snd) in Hb. cbn in Hb, Hlen.
  assert (drop (mb_head m) (mb_queue m) = []) as Hnil.
  { destruct (drop _ _); [done|]. exfalso.
    destruct (Z.to_nat _) eqn:E; [|done]. destruct (Z.leb_spec limit 0); lia. }
  rewrite Hnil in Hlen. cbn in Hlen. split; [|done].
  unfold DequeueBatch in Hm. rewrite (proj2 (Z.leb_le _ _)) in Hm by lia. by simplify_eq.
Qed.

Lemma step_wakeable s s' : step s s' -> wakeable s -> wakeable s'.
Proof.
  intros Hstep [Hok Hw]. unfold wakeable in *.
  destruct Hstep as [msg m c|m c|m m' Ht|m m' msg Hd|m m' lim msgs Hd _|m m' Hd|m m' lim Hd];
    cbn [fst snd] in *.
  - split; [by apply Enqueue_ok|]. intros Hc Hpos. specialize (Hw Hc).
    pose proof (depth_nonneg _ Hok). unfold Enqueue in *.
    destruct (mb_closed m), (mb_max m <=? Depth m); cbn in *; auto.
    destruct (Z.eqb_spec (Depth m) 0); [done|]. apply Hw. lia.
  - split; [by apply Close_ok|]. exact Hw.
  - unfold take_token in Ht. destruct (mb_notify m); [|done]. simplify_eq.
    split; [|done]. by destruct Hok; split.
  - destruct (Dequeue_spec _ Hok) as [Hok' _]. by rewrite Hd in Hok'.
  - destruct (DequeueBatch_spec lim _ Hok) as [Hok' _]. by rewrite Hd in Hok'.
  - apply Dequeue_None_empty in Hd as [-> Hz]; [|done]. split; [done|]. lia.
  - apply DequeueBatch_nil_empty in Hd as [-> Hz]; [|done]. split; [done|]. lia.
Qed.

(** No wake-up is lost.  In every state reachable from a new mailbox by any
    interleaving of producers, closes and the actor's drain loop (one message
    or one batch at a time), if messages are queued then the actor goroutine is
    draining or the notification channel holds the token that wakes it. *)
Theorem no_lost_wakeup (cap : Z) (m : Mailbox) (c : consumer) :
  rtc step (NewMailbox cap, Waiting) (m, c) ->
  0 < Depth m ->
  c = Draining \/ is_Some (take_token m).
Proof.
  intros Hrun Hpos.
  apply (rtc_invariant _ _ _ _ step_wakeable) in Hrun as [_ Hw].
  - cbn in Hw. destruct c; [right|by left]. unfold take_token. rewrite Hw by done. done.
  - split; [apply NewMailbox_ok|]. intros _ Hd. exfalso. revert Hd. unfold Depth. cbn. lia.
Qed.

Lemma no_lost_wakeup_witness :
  rtc step (NewMailbox 2, Waiting) ((Enqueue (example_message 7) (NewMailbox 2)).1, Waiting) /\
  is_Some (take_token (Enqueue (example_message 7) (NewMailbox 2)).1).
Proof.
  assert (rtc step (NewMailbox 2, Waiting)
            ((Enqueue (example_message 7) (NewMailbox 2)).1, Waiting)) as Hrun.
  { apply rtc_once. constructor. }
  split; [exact Hrun|].
  destruct (no_lost_wakeup 2 _ _ Hrun) as [Hc|Ht]; [reflexivity|discriminate Hc|exact Ht].
Defined.
