(* ===== verification/Resolver.v ===== *)
(** * PID resolution ([src/src/actor/pid_resolver.go],
      [src/src/actor/cluster/remote_resolver.go])

    The [PIDResolver] interface is a type class of operations with a class of
    laws; the in-memory resolver of the runtime and the cluster's resolver that
    wraps another one are its two instances.  The generation discipline (what
    makes a PID stale) is proved against the laws, so it holds for both. *)

From S2P Require Import Prelude Types.

Record PIDResolverEntry := mkPIDResolverEntry {
  pre_PID : PID;
  pre_RouteState : PIDRouteState;
  pre_CurrentGeneration : Z;
  pre_UpdatedAt : Z
}.

(** ** The interface *)

Class PIDResolver (R : Type) := {
  Register : Z -> PID -> R -> R;
  Resolve : Z -> PID -> R -> option PIDResolverEntry;
  SetState : Z -> PID -> PIDRouteState -> R -> R;
  BumpGeneration : Z -> PID -> R -> R * option PID;
  Remove : PID -> R -> R;
  SetGatewayMode : GatewayRouteMode -> R -> R;
  GatewayMode : R -> GatewayRouteMode;
  SetGatewayAvailability : bool -> R -> R;
  GatewayAvailable : R -> bool
}.

(** ** The in-memory resolver *)

Record InMemoryPIDResolver := mkInMemoryPIDResolver {
  imr_byKey : gmap string PIDResolverEntry;
  imr_mode : GatewayRouteMode;
  imr_gwUp : bool
}.

Definition NewInMemoryPIDResolver : InMemoryPIDResolver :=
  mkInMemoryPIDResolver ∅ GatewayRouteLocalDirect true.

Definition imr_set_byKey (m : gmap string PIDResolverEntry) (r : InMemoryPIDResolver)
    : InMemoryPIDResolver :=
  mkInMemoryPIDResolver m (imr_mode r) (imr_gwUp r).

Definition InMemory_Register (now : Z) (pid : PID) (r : InMemoryPIDResolver)
    : InMemoryPIDResolver :=
  imr_set_byKey
    (<[Key pid := mkPIDResolverEntry pid PIDRouteReachable (Generation pid) now]> (imr_byKey r)) r.

Definition InMemory_Resolve (pid : PID) (r : InMemoryPIDResolver) : option PIDResolverEntry :=
  imr_byKey r !! Key pid.

Definition InMemory_Remove (pid : PID) (r : InMemoryPIDResolver) : InMemoryPIDResolver :=
  imr_set_byKey (delete (Key pid) (imr_byKey r)) r.

Definition InMemory_SetState (now : Z) (pid : PID) (state : PIDRouteState)
    (r : InMemoryPIDResolver) : InMemoryPIDResolver :=
  let '(epid, egen) :=
    match imr_byKey r !! Key pid with
    | Some entry => (pre_PID entry, pre_CurrentGeneration entry)
    | None => (pid, Generation pid)
    end in
  imr_set_byKey (<[Key pid := mkPIDResolverEntry epid state egen now]> (imr_byKey r)) r.

Definition InMemory_BumpGeneration (now : Z) (pid : PID) (r : InMemoryPIDResolver)
    : InMemoryPIDResolver * option PID :=
  match imr_byKey r !! Key pid with
  | None => (r, None)
  | Some entry =>
      let gen := u64_succ (pre_CurrentGeneration entry) in
      let p := mkPID (Namespace (pre_PID entry)) (ActorID (pre_PID entry)) gen in
      (imr_set_byKey (<[Key pid := mkPIDResolverEntry p PIDRouteReachable gen now]> (imr_byKey r)) r,
       Some p)
  end.

Definition InMemory_SetGatewayMode (mode : GatewayRouteMode) (r : InMemoryPIDResolver) :=
  mkInMemoryPIDResolver (imr_byKey r) mode (imr_gwUp r).

Definition InMemory_SetGatewayAvailability (up : bool) (r : InMemoryPIDResolver) :=
  mkInMemoryPIDResolver (imr_byKey r) (imr_mode r) up.

#[export] Instance InMemory_PIDResolver : PIDResolver InMemoryPIDResolver := {
  Register := InMemory_Register;
  Resolve _ := InMemory_Resolve;
  SetState := InMemory_SetState;
  BumpGeneration := InMemory_BumpGeneration;
  Remove := InMemory_Remove;
  SetGatewayMode := InMemory_SetGatewayMode;
  GatewayMode := imr_mode;
  SetGatewayAvailability := InMemory_SetGatewayAvailability;
  GatewayAvailable := imr_gwUp
}.

(** ** The cluster's resolver, over any local resolver *)

(** [isAskReplyLocal]. *)
Definition isAskReplyLocal (ns localNodeID : string) : bool :=
  if bool_decide (ns = "__ask_reply"%string) then true
  else if negb (bool_decide (localNodeID = ""%string))
          && bool_decide (ns = "__ask_reply@" +:+ localNodeID)
  then true
  else false.

Record RemotePIDResolver (R : Type) := mkRemotePIDResolver {
  rpr_local : R;
  rpr_localNodeID : string;
  rpr_remoteNodes : gset string
}.
Arguments mkRemotePIDResolver {R} _ _ _.
Arguments rpr_local {R} _.
Arguments rpr_localNodeID {R} _.
Arguments rpr_remoteNodes {R} _.

Definition NewRemotePIDResolver {R} (local : R) (localNodeID : string) : RemotePIDResolver R :=
  mkRemotePIDResolver local localNodeID ∅.

Definition AddRemoteNode {R} (id : string) (r : RemotePIDResolver R) : RemotePIDResolver R :=
  mkRemotePIDResolver (rpr_local r) (rpr_localNodeID r) ({[id]} ∪ rpr_remoteNodes r).

Definition RemoveRemoteNode {R} (id : string) (r : RemotePIDResolver R) : RemotePIDResolver R :=
  mkRemotePIDResolver (rpr_local r) (rpr_localNodeID r) (rpr_remoteNodes r ∖ {[id]}).

Definition IsRemoteNode {R} (id : string) (r : RemotePIDResolver R) : bool :=
  bool_decide (id ∈ rpr_remoteNodes r).

Definition rpr_set_local {R} (l : R) (r : RemotePIDResolver R) : RemotePIDResolver R :=
  mkRemotePIDResolver l (rpr_localNodeID r) (rpr_remoteNodes r).

Definition Remote_Resolve {R} `{PIDResolver R} (now : Z) (pid : PID) (r : RemotePIDResolver R)
    : option PIDResolverEntry :=
  if bool_decide (Namespace pid = rpr_localNodeID r) || bool_decide (Namespace pid = ""%string)
  then Resolve now pid (rpr_local r)
  else if isAskReplyLocal (Namespace pid) (rpr_localNodeID r)
  then Resolve now pid (rpr_local r)
  else if IsRemoteNode (Namespace pid) r
  then Some (mkPIDResolverEntry pid PIDRouteReachable (Generation pid) now)
  else None.

Definition Remote_BumpGeneration {R} `{PIDResolver R} (now : Z) (pid : PID)
    (r : RemotePIDResolver R) : RemotePIDResolver R * option PID :=
  let '(l, p) := BumpGeneration now pid (rpr_local r) in (rpr_set_local l r, p).

#[export] Instance Remote_PIDResolver {R} `{PIDResolver R} : PIDResolver (RemotePIDResolver R) := {
  Register now pid r := rpr_set_local (Register now pid (rpr_local r)) r;
  Resolve := Remote_Resolve;
  SetState now pid s r := rpr_set_local (SetState now pid s (rpr_local r)) r;
  BumpGeneration := Remote_BumpGeneration;
  Remove pid r := rpr_set_local (Remove pid (rpr_local r)) r;
  SetGatewayMode mode r := rpr_set_local (SetGatewayMode mode (rpr_local r)) r;
  GatewayMode r := GatewayMode (rpr_local r);
  SetGatewayAvailability up r := rpr_set_local (SetGatewayAvailability up (rpr_local r)) r;
  GatewayAvailable r := GatewayAvailable (rpr_local r)
}.

(** ** Laws *)

(** [owned r pid]: the resolver itself keeps the entry of [pid] (for the
    cluster's resolver: the PID is local). *)
Class PIDResolverLaws (R : Type) `{PIDResolver R} := {
  owned : R -> PID -> Prop;
  gen_of (r : R) (pid : PID) : option Z := pre_CurrentGeneration <$> Resolve 0 pid r;

  owned_SetState now p s r pid : owned (SetState now p s r) pid <-> owned r pid;
  owned_Bump now p r pid : owned (BumpGeneration now p r).1 pid <-> owned r pid;
  owned_Register now p r pid : owned (Register now p r) pid <-> owned r pid;

  Register_gen now p r pid :
    owned r pid -> Key p = Key pid -> gen_of (Register now p r) pid = Some (Generation p);
  SetState_gen now p s r pid g :
    owned r pid -> gen_of r pid = Some g -> gen_of (SetState now p s r) pid = Some g;
  Bump_gen_same now p r pid g :
    owned r pid -> Key p = Key pid -> gen_of r pid = Some g ->
    gen_of (BumpGeneration now p r).1 pid = Some (u64_succ g);
  Bump_gen_other now p r pid :
    owned r pid -> Key p <> Key pid ->
    gen_of (BumpGeneration now p r).1 pid = gen_of r pid;
  Remove_gen p r pid :
    owned r pid -> Key p = Key pid -> gen_of (Remove p r) pid = None
}.

#[export] Instance InMemory_laws : PIDResolverLaws InMemoryPIDResolver.
Proof.
  refine {| owned _ _ := True |}; cbn; unfold InMemory_Resolve; try done.
  - intros now p r pid _ Hk. cbn. rewrite Hk, lookup_insert_eq. done.
  - intros now p s r pid g _ Hg. unfold InMemory_SetState.
    destruct (decide (Key p = Key pid)) as [Hk|Hk]; [rewrite Hk|].
    + destruct (imr_byKey r !! Key pid) as [e|]; cbn in *; [|done].
      by rewrite lookup_insert_eq.
    + destruct (imr_byKey r !! Key p); cbn; by rewrite lookup_insert_ne.
  - intros now p r pid g _ Hk Hg. unfold InMemory_BumpGeneration. rewrite Hk.
    destruct (imr_byKey r !! Key pid) as [e|]; cbn in *; [|done].
    rewrite lookup_insert_eq. cbn. by simplify_eq.
  - intros now p r pid _ Hk. unfold InMemory_BumpGeneration.
    destruct (imr_byKey r !! Key p); cbn; [|done]. by rewrite lookup_insert_ne.
  - intros p r pid _ Hk. cbn. by rewrite Hk, lookup_delete_eq.
Defined.

(** The PIDs the cluster's resolver hands to its local resolver. *)
Definition locally_resolved {R} (r : RemotePIDResolver R) (pid : PID) : Prop :=
  Namespace pid = rpr_localNodeID r \/ Namespace pid = ""%string \/
  isAskReplyLocal (Namespace pid) (rpr_localNodeID r) = true.

Lemma Remote_Resolve_local {R} `{PIDResolver R} now pid (r : RemotePIDResolver R) :
  locally_resolved r pid -> Remote_Resolve now pid r = Resolve now pid (rpr_local r).
Proof.
  unfold Remote_Resolve. intros [Hn|[Hn|Hn]].
  - by rewrite bool_decide_eq_true_2.
  - by rewrite (bool_decide_eq_true_2 _ Hn), orb_true_r.
  - destruct (_ || _); [done|]. by rewrite Hn.
Qed.

#[export] Instance Remote_laws {R} `{PIDResolverLaws R} : PIDResolverLaws (RemotePIDResolver R).
Proof.
  assert (forall r pid, locally_resolved r pid ->
    pre_CurrentGeneration <$> Remote_Resolve 0 pid r = gen_of (rpr_local r) pid) as Hl.
  { intros r pid Hl. by rewrite Remote_Resolve_local. }
  refine {| owned r pid := locally_resolved r pid /\ owned (rpr_local r) pid |}; cbn.
  - intros. unfold locally_resolved. cbn. by rewrite owned_SetState.
  - intros. unfold Remote_BumpGeneration, locally_resolved.
    rewrite <- (owned_Bump now p (rpr_local r)).
    by destruct (BumpGeneration now p (rpr_local r)).
  - intros. unfold locally_resolved. cbn. by rewrite owned_Register.
  - intros now p r pid [? ?] ?. rewrite Hl by done. by apply Register_gen.
  - intros now p s r pid g [? ?] Hg. rewrite Hl in Hg by done.
    rewrite Hl by done. by apply SetState_gen.
  - intros now p r pid g [? ?] Hk Hg. rewrite Hl in Hg by done.
    pose proof (Bump_gen_same now p _ _ _ H2 Hk Hg) as Hb. unfold Remote_BumpGeneration.
    destruct (BumpGeneration now p (rpr_local r)); cbn in *. by rewrite Hl.
  - intros now p r pid [? ?] Hk. rewrite (Hl r) by done.
    pose proof (Bump_gen_other now p _ _ H2 Hk) as Hb. unfold Remote_BumpGeneration.
    destruct (BumpGeneration now p (rpr_local r)); cbn in *. by rewrite Hl.
  - intros p r pid [? ?] Hk. rewrite Hl by done. by apply Remove_gen.
Defined.

(** ** The generation discipline, against the interface *)

(** What a supervised actor does to its PID between two issues of it: state
    changes and generation bumps, of any PID. *)
Inductive resolver_op :=
  | RoSetState (now : Z) (p : PID) (s : PIDRouteState)
  | RoBump (now : Z) (p : PID).

Section discipline.
Context {R : Type} `{PIDResolverLaws R}.

Definition run_resolver_op (o : resolver_op) (r : R) : R :=
  match o with
  | RoSetState now p s => SetState now p s r
  | RoBump now p => (BumpGeneration now p r).1
  end.

Definition run_resolver_ops (os : list resolver_op) (r : R) : R :=
  foldl (fun r o => run_resolver_op o r) r os.

(** How many of the operations bump the PID with this key. *)
Fixpoint bumps_of (pid : PID) (os : list resolver_op) : nat :=
  match os with
  | [] => 0
  | RoBump _ p :: os' => (if decide (Key p = Key pid) then 1 else 0) + bumps_of pid os'
  | RoSetState _ _ _ :: os' => bumps_of pid os'
  end.

Lemma run_resolver_op_gen o r pid g :
  owned r pid -> gen_of r pid = Some g -> 0 <= g < u64_modulus ->
  owned (run_resolver_op o r) pid /\
  gen_of (run_resolver_op o r) pid = Some (u64 (g + Z.of_nat (bumps_of pid [o]))).
Proof.
  intros Ho Hg Hr. destruct o as [now p s|now p]; cbn -[Z.of_nat].
  - split; [by apply owned_SetState|]. rewrite (SetState_gen _ _ _ _ _ g) by done.
    by rewrite Z.add_0_r, u64_small.
  - split; [by apply owned_Bump|].
    destruct (decide _) as [Hk|Hk]; cbn.
    + by rewrite (Bump_gen_same _ _ _ _ g).
    + rewrite Bump_gen_other by done. by rewrite Z.add_0_r, u64_small.
Qed.

Lemma bumps_of_cons pid o os :
  bumps_of pid (o :: os) = (bumps_of pid [o] + bumps_of pid os)%nat.
Proof. destruct o; cbn; lia. Qed.

Lemma run_resolver_ops_gen os r pid g :
  owned r pid -> gen_of r pid = Some g -> 0 <= g < u64_modulus ->
  gen_of (run_resolver_ops os r) pid = Some (u64 (g + Z.of_nat (bumps_of pid os))).
Proof.
  revert r g. induction os as [|o os IH]; intros r g Ho Hg Hr.
  { cbn. by rewrite Z.add_0_r, u64_small. }
  change (run_resolver_ops (o :: os) r) with (run_resolver_ops os (run_resolver_op o r)).
  destruct (run_resolver_op_gen o _ _ _ Ho Hg Hr) as [Ho' Hg'].
  rewrite (IH _ _ Ho' Hg' (u64_range _)), (bumps_of_cons _ o os). f_equal.
  unfold u64. rewrite Zplus_mod_idemp_l. f_equal. lia.
Qed.

(** Generations detect stale PIDs.  For every resolver that obeys the
    interface's laws, a PID of generation [g] stays current through any state
    changes, and after [n] restarts ([0 < n < 2^64] bumps of its key, mixed
    with any other operations on this or other PIDs) the current generation is
    [g + n] modulo [2^64], which is never [g]: an old PID is recognised as
    stale. *)
Theorem restarts_make_pid_stale (os : list resolver_op) (r : R) (pid : PID) :
  owned r pid ->
  gen_of r pid = Some (Generation pid) ->
  0 <= Generation pid < u64_modulus ->
  Z.of_nat (bumps_of pid os) < u64_modulus ->
  exists g, gen_of (run_resolver_ops os r) pid = Some g /\
    g = u64 (Generation pid + Z.of_nat (bumps_of pid os)) /\
    (g = Generation pid <-> bumps_of pid os = 0%nat).
Proof.
  intros Ho Hg Hr Hn. eexists. split; [by apply run_resolver_ops_gen|].
  split; [done|]. unfold u64.
  set (n := Z.of_nat (bumps_of pid os)) in *.
  assert (n = 0 <-> bumps_of pid os = 0%nat) as Hn0 by (unfold n; lia).
  assert (0 <= n) by (unfold n; lia).
  rewrite <- Hn0. split; [|intros ->; rewrite Z.add_0_r; by apply Z.mod_small].
  intros Heq. destruct (Z_lt_le_dec (Generation pid + n) u64_modulus) as [Hs|Hs].
  - rewrite Z.mod_small in Heq; lia.
  - rewrite <- (Z_mod_plus_full _ (-1)), Z.mod_small in Heq; lia.
Qed.
End discipline.

(** The operations of one supervised restart of a local actor behind the
    cluster's resolver. *)
Definition example_pid : PID := mkPID "node-1" "worker" 1.

Definition example_resolver : RemotePIDResolver InMemoryPIDResolver :=
  Register 0 example_pid (NewRemotePIDResolver NewInMemoryPIDResolver "node-1").

Lemma restarts_make_pid_stale_witness :
  exists g,
    gen_of (run_resolver_ops
      [RoSetState 1 example_pid PIDRouteRestarting; RoBump 2 example_pid] example_resolver)
      example_pid = Some g /\ g <> Generation example_pid.
Proof.
  destruct (restarts_make_pid_stale
    [RoSetState 1 example_pid PIDRouteRestarting; RoBump 2 example_pid]
    example_resolver example_pid) as (g & Hg & _ & Hs).
  - split; [left; reflexivity|exact I].
  - vm_compute. reflexivity.
  - vm_compute. split; [discriminate|reflexivity].
  - vm_compute. reflexivity.
  - exists g. split; [exact Hg|]. rewrite Hs. vm_compute. discriminate.
Defined.

(** ** Keys *)

Lemma str_app_colon_inj a b c d :
  containsByte a ":"%char = false -> containsByte c ":"%char = false ->
  a +:+ ":" +:+ b = c +:+ ":" +:+ d -> a = c /\ b = d.
Proof.
  revert c. induction a as [|x a IH]; intros [|y c] Ha Hc Heq.
  - by injection Heq.
  - injection Heq as <- Heq. cbn in Hc. by rewrite Ascii.eqb_refl in Hc.
  - injection Heq as -> Heq. cbn in Ha. by rewrite Ascii.eqb_refl in Ha.
  - injection Heq as <- Heq. cbn in Ha, Hc. apply orb_false_iff in Ha as [_ Ha], Hc as [_ Hc].
    destruct (IH _ Ha Hc Heq) as [-> ->]. done.
Qed.

(** A key identifies an actor, as long as the namespace has no colon:
    two such PIDs share a resolver (and subscription) key only when they have
    the same namespace and actor ID. *)
Theorem Key_identifies (p q : PID) :
  containsByte (Namespace p) ":"%char = false ->
  containsByte (Namespace q) ":"%char = false ->
  Key p = Key q -> Namespace p = Namespace q /\ ActorID p = ActorID q.
Proof. apply str_app_colon_inj. Qed.

Lemma Key_identifies_witness :
  Key (mkPID "node-1" "a:b" 1) = Key (mkPID "node-1" "a:b" 2) /\
  ActorID (mkPID "node-1" "a:b" 1) = "a:b"%string.
Proof.
  split; [reflexivity|].
  apply (Key_identifies (mkPID "node-1" "a:b" 1) (mkPID "node-1" "a:b" 2)); reflexivity.
Defined.

(** Without that restriction two different actors can share a key. *)
Example Key_collision :
  Key (mkPID "a:b" "c" 1) = Key (mkPID "a" "b:c" 1).
Proof. reflexivity. Qed.
