(* ===== verification/Registry.v ===== *)
(** * Actor and name registries ([src/src/actor/registry.go])

    [actorRegistry] maps actor IDs to instances; [namedRegistry] keeps a map
    from names to entries together with an index of the names of each actor.
    Both are refined to a plain map: the index never influences a result, it
    only makes [unregisterByActor] fast. *)

From S2P Require Import Prelude Types.

(** ** The actor registry

    Instances are shared objects, so the registry maps an ID to the location
    of its instance in the runtime's heap ([State.v]). *)

Definition actorRegistry : Type := gmap string nat.

Definition newRegistry : actorRegistry := ∅.

Definition registry_put (id : string) (a : nat) (r : gmap string nat)
    : gmap string nat * option string :=
  match r !! id with
  | Some _ => (r, Some ErrDuplicateActorID)
  | None => (<[id := a]> r, None)
  end.

Definition registry_get (id : string) (r : gmap string nat) : option nat := r !! id.

Definition registry_remove (id : string) (r : gmap string nat) : gmap string nat * bool :=
  match r !! id with
  | None => (r, false)
  | Some _ => (delete id r, true)
  end.

(** ** Registry names *)

(** [A-Za-z0-9]. *)
Definition isAlnum (c : ascii) : bool :=
  let n := Z.of_nat (nat_of_ascii c) in
  ((65 <=? n) && (n <=? 90)) || ((97 <=? n) && (n <=? 122)) || ((48 <=? n) && (n <=? 57)).

(** [A-Za-z0-9._-]. *)
Definition isNameByte (c : ascii) : bool :=
  isAlnum c || Ascii.eqb c "." || Ascii.eqb c "_" || Ascii.eqb c "-".

(** At most [n] more bytes, all of the class. *)
Fixpoint matchNameTail (n : nat) (s : string) : bool :=
  match s with
  | EmptyString => true
  | String c s' => match n with O => false | S n' => isNameByte c && matchNameTail n' s' end
  end.

(** [registryNamePattern.MatchString]: [^[A-Za-z0-9][A-Za-z0-9._-]{0,127}$]. *)
Definition registryNamePattern (name : string) : bool :=
  match name with
  | EmptyString => false
  | String c s => isAlnum c && matchNameTail 127 s
  end.

(** The escapes of [fmt]'s [%q]; bytes outside ASCII are kept as they are,
    as for printable UTF-8 text. *)
Definition hexDigit (n : nat) : ascii := ascii_of_nat (if (n <? 10)%nat then 48 + n else 87 + n).

Definition quoteByte (c : ascii) : string :=
  let n := nat_of_ascii c in
  if (n =? 34)%nat then String "\" (String (ascii_of_nat 34) "")
  else if (n =? 92)%nat then "\\"
  else if (n =? 7)%nat then "\a"
  else if (n =? 8)%nat then "\b"
  else if (n =? 12)%nat then "\f"
  else if (n =? 10)%nat then "\n"
  else if (n =? 13)%nat then "\r"
  else if (n =? 9)%nat then "\t"
  else if (n =? 11)%nat then "\v"
  else if (n <? 32)%nat || (n =? 127)%nat then
    "\x" +:+ String (hexDigit (n / 16)) (String (hexDigit (n mod 16)) "")
  else String c "".

Fixpoint quoteBytes (s : string) : string :=
  match s with EmptyString => "" | String c s' => quoteByte c +:+ quoteBytes s' end.

Definition quote (s : string) : string :=
  String (ascii_of_nat 34) (quoteBytes s +:+ String (ascii_of_nat 34) "").

(** [validateRegistryName]: the error, or [None]. *)
Definition validateRegistryName (name : string) : option string :=
  if negb (registryNamePattern name)
  then Some (ErrRegistryNameInvalid +:+ ": " +:+ quote name)
  else None.

(** ** The name registry *)

Record registryEntry := mkRegistryEntry {
  re_name : string;
  re_actorID : string;
  re_pid : PID;
  re_updated : Z
}.

#[export] Instance registryEntry_eq_dec : EqDecision registryEntry.
Proof. solve_decision. Defined.

Record namedRegistry := mkNamedRegistry {
  nr_byName : gmap string registryEntry;
  nr_byActor : gmap string (gset string)
}.

Definition newNamedRegistry : namedRegistry := mkNamedRegistry ∅ ∅.

Definition nr_register (now : Z) (name actorID : string) (pid : PID) (r : namedRegistry)
    : namedRegistry * (registryEntry + string) :=
  match validateRegistryName name with
  | Some err => (r, inr err)
  | None =>
      match nr_byName r !! name with
      | Some _ => (r, inr ErrRegistryDuplicateName)
      | None =>
          let entry := mkRegistryEntry name actorID pid now in
          let byName := <[name := entry]> (nr_byName r) in
          let byActor :=
            match nr_byActor r !! actorID with
            | None => <[actorID := ∅]> (nr_byActor r)
            | Some _ => nr_byActor r
            end in
          (mkNamedRegistry byName
             (<[actorID := {[name]} ∪ default ∅ (byActor !! actorID)]> byActor),
           inl entry)
      end
  end.

Definition nr_lookup (name : string) (r : namedRegistry) : option registryEntry :=
  nr_byName r !! name.

Definition nr_unregister (name : string) (r : namedRegistry)
    : namedRegistry * option registryEntry :=
  match nr_byName r !! name with
  | None => (r, None)
  | Some entry =>
      let byName := delete name (nr_byName r) in
      let byActor :=
        match nr_byActor r !! re_actorID entry with
        | Some names =>
            let names := names ∖ {[name]} in
            if bool_decide (names = ∅) then delete (re_actorID entry) (nr_byActor r)
            else <[re_actorID entry := names]> (nr_byActor r)
        | None => nr_byActor r
        end in
      (mkNamedRegistry byName byActor, Some entry)
  end.

(** The loop [for name := range names] of [unregisterByActor], over the names
    in the order the iteration yields them. *)
Fixpoint unregister_names (names : list string) (byName : gmap string registryEntry)
    : gmap string registryEntry * list registryEntry :=
  match names with
  | [] => (byName, [])
  | name :: names' =>
      match byName !! name with
      | None => unregister_names names' byName
      | Some entry =>
          let '(byName', out) := unregister_names names' (delete name byName) in
          (byName', entry :: out)
      end
  end.

(** The iteration order of a Go map is unspecified; [elements] fixes one, and
    [unregister_names_perm] shows what another order would change. *)
Definition nr_unregisterByActor (actorID : string) (r : namedRegistry)
    : namedRegistry * list registryEntry :=
  match nr_byActor r !! actorID with
  | None => (r, [])
  | Some names =>
      let '(byName, out) := unregister_names (elements names) (nr_byName r) in
      (mkNamedRegistry byName (delete actorID (nr_byActor r)), out)
  end.

(** ** Invariant: the index agrees with the map *)

Definition names_of (r : namedRegistry) (actorID : string) : gset string :=
  default ∅ (nr_byActor r !! actorID).

Record namedRegistry_ok (r : namedRegistry) : Prop := {
  nok_name n e : nr_byName r !! n = Some e -> re_name e = n;
  nok_index a n :
    n ∈ names_of r a <-> exists e, nr_byName r !! n = Some e /\ re_actorID e = a
}.

Lemma newNamedRegistry_ok : namedRegistry_ok newNamedRegistry.
Proof.
  split; cbn; [intros ?? H; by rewrite lookup_empty in H|].
  intros a n. unfold names_of. cbn. rewrite lookup_empty. cbn.
  split; [set_solver|]. intros (e & H & _). by rewrite lookup_empty in H.
Qed.

Lemma names_of_register now name actorID pid r r' e a :
  nr_register now name actorID pid r = (r', inl e) ->
  names_of r' a = if decide (a = actorID) then {[name]} ∪ names_of r a else names_of r a.
Proof.
  unfold nr_register. intros H. repeat dmatch_in H; simplify_eq/=; unfold names_of; cbn;
    destruct (decide (a = actorID)) as [->|]; rewrite ?lookup_insert_eq, ?lookup_insert_ne by done;
    simplify_option_eq; set_solver.
Qed.

Lemma nr_register_ok now name actorID pid r :
  namedRegistry_ok r -> namedRegistry_ok (nr_register now name actorID pid r).1.
Proof.
  intros Hr. destruct (nr_register now name actorID pid r) as [r' [e|err]] eqn:H; cbn.
  2: { unfold nr_register in H. repeat dmatch_in H; by simplify_eq. }
  pose proof (fun a => names_of_register _ _ _ _ _ _ _ a H) as Hn.
  assert (nr_byName r' = <[name := mkRegistryEntry name actorID pid now]> (nr_byName r) /\
          nr_byName r !! name = None) as [Hb Hf].
  { unfold nr_register in H. repeat dmatch_in H; by simplify_eq. }
  split.
  - intros n e'. rewrite Hb, lookup_insert_Some.
    intros [[<- <-]|[_ He]]; [done|by apply (nok_name _ Hr)].
  - intros a n. rewrite Hn, Hb. setoid_rewrite lookup_insert_Some.
    pose proof (nok_index _ Hr a n) as Hi.
    destruct (decide (a = actorID)) as [->|Ha]; [rewrite elem_of_union, elem_of_singleton|];
      rewrite Hi; destruct (decide (n = name)) as [->|Hne]; naive_solver.
Qed.

Lemma nr_unregister_ok name r :
  namedRegistry_ok r -> namedRegistry_ok (nr_unregister name r).1.
Proof.
  intros Hr. unfold nr_unregister. destruct (nr_byName r !! name) as [e|] eqn:He; [|done].
  cbn. split; cbn.
  - intros n e'. rewrite lookup_delete_Some. intros [_ H]. by apply (nok_name _ Hr).
  - intros a n. setoid_rewrite lookup_delete_Some.
    assert (names_of (mkNamedRegistry (delete name (nr_byName r))
              match nr_byActor r !! re_actorID e with
              | Some names => if bool_decide (names ∖ {[name]} = ∅)
                  then delete (re_actorID e) (nr_byActor r)
                  else <[re_actorID e := names ∖ {[name]}]> (nr_byActor r)
              | None => nr_byActor r end) a
            = if decide (a = re_actorID e) then names_of r a ∖ {[name]} else names_of r a) as ->.
    { unfold names_of. cbn. destruct (decide (a = re_actorID e)) as [->|Ha].
      - destruct (nr_byActor r !! re_actorID e) as [ns|] eqn:Hns; cbn.
        + case_bool_decide as Hb; [by rewrite lookup_delete_eq, Hb|by rewrite lookup_insert_eq].
        + rewrite Hns. cbn. set_solver.
      - repeat dmatch; by rewrite ?lookup_delete_ne, ?lookup_insert_ne. }
    pose proof (nok_index _ Hr a n) as Hi.
    destruct (decide (a = re_actorID e)) as [->|Ha];
      [rewrite elem_of_difference, elem_of_singleton|]; rewrite Hi; naive_solver.
Qed.

(** What the loop leaves and what it collects. *)
Lemma unregister_names_lookup names m n :
  (unregister_names names m).1 !! n = if decide (n ∈ names) then None else m !! n.
Proof.
  revert m. induction names as [|x names IH]; intros m; cbn.
  { by rewrite decide_False by set_solver. }
  destruct (m !! x) as [e|] eqn:Hx.
  - specialize (IH (delete x m)). destruct (unregister_names _ _) as [m' out]. cbn in *. rewrite IH.
    destruct (decide (n = x)) as [->|Hnx].
    + rewrite lookup_delete_eq, (decide_True (P := x ∈ x :: names)) by set_solver.
      by destruct (decide _).
    + rewrite lookup_delete_ne by done. destruct (decide (n ∈ names)), (decide (n ∈ x :: names)); set_solver.
  - rewrite IH. destruct (decide (n = x)) as [->|Hnx].
    + rewrite Hx, (decide_True (P := x ∈ x :: names)) by set_solver. by destruct (decide _).
    + destruct (decide (n ∈ names)), (decide (n ∈ x :: names)); set_solver.
Qed.

Lemma unregister_names_out names m :
  NoDup names -> (unregister_names names m).2 = omap (fun n => m !! n) names.
Proof.
  revert m. induction names as [|x names IH]; intros m Hnd; [done|].
  apply NoDup_cons in Hnd as [Hx Hnd]. cbn.
  destruct (m !! x) as [e|] eqn:He; [|by apply IH].
  specialize (IH (delete x m) Hnd). destruct (unregister_names _ _) as [m' out]. cbn in *.
  f_equal. rewrite IH. clear -Hx. induction names as [|y ys IH]; [done|]. cbn.
  rewrite lookup_delete_ne by set_solver. destruct (m !! y); [f_equal|]; apply IH; set_solver.
Qed.

(** The iteration order only permutes the returned entries. *)
Lemma unregister_names_perm names names' m :
  NoDup names -> names ≡ₚ names' ->
  (unregister_names names' m).1 = (unregister_names names m).1 /\
  (unregister_names names' m).2 ≡ₚ (unregister_names names m).2.
Proof.
  intros Hnd Hp. split.
  - apply map_eq. intros n. rewrite !unregister_names_lookup.
    destruct (decide (n ∈ names')) as [Hi|Hi], (decide (n ∈ names)) as [Hj|Hj]; try done;
      [rewrite <- Hp in Hi|rewrite Hp in Hj]; done.
  - rewrite !unregister_names_out; [by rewrite Hp|done|by rewrite <- Hp].
Qed.

Lemma unregisterByActor_lookup a r n :
  namedRegistry_ok r ->
  nr_byName (nr_unregisterByActor a r).1 !! n =
  (e ← nr_byName r !! n; if decide (re_actorID e = a) then None else Some e).
Proof.
  intros Hr. pose proof (nok_index _ Hr a n) as Hi. unfold names_of in Hi.
  unfold nr_unregisterByActor. destruct (nr_byActor r !! a) as [ns|] eqn:Hns; cbn in *.
  - pose proof (unregister_names_lookup (elements ns) (nr_byName r) n) as Hl.
    destruct (unregister_names _ _) as [m out]. cbn in *. rewrite Hl.
    destruct (decide (n ∈ elements ns)) as [Hin|Hin]; rewrite elem_of_elements in Hin.
    + apply Hi in Hin as (e & -> & He). cbn. by rewrite decide_True.
    + destruct (nr_byName r !! n) as [e|] eqn:He; cbn; [|done].
      rewrite decide_False; [done|]. intros Ha. apply Hin, Hi. eauto.
  - destruct (nr_byName r !! n) as [e|] eqn:He; cbn; [|done].
    rewrite decide_False; [done|]. intros Ha.
    assert (n ∈ (∅ : gset string)) by (apply Hi; eauto). set_solver.
Qed.

Lemma nr_unregisterByActor_ok a r :
  namedRegistry_ok r -> namedRegistry_ok (nr_unregisterByActor a r).1.
Proof.
  intros Hr. pose proof (fun n => unregisterByActor_lookup a r n Hr) as Hl. split.
  - intros n e. rewrite Hl. intros H. destruct (nr_byName r !! n) as [e'|] eqn:He; cbn in H; [|done].
    destruct (decide _); simplify_eq. by apply (nok_name _ Hr).
  - intros a' n. rewrite Hl. pose proof (nok_index _ Hr a' n) as Hi.
    assert (names_of (nr_unregisterByActor a r).1 a' =
            if decide (a' = a) then ∅ else names_of r a') as ->.
    { unfold names_of, nr_unregisterByActor.
      destruct (nr_byActor r !! a) as [ns|] eqn:Hns; [destruct (unregister_names _ _)|]; cbn;
        destruct (decide (a' = a)) as [->|]; by rewrite ?lookup_delete_eq, ?lookup_delete_ne, ?Hns. }
    destruct (decide (a' = a)) as [->|Ha].
    + split; [set_solver|]. intros (e & H & He).
      destruct (nr_byName r !! n); cbn in H; repeat case_decide; naive_solver.
    + rewrite Hi. destruct (nr_byName r !! n) as [e|]; cbn; [|naive_solver].
      destruct (decide (re_actorID e = a)); naive_solver.
Qed.

(** ** Refinement: a plain map of names *)

Module NamesSpec.
Abbreviation names := (gmap string registryEntry).

Definition register (now : Z) (name actorID : string) (pid : PID) (m : names)
    : names * (registryEntry + string) :=
  match validateRegistryName name, m !! name with
  | Some err, _ => (m, inr err)
  | None, Some _ => (m, inr ErrRegistryDuplicateName)
  | None, None => let e := mkRegistryEntry name actorID pid now in (<[name := e]> m, inl e)
  end.

Definition unregister (name : string) (m : names) : names * option registryEntry :=
  (delete name m, m !! name).

(** All the names of an actor go, and exactly their entries are returned. *)
Definition unregisterByActor (actorID : string) (m : names) : names * list registryEntry :=
  (filter (fun ne => re_actorID ne.2 <> actorID) m,
   (map_to_list (filter (fun ne => re_actorID ne.2 = actorID) m)).*2).
End NamesSpec.

Inductive nr_op :=
  | NrRegister (now : Z) (name actorID : string) (pid : PID)
  | NrLookup (name : string)
  | NrUnregister (name : string)
  | NrUnregisterByActor (actorID : string).

Inductive nr_result :=
  | NresRegister (res : registryEntry + string)
  | NresEntry (e : option registryEntry)
  | NresEntries (es : list registryEntry).

(** Results agree up to the order of a returned list of entries. *)
Definition nr_result_equiv (x y : nr_result) : Prop :=
  match x, y with
  | NresEntries xs, NresEntries ys => xs ≡ₚ ys
  | _, _ => x = y
  end.

Definition run_nr_op (o : nr_op) (r : namedRegistry) : namedRegistry * nr_result :=
  match o with
  | NrRegister now n a p => let '(r, x) := nr_register now n a p r in (r, NresRegister x)
  | NrLookup n => (r, NresEntry (nr_lookup n r))
  | NrUnregister n => let '(r, x) := nr_unregister n r in (r, NresEntry x)
  | NrUnregisterByActor a => let '(r, x) := nr_unregisterByActor a r in (r, NresEntries x)
  end.

Definition spec_nr_op (o : nr_op) (m : NamesSpec.names) : NamesSpec.names * nr_result :=
  match o with
  | NrRegister now n a p => let '(m, x) := NamesSpec.register now n a p m in (m, NresRegister x)
  | NrLookup n => (m, NresEntry (m !! n))
  | NrUnregister n => let '(m, x) := NamesSpec.unregister n m in (m, NresEntry x)
  | NrUnregisterByActor a => let '(m, x) := NamesSpec.unregisterByActor a m in (m, NresEntries x)
  end.

(** The entries an actor's removal returns, as a set. *)
Lemma unregisterByActor_elem a r e :
  namedRegistry_ok r ->
  e ∈ (nr_unregisterByActor a r).2 <-> nr_byName r !! re_name e = Some e /\ re_actorID e = a.
Proof.
  intros Hr. pose proof (nok_index _ Hr a (re_name e)) as Hi. unfold names_of in Hi.
  unfold nr_unregisterByActor. destruct (nr_byActor r !! a) as [ns|] eqn:Hns; cbn in *.
  - pose proof (unregister_names_out (elements ns) (nr_byName r) (NoDup_elements _)) as Ho.
    destruct (unregister_names _ _) as [m out]. cbn in *. subst out.
    rewrite list_elem_of_omap. setoid_rewrite elem_of_elements. split.
    + intros (n & Hn & He). pose proof (nok_name _ Hr _ _ He) as <-. split; [done|].
      apply Hi in Hn as (e' & He' & Ha). by simplify_eq.
    + intros [He Ha]. exists (re_name e). split; [|done]. apply Hi. eauto.
  - split; [set_solver|]. intros [He Ha].
    assert (re_name e ∈ (∅ : gset string)) by (apply Hi; eauto). set_solver.
Qed.

Lemma unregisterByActor_NoDup a r :
  namedRegistry_ok r -> NoDup (nr_unregisterByActor a r).2.
Proof.
  intros Hr. unfold nr_unregisterByActor.
  destruct (nr_byActor r !! a) as [ns|]; cbn; [|constructor].
  pose proof (unregister_names_out (elements ns) (nr_byName r) (NoDup_elements _)) as Ho.
  destruct (unregister_names _ _) as [m out]. cbn in *. subst out.
  assert (NoDup (elements ns)) as Hnd by apply NoDup_elements.
  induction (elements ns) as [|x xs IH]; cbn; [constructor|].
  apply NoDup_cons in Hnd as [Hx Hnd]. destruct (nr_byName r !! x) as [e|] eqn:He; [|by apply IH].
  constructor; [|by apply IH]. rewrite list_elem_of_omap. intros (y & Hy & Hye).
  apply (nok_name _ Hr) in He, Hye. by subst.
Qed.

Lemma NoDup_snd_by_name (l : list (string * registryEntry)) :
  NoDup l.*1 -> (forall p, p ∈ l -> re_name p.2 = p.1) -> NoDup l.*2.
Proof.
  induction l as [|[n e] l IH]; cbn; [constructor|]. intros Hl Hp.
  apply NoDup_cons in Hl as [Hn Hl]. constructor.
  - rewrite list_elem_of_fmap. intros ([n' e'] & ? & Hin'). cbn in *. subst e'.
    pose proof (Hp (n, e) ltac:(set_solver)). pose proof (Hp (n', e) ltac:(set_solver)). cbn in *.
    apply Hn. rewrite list_elem_of_fmap. exists (n', e). split; [cbn; congruence|done].
  - apply IH; [done|]. intros. apply Hp. set_solver.
Qed.

Lemma unregisterByActor_out a r :
  namedRegistry_ok r ->
  (nr_unregisterByActor a r).2 ≡ₚ (NamesSpec.unregisterByActor a (nr_byName r)).2.
Proof.
  intros Hr. cbn. apply NoDup_Permutation; [by apply unregisterByActor_NoDup| |].
  - apply NoDup_snd_by_name; [apply NoDup_fst_map_to_list|]. intros [n e] H. cbn.
    apply elem_of_map_to_list in H. apply map_lookup_filter_Some in H as [H _]. by apply (nok_name _ Hr).
  - intros e. rewrite unregisterByActor_elem, list_elem_of_fmap by done. split.
    + intros [H Ha]. exists (re_name e, e). split; [done|].
      by apply elem_of_map_to_list, map_lookup_filter_Some.
    + intros ([n e'] & ? & H). cbn in *. subst e'.
      apply elem_of_map_to_list, map_lookup_filter_Some in H as [H Ha].
      by pose proof (nok_name _ Hr _ _ H) as <-.
Qed.

Lemma run_nr_op_refines o r :
  namedRegistry_ok r ->
  namedRegistry_ok (run_nr_op o r).1 /\
  nr_byName (run_nr_op o r).1 = (spec_nr_op o (nr_byName r)).1 /\
  nr_result_equiv (run_nr_op o r).2 (spec_nr_op o (nr_byName r)).2.
Proof.
  intros Hr. destruct o as [now n a p|n|n|a]; cbn.
  - pose proof (nr_register_ok now n a p r Hr) as Hok. revert Hok.
    unfold nr_register, NamesSpec.register.
    destruct (validateRegistryName n); [done|]. destruct (nr_byName r !! n); cbn; intros; by split_and!.
  - done.
  - pose proof (nr_unregister_ok n r Hr) as Hok. revert Hok. unfold nr_unregister.
    destruct (nr_byName r !! n) eqn:Hn; cbn; [done|]. by rewrite delete_id.
  - pose proof (nr_unregisterByActor_ok a r Hr) as Hok.
    pose proof (unregisterByActor_out a r Hr) as Hout.
    pose proof (fun n => unregisterByActor_lookup a r n Hr) as Hl.
    destruct (nr_unregisterByActor a r) as [r' out]. cbn in *. split_and!; [done| |done].
    apply map_eq. intros n. rewrite Hl, map_lookup_filter.
    destruct (nr_byName r !! n) as [e|]; cbn; [|done]. repeat case_decide; naive_solver.
Qed.

(** The name registry refines a plain map from names to entries.  For
    every sequence of registrations, lookups, unregistrations and per-actor
    clean-ups, the registry with its per-actor index answers exactly as the map
    does (a clean-up removes and returns all the names of the actor and no
    other, in some order), so a name is never lost, duplicated or left behind
    by the index. *)
Theorem named_registry_refines_map (os : list nr_op) :
  Forall2 nr_result_equiv (run_ops run_nr_op os newNamedRegistry).2 (run_ops spec_nr_op os ∅).2.
Proof.
  change (∅ : NamesSpec.names) with (nr_byName newNamedRegistry).
  assert (namedRegistry_ok newNamedRegistry) as Hr by apply newNamedRegistry_ok.
  revert Hr. generalize newNamedRegistry.
  induction os as [|o os IH]; intros r Hr; cbn; [constructor|].
  destruct (run_nr_op_refines o r Hr) as (Hok & Hm & Hx).
  destruct (run_nr_op o r) as [r' x], (spec_nr_op o (nr_byName r)) as [m' y]. cbn in *. subst m'.
  specialize (IH r' Hok). destruct (run_ops run_nr_op os r'), (run_ops spec_nr_op os (nr_byName r')).
  by constructor.
Qed.
