(* ===== verification/Routing.v ===== *)
(** * Type-based message routing rules ([src/src/actor/routing.go])

    Every actor can have exact rules (a type name at a schema version) and a
    fallback rule.  Resolving a message is characterised by the history of the
    registrations alone: the [versions] index, which the code keeps to tell a
    version mismatch from an unsupported type, never contradicts the rules. *)

From S2P Require Import Prelude Types.

Definition defaultSchemaVersion : string := "v1".
Definition defaultHandlerKey : string := "default".

Inductive routeMatch :=
  | routeNoRules | routeExact | routeFallback | routeUnsupportedType | routeVersionMismatch.

Record routeResolution := mkRouteResolution {
  rr_match : routeMatch;
  rr_handlerKey : string
}.

Record typeRoutingRule := mkTypeRoutingRule {
  trr_typeName : string;
  trr_schemaVersion : string;
  trr_handlerKey : string;
  trr_isFallback : bool
}.

(** [routeKey]: the type name and the schema version. *)
Definition routeKey : Type := string * string.

Record actorRoutes := mkActorRoutes {
  ars_exact : gmap (string * string) typeRoutingRule;
  ars_versions : gmap string (gset string);
  ars_fallback : option typeRoutingRule
}.

Definition typeRoutingRegistry : Type := gmap string actorRoutes.

Definition newTypeRoutingRegistry : typeRoutingRegistry := ∅.

(** [ensure]: the routes of the actor, created empty when it has none. *)
Definition ensure (actorID : string) (r : gmap string actorRoutes) : actorRoutes :=
  match r !! actorID with
  | Some ar => ar
  | None => mkActorRoutes ∅ ∅ None
  end.

Definition registerExact (actorID typeName schemaVersion handlerKey : string)
    (r : gmap string actorRoutes) : gmap string actorRoutes :=
  if bool_decide (typeName = ""%string) then r
  else
    let schemaVersion :=
      if bool_decide (schemaVersion = ""%string) then defaultSchemaVersion else schemaVersion in
    let handlerKey :=
      if bool_decide (handlerKey = ""%string) then defaultHandlerKey else handlerKey in
    let ar := ensure actorID r in
    let exact :=
      <[(typeName, schemaVersion) :=
          mkTypeRoutingRule typeName schemaVersion handlerKey false]> (ars_exact ar) in
    let versions :=
      match ars_versions ar !! typeName with
      | None => <[typeName := ∅]> (ars_versions ar)
      | Some _ => ars_versions ar
      end in
    let versions :=
      <[typeName := {[schemaVersion]} ∪ default ∅ (versions !! typeName)]> versions in
    <[actorID := mkActorRoutes exact versions (ars_fallback ar)]> r.

Definition registerFallback (actorID handlerKey : string) (r : gmap string actorRoutes)
    : gmap string actorRoutes :=
  let handlerKey :=
    if bool_decide (handlerKey = ""%string) then defaultHandlerKey else handlerKey in
  let ar := ensure actorID r in
  <[actorID := mkActorRoutes (ars_exact ar) (ars_versions ar)
                 (Some (mkTypeRoutingRule "" "" handlerKey true))]> r.

Definition resolve (actorID typeName schemaVersion : string) (r : gmap string actorRoutes)
    : routeResolution :=
  match r !! actorID with
  | None => mkRouteResolution routeNoRules ""
  | Some ar =>
      if bool_decide (ars_exact ar = ∅) && bool_decide (ars_fallback ar = None)
      then mkRouteResolution routeNoRules ""
      else
        let schemaVersion :=
          if bool_decide (schemaVersion = ""%string) then defaultSchemaVersion else schemaVersion in
        match ars_exact ar !! (typeName, schemaVersion) with
        | Some rule => mkRouteResolution routeExact (trr_handlerKey rule)
        | None =>
            if match ars_versions ar !! typeName with
               | Some versions => negb (bool_decide (versions = ∅))
               | None => false
               end
            then mkRouteResolution routeVersionMismatch ""
            else match ars_fallback ar with
            | Some fb => mkRouteResolution routeFallback (trr_handlerKey fb)
            | None => mkRouteResolution routeUnsupportedType ""
            end
        end
  end.

(** [messageTypeName]: [reflect.TypeOf(payload).String()]. *)
Definition messageTypeName (p : payload) : string :=
  match p with
  | PNil => ""
  | PUser v => uv_TypeName v
  | PAskReplyEnvelope _ _ _ => "actor.AskReplyEnvelope"
  | PDownMessage _ => "actor.DownMessage"
  | PBrokerSubscribeCommand _ _ => "actor.BrokerSubscribeCommand"
  | PBrokerUnsubscribeCommand _ _ => "actor.BrokerUnsubscribeCommand"
  | PBrokerPublishCommand _ _ _ => "actor.BrokerPublishCommand"
  | PBrokerRemotePublishCommand _ _ _ => "actor.brokerRemotePublishCommand"
  | PBrokerPublishedMessage _ _ _ _ => "actor.BrokerPublishedMessage"
  | PBrokerCommandAck _ => "actor.BrokerCommandAck"
  | PClusterMembershipEvent _ _ => "actor.ClusterMembershipEvent"
  | PCronSubscribeCommand _ _ _ _ => "actor.CronSubscribeCommand"
  | PCronUnsubscribeCommand _ _ => "actor.CronUnsubscribeCommand"
  | PCronUnsubscribeAllCommand _ => "actor.CronUnsubscribeAllCommand"
  | PCronListCommand _ => "actor.CronListCommand"
  | PCronTickMessage _ _ _ _ => "actor.CronTickMessage"
  | PCronCommandAck _ => "actor.CronCommandAck"
  | PCronHandoffState _ => "*actor.CronHandoffState"
  end.

(** [messageSchemaVersion]. *)
Definition messageSchemaVersion (p : payload) : string :=
  match p with
  | PUser v =>
      match uv_SchemaVersion v with
      | Some version =>
          if bool_decide (version = ""%string) then defaultSchemaVersion else version
      | None => defaultSchemaVersion
      end
  | _ => defaultSchemaVersion
  end.

(** ** The history of registrations *)

Inductive route_reg :=
  | RegExact (actorID typeName schemaVersion handlerKey : string)
  | RegFallback (actorID handlerKey : string).

Definition run_route_reg (o : route_reg) (r : gmap string actorRoutes) : gmap string actorRoutes :=
  match o with
  | RegExact a t v h => registerExact a t v h r
  | RegFallback a h => registerFallback a h r
  end.

Definition run_route_regs (os : list route_reg) : gmap string actorRoutes :=
  foldr run_route_reg newTypeRoutingRegistry os.

Definition or_default (d s : string) : string := if bool_decide (s = ""%string) then d else s.

(** Reference: the handler of the newest exact registration of the pair;
    the newest registration heads the list. *)
Fixpoint exact_handler (a t v : string) (os : list route_reg) : option string :=
  match os with
  | [] => None
  | RegExact a' t' v' h :: os' =>
      if bool_decide (a' = a) && bool_decide (t' = t) && negb (bool_decide (t' = ""%string))
         && bool_decide (or_default defaultSchemaVersion v' = v)
      then Some (or_default defaultHandlerKey h)
      else exact_handler a t v os'
  | RegFallback _ _ :: os' => exact_handler a t v os'
  end.

(** The handler of the newest fallback registration. *)
Fixpoint fallback_handler (a : string) (os : list route_reg) : option string :=
  match os with
  | [] => None
  | RegFallback a' h :: os' =>
      if bool_decide (a' = a) then Some (or_default defaultHandlerKey h) else fallback_handler a os'
  | RegExact _ _ _ _ :: os' => fallback_handler a os'
  end.

(** Whether some version of the type, or some exact rule at all, was
    registered. *)
Definition has_version (a t : string) (os : list route_reg) : bool :=
  existsb (fun o => match o with
    | RegExact a' t' _ _ =>
        bool_decide (a' = a) && bool_decide (t' = t) && negb (bool_decide (t' = ""%string))
    | _ => false end) os.

Definition has_exact (a : string) (os : list route_reg) : bool :=
  existsb (fun o => match o with
    | RegExact a' t' _ _ => bool_decide (a' = a) && negb (bool_decide (t' = ""%string))
    | _ => false end) os.

Definition resolve_spec (a t v : string) (os : list route_reg) : routeResolution :=
  match exact_handler a t (or_default defaultSchemaVersion v) os with
  | Some h => mkRouteResolution routeExact h
  | None =>
      if has_version a t os then mkRouteResolution routeVersionMismatch ""
      else match fallback_handler a os with
      | Some h => mkRouteResolution routeFallback h
      | None =>
          mkRouteResolution (if has_exact a os then routeUnsupportedType else routeNoRules) ""
      end
  end.

(** The tables after a history, entry by entry. *)
Definition routes_of (a : string) (r : gmap string actorRoutes) : actorRoutes := ensure a r.

Lemma routes_of_insert a a' ar r :
  routes_of a (<[a' := ar]> r) = if decide (a' = a) then ar else routes_of a r.
Proof.
  unfold routes_of, ensure. destruct (decide (a' = a)) as [->|];
    by rewrite ?lookup_insert_eq, ?lookup_insert_ne.
Qed.

Lemma routes_exact a t v os :
  trr_handlerKey <$> ars_exact (routes_of a (run_route_regs os)) !! (t, v) = exact_handler a t v os.
Proof.
  induction os as [|[a' t' v' h|a' h] os IH]; cbn; [done| |].
  - unfold registerExact. fold (or_default defaultSchemaVersion v') (or_default defaultHandlerKey h).
    destruct (bool_decide_reflect (t' = ""%string)) as [->|Ht']; cbn; [by rewrite !andb_false_r|].
    rewrite andb_true_r, routes_of_insert.
    destruct (decide (a' = a)) as [->|Ha]; [|by rewrite bool_decide_eq_false_2].
    rewrite bool_decide_eq_true_2 by done. cbn. rewrite lookup_insert.
    destruct (bool_decide_reflect (t' = t)) as [->|Ht]; cbn;
      [|rewrite decide_False by congruence; by rewrite <- IH].
    destruct (bool_decide_reflect (or_default defaultSchemaVersion v' = v)) as [->|Hv].
    + by rewrite decide_True.
    + rewrite decide_False by congruence. by rewrite <- IH.
  - unfold registerFallback. rewrite routes_of_insert.
    destruct (decide (a' = a)) as [->|]; by rewrite <- IH.
Qed.

Lemma routes_fallback a os :
  trr_handlerKey <$> ars_fallback (routes_of a (run_route_regs os)) = fallback_handler a os.
Proof.
  induction os as [|[a' t' v' h|a' h] os IH]; cbn; [done| |].
  - unfold registerExact. case_bool_decide; [done|]. rewrite routes_of_insert.
    destruct (decide (a' = a)) as [->|]; by rewrite <- IH.
  - unfold registerFallback. rewrite routes_of_insert.
    destruct (decide (a' = a)) as [->|]; [by rewrite (bool_decide_eq_true_2 (a = a))|by rewrite (bool_decide_eq_false_2 (a' = a))].
Qed.

Lemma routes_versions a t os :
  match ars_versions (routes_of a (run_route_regs os)) !! t with
  | Some versions => negb (bool_decide (versions = ∅))
  | None => false
  end = has_version a t os.
Proof.
  induction os as [|[a' t' v' h|a' h] os IH]; cbn; [done| |].
  - unfold registerExact. destruct (bool_decide_reflect (t' = ""%string)) as [->|Ht'].
    { by rewrite andb_false_r. }
    rewrite andb_true_r, routes_of_insert.
    destruct (decide (a' = a)) as [->|Ha]; [|by rewrite bool_decide_eq_false_2].
    rewrite (bool_decide_eq_true_2 (a = a)) by done. cbn. rewrite lookup_insert.
    destruct (bool_decide_reflect (t' = t)) as [->|Ht]; cbn.
    + rewrite decide_True by done. rewrite bool_decide_eq_false_2; [done|]. set_solver.
    + rewrite decide_False by done. etrans; [|exact IH]. unfold routes_of.
      unfold run_route_regs. set (ar := ensure a _).
      destruct (ars_versions ar !! t'); [done|]. by rewrite lookup_insert_ne.
  - unfold registerFallback. rewrite routes_of_insert.
    destruct (decide (a' = a)) as [->|]; exact IH.
Qed.

Lemma routes_has_exact a os :
  bool_decide (ars_exact (routes_of a (run_route_regs os)) = ∅) = negb (has_exact a os).
Proof.
  induction os as [|[a' t' v' h|a' h] os IH]; cbn; [done| |].
  - unfold registerExact. destruct (bool_decide_reflect (t' = ""%string)) as [->|Ht'].
    { by rewrite andb_false_r. }
    rewrite andb_true_r, routes_of_insert.
    destruct (decide (a' = a)) as [->|Ha]; [|by rewrite (bool_decide_eq_false_2 (a' = a))].
    rewrite (bool_decide_eq_true_2 (a = a)) by done. cbn.
    rewrite bool_decide_eq_false_2; [done|]. apply insert_non_empty.
  - unfold registerFallback. rewrite routes_of_insert.
    destruct (decide (a' = a)) as [->|]; exact IH.
Qed.

Lemma resolve_routes a t v r :
  resolve a t v r = resolve a t v (<[a := routes_of a r]> r).
Proof.
  unfold resolve, routes_of, ensure. rewrite lookup_insert_eq. by destruct (r !! a).
Qed.

Lemma has_version_exact a t os : has_version a t os = true -> has_exact a os = true.
Proof.
  induction os as [|[a' t' v' h'|a' h'] os IH]; cbn; [done| |done].
  destruct (bool_decide (a' = a)), (bool_decide (t' = t)), (bool_decide (t' = ""%string)); cbn; auto.
Qed.

Lemma exact_handler_has_exact a t v h os : exact_handler a t v os = Some h -> has_exact a os = true.
Proof.
  induction os as [|[a' t' v' h'|a' h'] os IH]; cbn; [done| |done].
  destruct (bool_decide (a' = a)), (bool_decide (t' = t)), (bool_decide (t' = ""%string)); cbn;
    try done; destruct (bool_decide _); cbn; auto.
Qed.

(** Type routing follows the history of registrations.  After any
    sequence of rule registrations (newest first), a message of type [t] and
    version [v] is routed to the handler of the newest exact rule for that pair
    (an empty version or handler key standing for its default), is a version
    mismatch exactly when the type has rules for other versions only, falls
    back to the newest fallback rule otherwise, and is unsupported only when
    the actor has exact rules but no fallback. *)
Theorem resolve_follows_history (a t v : string) (os : list route_reg) :
  resolve a t v (run_route_regs os) = resolve_spec a t v os.
Proof.
  rewrite resolve_routes. unfold resolve, resolve_spec. rewrite lookup_insert_eq.
  fold (or_default defaultSchemaVersion v).
  rewrite routes_has_exact, routes_versions, <- routes_exact, <- routes_fallback.
  pose proof (has_version_exact a t os) as Hv.
  pose proof (exact_handler_has_exact a t (or_default defaultSchemaVersion v)) as He.
  specialize (fun h => He h os). setoid_rewrite <- routes_exact in He.
  destruct (ars_exact _ !! _) as [rule|]; cbn in *.
  { by rewrite (He _ eq_refl). }
  destruct (has_version a t os); [by rewrite Hv|].
  destruct (ars_fallback _) as [fb|]; cbn; [by rewrite andb_false_r|].
  by destruct (has_exact a os).
Qed.
