(* ===== verification/Outcomes.v ===== *)
(** * The outcome store ([src/src/actor/outcome.go])

    Everything the runtime records for later inspection: the outcome of each
    message, the histories of hooks, guardrail decisions, asks, routings,
    batches and broker operations, and the readiness checks, which are kept in
    a ring buffer of 256 records. *)

From S2P Require Import Prelude Types.

Record outcomeStore := mkOutcomeStore {
  os_byID : gmap Z ProcessingOutcome;
  os_lifecycle : list LifecycleHookOutcome;
  os_guardrail : list GuardrailOutcome;
  os_ask : list AskOutcome;
  os_routing : list RoutingOutcome;
  os_batch : list BatchOutcome;
  os_broker : list BrokerOutcome;
  os_brokerPublished : gmap string Z;
  os_readiness : list ReadinessValidationRecord;
  os_readinessCursor : nat
}.

Definition readinessHistoryLimit : nat := 256.

Definition newOutcomeStore : outcomeStore :=
  mkOutcomeStore ∅ [] [] [] [] [] [] ∅ [] 0.

Definition outcome_put (out : ProcessingOutcome) (o : outcomeStore) : outcomeStore :=
  mkOutcomeStore (<[po_MessageID out := out]> (os_byID o)) (os_lifecycle o) (os_guardrail o)
    (os_ask o) (os_routing o) (os_batch o) (os_broker o) (os_brokerPublished o)
    (os_readiness o) (os_readinessCursor o).

Definition outcome_get (msgID : Z) (o : outcomeStore) : option ProcessingOutcome :=
  os_byID o !! msgID.

Definition putLifecycle (out : LifecycleHookOutcome) (o : outcomeStore) : outcomeStore :=
  mkOutcomeStore (os_byID o) (os_lifecycle o ++ [out]) (os_guardrail o)
    (os_ask o) (os_routing o) (os_batch o) (os_broker o) (os_brokerPublished o)
    (os_readiness o) (os_readinessCursor o).

(** The filtering loops: [for _, v := range l { if p(v) { out = append(out, v) } }]. *)
Fixpoint select {A} (p : A -> bool) (l : list A) : list A :=
  match l with
  | [] => []
  | v :: l' => if p v then v :: select p l' else select p l'
  end.

Definition lifecycleByActor (actorID : string) (o : outcomeStore) : list LifecycleHookOutcome :=
  select (fun v => bool_decide (lho_ActorID v = actorID)) (os_lifecycle o).

Definition putGuardrail (out : GuardrailOutcome) (o : outcomeStore) : outcomeStore :=
  mkOutcomeStore (os_byID o) (os_lifecycle o) (os_guardrail o ++ [out])
    (os_ask o) (os_routing o) (os_batch o) (os_broker o) (os_brokerPublished o)
    (os_readiness o) (os_readinessCursor o).

Definition guardrailByActor (actorID : string) (o : outcomeStore) : list GuardrailOutcome :=
  select (fun v => bool_decide (go_ActorID v = actorID)) (os_guardrail o).

Definition putReadiness (out : ReadinessValidationRecord) (o : outcomeStore) : outcomeStore :=
  let '(readiness, cursor) :=
    if (length (os_readiness o) <? readinessHistoryLimit)%nat
    then (os_readiness o ++ [out], os_readinessCursor o)
    else (<[os_readinessCursor o := out]> (os_readiness o),
          ((os_readinessCursor o + 1) mod readinessHistoryLimit)%nat) in
  mkOutcomeStore (os_byID o) (os_lifecycle o) (os_guardrail o)
    (os_ask o) (os_routing o) (os_batch o) (os_broker o) (os_brokerPublished o)
    readiness cursor.

Definition putAsk (out : AskOutcome) (o : outcomeStore) : outcomeStore :=
  mkOutcomeStore (os_byID o) (os_lifecycle o) (os_guardrail o)
    (os_ask o ++ [out]) (os_routing o) (os_batch o) (os_broker o) (os_brokerPublished o)
    (os_readiness o) (os_readinessCursor o).

Definition askByActor (actorID : string) (o : outcomeStore) : list AskOutcome :=
  select (fun v => bool_decide (ao_ActorID v = actorID)) (os_ask o).

Definition putRouting (out : RoutingOutcome) (o : outcomeStore) : outcomeStore :=
  mkOutcomeStore (os_byID o) (os_lifecycle o) (os_guardrail o)
    (os_ask o) (os_routing o ++ [out]) (os_batch o) (os_broker o) (os_brokerPublished o)
    (os_readiness o) (os_readinessCursor o).

Definition routingByRouter (routerID : string) (o : outcomeStore) : list RoutingOutcome :=
  select (fun v => bool_decide (ro_RouterID v = routerID)) (os_routing o).

Definition putBatch (out : BatchOutcome) (o : outcomeStore) : outcomeStore :=
  mkOutcomeStore (os_byID o) (os_lifecycle o) (os_guardrail o)
    (os_ask o) (os_routing o) (os_batch o ++ [out]) (os_broker o) (os_brokerPublished o)
    (os_readiness o) (os_readinessCursor o).

Definition batchByActor (actorID : string) (o : outcomeStore) : list BatchOutcome :=
  select (fun v => bool_decide (bo_ActorID v = actorID)) (os_batch o).

Definition putBroker (out : BrokerOutcome) (o : outcomeStore) : outcomeStore :=
  mkOutcomeStore (os_byID o) (os_lifecycle o) (os_guardrail o)
    (os_ask o) (os_routing o) (os_batch o) (os_broker o ++ [out])
    (if bool_decide (bro_Operation out = BrokerOperationPublish)
     then <[bro_BrokerID out := lookup_default 0 (bro_BrokerID out) (os_brokerPublished o) + 1]>
            (os_brokerPublished o)
     else os_brokerPublished o)
    (os_readiness o) (os_readinessCursor o).

Definition brokerByID (brokerID : string) (o : outcomeStore) : list BrokerOutcome :=
  select (fun v => bool_decide (bro_BrokerID v = brokerID)) (os_broker o).

Definition brokerPublishedCount (brokerID : string) (o : outcomeStore) : Z :=
  lookup_default 0 brokerID (os_brokerPublished o).

(** The two [copy] calls write the tail of the buffer, then its head. *)
Definition readinessAll (o : outcomeStore) : list ReadinessValidationRecord :=
  if (length (os_readiness o) <? readinessHistoryLimit)%nat then os_readiness o
  else drop (os_readinessCursor o) (os_readiness o)
       ++ take (os_readinessCursor o) (os_readiness o).

(** ** The store as a function of its history *)

Inductive outcome_op :=
  | OpPut (out : ProcessingOutcome)
  | OpLifecycle (out : LifecycleHookOutcome)
  | OpGuardrail (out : GuardrailOutcome)
  | OpReadiness (out : ReadinessValidationRecord)
  | OpAsk (out : AskOutcome)
  | OpRouting (out : RoutingOutcome)
  | OpBatch (out : BatchOutcome)
  | OpBroker (out : BrokerOutcome).

Definition run_outcome_op (o : outcomeStore) (op : outcome_op) : outcomeStore :=
  match op with
  | OpPut out => outcome_put out o
  | OpLifecycle out => putLifecycle out o
  | OpGuardrail out => putGuardrail out o
  | OpReadiness out => putReadiness out o
  | OpAsk out => putAsk out o
  | OpRouting out => putRouting out o
  | OpBatch out => putBatch out o
  | OpBroker out => putBroker out o
  end.

Definition run_outcome_ops (ops : list outcome_op) : outcomeStore :=
  foldl run_outcome_op newOutcomeStore ops.

(** The readiness records of a history, and its publications by a broker. *)
Definition readiness_of (ops : list outcome_op) : list ReadinessValidationRecord :=
  omap (fun op => match op with OpReadiness r => Some r | _ => None end) ops.

Definition publications_of (brokerID : string) (ops : list outcome_op) : list BrokerOutcome :=
  omap (fun op => match op with
    | OpBroker b =>
        if bool_decide (bro_Operation b = BrokerOperationPublish)
           && bool_decide (bro_BrokerID b = brokerID)
        then Some b else None
    | _ => None end) ops.

(** The ring holds the last records, oldest at the cursor. *)
Definition ring_ok (o : outcomeStore) (hist : list ReadinessValidationRecord) : Prop :=
  (length (os_readiness o) <= readinessHistoryLimit)%nat /\
  (os_readinessCursor o < readinessHistoryLimit)%nat /\
  ((length (os_readiness o) < readinessHistoryLimit)%nat ->
     os_readiness o = hist /\ os_readinessCursor o = 0%nat) /\
  ((length (os_readiness o) = readinessHistoryLimit)%nat ->
     (readinessHistoryLimit <= length hist)%nat /\
     drop (os_readinessCursor o) (os_readiness o) ++ take (os_readinessCursor o) (os_readiness o)
       = lastn readinessHistoryLimit hist).

(** Overwriting the oldest record of a full ring. *)
Lemma ring_overwrite {A} (l : list A) (c n : nat) (x : A) :
  length l = n -> (c < n)%nat ->
  drop ((c + 1) mod n) (<[c := x]> l) ++ take ((c + 1) mod n) (<[c := x]> l) =
  drop 1 (drop c l ++ take c l) ++ [x].
Proof.
  intros Hl Hc.
  rewrite drop_app_le by (rewrite length_drop; lia). rewrite drop_drop.
  destruct (decide (c + 1 = n)%nat) as [Hn|Hne].
  - rewrite Hn, Nat.Div0.mod_same, drop_0, take_0, app_nil_r.
    rewrite (drop_ge l n) by lia. cbn.
    rewrite insert_take_drop by lia. rewrite (drop_ge l (S c)) by lia. done.
  - rewrite Nat.mod_small by lia.
    rewrite drop_insert_lt by lia. rewrite <- app_assoc. f_equal.
    rewrite insert_take_drop by lia. rewrite Nat.add_1_r, firstn_app, length_take.
    rewrite Nat.min_l by lia. replace (S c - c)%nat with 1%nat by lia. cbn.
    rewrite take_take. by rewrite Nat.min_r by lia.
Qed.

Lemma putReadiness_ring out o hist :
  ring_ok o hist -> ring_ok (putReadiness out o) (hist ++ [out]).
Proof.
  intros (Hlen & Hc & Hlt & Hfull). unfold putReadiness.
  destruct (Nat.ltb_spec (length (os_readiness o)) readinessHistoryLimit) as [Hs|Hs].
  - destruct (Hlt Hs) as [Hh Hc0]. rewrite Hh in *. split_and!; cbn; rewrite ?length_app; cbn; [lia|lia|done|].
    intros Hf. rewrite Hc0. split; [lia|].
    rewrite drop_0, take_0, app_nil_r, lastn_all; [done|]. rewrite length_app. cbn. lia.
  - assert (length (os_readiness o) = readinessHistoryLimit) as Hf by lia.
    destruct (Hfull Hf) as [Hh Hr]. split_and!; cbn -[Nat.modulo]; rewrite ?length_insert.
    + lia.
    + apply Nat.mod_upper_bound. done.
    + lia.
    + intros _. split; [rewrite length_app; lia|].
      rewrite ring_overwrite by done. rewrite Hr, lastn_snoc; [done|unfold readinessHistoryLimit; lia|done].
Qed.

Lemma run_outcome_op_ring op o hist :
  ring_ok o hist -> ring_ok (run_outcome_op o op) (hist ++ readiness_of [op]).
Proof.
  destruct op; cbn -[putReadiness]; rewrite ?app_nil_r; try done. apply putReadiness_ring.
Qed.

Lemma run_outcome_ops_ring ops : ring_ok (run_outcome_ops ops) (readiness_of ops).
Proof.
  induction ops as [|op ops IH] using rev_ind.
  - cbv [ring_ok run_outcome_ops newOutcomeStore readiness_of]. cbn. unfold readinessHistoryLimit.
    split_and!; [lia|lia|done|lia].
  - unfold run_outcome_ops, readiness_of in *. rewrite foldl_snoc, omap_app.
    by apply run_outcome_op_ring.
Qed.

Lemma run_outcome_ops_published b ops :
  brokerPublishedCount b (run_outcome_ops ops) = Z.of_nat (length (publications_of b ops)).
Proof.
  induction ops as [|op ops IH] using rev_ind; [done|].
  unfold run_outcome_ops, publications_of in *. rewrite foldl_snoc, omap_app, length_app.
  rewrite Nat2Z.inj_add, <- IH. unfold brokerPublishedCount, lookup_default.
  destruct op as [| | |r| | | |out]; cbn -[putReadiness Z.add]; try lia.
  - unfold putReadiness. destruct (_ <? _)%nat; cbn -[Z.add]; lia.
  - case_bool_decide as Hp; cbn -[Z.add]; [|lia]. rewrite lookup_insert.
    destruct (decide (bro_BrokerID out = b)) as [->|Hb]; cbn -[Z.add].
    + by rewrite bool_decide_eq_true_2.
    + rewrite bool_decide_eq_false_2 by done. cbn. lia.
Qed.

(** The store reports its history exactly.  After any sequence of
    recordings, the readiness report is the last 256 readiness records in the
    order they were made (the ring buffer never loses, duplicates or reorders a
    record), and a broker's publication count is the number of its recorded
    publications. *)
Theorem outcome_store_reports_history (ops : list outcome_op) (b : string) :
  readinessAll (run_outcome_ops ops) = lastn 256 (readiness_of ops) /\
  brokerPublishedCount b (run_outcome_ops ops) = Z.of_nat (length (publications_of b ops)).
Proof.
  split; [|apply run_outcome_ops_published].
  destruct (run_outcome_ops_ring ops) as (Hlen & _ & Hlt & Hfull). unfold readinessAll.
  destruct (Nat.ltb_spec (length (os_readiness (run_outcome_ops ops))) readinessHistoryLimit) as [Hs|Hs].
  - destruct (Hlt Hs) as [Hh _]. rewrite Hh in *. rewrite lastn_all; [done|].
    unfold readinessHistoryLimit in *. lia.
  - apply Hfull. lia.
Qed.
