(* ===== verification/Monitors.v ===== *)
(** * Actor monitors ([src/src/actor/monitors.go])

    The table of active monitors: who watches which actor, indexed by target
    and by reference.  It is refined to the list of active monitors in the
    order they were created.  The operations that use the table ([Monitor],
    [Demonitor], [notifyMonitors]) are in [Lifecycle.v]. *)

From S2P Require Import Prelude Types.

Record monitorEntry := mkMonitorEntry {
  me_ref : MonitorRef;
  me_watcher : PID;
  me_target : PID
}.

Record monitorManager := mkMonitorManager {
  mm_seq : Z;
  mm_byTarget : gmap string (list monitorEntry);
  mm_byRef : gmap Z monitorEntry
}.

Definition newMonitorManager : monitorManager := mkMonitorManager 0 ∅ ∅.

(** The target's actor ID, the key of [byTarget]. *)
Definition target_id (e : monitorEntry) : string := ActorID (me_target e).

(** [mm.byTarget[k]], [nil] when absent. *)
Definition targets_at (k : string) (m : gmap string (list monitorEntry)) : list monitorEntry :=
  default [] (m !! k).

Definition mm_add (watcher target : PID) (mm : monitorManager) : monitorManager * MonitorRef :=
  let id := u64_succ (mm_seq mm) in
  let entry := mkMonitorEntry id watcher target in
  (mkMonitorManager id
     (<[ActorID target := targets_at (ActorID target) (mm_byTarget mm) ++ [entry]]>
        (mm_byTarget mm))
     (<[id := entry]> (mm_byRef mm)), id).

(** The loop that removes the first entry with the reference. *)
Fixpoint remove_ref (id : MonitorRef) (entries : list monitorEntry) : list monitorEntry :=
  match entries with
  | [] => []
  | e :: entries' => if me_ref e =? id then entries' else e :: remove_ref id entries'
  end.

Definition mm_remove (ref : MonitorRef) (mm : monitorManager) : monitorManager * bool :=
  match mm_byRef mm !! ref with
  | None => (mm, false)
  | Some entry =>
      let byRef := delete ref (mm_byRef mm) in
      let k := target_id entry in
      let entries := targets_at k (mm_byTarget mm) in
      (* the map entry is only written when the loop finds the reference *)
      let byTarget :=
        if existsb (fun e => me_ref e =? ref) entries
        then <[k := remove_ref ref entries]> (mm_byTarget mm)
        else mm_byTarget mm in
      let byTarget :=
        if (length (targets_at k byTarget) =? 0)%nat then delete k byTarget else byTarget in
      (mkMonitorManager (mm_seq mm) byTarget byRef, true)
  end.

(** [for _, e := range entries { delete(mm.byRef, e.ref.id) }]. *)
Definition delete_refs (entries : list monitorEntry) (m : gmap Z monitorEntry)
    : gmap Z monitorEntry :=
  foldl (fun m e => delete (me_ref e) m) m entries.

Definition mm_drain (targetActorID : string) (mm : monitorManager)
    : monitorManager * list monitorEntry :=
  let entries := targets_at targetActorID (mm_byTarget mm) in
  (mkMonitorManager (mm_seq mm) (delete targetActorID (mm_byTarget mm))
     (delete_refs entries (mm_byRef mm)), entries).

(** ** The active monitors, in creation order *)

Module MonitorSpec.
Record state := mkState {
  created : Z;
  active : list monitorEntry
}.

Definition init : state := mkState 0 [].

Definition add (watcher target : PID) (s : state) : state * MonitorRef :=
  let id := created s + 1 in
  (mkState id (active s ++ [mkMonitorEntry id watcher target]), id).

Definition remove (ref : MonitorRef) (s : state) : state * bool :=
  (mkState (created s) (filter (fun e => me_ref e <> ref) (active s)),
   bool_decide (ref ∈ me_ref <$> active s)).

Definition drain (targetActorID : string) (s : state) : state * list monitorEntry :=
  (mkState (created s) (filter (fun e => target_id e <> targetActorID) (active s)),
   filter (fun e => target_id e = targetActorID) (active s)).
End MonitorSpec.

(** The concrete tables hold exactly the active monitors. *)
Record mm_rep (mm : monitorManager) (s : MonitorSpec.state) : Prop := {
  rep_seq : mm_seq mm = MonitorSpec.created s;
  rep_nonneg : 0 <= MonitorSpec.created s;
  rep_nodup : NoDup (me_ref <$> MonitorSpec.active s);
  rep_bound e : e ∈ MonitorSpec.active s -> 0 < me_ref e <= MonitorSpec.created s;
  rep_ref id e : mm_byRef mm !! id = Some e <-> e ∈ MonitorSpec.active s /\ me_ref e = id;
  rep_target k :
    targets_at k (mm_byTarget mm) = filter (fun e => target_id e = k) (MonitorSpec.active s)
}.

Lemma targets_at_insert k k' l m :
  targets_at k (<[k' := l]> m) = if decide (k' = k) then l else targets_at k m.
Proof. unfold targets_at. rewrite lookup_insert. by destruct (decide _). Qed.

Lemma targets_at_delete k k' m :
  targets_at k (delete k' m) = if decide (k' = k) then [] else targets_at k m.
Proof. unfold targets_at. rewrite lookup_delete. by destruct (decide _). Qed.

Lemma delete_refs_lookup es m id :
  delete_refs es m !! id = if decide (id ∈ me_ref <$> es) then None else m !! id.
Proof.
  revert m. induction es as [|e es IH]; intros m; cbn; [done|].
  change (delete_refs es (delete (me_ref e) m) !! id = if decide (id ∈ me_ref e :: (me_ref <$> es))
    then None else m !! id).
  rewrite IH. destruct (Z.eq_dec (me_ref e) id) as [<-|Hne].
  - rewrite lookup_delete_eq, (decide_True (P := _ ∈ _ :: _)) by set_solver. by destruct (decide _).
  - rewrite lookup_delete_ne by done.
    destruct (decide (id ∈ me_ref <$> es)), (decide (id ∈ me_ref e :: (me_ref <$> es))); set_solver.
Qed.

Lemma remove_ref_filter ref es :
  NoDup (me_ref <$> es) -> remove_ref ref es = filter (fun e => me_ref e <> ref) es.
Proof.
  induction es as [|e es IH]; intros Hnd; [done|]. cbn in Hnd. apply NoDup_cons in Hnd as [Hx Hnd].
  cbn [remove_ref]. rewrite filter_cons. destruct (Z.eqb_spec (me_ref e) ref) as [<-|Hne].
  - rewrite decide_False by auto. symmetry. apply filter_all.
    intros e' He' Heq. apply Hx. rewrite <- Heq. apply list_elem_of_fmap. eauto.
  - rewrite decide_True by done. by rewrite IH.
Qed.

Lemma NoDup_fmap_filter (P : monitorEntry -> Prop) `{forall e, Decision (P e)} l :
  NoDup (me_ref <$> l) -> NoDup (me_ref <$> filter P l).
Proof.
  induction l as [|e l IH]; intros Hnd; [done|]. cbn in Hnd. apply NoDup_cons in Hnd as [Hx Hnd].
  rewrite filter_cons. destruct (decide (P e)); [|by apply IH].
  cbn. constructor; [|by apply IH]. intros Hin. apply Hx.
  apply list_elem_of_fmap in Hin as (e' & -> & Hin). apply list_elem_of_filter in Hin as [_ Hin].
  apply list_elem_of_fmap. eauto.
Qed.

Lemma mm_rep_init : mm_rep newMonitorManager MonitorSpec.init.
Proof.
  split; cbn; try done; [constructor|set_solver|].
  intros id e. rewrite lookup_empty. set_solver.
Qed.

Lemma mm_add_rep w t mm s :
  mm_rep mm s -> MonitorSpec.created s + 1 < u64_modulus ->
  mm_rep (mm_add w t mm).1 (MonitorSpec.add w t s).1 /\
  (mm_add w t mm).2 = (MonitorSpec.add w t s).2.
Proof.
  intros [Hs H0 Hnd Hb Hr Ht] Hu. unfold mm_add. rewrite Hs, u64_succ_small by done. cbn -[Z.add].
  set (id := MonitorSpec.created s + 1). split; [|done]. split; cbn -[Z.add].
  - done.
  - lia.
  - rewrite fmap_app. cbn. apply NoDup_app. split_and!; [done| |apply NoDup_singleton].
    intros x Hx. apply list_elem_of_fmap in Hx as (e & -> & He). apply Hb in He. set_solver by lia.
  - intros e. rewrite elem_of_app, list_elem_of_singleton. intros [He| ->]; [apply Hb in He|cbn]; lia.
  - intros i e. rewrite lookup_insert_Some, Hr, elem_of_app, list_elem_of_singleton. split.
    + intros [[<- <-]|[Hne [He <-]]]; [by split; [right|]|by split; [left|]].
    + intros [[He| ->] Hi]; [|by left]. right. split; [|done].
      apply Hb in He. unfold id. lia.
  - intros k. rewrite targets_at_insert, filter_app, filter_cons, filter_nil, <- Ht. cbn.
    unfold target_id. cbn. destruct (decide (ActorID t = k)) as [<-|Hk]; [done|].
    by rewrite app_nil_r.
Qed.

(** The monitors of another target do not have the reference. *)
Lemma targets_other ref entry k mm s :
  mm_rep mm s -> mm_byRef mm !! ref = Some entry -> target_id entry <> k ->
  filter (fun e => me_ref e <> ref) (targets_at k (mm_byTarget mm)) = targets_at k (mm_byTarget mm).
Proof.
  intros Hrep He Hk. apply filter_all. intros e Hi Href. apply Hk.
  rewrite (rep_target _ _ Hrep) in Hi.
  apply list_elem_of_filter in Hi as [Ht Hin].
  assert (mm_byRef mm !! ref = Some e) by (apply (rep_ref _ _ Hrep); done). by simplify_eq.
Qed.

Lemma mm_remove_rep ref mm s :
  mm_rep mm s ->
  mm_rep (mm_remove ref mm).1 (MonitorSpec.remove ref s).1 /\
  (mm_remove ref mm).2 = (MonitorSpec.remove ref s).2.
Proof.
  intros Hrep. pose proof Hrep as [Hs H0 Hnd Hb Hr Ht]. unfold mm_remove.
  destruct (mm_byRef mm !! ref) as [entry|] eqn:He.
  2: { cbn. assert (ref ∉ me_ref <$> MonitorSpec.active s) as Hn.
       { intros Hin. apply list_elem_of_fmap in Hin as (e & -> & Hin).
         assert (mm_byRef mm !! me_ref e = Some e) by (by apply Hr). congruence. }
       rewrite bool_decide_eq_false_2 by done. split; [|done].
       rewrite (filter_all _ (MonitorSpec.active s)); [by destruct s|].
       intros e Hi Heq. apply Hn. rewrite <- Heq. apply list_elem_of_fmap. eauto. }
  pose proof (proj1 (Hr _ _) He) as [Hin Href]. cbn. split.
  2: { rewrite bool_decide_eq_true_2; [done|]. apply list_elem_of_fmap. eauto. }
  split; cbn; [done|done|by apply NoDup_fmap_filter| | |].
  - intros e Hin'. apply list_elem_of_filter in Hin' as [_ Hin']. auto.
  - intros id e. rewrite lookup_delete_Some, Hr, list_elem_of_filter. naive_solver.
  - intros k. rewrite filter_comm, <- Ht.
    set (k0 := target_id entry). set (es := targets_at k0 (mm_byTarget mm)).
    assert (entry ∈ es) as Hes.
    { unfold es. rewrite Ht. by apply list_elem_of_filter. }
    assert (existsb (fun e => me_ref e =? ref) es = true) as ->.
    { apply existsb_exists. exists entry. split; [by apply list_elem_of_In|]. by apply Z.eqb_eq. }
    assert (remove_ref ref es = filter (fun e => me_ref e <> ref) es) as ->.
    { apply remove_ref_filter. unfold es. rewrite Ht. by apply NoDup_fmap_filter. }
    rewrite targets_at_insert, decide_True by done.
    destruct (Nat.eqb_spec (length (filter (fun e => me_ref e <> ref) es)) 0) as [Hl|Hl];
      rewrite ?targets_at_delete, ?targets_at_insert.
    + apply nil_length_inv in Hl. destruct (decide (k0 = k)) as [<-|Hk]; [by fold es; rewrite Hl|].
      by rewrite (targets_other ref entry k _ s).
    + destruct (decide (k0 = k)) as [<-|Hk]; [done|]. by rewrite (targets_other ref entry k _ s).
Qed.

Lemma mm_drain_rep k mm s :
  mm_rep mm s ->
  mm_rep (mm_drain k mm).1 (MonitorSpec.drain k s).1 /\
  (mm_drain k mm).2 = (MonitorSpec.drain k s).2.
Proof.
  intros [Hs H0 Hnd Hb Hr Ht]. cbn. rewrite Ht. split; [|done].
  split; cbn; [done|done|by apply NoDup_fmap_filter| | |].
  - intros e Hin. apply list_elem_of_filter in Hin as [_ Hin]. auto.
  - intros id e. rewrite delete_refs_lookup, list_elem_of_filter.
    destruct (decide _) as [Hin|Hin]; rewrite list_elem_of_fmap in Hin;
      setoid_rewrite list_elem_of_filter in Hin.
    + destruct Hin as (e' & -> & Hk & Hin). split; [done|]. intros [[Hne Hin'] Heq].
      assert (Some e = Some e') by (rewrite <- (proj2 (Hr (me_ref e') e')), <- (proj2 (Hr (me_ref e') e)); done).
      by simplify_eq.
    + rewrite Hr. split; [|naive_solver]. intros [Hin' <-]. split_and!; [|done|done].
      intros Hk. apply Hin. eauto.
  - intros k'. rewrite targets_at_delete, filter_comm.
    destruct (decide (k = k')) as [<-|Hk].
    + symmetry. rewrite filter_comm. apply filter_none. intros e. tauto.
    + rewrite Ht. symmetry. apply filter_all. intros e Hin.
      apply list_elem_of_filter in Hin as [<- _]. congruence.
Qed.

(** ** Sequences of monitor operations *)

Inductive monitor_op :=
  | MoAdd (watcher target : PID)
  | MoRemove (ref : MonitorRef)
  | MoDrain (targetActorID : string).

Inductive monitor_result :=
  | MresRef (ref : MonitorRef)
  | MresBool (b : bool)
  | MresEntries (es : list monitorEntry).

Definition run_monitor_op (o : monitor_op) (mm : monitorManager) : monitorManager * monitor_result :=
  match o with
  | MoAdd w t => let '(mm, r) := mm_add w t mm in (mm, MresRef r)
  | MoRemove ref => let '(mm, b) := mm_remove ref mm in (mm, MresBool b)
  | MoDrain k => let '(mm, es) := mm_drain k mm in (mm, MresEntries es)
  end.

Definition spec_monitor_op (o : monitor_op) (s : MonitorSpec.state)
    : MonitorSpec.state * monitor_result :=
  match o with
  | MoAdd w t => let '(s, r) := MonitorSpec.add w t s in (s, MresRef r)
  | MoRemove ref => let '(s, b) := MonitorSpec.remove ref s in (s, MresBool b)
  | MoDrain k => let '(s, es) := MonitorSpec.drain k s in (s, MresEntries es)
  end.

Lemma run_monitor_op_rep o mm s :
  mm_rep mm s -> MonitorSpec.created s + 1 < u64_modulus ->
  mm_rep (run_monitor_op o mm).1 (spec_monitor_op o s).1 /\
  (run_monitor_op o mm).2 = (spec_monitor_op o s).2 /\
  MonitorSpec.created (spec_monitor_op o s).1 <= MonitorSpec.created s + 1.
Proof.
  intros Hrep Hu. destruct o as [w t|ref|k]; cbn [run_monitor_op spec_monitor_op].
  - destruct (mm_add_rep w t mm s Hrep Hu) as [H1 H2].
    destruct (mm_add w t mm). cbn in *. split_and!; [done|by f_equal|lia].
  - destruct (mm_remove_rep ref mm s Hrep) as [H1 H2].
    destruct (mm_remove ref mm). cbn in *. split_and!; [done|by f_equal|lia].
  - destruct (mm_drain_rep k mm s Hrep) as [H1 H2].
    destruct (mm_drain k mm). cbn in *. split_and!; [done|by f_equal|lia].
Qed.

(** The monitor table refines the list of active monitors.  Over any
    sequence of fewer than [2^64] operations, the two indexes answer as the
    list in creation order does: references are fresh, a cancelled or drained
    monitor is gone from both indexes, and draining an actor returns exactly
    its active monitors, oldest first, each of them once. *)
Theorem monitor_table_refines_list (os : list monitor_op) :
  Z.of_nat (length os) < u64_modulus ->
  (run_ops run_monitor_op os newMonitorManager).2 = (run_ops spec_monitor_op os MonitorSpec.init).2.
Proof.
  assert (forall mm s, mm_rep mm s ->
    MonitorSpec.created s + Z.of_nat (length os) < u64_modulus ->
    (run_ops run_monitor_op os mm).2 = (run_ops spec_monitor_op os s).2) as Hg.
  { induction os as [|o os IH]; intros mm s Hrep Hu; [done|]. cbn [length] in Hu.
    destruct (run_monitor_op_rep o mm s Hrep) as (H1 & H2 & H3); [lia|]. cbn [run_ops].
    destruct (run_monitor_op o mm) as [mm' x], (spec_monitor_op o s) as [s' y]. cbn [fst snd] in *.
    specialize (IH mm' s' H1). destruct (run_ops run_monitor_op os mm'), (run_ops spec_monitor_op os s').
    cbn in *. f_equal; [done|]. apply IH. lia. }
  intros Hu. apply Hg; [apply mm_rep_init|]. cbn. lia.
Qed.

Lemma monitor_table_refines_list_witness :
  (run_ops run_monitor_op
     [MoAdd (mkPID "n" "w1" 1) (mkPID "n" "a" 1); MoAdd (mkPID "n" "w2" 1) (mkPID "n" "a" 1);
      MoAdd (mkPID "n" "w3" 1) (mkPID "n" "b" 1); MoRemove 1; MoDrain "a"] newMonitorManager).2 =
  [MresRef 1; MresRef 2; MresRef 3; MresBool true;
   MresEntries [mkMonitorEntry 2 (mkPID "n" "w2" 1) (mkPID "n" "a" 1)]].
Proof.
  etransitivity; [apply (monitor_table_refines_list
     [MoAdd (mkPID "n" "w1" 1) (mkPID "n" "a" 1); MoAdd (mkPID "n" "w2" 1) (mkPID "n" "a" 1);
      MoAdd (mkPID "n" "w3" 1) (mkPID "n" "b" 1); MoRemove 1; MoDrain "a"]); reflexivity|].
  vm_compute. reflexivity.
Defined.
