(* ===== verification/PubSub.v ===== *)
(** * Topic patterns, the subscription trie and the broker's indexes
      ([pubsub_pattern.go], [pubsub_trie.go], [pubsub_dispatch.go],
       [pubsub_commands.go] and the tables of [pubsub_broker.go])

    Topics are dot-separated; in a pattern [+] stands for one segment and a
    final [#] for any number of them.  The trie is compared with a direct
    matcher of patterns against topics, and the broker's tables with the list
    of active subscriptions.  The broker actor itself, which talks to the
    runtime, is in [Broker.v]. *)

From S2P Require Import Prelude Types.

(** ** Strings *)

(** [strings.Split(s, ".")]. *)
Fixpoint splitDots (s : string) : list string :=
  match s with
  | EmptyString => [""%string]
  | String c s' =>
      match splitDots s' with
      | [] => [""%string]
      | seg :: segs => if Ascii.eqb c "." then ""%string :: seg :: segs else String c seg :: segs
      end
  end.

(** [strings.Join(segs, ".")], for the round trip. *)
Fixpoint joinDots (segs : list string) : string :=
  match segs with
  | [] => ""
  | [seg] => seg
  | seg :: segs' => seg +:+ "." +:+ joinDots segs'
  end.

(** Whether [strings.TrimSpace] leaves nothing: every rune is white space
    (in UTF-8: the ASCII ones, U+0085, U+00A0, U+1680, U+2000-200A, U+2028,
    U+2029, U+202F, U+205F and U+3000). *)
Fixpoint trimmedEmpty (s : string) : bool :=
  let code c := Z.of_nat (nat_of_ascii c) in
  match s with
  | EmptyString => true
  | String a s1 =>
      let a := code a in
      if ((9 <=? a) && (a <=? 13)) || (a =? 32) then trimmedEmpty s1
      else match s1 with
      | EmptyString => false
      | String b s2 =>
          let b := code b in
          if (a =? 194) && ((b =? 133) || (b =? 160)) then trimmedEmpty s2
          else match s2 with
          | EmptyString => false
          | String c s3 =>
              let c := code c in
              if ((a =? 225) && (b =? 154) && (c =? 128))
                 || ((a =? 226) && (b =? 128) &&
                     (((128 <=? c) && (c <=? 138)) || (c =? 168) || (c =? 169) || (c =? 175)))
                 || ((a =? 226) && (b =? 129) && (c =? 159))
                 || ((a =? 227) && (b =? 128) && (c =? 128))
              then trimmedEmpty s3 else false
          end
      end
  end.

(** ** Patterns and topics *)

Record topicPattern := mkTopicPattern {
  tp_raw : string;
  tp_segments : list string
}.

(** The loop over the segments; the remaining ones tell whether [i] is the
    last index. *)
Fixpoint checkPatternSegments (segs : list string) : bool :=
  match segs with
  | [] => true
  | seg :: rest =>
      if bool_decide (seg = ""%string) then false
      else if containsByte seg "+" && negb (bool_decide (seg = "+"%string)) then false
      else if containsByte seg "#" && negb (bool_decide (seg = "#"%string)) then false
      else if bool_decide (seg = "#"%string) && negb (bool_decide (rest = [])) then false
      else checkPatternSegments rest
  end.

Definition parseTopicPattern (raw : string) : topicPattern + string :=
  if trimmedEmpty raw then inr ErrPubSubInvalidPattern
  else
    let segments := splitDots raw in
    if checkPatternSegments segments then inl (mkTopicPattern raw segments)
    else inr ErrPubSubInvalidPattern.

Fixpoint parsePublishSegments (raw : string) (segs : list string) : option string :=
  match segs with
  | [] => None
  | seg :: rest =>
      if bool_decide (seg = ""%string) || bool_decide (seg = "+"%string)
         || bool_decide (seg = "#"%string)
      then Some ErrPubSubInvalidTopic
      else if containsByte seg "+" || containsByte seg "#"
      then Some (ErrPubSubInvalidTopic +:+ ": " +:+ raw)
      else parsePublishSegments raw rest
  end.

Definition parsePublishTopic (raw : string) : list string + string :=
  if trimmedEmpty raw then inr ErrPubSubInvalidTopic
  else
    let segments := splitDots raw in
    match parsePublishSegments raw segments with
    | Some err => inr err
    | None => inl segments
    end.

(** [isBrokerCommand]. *)
Definition isBrokerCommand (p : payload) : bool :=
  match p with
  | PBrokerSubscribeCommand _ _ | PBrokerUnsubscribeCommand _ _ | PBrokerPublishCommand _ _ _ => true
  | _ => false
  end.

(** [classifyPublishResult]. *)
Definition classifyPublishResult (unreachable total : Z) : BrokerOutcomeType * string :=
  if unreachable =? 0 then (BrokerOutcomePublishSuccess, ""%string)
  else if unreachable <? total
  then (BrokerOutcomePublishPartialDelivery, "subscriber_unreachable"%string)
  else (BrokerOutcomeTargetUnreachable, "subscriber_unreachable"%string).

(** ** The trie *)

#[local] Set Warnings "-register-all".

Inductive trieNode := mkTrieNode {
  tn_children : gmap string trieNode;
  tn_star : option trieNode;
  tn_exact : gmap string PID;
  tn_tail : gmap string PID
}.

Definition newTrieNode : trieNode := mkTrieNode ∅ None ∅ ∅.

(** [subscriptionTrie] is its root. *)
Definition subscriptionTrie : Type := trieNode.

Definition newSubscriptionTrie : subscriptionTrie := newTrieNode.

(** The loop of [insert] from [node] on, which it updates in place. *)
Fixpoint insert_from (segs : list string) (pid : PID) (node : trieNode) : trieNode :=
  match segs with
  | [] => node
  | seg :: rest =>
      if bool_decide (seg = "#"%string) then
        mkTrieNode (tn_children node) (tn_star node) (tn_exact node)
          (<[Key pid := pid]> (tn_tail node))
      else if bool_decide (seg = "+"%string) then
        let star := default newTrieNode (tn_star node) in
        mkTrieNode (tn_children node) (Some (insert_from rest pid star)) (tn_exact node)
          (tn_tail node)
      else
        let next := default newTrieNode (tn_children node !! seg) in
        let next :=
          if bool_decide (rest = [])
          then mkTrieNode (tn_children next) (tn_star next)
                 (<[Key pid := pid]> (tn_exact next)) (tn_tail next)
          else next in
        mkTrieNode (<[seg := insert_from rest pid next]> (tn_children node)) (tn_star node)
          (tn_exact node) (tn_tail node)
  end.

Definition trie_insert (p : topicPattern) (pid : PID) (t : subscriptionTrie) : subscriptionTrie :=
  insert_from (tp_segments p) pid t.

(** The recursive closure [walk] of [match], with the map of results. *)
Fixpoint walk (topic : list string) (node : option trieNode) (results : gmap string PID)
    : gmap string PID :=
  match node with
  | None => results
  | Some node =>
      let results := tn_tail node ∪ results in
      match topic with
      | [] => tn_exact node ∪ results
      | seg :: topic' =>
          walk topic' (tn_star node) (walk topic' (tn_children node !! seg) results)
      end
  end.

(** [match]; the order of the returned slice is a map's iteration order. *)
Definition trie_match (topic : list string) (t : subscriptionTrie) : list PID :=
  (map_to_list (walk topic (Some t) ∅)).*2.

(** ** Reference matcher *)

(** A pattern against a topic, segment by segment. *)
Fixpoint matches (pattern topic : list string) : bool :=
  match pattern, topic with
  | [], [] => true
  | [], _ :: _ => false
  | p :: pattern', _ =>
      if bool_decide (p = "#"%string) then true
      else match topic with
      | [] => false
      | seg :: topic' =>
          (bool_decide (p = "+"%string) || bool_decide (p = seg)) && matches pattern' topic'
      end
  end.

(** What [insert] records: a pattern whose last segment is [+] leaves no mark. *)
Fixpoint recorded (segs : list string) : bool :=
  match segs with
  | [] => false
  | seg :: rest =>
      if bool_decide (seg = "#"%string) then true
      else if bool_decide (seg = "+"%string) then recorded rest
      else bool_decide (rest = []) || recorded rest
  end.

(** Segments of a topic that may be published are never wildcards, so a child
    is only reached by its own name. *)

(** ** Reachability in the trie *)

(** [reach node topic k v]: walking [topic] from [node] meets the entry
    [k -> v]. *)
Inductive reach : trieNode -> list string -> string -> PID -> Prop :=
  | reach_tail node topic k v : tn_tail node !! k = Some v -> reach node topic k v
  | reach_exact node k v : tn_exact node !! k = Some v -> reach node [] k v
  | reach_child node next seg topic k v :
      tn_children node !! seg = Some next -> reach next topic k v -> reach node (seg :: topic) k v
  | reach_star node next seg topic k v :
      tn_star node = Some next -> reach next topic k v -> reach node (seg :: topic) k v.

Definition reach_opt (node : option trieNode) (topic : list string) (k : string) (v : PID) : Prop :=
  exists n, node = Some n /\ reach n topic k v.

Lemma reach_inv node topic k v :
  reach node topic k v <->
  tn_tail node !! k = Some v \/
  match topic with
  | [] => tn_exact node !! k = Some v
  | seg :: topic' =>
      reach_opt (tn_children node !! seg) topic' k v \/ reach_opt (tn_star node) topic' k v
  end.
Proof.
  split.
  - inversion 1; subst; unfold reach_opt; naive_solver.
  - unfold reach_opt. intros [H|H]; [by constructor|].
    destruct topic; [by constructor|]. destruct H as [(n & H1 & H2)|(n & H1 & H2)];
      [by eapply reach_child|by eapply reach_star].
Qed.

(** The walk only reports entries it meets. *)
Lemma walk_sound topic node res k v :
  walk topic node res !! k = Some v -> reach_opt node topic k v \/ res !! k = Some v.
Proof.
  revert node res. induction topic as [|seg topic IH]; intros [node|] res Hw; cbn in Hw; try tauto.
  - apply lookup_union_Some_raw in Hw as [Hw|[_ Hw]]; [left; eexists; split; [done|]; by constructor|].
    apply lookup_union_Some_raw in Hw as [Hw|[_ Hw]]; [left; eexists; split; [done|]; by constructor|tauto].
  - apply IH in Hw as [(n & H1 & H2)|Hw]; [left; eexists; split; [done|]; by eapply reach_star|].
    apply IH in Hw as [(n & H1 & H2)|Hw]; [left; eexists; split; [done|]; by eapply reach_child|].
    apply lookup_union_Some_raw in Hw as [Hw|[_ Hw]]; [left; eexists; split; [done|]; by constructor|tauto].
Qed.

Lemma walk_keeps topic node res k :
  is_Some (res !! k) -> is_Some (walk topic node res !! k).
Proof.
  revert node res. induction topic as [|seg topic IH]; intros [node|] res Hr; cbn; try done.
  - rewrite !lookup_union_is_Some. auto.
  - apply IH, IH. rewrite lookup_union_is_Some. auto.
Qed.

Lemma walk_complete topic node res k v :
  reach_opt node topic k v -> is_Some (walk topic node res !! k).
Proof.
  revert node res. induction topic as [|seg topic IH]; intros node res (n & -> & Hr); cbn;
    apply reach_inv in Hr as [Hr|Hr].
  - rewrite !lookup_union_is_Some. eauto.
  - rewrite !lookup_union_is_Some. eauto.
  - apply walk_keeps, walk_keeps. rewrite lookup_union_is_Some. eauto.
  - destruct Hr as [Hr|Hr]; [apply walk_keeps|]; by eapply IH.
Qed.

(** ** Insertion *)

(** What an insertion adds, seen from the entries it can be met by. *)
Definition new_entry (segs : list string) (pid : PID) (topic : list string) (k : string) (v : PID)
    : Prop :=
  recorded segs = true /\ matches segs topic = true /\ k = Key pid /\ v = pid.

Lemma new_node_reach topic k v : ~ reach newTrieNode topic k v.
Proof.
  rewrite reach_inv. unfold reach_opt. cbn. rewrite lookup_empty. intros [|H]; [done|].
  destruct topic; [done|]. rewrite lookup_empty in H. naive_solver.
Qed.

Lemma reach_default o topic k v :
  reach (default newTrieNode o) topic k v <-> reach_opt o topic k v.
Proof.
  unfold reach_opt. destruct o as [n|]; cbn; [naive_solver|]. split; [|naive_solver].
  intros H. by apply new_node_reach in H.
Qed.

(** Marking a node as the end of an exact pattern. *)
Definition mark_exact (pid : PID) (n : trieNode) : trieNode :=
  mkTrieNode (tn_children n) (tn_star n) (<[Key pid := pid]> (tn_exact n)) (tn_tail n).

Lemma mark_exact_inv pid n topic k v :
  reach (mark_exact pid n) topic k v -> reach n topic k v \/ (topic = [] /\ k = Key pid /\ v = pid).
Proof.
  rewrite !reach_inv. cbn. intros [H|H]; [auto|]. destruct topic; [|auto].
  apply lookup_insert_Some in H as [[<- <-]|[_ H]]; auto.
Qed.

Lemma mark_exact_old pid n topic k v :
  reach n topic k v -> exists v', reach (mark_exact pid n) topic k v'.
Proof.
  intros Hr. destruct (decide (topic = [] /\ k = Key pid)) as [[-> ->]|Hne].
  - exists pid. apply reach_exact. cbn. apply lookup_insert_eq.
  - exists v. revert Hr. rewrite !reach_inv. cbn. intros [H|H]; [auto|].
    destruct topic; [|auto]. right. rewrite lookup_insert_ne; [done|]. naive_solver.
Qed.

Lemma insert_reach_inv segs pid node topic k v :
  reach (insert_from segs pid node) topic k v ->
  reach node topic k v \/ new_entry segs pid topic k v.
Proof.
  unfold new_entry. revert node topic.
  induction segs as [|seg rest IH]; intros node topic Hr; cbn in Hr; [auto|]. cbn [recorded matches].
  destruct (bool_decide_reflect (seg = "#"%string)) as [Hs|Hs].
  { apply reach_inv in Hr. cbn in Hr. destruct Hr as [Hr|Hr]; [|left; apply reach_inv; auto].
    apply lookup_insert_Some in Hr as [[<- <-]|[_ Hr]]; [auto|left; by constructor]. }
  destruct (bool_decide_reflect (seg = "+"%string)) as [Hp|Hp].
  { apply reach_inv in Hr. cbn in Hr. destruct Hr as [Hr|Hr]; [left; by constructor|].
    destruct topic as [|x topic]; [left; by apply reach_exact|].
    destruct Hr as [Hr|(n & Hn & Hr)]; [left; apply reach_inv; auto|]. simplify_eq.
    apply IH in Hr as [Hr|Hr]; [|auto]. apply reach_default in Hr. left. apply reach_inv. auto. }
  apply reach_inv in Hr. cbn in Hr. destruct Hr as [Hr|Hr]; [left; by constructor|].
  destruct topic as [|x topic]; [left; by apply reach_exact|].
  destruct Hr as [(n & Hn & Hr)|Hr]; [|left; apply reach_inv; auto].
  apply lookup_insert_Some in Hn as [[-> Hn]|[_ Hn]]; [|left; apply reach_inv; right; left; by exists n].
  rewrite (bool_decide_eq_true_2 (x = x)) by done. cbn. subst n.
  assert (reach (default newTrieNode (tn_children node !! x)) topic k v ->
    reach node (x :: topic) k v) as Hd.
  { intros H. apply reach_default in H. apply reach_inv. auto. }
  destruct (bool_decide_reflect (rest = [])) as [->|Hrest].
  - cbn in Hr. apply (mark_exact_inv pid) in Hr as [Hr|(-> & -> & ->)]; [auto|]. by right.
  - apply IH in Hr as [Hr|(H1 & H2 & H3)]; auto.
Qed.

Lemma insert_reach_old segs pid node topic k v :
  reach node topic k v -> exists v', reach (insert_from segs pid node) topic k v'.
Proof.
  revert node topic v. induction segs as [|seg rest IH]; intros node topic v Hr; [eauto|]. cbn.
  apply reach_inv in Hr.
  destruct (bool_decide (seg = "#"%string)).
  { destruct (decide (k = Key pid)) as [->|Hk].
    - exists pid. apply reach_tail. cbn. apply lookup_insert_eq.
    - exists v. apply reach_inv. cbn. by rewrite lookup_insert_ne. }
  destruct Hr as [Hr|Hr]; [exists v; apply reach_tail; by destruct (bool_decide _)|].
  destruct topic as [|x topic]; [exists v; apply reach_exact; by destruct (bool_decide _)|].
  destruct (bool_decide (seg = "+"%string)).
  { destruct Hr as [Hr|Hr]; [exists v; apply reach_inv; cbn; auto|].
    apply reach_default in Hr. apply IH in Hr as [v' Hr]. exists v'. by eapply reach_star. }
  destruct Hr as [Hr|Hr]; [|exists v; apply reach_inv; cbn; auto].
  destruct (decide (x = seg)) as [->|Hx].
  - apply reach_default in Hr.
    assert (exists v', reach (if bool_decide (rest = [])
      then mark_exact pid (default newTrieNode (tn_children node !! seg))
      else default newTrieNode (tn_children node !! seg)) topic k v') as [v1 H1].
    { destruct (bool_decide (rest = [])); [by eapply mark_exact_old|eauto]. }
    apply IH in H1 as [v2 H2]. exists v2. eapply reach_child; [cbn; apply lookup_insert_eq|done].
  - exists v. apply reach_inv. cbn. rewrite lookup_insert_ne by done. auto.
Qed.

Lemma insert_reach_new segs pid node topic :
  recorded segs = true -> matches segs topic = true ->
  exists v, reach (insert_from segs pid node) topic (Key pid) v /\ v = pid.
Proof.
  revert node topic. induction segs as [|seg rest IH]; intros node topic Hrec Hm; [done|].
  cbn in *. destruct (bool_decide (seg = "#"%string)).
  { exists pid. split; [|done]. apply reach_tail. cbn. apply lookup_insert_eq. }
  destruct topic as [|x topic]; [done|]. apply andb_true_iff in Hm as [Hx Hm].
  destruct (bool_decide_reflect (seg = "+"%string)) as [Hp|Hp]; cbn in *.
  { destruct (IH (default newTrieNode (tn_star node)) topic Hrec Hm) as (v & Hr & ->).
    exists pid. split; [|done]. by eapply reach_star. }
  apply bool_decide_eq_true in Hx as ->.
  destruct (bool_decide_reflect (rest = [])) as [->|Hrest]; cbn in *.
  - destruct topic; [|done]. exists pid. split; [|done].
    eapply reach_child; [cbn; apply lookup_insert_eq|]. apply reach_exact. cbn. apply lookup_insert_eq.
  - destruct (IH (default newTrieNode (tn_children node !! x)) topic Hrec Hm) as (v & Hr & ->).
    exists pid. split; [|done]. eapply reach_child; [cbn; apply lookup_insert_eq|done].
Qed.

(** ** A trie filled with subscriptions *)

Definition trie_of (subs : list (topicPattern * PID)) (t : subscriptionTrie) : subscriptionTrie :=
  foldl (fun t sub => trie_insert sub.1 sub.2 t) t subs.

(** A subscription the trie answers a topic with. *)
Definition answers (topic : list string) (sub : topicPattern * PID) : Prop :=
  recorded (tp_segments sub.1) = true /\ matches (tp_segments sub.1) topic = true.

Lemma trie_of_reach subs t topic k v :
  reach (trie_of subs t) topic k v ->
  reach t topic k v \/ exists sub, sub ∈ subs /\ answers topic sub /\ k = Key sub.2 /\ v = sub.2.
Proof.
  revert t. induction subs as [|[p pid] subs IH]; intros t Hr; [auto|].
  apply IH in Hr as [Hr|(sub & H1 & H2)]; [|right; exists sub; split; [by right|done]].
  apply insert_reach_inv in Hr as [Hr|(H1 & H2 & -> & ->)]; [auto|].
  right. exists (p, pid). split; [by left|]. done.
Qed.

Lemma trie_of_keeps subs t topic k v :
  reach t topic k v -> exists v', reach (trie_of subs t) topic k v'.
Proof.
  revert t v. induction subs as [|[p pid] subs IH]; intros t v Hr; [eauto|].
  destruct (insert_reach_old (tp_segments p) pid _ _ _ _ Hr) as [v' Hr']. by eapply IH.
Qed.

Lemma trie_of_new subs t topic sub :
  sub ∈ subs -> answers topic sub -> exists v, reach (trie_of subs t) topic (Key sub.2) v.
Proof.
  revert t. induction subs as [|[p pid] subs IH]; intros t Hin Ha; [set_solver|].
  apply elem_of_cons in Hin as [->|Hin]; [|by apply IH].
  destruct Ha as [H1 H2]. destruct (insert_reach_new _ pid t topic H1 H2) as (v & Hr & _).
  exact (trie_of_keeps subs _ _ _ _ Hr).
Qed.

Lemma trie_match_spec (subs : list (topicPattern * PID)) (topic : list string) :
  let out := trie_match topic (trie_of subs newSubscriptionTrie) in
  (forall pid, pid ∈ out -> exists sub, sub ∈ subs /\ answers topic sub /\ pid = sub.2) /\
  NoDup (Key <$> out) /\
  (forall sub, sub ∈ subs -> answers topic sub -> Key sub.2 ∈ Key <$> out).
Proof.
  cbn. unfold trie_match. set (w := walk topic (Some (trie_of subs newSubscriptionTrie)) ∅).
  assert (forall k v, w !! k = Some v ->
    exists sub, sub ∈ subs /\ answers topic sub /\ k = Key sub.2 /\ v = sub.2) as Hw.
  { intros k v H. apply walk_sound in H as [(n & H1 & H2)|H]; [|by rewrite lookup_empty in H].
    simplify_eq. apply trie_of_reach in H2 as [H2|H2]; [by apply new_node_reach in H2|done]. }
  assert (Key <$> (map_to_list w).*2 = (map_to_list w).*1) as Hk.
  { rewrite <- list_fmap_compose. apply list_fmap_ext. intros i [k v] Hi. cbn.
    apply list_elem_of_lookup_2, elem_of_map_to_list, Hw in Hi as (sub & _ & _ & -> & ->). done. }
  split_and!.
  - intros pid Hin. apply list_elem_of_fmap in Hin as ([k v] & -> & Hin).
    apply elem_of_map_to_list, Hw in Hin as (sub & ? & ? & _ & ->). eauto.
  - rewrite Hk. apply NoDup_fst_map_to_list.
  - intros sub Hin Ha. rewrite Hk. destruct (trie_of_new subs newSubscriptionTrie topic sub Hin Ha) as [v Hv].
    destruct (walk_complete topic (Some (trie_of subs newSubscriptionTrie)) ∅ (Key sub.2) v) as [v' Hv'];
      [by eexists|].
    apply list_elem_of_fmap. exists (Key sub.2, v'). split; [done|]. by apply elem_of_map_to_list.
Qed.

(** The trie answers a topic with the subscriptions whose pattern
    matches it, segment by segment.  After any sequence of insertions, every
    PID returned for a topic was inserted under a pattern that matches it, each
    subscriber key is returned at most once, and each subscriber with a
    matching recorded pattern is returned (under its key). *)
Theorem trie_match_correct (subs : list (topicPattern * PID)) (topic : list string) :
  let out := trie_match topic (trie_of subs newSubscriptionTrie) in
  (forall pid, pid ∈ out -> exists sub, sub ∈ subs /\ answers topic sub /\ pid = sub.2) /\
  NoDup (Key <$> out) /\
  (forall sub, sub ∈ subs -> answers topic sub -> Key sub.2 ∈ Key <$> out).
Proof. apply trie_match_spec. Qed.

(** ** Parsing *)

Lemma splitDots_nonempty s : splitDots s <> [].
Proof. destruct s as [|c s]; cbn; [done|]. destruct (splitDots s); [done|]. by destruct (Ascii.eqb _ _). Qed.

Lemma joinDots_splitDots s : joinDots (splitDots s) = s.
Proof.
  induction s as [|c s IH]; [done|]. cbn. pose proof (splitDots_nonempty s).
  destruct (splitDots s) as [|seg segs]; [done|].
  destruct (Ascii.eqb_spec c ".") as [->|Hc].
  - change (joinDots (""%string :: seg :: segs)) with ("." +:+ joinDots (seg :: segs)). by rewrite IH.
  - rewrite <- IH. destruct segs; done.
Qed.

Lemma splitDots_no_dot s : Forall (fun seg => containsByte seg "." = false) (splitDots s).
Proof.
  induction s as [|c s IH]; cbn; [by repeat constructor|].
  pose proof (splitDots_nonempty s). destruct (splitDots s) as [|seg segs]; [done|].
  apply Forall_cons in IH as [H1 H2]. destruct (Ascii.eqb_spec c ".") as [->|Hc].
  - by repeat constructor.
  - constructor; [|done]. cbn. rewrite H1, orb_false_r. apply Ascii.eqb_neq. congruence.
Qed.

(** A well-formed pattern segment at a position. *)
Definition good_segment (segs : list string) (i : nat) (seg : string) : Prop :=
  seg <> ""%string /\ containsByte seg "." = false /\
  (containsByte seg "+" = true -> seg = "+"%string) /\
  (containsByte seg "#" = true -> seg = "#"%string /\ S i = length segs).

Lemma good_segments_cons seg rest :
  (forall i s, (seg :: rest) !! i = Some s -> good_segment (seg :: rest) i s) <->
  good_segment (seg :: rest) 0 seg /\ (forall i s, rest !! i = Some s -> good_segment rest i s).
Proof.
  unfold good_segment. cbn. split.
  - intros Hg. split; [by apply (Hg 0%nat)|]. intros i s Hi.
    destruct (Hg (S i) s Hi) as (?&?&?&H4). split_and!; try done.
    intros Hc. destruct (H4 Hc). split; [done|lia].
  - intros [H0 Hg] [|i] s Hi; cbn in Hi; [by simplify_eq|].
    destruct (Hg i s Hi) as (?&?&?&H4). split_and!; try done.
    intros Hc. destruct (H4 Hc). split; [done|lia].
Qed.

Lemma checkPatternSegments_spec segs :
  Forall (fun seg => containsByte seg "." = false) segs ->
  checkPatternSegments segs = true <->
  (forall i seg, segs !! i = Some seg -> good_segment segs i seg).
Proof.
  induction 1 as [|seg rest Hd Hrest IH]; [split; [intros; set_solver|done]|].
  rewrite good_segments_cons, <- IH. cbn [checkPatternSegments]. unfold good_segment. cbn [length].
  destruct (bool_decide_reflect (seg = ""%string)) as [|Hne]; [naive_solver|].
  destruct (containsByte seg "+") eqn:Hp; cbn [andb].
  { destruct (bool_decide_reflect (seg = "+"%string)) as [->|]; cbn; [|naive_solver].
    split; [|tauto]. intros. split_and!; naive_solver. }
  destruct (containsByte seg "#") eqn:Hh; cbn [andb].
  { destruct (bool_decide_reflect (seg = "#"%string)) as [->|]; cbn; [|naive_solver].
    destruct (bool_decide_reflect (rest = [])) as [->|Hr]; cbn.
    - split; [|tauto]. intros. split_and!; naive_solver.
    - split; [done|]. intros [(_&_&_&H4) _]. destruct H4 as [_ H4]; [done|]. by destruct rest. }
  rewrite (bool_decide_eq_false_2 (seg = "#"%string)) by (intros ->; done). cbn.
  split; [|tauto]. intros. split_and!; naive_solver.
Qed.

(** The pattern parser accepts exactly the well-formed patterns and
    loses nothing.  A pattern that is not blank parses if and only if none of
    its dot-separated segments is empty, [+] and [#] only appear as whole
    segments and [#] only as the last one; the segments of a parsed pattern,
    joined by dots, are the pattern again. *)
Theorem parseTopicPattern_exact (raw : string) :
  trimmedEmpty raw = false ->
  ((exists p, parseTopicPattern raw = inl p) <->
     forall i seg, splitDots raw !! i = Some seg -> good_segment (splitDots raw) i seg) /\
  (forall p, parseTopicPattern raw = inl p ->
     tp_raw p = raw /\ joinDots (tp_segments p) = raw).
Proof.
  intros Ht. unfold parseTopicPattern. rewrite Ht.
  rewrite <- checkPatternSegments_spec by apply splitDots_no_dot.
  destruct (checkPatternSegments (splitDots raw)).
  - split; [naive_solver|]. intros p Hp. simplify_eq. split; [done|]. apply joinDots_splitDots.
  - split; naive_solver.
Qed.

Lemma parseTopicPattern_exact_witness :
  (exists p, parseTopicPattern "user.+.updated" = inl p) /\
  joinDots (splitDots "user.+.updated") = "user.+.updated"%string.
Proof.
  split.
  - apply (parseTopicPattern_exact "user.+.updated"); [reflexivity|].
    intros [|[|[|i]]] seg H; vm_compute in H; simplify_eq; split_and!; vm_compute; naive_solver.
  - destruct (parseTopicPattern_exact "user.+.updated" eq_refl) as [_ H].
    apply (H (mkTopicPattern "user.+.updated" ["user"; "+"; "updated"]%string)). reflexivity.
Defined.

(** ** Patterns that end in [+] *)

Lemma recorded_last segs :
  checkPatternSegments segs = true -> segs <> [] ->
  recorded segs = negb (bool_decide (last segs = Some "+"%string)).
Proof.
  induction segs as [|seg rest IH]; [done|]. cbn [checkPatternSegments recorded]. intros Hc _.
  repeat (case_match; [done|]).
  destruct (decide (rest = [])) as [->|Hr].
  - cbn. destruct (bool_decide_reflect (seg = "#"%string)) as [->|]; [done|].
    destruct (bool_decide_reflect (seg = "+"%string)) as [->|]; [done|].
    symmetry. rewrite bool_decide_eq_false_2; [done|]. congruence.
  - rewrite (bool_decide_eq_false_2 (rest = [])) in * by done.
    destruct (bool_decide (seg = "#"%string)); [done|].
    rewrite last_cons, orb_false_l, IH by done.
    destruct (last rest) eqn:Hl; [by destruct (bool_decide (seg = "+"%string))|]. by apply last_None in Hl.
Qed.

Definition ends_in_plus (p : topicPattern) : bool := bool_decide (last (tp_segments p) = Some "+"%string).

Lemma parsed_recorded raw p : parseTopicPattern raw = inl p -> recorded (tp_segments p) = negb (ends_in_plus p).
Proof.
  unfold parseTopicPattern. destruct (trimmedEmpty raw); [done|]. destruct (checkPatternSegments _) eqn:Hc; [|done].
  intros [= <-]. by apply recorded_last, splitDots_nonempty.
Qed.

(** A subscription whose pattern ends in [+] is never served.  For every
    such pattern the parser accepts, a trie that holds only that subscription
    answers no topic at all, although the pattern matches topics with one
    segment in place of the [+]. *)
Theorem trailing_plus_never_served (raw : string) (p : topicPattern) (pid : PID) (topic : list string) :
  parseTopicPattern raw = inl p -> last (tp_segments p) = Some "+"%string ->
  trie_match topic (trie_insert p pid newSubscriptionTrie) = [].
Proof.
  intros Hp Hl. destruct (trie_match_spec [(p, pid)] topic) as [Hs _].
  change (trie_of [(p, pid)] newSubscriptionTrie) with (trie_insert p pid newSubscriptionTrie) in Hs.
  destruct (trie_match topic _) as [|x out]; [done|].
  destruct (Hs x) as (sub & Hsub & [Hrec _] & _); [left|].
  apply list_elem_of_singleton in Hsub as ->. cbn in Hrec. rewrite (parsed_recorded _ _ Hp) in Hrec.
  unfold ends_in_plus in Hrec. by rewrite bool_decide_eq_true_2 in Hrec.
Qed.

Lemma trailing_plus_never_served_witness :
  exists p, parseTopicPattern "user.+" = inl p /\
    matches (tp_segments p) ["user"; "created"]%string = true /\
    trie_match ["user"; "created"]%string
      (trie_insert p (mkPID "n" "sub" 1) newSubscriptionTrie) = [].
Proof.
  exists (mkTopicPattern "user.+" ["user"; "+"]%string). split; [reflexivity|]. split; [reflexivity|].
  apply (trailing_plus_never_served "user.+"); reflexivity.
Defined.

(** ** The broker's tables *)

Record pubsubBrokerService := mkPubsubBrokerService {
  ps_brokerID : string;
  ps_trie : subscriptionTrie;
  ps_byPattern : gmap string (gmap string PID);
  ps_bySubscriber : gmap string (gset string)
}.

Definition newPubSubBrokerService (brokerID : string) : pubsubBrokerService :=
  mkPubsubBrokerService brokerID newSubscriptionTrie ∅ ∅.

(** The block of [handleSubscribe] under the lock; also whether the pattern
    got its first subscriber. *)
Definition subscribe_tables (p : topicPattern) (subscriber : PID) (b : pubsubBrokerService)
    : pubsubBrokerService * bool :=
  let key := Key subscriber in
  let subs := default ∅ (ps_byPattern b !! tp_raw p) in
  let exists_ := bool_decide (is_Some (subs !! key)) in
  let subs := <[key := subscriber]> subs in
  let patterns := default ∅ (ps_bySubscriber b !! key) in
  let firstForPattern := negb exists_ && (size subs =? 1)%nat in
  (mkPubsubBrokerService (ps_brokerID b)
     (if exists_ then ps_trie b else trie_insert p subscriber (ps_trie b))
     (<[tp_raw p := subs]> (ps_byPattern b))
     (<[key := {[tp_raw p]} ∪ patterns]> (ps_bySubscriber b)),
   firstForPattern).

(** [rebuildTrieLocked], over the tables in the order of the two loops. *)
Definition rebuild_subs (byPattern : gmap string (gmap string PID)) : list (topicPattern * PID) :=
  '(pattern, subscribers) ← map_to_list byPattern;
  match parseTopicPattern pattern with
  | inr _ => []
  | inl p => '(_, pid) ← map_to_list subscribers; [(p, pid)]
  end.

Definition rebuildTrie (byPattern : gmap string (gmap string PID)) : subscriptionTrie :=
  trie_of (rebuild_subs byPattern) newSubscriptionTrie.

(** The block of [handleUnsubscribe] under the lock: the tables, [hasSub] and
    [lastForPattern]. *)
Definition unsubscribe_tables (p : topicPattern) (subscriber : PID) (b : pubsubBrokerService)
    : pubsubBrokerService * bool * bool :=
  let key := Key subscriber in
  let subs := default ∅ (ps_byPattern b !! tp_raw p) in
  let hasSub := bool_decide (is_Some (subs !! key)) in
  if negb hasSub then (b, false, false)
  else
    let subs := delete key subs in
    let lastForPattern := bool_decide (subs = ∅) in
    let byPattern :=
      if lastForPattern then delete (tp_raw p) (ps_byPattern b)
      else <[tp_raw p := subs]> (ps_byPattern b) in
    let patterns := default ∅ (ps_bySubscriber b !! key) ∖ {[tp_raw p]} in
    let bySubscriber :=
      if bool_decide (patterns = ∅) then delete key (ps_bySubscriber b)
      else <[key := patterns]> (ps_bySubscriber b) in
    (mkPubsubBrokerService (ps_brokerID b) (rebuildTrie byPattern) byPattern bySubscriber,
     true, lastForPattern).

(** The active subscriptions: pattern and subscriber key. *)
Definition subscribed (byPattern : gmap string (gmap string PID)) (raw k : string) : Prop :=
  is_Some (default ∅ (byPattern !! raw) !! k).

Record broker_ok (b : pubsubBrokerService) : Prop := {
  bok_parse raw m : ps_byPattern b !! raw = Some m ->
    exists p, parseTopicPattern raw = inl p;
  bok_key raw m k v : ps_byPattern b !! raw = Some m -> m !! k = Some v -> Key v = k;
  bok_index raw k :
    raw ∈ default ∅ (ps_bySubscriber b !! k) <-> subscribed (ps_byPattern b) raw k;
  bok_trie topic k :
    (exists v, reach (ps_trie b) topic k v) <->
    (exists raw p, parseTopicPattern raw = inl p /\ subscribed (ps_byPattern b) raw k /\
       recorded (tp_segments p) = true /\ matches (tp_segments p) topic = true);
  bok_trie_key topic k v : reach (ps_trie b) topic k v -> Key v = k
}.

Lemma newPubSubBrokerService_ok id : broker_ok (newPubSubBrokerService id).
Proof.
  split; cbn.
  - intros ?? H. by rewrite lookup_empty in H.
  - intros ???? H. by rewrite lookup_empty in H.
  - intros raw k. unfold subscribed. rewrite !lookup_empty. cbn. rewrite lookup_empty.
    split; [set_solver|intros [? ?]; done].
  - intros topic k. split.
    + intros [v Hv]. by apply new_node_reach in Hv.
    + intros (raw & p & _ & [v Hv] & _). rewrite lookup_empty in Hv. cbn in Hv.
      by rewrite lookup_empty in Hv.
  - intros topic k v Hv. by apply new_node_reach in Hv.
Qed.

Lemma parse_raw raw p : parseTopicPattern raw = inl p -> tp_raw p = raw.
Proof. unfold parseTopicPattern. intros H. repeat dmatch_in H; by simplify_eq. Qed.

Lemma subscribed_insert m raw subs raw' k :
  subscribed (<[raw := subs]> m) raw' k <->
  if decide (raw = raw') then is_Some (subs !! k) else subscribed m raw' k.
Proof.
  unfold subscribed. destruct (decide (raw = raw')) as [<-|Hne];
    by rewrite ?lookup_insert_eq, ?lookup_insert_ne.
Qed.

Lemma subscribe_tables_subscribed p pid b raw k :
  subscribed (ps_byPattern (subscribe_tables p pid b).1) raw k <->
  subscribed (ps_byPattern b) raw k \/ (raw = tp_raw p /\ k = Key pid).
Proof.
  cbn. rewrite subscribed_insert. unfold subscribed.
  destruct (decide (tp_raw p = raw)) as [<-|Hne]; [|naive_solver].
  destruct (decide (k = Key pid)) as [->|Hk]; [rewrite lookup_insert_eq|rewrite lookup_insert_ne by done];
    naive_solver.
Qed.

Lemma subscribe_tables_index p pid b raw k :
  raw ∈ default ∅ (ps_bySubscriber (subscribe_tables p pid b).1 !! k) <->
  raw ∈ default ∅ (ps_bySubscriber b !! k) \/ (raw = tp_raw p /\ k = Key pid).
Proof.
  cbn. destruct (decide (Key pid = k)) as [<-|Hk];
    [rewrite lookup_insert_eq|rewrite lookup_insert_ne by done]; cbn; set_solver.
Qed.

Lemma subscribe_tables_ok p pid b :
  broker_ok b -> parseTopicPattern (tp_raw p) = inl p -> broker_ok (subscribe_tables p pid b).1.
Proof.
  intros Hb Hp. pose proof (fun raw k => subscribe_tables_subscribed p pid b raw k) as Hsub.
  split.
  - intros raw m. cbn. rewrite lookup_insert_Some.
    intros [[<- _]|[_ H]]; [eauto|by eapply bok_parse].
  - intros raw m k v. cbn. rewrite lookup_insert_Some. intros [[<- <-]|[_ H]]; [|by eapply bok_key].
    rewrite lookup_insert_Some. intros [[<- <-]|[_ H]]; [done|].
    destruct (ps_byPattern b !! tp_raw p) as [m|] eqn:Hm; cbn in H; [|by rewrite lookup_empty in H].
    by eapply bok_key.
  - intros raw k. rewrite subscribe_tables_index, Hsub, (bok_index _ Hb). done.
  - intros topic k. setoid_rewrite Hsub.
    transitivity ((exists v, reach (ps_trie b) topic k v) \/
      (k = Key pid /\ recorded (tp_segments p) = true /\ matches (tp_segments p) topic = true)).
    + cbn. case_bool_decide as He.
      * split; [tauto|]. intros [H|(-> & H)]; [done|]. apply (bok_trie _ Hb). exists (tp_raw p), p. auto.
      * split.
        -- intros [v Hv]. apply insert_reach_inv in Hv as [Hv|(?&?&?&?)]; [left; eauto|auto].
        -- intros [[v Hv]|(-> & H1 & H2)]; [by eapply insert_reach_old|].
           destruct (insert_reach_new _ pid (ps_trie b) topic H1 H2) as (v & Hv & _). eauto.
    + rewrite (bok_trie _ Hb). split.
      * intros [(raw & q & ?)|(-> & ?)]; [exists raw, q; naive_solver|exists (tp_raw p), p; naive_solver].
      * intros (raw & q & H1 & [H2|[-> ->]] & H3); [left; naive_solver|]. rewrite Hp in H1.
        simplify_eq. auto.
  - intros topic k v. cbn. case_bool_decide; [by eapply bok_trie_key|].
    intros Hr. apply insert_reach_inv in Hr as [Hr|(_ & _ & -> & ->)]; [by eapply bok_trie_key|done].
Qed.

Lemma rebuild_subs_elem m p pid :
  (p, pid) ∈ rebuild_subs m <->
  exists raw subs k, m !! raw = Some subs /\ parseTopicPattern raw = inl p /\ subs !! k = Some pid.
Proof.
  unfold rebuild_subs. rewrite list_elem_of_bind. split.
  - intros ([raw subs] & Hin & Hm). apply elem_of_map_to_list in Hm.
    destruct (parseTopicPattern raw) as [q|] eqn:Hq; [|set_solver].
    apply list_elem_of_bind in Hin as ([k v] & Hv & Hin). apply elem_of_map_to_list in Hin.
    apply list_elem_of_singleton in Hv. simplify_eq. eauto 10.
  - intros (raw & subs & k & Hm & Hp & Hk). exists (raw, subs). split; [|by apply elem_of_map_to_list].
    cbn. rewrite Hp. apply list_elem_of_bind. exists (k, pid). split; [by apply list_elem_of_singleton|].
    by apply elem_of_map_to_list.
Qed.

(** A rebuilt trie answers exactly the recorded active subscriptions. *)
Lemma rebuildTrie_reach m topic k :
  (forall raw subs k v, m !! raw = Some subs -> subs !! k = Some v -> Key v = k) ->
  (exists v, reach (rebuildTrie m) topic k v) <->
  (exists raw p, parseTopicPattern raw = inl p /\ subscribed m raw k /\
     recorded (tp_segments p) = true /\ matches (tp_segments p) topic = true).
Proof.
  intros Hkey. unfold rebuildTrie, subscribed. split.
  - intros [v Hv]. apply trie_of_reach in Hv as [Hv|([p pid] & Hin & [H1 H2] & -> & ->)].
    { by apply new_node_reach in Hv. }
    apply rebuild_subs_elem in Hin as (raw & subs & k & Hm & Hp & Hk). exists raw, p.
    rewrite Hm. cbn. rewrite (Hkey _ _ _ _ Hm Hk). eauto 10.
  - intros (raw & p & Hp & [v Hv] & H1 & H2).
    destruct (m !! raw) as [subs|] eqn:Hm; cbn in Hv; [|by rewrite lookup_empty in Hv].
    rewrite <- (Hkey _ _ _ _ Hm Hv).
    apply (trie_of_new (rebuild_subs m) newSubscriptionTrie topic (p, v)); [|done].
    apply rebuild_subs_elem. eauto 10.
Qed.

Lemma unsubscribe_tables_subscribed p pid b raw k :
  subscribed (ps_byPattern (unsubscribe_tables p pid b).1.1) raw k <->
  subscribed (ps_byPattern b) raw k /\ ~ (raw = tp_raw p /\ k = Key pid).
Proof.
  unfold unsubscribe_tables.
  destruct (bool_decide_reflect (is_Some (default ∅ (ps_byPattern b !! tp_raw p) !! Key pid))) as [Hs|Hs]; cbn.
  - case_bool_decide as Hl.
    + unfold subscribed. destruct (decide (raw = tp_raw p)) as [->|Hne].
      * rewrite lookup_delete_eq. cbn. rewrite lookup_empty. split; [by intros [? ?]|].
        intros [[v Hv] Hk]. destruct (decide (k = Key pid)); [tauto|].
        assert (delete (Key pid) (default ∅ (ps_byPattern b !! tp_raw p)) !! k = Some v) as Hd
          by (by rewrite lookup_delete_ne). by rewrite Hl, lookup_empty in Hd.
      * rewrite lookup_delete_ne by done. naive_solver.
    + rewrite subscribed_insert. unfold subscribed. destruct (decide (tp_raw p = raw)) as [<-|Hne].
      * destruct (decide (k = Key pid)) as [->|Hk];
          [rewrite lookup_delete_eq|rewrite lookup_delete_ne by done]; [|naive_solver].
        split; [by intros [? ?]|naive_solver].
      * naive_solver.
  - split; [|tauto]. intros H. split; [done|]. intros [-> ->]. by apply Hs.
Qed.

Lemma unsubscribe_tables_index p pid b raw k :
  broker_ok b ->
  raw ∈ default ∅ (ps_bySubscriber (unsubscribe_tables p pid b).1.1 !! k) <->
  raw ∈ default ∅ (ps_bySubscriber b !! k) /\ ~ (raw = tp_raw p /\ k = Key pid).
Proof.
  intros Hb. unfold unsubscribe_tables.
  destruct (bool_decide_reflect (is_Some (default ∅ (ps_byPattern b !! tp_raw p) !! Key pid))) as [Hs|Hs]; cbn.
  - destruct (decide (Key pid = k)) as [<-|Hk].
    + case_bool_decide as Hl; [rewrite lookup_delete_eq|rewrite lookup_insert_eq]; cbn; set_solver.
    + case_bool_decide as Hl; [rewrite lookup_delete_ne by done|rewrite lookup_insert_ne by done]; set_solver.
  - split; [|tauto]. intros H. split; [done|]. intros [-> ->]. apply Hs. by apply (bok_index _ Hb).
Qed.

Lemma unsubscribe_tables_entries p pid b raw m :
  ps_byPattern (unsubscribe_tables p pid b).1.1 !! raw = Some m ->
  (exists m0, ps_byPattern b !! raw = Some m0 /\ forall k v, m !! k = Some v -> m0 !! k = Some v).
Proof.
  unfold unsubscribe_tables.
  destruct (bool_decide_reflect (is_Some (default ∅ (ps_byPattern b !! tp_raw p) !! Key pid))) as [Hs|Hs]; cbn; [|eauto].
  case_bool_decide as Hl.
  - rewrite lookup_delete_Some. intros [_ H]. eauto.
  - rewrite lookup_insert_Some. intros [[<- <-]|[_ H]]; [|eauto].
    destruct (ps_byPattern b !! tp_raw p) as [m0|]; cbn in *.
    + exists m0. split; [done|]. intros k v. rewrite lookup_delete_Some. tauto.
    + destruct Hs as [v Hv]. by rewrite lookup_empty in Hv.
Qed.

Lemma unsubscribe_tables_ok p pid b :
  broker_ok b -> broker_ok (unsubscribe_tables p pid b).1.1.
Proof.
  intros Hb. pose proof (unsubscribe_tables_entries p pid b) as He. split.
  - intros raw m H. destruct (He _ _ H) as (m0 & H0 & _). by eapply bok_parse.
  - intros raw m k v H Hk. destruct (He _ _ H) as (m0 & H0 & Hm). eapply bok_key; eauto.
  - intros raw k. rewrite unsubscribe_tables_index, unsubscribe_tables_subscribed, (bok_index _ Hb) by done.
    done.
  - intros topic k.
    destruct (bool_decide_reflect (is_Some (default ∅ (ps_byPattern b !! tp_raw p) !! Key pid))) as [Hs|Hs].
    + assert (ps_trie (unsubscribe_tables p pid b).1.1 =
        rebuildTrie (ps_byPattern (unsubscribe_tables p pid b).1.1)) as ->.
      { unfold unsubscribe_tables. by rewrite bool_decide_eq_true_2. }
      apply rebuildTrie_reach. intros raw m k' v H Hk. destruct (He _ _ H) as (m0 & H0 & Hm).
      eapply bok_key; eauto.
    + unfold unsubscribe_tables. rewrite bool_decide_eq_false_2 by done. cbn. apply (bok_trie _ Hb).
  - intros topic k v.
    destruct (bool_decide_reflect (is_Some (default ∅ (ps_byPattern b !! tp_raw p) !! Key pid))) as [Hs|Hs].
    + assert (ps_trie (unsubscribe_tables p pid b).1.1 =
        rebuildTrie (ps_byPattern (unsubscribe_tables p pid b).1.1)) as ->.
      { unfold unsubscribe_tables. by rewrite bool_decide_eq_true_2. }
      intros Hr. apply trie_of_reach in Hr as [Hr|(sub & _ & _ & -> & ->)]; [|done].
      by apply new_node_reach in Hr.
    + unfold unsubscribe_tables. rewrite bool_decide_eq_false_2 by done. cbn. by eapply bok_trie_key.
Qed.

(** ** Sequences of subscriptions *)

Inductive ps_op :=
  | PsSubscribe (pattern : string) (subscriber : PID)
  | PsUnsubscribe (pattern : string) (subscriber : PID).

Definition run_ps_op (b : pubsubBrokerService) (o : ps_op) : pubsubBrokerService :=
  match o with
  | PsSubscribe raw pid =>
      match parseTopicPattern raw with
      | inl p => (subscribe_tables p pid b).1 | inr _ => b end
  | PsUnsubscribe raw pid =>
      match parseTopicPattern raw with
      | inl p => (unsubscribe_tables p pid b).1.1 | inr _ => b end
  end.

(** The abstract broker: the set of active (pattern, subscriber key) pairs. *)
Definition spec_ps_op (s : gset (string * string)) (o : ps_op) : gset (string * string) :=
  match o with
  | PsSubscribe raw pid =>
      match parseTopicPattern raw with inl _ => {[(raw, Key pid)]} ∪ s | inr _ => s end
  | PsUnsubscribe raw pid =>
      match parseTopicPattern raw with inl _ => s ∖ {[(raw, Key pid)]} | inr _ => s end
  end.

Lemma run_ps_op_spec b o s :
  broker_ok b -> (forall raw k, subscribed (ps_byPattern b) raw k <-> (raw, k) ∈ s) ->
  broker_ok (run_ps_op b o) /\
  (forall raw k, subscribed (ps_byPattern (run_ps_op b o)) raw k <-> (raw, k) ∈ spec_ps_op s o).
Proof.
  intros Hb Hs. destruct o as [raw pid|raw pid]; cbn [run_ps_op spec_ps_op];
    destruct (parseTopicPattern raw) as [p|] eqn:Hp; try done; pose proof (parse_raw _ _ Hp) as Hr.
  - split; [apply subscribe_tables_ok; [done|by rewrite Hr]|]. intros raw' k.
    rewrite subscribe_tables_subscribed, Hs, Hr. set_solver.
  - split; [by apply unsubscribe_tables_ok|]. intros raw' k.
    rewrite unsubscribe_tables_subscribed, Hs, Hr. set_solver.
Qed.

Lemma run_ps_ops_spec id os :
  broker_ok (foldl run_ps_op (newPubSubBrokerService id) os) /\
  (forall raw k, subscribed (ps_byPattern (foldl run_ps_op (newPubSubBrokerService id) os)) raw k <->
     (raw, k) ∈ foldl spec_ps_op ∅ os).
Proof.
  induction os as [|o os IH] using rev_ind.
  - split; [apply newPubSubBrokerService_ok|]. cbn. intros raw k. unfold subscribed.
    rewrite lookup_empty. cbn. rewrite lookup_empty. split; [by intros [? ?]|set_solver].
  - rewrite !foldl_snoc. destruct IH. by apply run_ps_op_spec.
Qed.

(** The targets of a well-formed broker: the subscribers with a matching pattern
    that does not end in [+]. *)
Lemma broker_ok_targets b topic :
  broker_ok b ->
  NoDup (Key <$> trie_match topic (ps_trie b)) /\
  forall k, k ∈ Key <$> trie_match topic (ps_trie b) <->
    exists raw p, parseTopicPattern raw = inl p /\ subscribed (ps_byPattern b) raw k /\
      ends_in_plus p = false /\ matches (tp_segments p) topic = true.
Proof.
  intros Hb.
  assert (Key <$> trie_match topic (ps_trie b) = (map_to_list (walk topic (Some (ps_trie b)) ∅)).*1) as ->.
  { unfold trie_match. rewrite <- list_fmap_compose. apply list_fmap_ext. intros i [k v] Hi. cbn.
    apply list_elem_of_lookup_2, elem_of_map_to_list, walk_sound in Hi as [(n & Hn & Hr)|Hr];
      [|by rewrite lookup_empty in Hr]. simplify_eq. by eapply bok_trie_key. }
  split; [apply NoDup_fst_map_to_list|]. intros k.
  transitivity (exists v, reach (ps_trie b) topic k v).
  2: { rewrite (bok_trie _ Hb). split; intros (raw & p & Hp & H1 & H2 & H3); exists raw, p;
         rewrite (parsed_recorded _ _ Hp) in *; (split_and!; [done|done| |done]);
         (by destruct (ends_in_plus p)). }
  rewrite list_elem_of_fmap. split.
  - intros ([k' v] & -> & Hin). apply elem_of_map_to_list, walk_sound in Hin as [(n & Hn & Hr)|Hr];
      [|by rewrite lookup_empty in Hr]. simplify_eq. eauto.
  - intros [v Hv]. destruct (walk_complete topic (Some (ps_trie b)) ∅ k v) as [v' Hv']; [by eexists|].
    exists (k, v'). split; [done|]. by apply elem_of_map_to_list.
Qed.

(** An active subscription of [k] with the pattern [p] matches the topic. *)
Definition matching_sub (os : list ps_op) (topic : list string) (k : string) (p : topicPattern) : Prop :=
  exists raw, (raw, k) ∈ foldl spec_ps_op ∅ os /\ parseTopicPattern raw = inl p /\
    matches (tp_segments p) topic = true.

(** C13: the broker publishes to matching subscribers, and misses only those of
    one kind of pattern.  After any sequence of subscriptions and unsubscriptions
    (repeated, unknown and malformed ones included): no subscriber is a target
    twice; a target has an active subscription whose pattern matches the topic
    segment by segment ([+] one segment, a final [#] the rest); every subscriber
    with an active matching pattern that does not end in [+] is a target, so the
    targets are exactly the matching subscribers when no pattern ends in [+]; and
    a subscriber all of whose matching patterns end in [+] is never a target,
    although they match - a defect, since [+] is documented without that
    exception. *)
Theorem broker_targets_match (id : string) (os : list ps_op) (topic : list string) :
  let targets := Key <$> trie_match topic (ps_trie (foldl run_ps_op (newPubSubBrokerService id) os)) in
  NoDup targets /\
  (forall k, k ∈ targets -> exists p, matching_sub os topic k p) /\
  (forall k p, matching_sub os topic k p -> ends_in_plus p = false -> k ∈ targets) /\
  (forall k, (forall p, matching_sub os topic k p -> ends_in_plus p = true) -> k ∉ targets).
Proof.
  cbv zeta. destruct (run_ps_ops_spec id os) as [Hb Hs]. destruct (broker_ok_targets _ topic Hb) as [Hn Ht].
  unfold matching_sub. split_and!; [done|..].
  - intros k (raw & p & H1 & H2%Hs & H3 & H4)%Ht. by exists p, raw.
  - intros k p (raw & H1%Hs & H2 & H3) Hp. apply Ht. by exists raw, p.
  - intros k Hk (raw & p & H1 & H2%Hs & H3 & H4)%Ht. assert (ends_in_plus p = true); [|congruence].
    apply Hk. by exists raw.
Qed.

(** [a] is served through [user.#], [b] with [user.+] only is missed. *)
Lemma broker_targets_match_witness :
  let os := [PsSubscribe "user.#" (mkPID "n" "a" 1); PsSubscribe "user.+" (mkPID "n" "a" 1);
    PsSubscribe "user.+" (mkPID "n" "b" 1)] in
  let targets := Key <$> trie_match ["user"; "created"]%string (ps_trie (foldl run_ps_op (newPubSubBrokerService "x") os)) in
  "n:a"%string ∈ targets /\ "n:b"%string ∉ targets.
Proof.
  cbv zeta. destruct (broker_targets_match "x" [PsSubscribe "user.#" (mkPID "n" "a" 1);
    PsSubscribe "user.+" (mkPID "n" "a" 1); PsSubscribe "user.+" (mkPID "n" "b" 1)] ["user"; "created"]%string)
    as (_ & _ & H1 & H2).
  split.
  - apply (H1 _ (mkTopicPattern "user.#" ["user"; "#"]%string)); [|reflexivity].
    exists "user.#"%string. split; [|split; reflexivity]. apply (bool_decide_unpack _). vm_compute. exact I.
  - apply H2. intros p (raw & Hin & Hp & _).
    assert (forall x, x ∈ foldl spec_ps_op ∅ [PsSubscribe "user.#" (mkPID "n" "a" 1);
      PsSubscribe "user.+" (mkPID "n" "a" 1); PsSubscribe "user.+" (mkPID "n" "b" 1)] ->
      x.2 = "n:b"%string -> x.1 = "user.+"%string) as Hx.
    { apply (bool_decide_unpack (set_Forall (fun x => x.2 = "n:b"%string -> x.1 = "user.+"%string) _)). vm_compute. exact I. }
    apply Hx in Hin; [|reflexivity]. cbn in Hin. subst raw. injection Hp as <-. reflexivity.
Defined.

(** The trie keeps the PID of the first subscription: renewing it after a
    restart, with the new generation, updates the tables but not the trie, so
    publications still go to the stale PID. *)
Example resubscription_keeps_stale_pid :
  let b := foldl run_ps_op (newPubSubBrokerService "b")
    [PsSubscribe "news" (mkPID "n" "sub" 1); PsSubscribe "news" (mkPID "n" "sub" 2)] in
  ps_byPattern b !! "news"%string = Some {[ "n:sub"%string := mkPID "n" "sub" 2 ]} /\
  trie_match ["news"%string] (ps_trie b) = [mkPID "n" "sub" 1].
Proof. split; vm_compute; reflexivity. Qed.
