(* ===== verification/Fnv.v ===== *)
(** * The FNV-1a hashes of [hash/fnv]

    [New32a]/[Sum32] (router hashing) and [New64a]/[Sum64] (cluster election,
    placement and routing), over the bytes of a string. *)

From S2P Require Import Prelude.

Definition byteOf (c : ascii) : Z := Z.of_nat (nat_of_ascii c).

Fixpoint fnv32a_from (h : Z) (s : string) : Z :=
  match s with
  | EmptyString => h
  | String c s' => fnv32a_from (u32 (Z.lxor h (byteOf c) * 16777619)) s'
  end.

Definition fnv32a (s : string) : Z := fnv32a_from 2166136261 s.

Fixpoint fnv64a_from (h : Z) (s : string) : Z :=
  match s with
  | EmptyString => h
  | String c s' => fnv64a_from (u64 (Z.lxor h (byteOf c) * 1099511628211)) s'
  end.

Definition fnv64a (s : string) : Z := fnv64a_from 14695981039346656037 s.

Lemma fnv32a_range s : 0 <= fnv32a s < u32_modulus.
Proof.
  unfold fnv32a. assert (0 <= 2166136261 < u32_modulus) as H by done. revert H.
  generalize 2166136261. induction s as [|c s IH]; intros h Hh; cbn [fnv32a_from]; [done|].
  apply IH, u32_range.
Qed.

Lemma fnv64a_range s : 0 <= fnv64a s < u64_modulus.
Proof.
  unfold fnv64a. assert (0 <= 14695981039346656037 < u64_modulus) as H by done. revert H.
  generalize 14695981039346656037. induction s as [|c s IH]; intros h Hh; cbn [fnv64a_from]; [done|].
  apply IH, u64_range.
Qed.

#[export] Hint Resolve fnv32a_range fnv64a_range : wc.

(** The published test vectors of the two functions. *)
Example fnv32a_a : fnv32a "a" = 3826002220.
Proof. reflexivity. Qed.

Example fnv64a_foobar : fnv64a "foobar" = 9625390261332436968.
Proof. reflexivity. Qed.
