(* ===== verification/Program.v ===== *)
(** * User code and the runtime's interface

    Handlers and batch receivers are user code that may call the runtime: they
    are programs over the runtime's non-blocking operations, an inductive type
    with one [Call] per operation and a continuation for its result.  The
    result of a program is what the runtime sees of a Go handler: the next
    state, an error, or a panic.  The handlers the runtime itself installs (the
    pub/sub broker and the cron timer) are named by their service.

    Lifecycle hooks are user code of which the runtime only uses the result;
    it may depend on the time of the call. *)

From S2P Require Import Prelude Types.

#[local] Set Warnings "-register-all".

(** What a lifecycle hook does: return [nil], return an error, panic, or not
    return within the time allowed for it. *)
Inductive hookResult := HookOk | HookErr (err : string) | HookPanic | HookHangs.

Definition LifecycleHook : Type := Z -> string -> hookResult.

(** The result of a handler: [(next, nil)], [(_, err)] or a panic. *)
Inductive handlerResult := HROk (next : payload) | HRErr (err : string) | HRPanic (value : string).

(** The error [processMessage] sees. *)
Definition handlerError (r : handlerResult) : option string :=
  match r with
  | HROk _ => None
  | HRErr e => Some e
  | HRPanic v => Some ("panic: " +:+ v)
  end.

(** Timer targets: [SendAfter]/[SendInterval] and their [...Name] variants. *)
Inductive timerTarget := TimerPID (pid : PID) | TimerName (name : string).

(** Results of the operations. *)
Inductive api_result :=
  | RUnit
  | RBool (b : bool)
  | RError (err : option string)
  | RSubmit (a : SubmitAck)
  | RPIDSend (a : PIDSendAck)
  | RPID (p : option PID)
  | RStop (s : StopResult)
  | RCapture (st : payload) (s : StopResult)
  | RRegister (a : RegistryRegisterAck) (err : option string)
  | RLookup (a : RegistryLookupAck)
  | RMonitor (ref : MonitorRef)
  | RTimer (id : Z)
  | RStatus (s : ActorStatus)
  | RReadiness (l : list ReadinessValidationRecord).

Inductive handler :=
  | HUser (body : payload -> Message -> prog)
  | HBroker (brokerID : string)
  | HCron (cronID : string)

with receiver :=
  | BatchReceiver (body : payload -> list payload -> prog)

with prog :=
  | Return (r : handlerResult)
  | Call (o : api) (k : api_result -> prog)

(** The non-blocking operations of the runtime. *)
with api :=
  | ACreateActor (id : string) (initial : payload) (h : option handler) (opts : list actorOption)
  | ASend (actorID : string) (p : payload)
  | ARoute (routerID : string) (p : payload)
  | ADeliverLocal (actorID : string) (p : payload) (ask : option AskRequestContext)
  | ASendPID (pid : PID) (p : payload)
  | ADeliverPID (pid : PID) (p : payload)
  | ASendName (name : string) (p : payload)
  | ACrossActorSendByActorID (sender target : string) (p : payload)
  | ACrossActorSendPID (sender : string) (pid : PID) (p : payload)
  | AStop (actorID : string)
  | AStopAndCapture (actorID : string)
  | ARemoveActor (actorID : string)
  | AStatus (actorID : string)
  | AIssuePID (namespace actorID : string)
  | APIDForActor (actorID : string)
  | AResolvePID (pid : PID)
  | ARegisterName (actorID name namespace : string)
  | ALookupName (name : string)
  | AUnregisterName (name : string)
  | ARegisterTypeRoute (actorID typeName schemaVersion handlerKey : string)
  | ARegisterFallbackRoute (actorID handlerKey : string)
  | AConfigureBatching (actorID : string) (maxBatchSize : Z) (rcv : option receiver)
  | ADisableBatching (actorID : string)
  | AConfigureRouter (routerID : string) (strategy : RouterStrategy) (workers : list string)
  | ASetPIDInteractionPolicy (mode : PIDInteractionPolicyMode)
  | ASetGatewayRouteMode (mode : GatewayRouteMode)
  | ASetGatewayAvailable (available : bool)
  | AValidateDistributedReadiness
  | AMonitor (watcher target : PID)
  | ADemonitor (ref : MonitorRef)
  | ASendTimer (target : timerTarget) (p : payload) (delay : Z) (interval : bool)
  | ACancelTimer (id : Z)
  | AEnsureBrokerActor (brokerID : string)
  | ABrokerPublish (brokerID topic : string) (p : payload) (publisher : string)
  | ABrokerPublishRemote (brokerID topic : string) (p : payload) (publisher : string)
  | APublishMembershipEvent (type_ : string) (m : ClusterMemberInfo)
  | AEnsureCronActor (cronID : string)

(** [ActorOption]s. *)
with actorOption :=
  | WithMailboxCapacity (capacity : Z)
  | WithStartHook (h : LifecycleHook)
  | WithStopHook (h : LifecycleHook)
  | WithStopHookTimeout (d : Z)
  | WithBatching (maxBatchSize : Z) (rcv : option receiver).

(** [BatchConfig]. *)
Record BatchConfig := mkBatchConfig {
  bc_Enabled : bool;
  bc_MaxSize : Z;
  bc_Receiver : option receiver
}.

Definition zeroBatchConfig : BatchConfig := mkBatchConfig false 0 None.

(** [actorConfig]. *)
Record actorConfig := mkActorConfig {
  ac_mailboxCapacity : Z;
  ac_startHook : option LifecycleHook;
  ac_stopHook : option LifecycleHook;
  ac_stopHookTimeout : Z;
  ac_batch : BatchConfig
}.

(** [5 * time.Second]. *)
Definition fiveSeconds : Z := 5000000000.

(** One [opt(&cfg)]. *)
Definition applyOption (c : actorConfig) (o : actorOption) : actorConfig :=
  match o with
  | WithMailboxCapacity n =>
      mkActorConfig n (ac_startHook c) (ac_stopHook c) (ac_stopHookTimeout c) (ac_batch c)
  | WithStartHook h =>
      mkActorConfig (ac_mailboxCapacity c) (Some h) (ac_stopHook c) (ac_stopHookTimeout c) (ac_batch c)
  | WithStopHook h =>
      mkActorConfig (ac_mailboxCapacity c) (ac_startHook c) (Some h) (ac_stopHookTimeout c) (ac_batch c)
  | WithStopHookTimeout d =>
      mkActorConfig (ac_mailboxCapacity c) (ac_startHook c) (ac_stopHook c) d (ac_batch c)
  | WithBatching n rcv =>
      mkActorConfig (ac_mailboxCapacity c) (ac_startHook c) (ac_stopHook c) (ac_stopHookTimeout c)
        (mkBatchConfig true n rcv)
  end.

(** The defaults of [CreateActor], with the options applied in order. *)
Definition actorConfigOf (opts : list actorOption) : actorConfig :=
  foldl applyOption (mkActorConfig 1024 None None fiveSeconds zeroBatchConfig) opts.

(** [actorState] ([state.go]). *)
Record actorState := mkActorState {
  as_revision : Z;
  as_payload : payload
}.

Definition newActorState (initial : payload) : actorState := mkActorState 0 initial.

Definition as_apply (next : payload) (s : actorState) : actorState :=
  mkActorState (as_revision s + 1) next.

Definition as_value (s : actorState) : payload := as_payload s.

(** ** Supervision policies ([supervisor.go]) *)

(** [SupervisorPolicy.Decide]: actor ID, error and restart count. *)
Definition SupervisorPolicy : Type := string -> string -> Z -> SupervisionDecision.

Record DefaultSupervisor := mkDefaultSupervisor {
  ds_MaxRestarts : Z;
  ds_OnLimit : SupervisionDecision
}.

Definition DefaultSupervisor_Decide (d : DefaultSupervisor) : SupervisorPolicy :=
  fun _ _ restartCount =>
    let max := if ds_MaxRestarts d <? 0 then 1 else ds_MaxRestarts d in
    if restartCount <? max then DecisionRestart
    else if decide (ds_OnLimit d = DecisionEscalate) then DecisionEscalate
    else DecisionStop.
