(* ===== verification/State.v ===== *)
(** * The state of the runtime and the operations that only record

    [Runtime] ([runtime.go]) with the structures it owns, grouped by purpose:
    the actor instances and their registry, what is observable (events,
    outcomes, dead letters), pending asks, PIDs and names, routing tables, the
    services (broker, cron, monitors, timers) with their goroutines, the
    configuration, and the calls made to the cluster layer.

    An actor instance is a shared object: the registry, the actor's goroutine
    and concurrent calls all hold pointers to it, and it outlives its registry
    entry.  Instances therefore live in a heap and are named by location.

    Operations are explicit state transformers.  The ones that can reach a
    router recurse through the routing tables, which may be cyclic; they live
    in the monad [M] of transformers that may diverge ([None]).  Metrics hooks
    and locks have no effect on the state and are left out; a call to [r.now]
    reads [rt_now], which the environment advances between steps. *)

From S2P Require Import Prelude Types Mailbox Resolver Registry Routing Outcomes Monitors PubSub.
From S2P Require Import Fnv Program.

(** ** Actor instances *)

(** [actorStatusCode]. *)
Inductive actorStatusCode :=
  | ActorStartingCode | ActorRunningCode | ActorRestartCode | ActorStoppingCode | ActorStoppedCode.

#[export] Instance actorStatusCode_eq_dec : EqDecision actorStatusCode.
Proof. solve_decision. Defined.

(** Where the actor's goroutine is in [runActor]: before the start hook, in
    the [select], in the inner loop that empties the mailbox, or returned. *)
Inductive goroutine := GoStarting | GoSelect | GoDraining | GoExited.

#[export] Instance goroutine_eq_dec : EqDecision goroutine.
Proof. solve_decision. Defined.

(** [actorInstance]; [ai_cancelled] is the state of its context and [ai_go]
    the position of its goroutine. *)
Record actorInstance := mkActorInstance {
  ai_id : string;
  ai_status : actorStatusCode;
  ai_mailbox : Mailbox;
  ai_handler : handler;
  ai_state : actorState;
  ai_initialState : payload;
  ai_restarts : Z;
  ai_lastDecision : SupervisionDecision;
  ai_cancelled : bool;
  ai_cfg : actorConfig;
  ai_startHook : option LifecycleHook;
  ai_stopHook : option LifecycleHook;
  ai_batch : BatchConfig;
  ai_go : goroutine
}.

Definition ai_set_status (x : actorStatusCode) (a : actorInstance) : actorInstance :=
  mkActorInstance (ai_id a) x (ai_mailbox a) (ai_handler a) (ai_state a) (ai_initialState a)
    (ai_restarts a) (ai_lastDecision a) (ai_cancelled a) (ai_cfg a) (ai_startHook a)
    (ai_stopHook a) (ai_batch a) (ai_go a).
Definition ai_set_mailbox (x : Mailbox) (a : actorInstance) : actorInstance :=
  mkActorInstance (ai_id a) (ai_status a) x (ai_handler a) (ai_state a) (ai_initialState a)
    (ai_restarts a) (ai_lastDecision a) (ai_cancelled a) (ai_cfg a) (ai_startHook a)
    (ai_stopHook a) (ai_batch a) (ai_go a).
Definition ai_set_state (x : actorState) (a : actorInstance) : actorInstance :=
  mkActorInstance (ai_id a) (ai_status a) (ai_mailbox a) (ai_handler a) x (ai_initialState a)
    (ai_restarts a) (ai_lastDecision a) (ai_cancelled a) (ai_cfg a) (ai_startHook a)
    (ai_stopHook a) (ai_batch a) (ai_go a).
Definition ai_set_restarts (x : Z) (a : actorInstance) : actorInstance :=
  mkActorInstance (ai_id a) (ai_status a) (ai_mailbox a) (ai_handler a) (ai_state a)
    (ai_initialState a) x (ai_lastDecision a) (ai_cancelled a) (ai_cfg a) (ai_startHook a)
    (ai_stopHook a) (ai_batch a) (ai_go a).
Definition ai_set_lastDecision (x : SupervisionDecision) (a : actorInstance) : actorInstance :=
  mkActorInstance (ai_id a) (ai_status a) (ai_mailbox a) (ai_handler a) (ai_state a)
    (ai_initialState a) (ai_restarts a) x (ai_cancelled a) (ai_cfg a) (ai_startHook a)
    (ai_stopHook a) (ai_batch a) (ai_go a).
Definition ai_set_cancelled (x : bool) (a : actorInstance) : actorInstance :=
  mkActorInstance (ai_id a) (ai_status a) (ai_mailbox a) (ai_handler a) (ai_state a)
    (ai_initialState a) (ai_restarts a) (ai_lastDecision a) x (ai_cfg a) (ai_startHook a)
    (ai_stopHook a) (ai_batch a) (ai_go a).
Definition ai_set_go (x : goroutine) (a : actorInstance) : actorInstance :=
  mkActorInstance (ai_id a) (ai_status a) (ai_mailbox a) (ai_handler a) (ai_state a)
    (ai_initialState a) (ai_restarts a) (ai_lastDecision a) (ai_cancelled a) (ai_cfg a)
    (ai_startHook a) (ai_stopHook a) (ai_batch a) x.

(** [inst.batch = b; inst.cfg.batch = inst.batch]. *)
Definition ai_set_batch (b : BatchConfig) (a : actorInstance) : actorInstance :=
  mkActorInstance (ai_id a) (ai_status a) (ai_mailbox a) (ai_handler a) (ai_state a)
    (ai_initialState a) (ai_restarts a) (ai_lastDecision a) (ai_cancelled a)
    (mkActorConfig (ac_mailboxCapacity (ai_cfg a)) (ac_startHook (ai_cfg a))
       (ac_stopHook (ai_cfg a)) (ac_stopHookTimeout (ai_cfg a)) b)
    (ai_startHook a) (ai_stopHook a) b (ai_go a).

(** [inst.cancel()] and [inst.mailbox.Close()]. *)
Definition ai_cancel (a : actorInstance) : actorInstance := ai_set_cancelled true a.
Definition ai_close (a : actorInstance) : actorInstance := ai_set_mailbox (Close (ai_mailbox a)) a.

(** The instances, and the registry that maps IDs to them. *)
Record actorsPart := mkActorsPart {
  ap_heap : gmap nat actorInstance;
  ap_next : nat;
  ap_registry : gmap string nat
}.

(** ** What is observable *)

(** [deadLetterSink] ([dead_letters.go]): whether a handler is set, the
    counter, and the letters handed to the handler. *)
Record deadLetterSink := mkDeadLetterSink {
  dls_handler : bool;
  dls_count : Z;
  dls_letters : list DeadLetter
}.

(** [deadLetterSink.setHandler]. *)
Definition dls_setHandler (h : bool) (s : deadLetterSink) : deadLetterSink :=
  mkDeadLetterSink h (dls_count s) (dls_letters s).

(** [deadLetterSink.emit]. *)
Definition dls_emit (l : DeadLetter) (s : deadLetterSink) : deadLetterSink :=
  mkDeadLetterSink (dls_handler s) (u64_succ (dls_count s))
    (if dls_handler s then dls_letters s ++ [l] else dls_letters s).

(** The events received by the emitter ([MemoryEmitter]), the outcome store
    and the dead letters. *)
Record obsPart := mkObsPart {
  ob_events : list Event;
  ob_eventSeq : Z;
  ob_outcomes : outcomeStore;
  ob_deadLetters : deadLetterSink
}.

(** ** Pending asks *)

Record pendingAsk := mkPendingAsk {
  pa_requestID : string;
  pa_targetActor : string;
  pa_replyTo : PID
}.

(** The ask tables; [kp_ch] holds, for each call of [Ask] that has not
    returned, its request and the content of its one-slot channel. *)
Record askPart := mkAskPart {
  kp_seq : Z;
  kp_wait : gmap string pendingAsk;
  kp_reply : gmap string string;
  kp_closed : gmap string string;
  kp_ch : gmap string (pendingAsk * option AskReplyEnvelope)
}.

(** ** PIDs, names and routing *)

Record pidsPart := mkPidsPart {
  pp_resolver : InMemoryPIDResolver;
  pp_actorPID : gmap string PID;
  pp_names : namedRegistry;
  pp_policy : PIDInteractionPolicyMode
}.

(** [routerRuntimeState]. *)
Record routerRuntimeState := mkRouterRuntimeState {
  rs_strategy : RouterStrategy;
  rs_workers : list string;
  rs_rrNext : Z
}.

(** Type routes, routers, and the number of draws made from [randSrc]. *)
Record routesPart := mkRoutesPart {
  rp_routing : gmap string actorRoutes;
  rp_routers : gmap string routerRuntimeState;
  rp_draws : nat
}.

(** ** Services *)

Record cronSubscription := mkCronSubscription {
  csub_ref : CronRef;
  csub_subscriber : PID;
  csub_actorID : string;
  csub_schedule : string;
  csub_payload : payload;
  csub_tag : string;
  csub_monitorRef : MonitorRef;
  csub_ctx : Z
}.

Record cronBrokerService := mkCronBrokerService {
  cr_cronID : string;
  cr_subs : gmap string cronSubscription;
  cr_byActor : gmap string (gset string);
  cr_seq : Z;
  cr_restored : bool
}.

(** A [runSchedule] goroutine: its subscription, the fire time it waits for
    ([None] at the top of the loop) and whether its context is cancelled. *)
Record scheduleTask := mkScheduleTask {
  st_sub : cronSubscription;
  st_next : option Z;
  st_cancelled : bool
}.

(** A timer goroutine ([timers.go]). *)
Record timerTask := mkTimerTask {
  tt_target : timerTarget;
  tt_payload : payload;
  tt_deadline : Z;
  tt_interval : option Z;
  tt_cancelled : bool
}.

(** [timerManager]: the sequence and the registered timers. *)
Record timerManager := mkTimerManager {
  tm_seq : Z;
  tm_timers : gmap Z bool
}.

(** The goroutine of [dispatchPublish]. *)
Record publishTask := mkPublishTask {
  pt_brokerID : string;
  pt_topic : string;
  pt_payload : payload;
  pt_publisher : string;
  pt_pending : list PID;
  pt_total : Z;
  pt_unreachable : Z
}.

Record servicesPart := mkServicesPart {
  sp_brokers : gmap string pubsubBrokerService;
  sp_cron : gmap string cronBrokerService;
  sp_monitors : monitorManager;
  sp_timers : timerManager;
  sp_timerTasks : gmap Z timerTask;
  sp_schedules : gmap Z scheduleTask;
  sp_publishes : gmap Z publishTask;
  sp_nextTask : Z
}.

(** ** Configuration and the cluster layer *)

(** The functions the cluster layer injects (absent on a single node), the
    supervision policy, the random source and the cron library: code that is
    not part of this package. *)
Record config := mkConfig {
  cf_policy : SupervisorPolicy;
  cf_nodeID : string;
  cf_remoteSend : option (string -> PID -> payload -> Z -> PIDSendAck * option string);
  cf_remoteAsk : option (string -> PID -> payload -> Z -> string -> PID -> PIDSendAck * option string);
  cf_clusterRegister : bool;
  cf_clusterLookup : option (string -> option PID);
  cf_clusterUnregister : bool;
  cf_pubsubBroadcast : bool;
  cf_pubsubOnSubscribe : bool;
  cf_pubsubOnUnsubscribe : bool;
  cf_rand : nat -> Z;
  cf_cronParse : string -> bool;
  cf_cronNext : string -> Z -> option Z
}.

(** Calls made to the injected functions. *)
Inductive extCall :=
  | ExtRemoteSend (sender : string) (pid : PID) (p : payload) (msgID : Z)
  | ExtRemoteAsk (pid : PID) (p : payload) (msgID : Z) (requestID : string) (replyTo : PID)
  | ExtClusterRegister (name : string) (pid : PID)
  | ExtClusterUnregister (name : string)
  | ExtBroadcast (topic : string) (p : payload)
  | ExtOnSubscribe (topic : string)
  | ExtOnUnsubscribe (topic : string).

(** ** The runtime *)

Record Runtime := mkRuntime {
  rt_actors : actorsPart;
  rt_obs : obsPart;
  rt_ask : askPart;
  rt_pids : pidsPart;
  rt_routes : routesPart;
  rt_svc : servicesPart;
  rt_cfg : config;
  rt_msgSeq : Z;
  rt_now : Z;
  rt_ext : list extCall
}.

Definition set_actors (x : actorsPart) (r : Runtime) : Runtime :=
  mkRuntime x (rt_obs r) (rt_ask r) (rt_pids r) (rt_routes r) (rt_svc r) (rt_cfg r)
    (rt_msgSeq r) (rt_now r) (rt_ext r).
Definition set_obs (x : obsPart) (r : Runtime) : Runtime :=
  mkRuntime (rt_actors r) x (rt_ask r) (rt_pids r) (rt_routes r) (rt_svc r) (rt_cfg r)
    (rt_msgSeq r) (rt_now r) (rt_ext r).
Definition set_ask (x : askPart) (r : Runtime) : Runtime :=
  mkRuntime (rt_actors r) (rt_obs r) x (rt_pids r) (rt_routes r) (rt_svc r) (rt_cfg r)
    (rt_msgSeq r) (rt_now r) (rt_ext r).
Definition set_pids (x : pidsPart) (r : Runtime) : Runtime :=
  mkRuntime (rt_actors r) (rt_obs r) (rt_ask r) x (rt_routes r) (rt_svc r) (rt_cfg r)
    (rt_msgSeq r) (rt_now r) (rt_ext r).
Definition set_routes (x : routesPart) (r : Runtime) : Runtime :=
  mkRuntime (rt_actors r) (rt_obs r) (rt_ask r) (rt_pids r) x (rt_svc r) (rt_cfg r)
    (rt_msgSeq r) (rt_now r) (rt_ext r).
Definition set_svc (x : servicesPart) (r : Runtime) : Runtime :=
  mkRuntime (rt_actors r) (rt_obs r) (rt_ask r) (rt_pids r) (rt_routes r) x (rt_cfg r)
    (rt_msgSeq r) (rt_now r) (rt_ext r).
Definition set_cfg (x : config) (r : Runtime) : Runtime :=
  mkRuntime (rt_actors r) (rt_obs r) (rt_ask r) (rt_pids r) (rt_routes r) (rt_svc r) x
    (rt_msgSeq r) (rt_now r) (rt_ext r).
Definition set_msgSeq (x : Z) (r : Runtime) : Runtime :=
  mkRuntime (rt_actors r) (rt_obs r) (rt_ask r) (rt_pids r) (rt_routes r) (rt_svc r) (rt_cfg r)
    x (rt_now r) (rt_ext r).
Definition set_now (x : Z) (r : Runtime) : Runtime :=
  mkRuntime (rt_actors r) (rt_obs r) (rt_ask r) (rt_pids r) (rt_routes r) (rt_svc r) (rt_cfg r)
    (rt_msgSeq r) x (rt_ext r).

(** Record a call to the cluster layer. *)
Definition ext_call (c : extCall) (r : Runtime) : Runtime :=
  mkRuntime (rt_actors r) (rt_obs r) (rt_ask r) (rt_pids r) (rt_routes r) (rt_svc r) (rt_cfg r)
    (rt_msgSeq r) (rt_now r) (rt_ext r ++ [c]).

(** [NewRuntime] with the given configuration (the result of its options) at a
    given time; [dls] says whether a dead-letter handler was set. *)
Definition NewRuntime (cfg : config) (dls : bool) (now : Z) : Runtime :=
  mkRuntime
    (mkActorsPart ∅ 0 newRegistry)
    (mkObsPart [] 0 newOutcomeStore (mkDeadLetterSink dls 0 []))
    (mkAskPart 0 ∅ ∅ ∅ ∅)
    (mkPidsPart NewInMemoryPIDResolver ∅ newNamedRegistry PIDInteractionPolicyDisabled)
    (mkRoutesPart newTypeRoutingRegistry ∅ 0)
    (mkServicesPart ∅ ∅ newMonitorManager (mkTimerManager 0 ∅) ∅ ∅ ∅ 0)
    cfg 0 now [].

(** The configuration of [NewRuntime] without options. *)
Definition defaultConfig : config :=
  mkConfig (DefaultSupervisor_Decide (mkDefaultSupervisor 1 (DecisionOther ""))) "" None None
    false None false false false false (fun _ => 0) (fun _ => false) (fun _ _ => None).
