(* ===== verification/Emit.v ===== *)
(** * Recording and the effect monad

    The [emit...] functions of [runtime.go] and [pubsub_runtime.go], the
    outcome and dead-letter recording, access to actor instances through their
    location, and the monad [M] of operations that may diverge, with the
    preservation lemmas every invariant of the runtime is proved with. *)

From S2P Require Import Prelude Types Mailbox Resolver Registry Routing Outcomes Monitors PubSub.
From S2P Require Import Fnv Program State.

(** ** Events *)

(** [eid := r.eventSeq.Add(1); r.emitter.Emit(Event{EventID: eid, ...})]. *)
Definition emitEvent (ev : Z -> Event) (r : Runtime) : Runtime :=
  let o := rt_obs r in
  let eid := u64_succ (ob_eventSeq o) in
  set_obs (mkObsPart (ob_events o ++ [ev eid]) eid (ob_outcomes o) (ob_deadLetters o)) r.

(** Change the outcome store. *)
Definition record_outcome (f : outcomeStore -> outcomeStore) (r : Runtime) : Runtime :=
  let o := rt_obs r in
  set_obs (mkObsPart (ob_events o) (ob_eventSeq o) (f (ob_outcomes o)) (ob_deadLetters o)) r.

Definition emit (eventType : EventType) (actorID : string) (messageID : Z) (result code : string)
    (r : Runtime) : Runtime :=
  emitEvent (fun eid => mkEvent eid eventType actorID messageID "" "" 0 "" "" "" 0 "" "" "" ""
    "" "" "" 0 "" "" 0 (rt_now r) result code) r.

Definition emitDecision (eventType : EventType) (actorID : string) (messageID : Z)
    (decision : SupervisionDecision) (restartCount : Z) (result code : string) (r : Runtime)
    : Runtime :=
  emitEvent (fun eid => mkEvent eid eventType actorID messageID "" "" 0 "" ""
    (SupervisionDecision_string decision) restartCount "" "" "" "" "" "" "" 0 "" "" 0
    (rt_now r) result code) r.

Definition emitLocal (eventType : EventType) (actorID : string) (msg : Message)
    (result code : string) (r : Runtime) : Runtime :=
  emitEvent (fun eid => mkEvent eid eventType actorID (msg_ID msg) "" "" 0 (msg_TypeName msg)
    (msg_SchemaVersion msg) "" 0 "" "" "" "" "" "" "" 0 "" "" 0 (rt_now r) result code) r.

Definition emitPID (eventType : EventType) (pid : PID) (messageID : Z)
    (outcome : PIDDeliveryOutcome) (code : string) (r : Runtime) : Runtime :=
  emitEvent (fun eid => mkEvent eid eventType (ActorID pid) messageID (Namespace pid) (ActorID pid)
    (Generation pid) "" "" "" 0 "" "" "" "" "" "" "" 0 "" "" 0 (rt_now r)
    (PIDDeliveryOutcome_string outcome) code) r.

Definition emitRegistry (eventType : EventType) (name actorID : string) (pid : PID)
    (result : RegistryOperationResult) (code : string) (r : Runtime) : Runtime :=
  emitEvent (fun eid => mkEvent eid eventType actorID 0 (Namespace pid) (ActorID pid)
    (Generation pid) "" "" "" 0 name "" "" "" "" "" "" 0 "" "" 0 (rt_now r)
    (RegistryOperationResult_string result) code) r.

Definition emitLifecycle (actorID : string) (phase : LifecycleHookPhase)
    (result : LifecycleHookResult) (code : string) (r : Runtime) : Runtime :=
  emitEvent (fun eid => mkEvent eid EventLifecycleHook actorID 0 "" "" 0 "" "" "" 0 ""
    (LifecycleHookPhase_string phase) "" "" "" "" "" 0 "" "" 0 (rt_now r)
    (LifecycleHookResult_string result) code) r.

Definition emitGuardrail (actorID : string) (mode : GatewayRouteMode)
    (outcome : GuardrailOutcomeType) (code : string) (r : Runtime) : Runtime :=
  let policyMode := pp_policy (rt_pids r) in
  let r := emitEvent (fun eid => mkEvent eid EventGuardrailDecision actorID 0 "" "" 0 "" "" "" 0
    "" "" (GatewayRouteMode_string mode) "" "" "" "" 0 "" "" 0 (rt_now r)
    (GuardrailOutcomeType_string outcome) code) r in
  record_outcome (putGuardrail (mkGuardrailOutcome actorID policyMode mode outcome code (rt_now r))) r.

Definition emitReadiness (scope : ReadinessScope) (result : ReadinessResult) (evidence : string)
    (r : Runtime) : Runtime :=
  let r := emitEvent (fun eid => mkEvent eid EventReadinessValidation "" 0 "" "" 0 "" "" "" 0
    "" "" "" (ReadinessScope_string scope) "" "" "" 0 "" "" 0 (rt_now r)
    (ReadinessResult_string result) evidence) r in
  record_outcome (putReadiness (mkReadinessValidationRecord scope result (rt_now r) evidence)) r.

Definition emitAsk (actorID requestID : string) (replyTo : PID) (outcome : AskOutcomeType)
    (code : string) (r : Runtime) : Runtime :=
  let r := emitEvent (fun eid => mkEvent eid EventAskLifecycle actorID 0 "" "" 0 "" "" "" 0
    "" "" "" "" requestID (Namespace replyTo) (ActorID replyTo) (Generation replyTo) "" "" 0
    (rt_now r) (AskOutcomeType_string outcome) code) r in
  record_outcome (putAsk (mkAskOutcome requestID actorID replyTo outcome code (rt_now r))) r.

Definition emitRouter (routerID : string) (messageID : Z) (strategy : RouterStrategy)
    (selectedWorker : string) (outcome : RoutingOutcomeType) (code : string) (r : Runtime)
    : Runtime :=
  let r := emitEvent (fun eid => mkEvent eid EventRouterLifecycle routerID messageID "" "" 0 "" "" ""
    0 "" "" "" "" "" "" "" 0 (RouterStrategy_string strategy) selectedWorker 0 (rt_now r)
    (RoutingOutcomeType_string outcome) code) r in
  record_outcome
    (putRouting (mkRoutingOutcome routerID messageID strategy selectedWorker outcome code (rt_now r))) r.

Definition emitBatch (actorID : string) (batchSize : Z) (result : BatchResult) (code : string)
    (r : Runtime) : Runtime :=
  let r := emitEvent (fun eid => mkEvent eid EventBatchLifecycle actorID 0 "" "" 0 "" "" "" 0
    "" "" "" "" "" "" "" 0 "" "" batchSize (rt_now r) (BatchResult_string result) code) r in
  record_outcome (putBatch (mkBatchOutcome actorID batchSize result code (rt_now r))) r.

(** [emitBroker] ([pubsub_runtime.go]); the event carries no generation. *)
Definition emitBroker (brokerID : string) (op : BrokerOperation) (topicPattern : string)
    (subscriber : PID) (matched : Z) (result : BrokerOutcomeType) (reason : string) (r : Runtime)
    : Runtime :=
  let r := emitEvent (fun eid => mkEvent eid EventBrokerLifecycle brokerID 0 (Namespace subscriber)
    (ActorID subscriber) 0 "" "" "" 0 "" "" "" "" "" "" "" 0 "" "" 0 (rt_now r)
    (BrokerOutcomeType_string result) reason) r in
  record_outcome
    (putBroker (mkBrokerOutcome brokerID op topicPattern subscriber matched result reason (rt_now r))) r.

(** [r.outcomes.put(ProcessingOutcome{MessageID, ActorID, Result, CompletedAt: now, ErrorCode})]. *)
Definition putOutcome (msgID : Z) (actorID : string) (result : ProcessingResult) (code : string)
    (r : Runtime) : Runtime :=
  record_outcome
    (outcome_put (mkProcessingOutcome msgID actorID result (DecisionOther "") 0 (rt_now r) code)) r.

(** The same with the supervision fields. *)
Definition putFailedOutcome (msgID : Z) (actorID : string) (decision : SupervisionDecision)
    (iteration : Z) (code : string) (r : Runtime) : Runtime :=
  record_outcome
    (outcome_put (mkProcessingOutcome msgID actorID ResultFailed decision iteration (rt_now r) code)) r.

(** [deadLetterSink.emitPID] and [emitActor]. *)
Definition emit_dead_letter (l : DeadLetter) (r : Runtime) : Runtime :=
  let o := rt_obs r in
  set_obs (mkObsPart (ob_events o) (ob_eventSeq o) (ob_outcomes o) (dls_emit l (ob_deadLetters o))) r.

Definition dls_emitPID (pid : PID) (p : payload) (reason : string) (r : Runtime) : Runtime :=
  emit_dead_letter (mkDeadLetter (ActorID pid) pid p reason (rt_now r)) r.

Definition dls_emitActor (actorID : string) (p : payload) (reason : string) (r : Runtime) : Runtime :=
  emit_dead_letter (mkDeadLetter actorID zeroPID p reason (rt_now r)) r.

(** [DeadLetterCount]. *)
Definition DeadLetterCount (r : Runtime) : Z := dls_count (ob_deadLetters (rt_obs r)).

(** ** Sequence numbers *)

(** [r.msgSeq.Add(1)]. *)
Definition nextMsgID (r : Runtime) : Runtime * Z :=
  let id := u64_succ (rt_msgSeq r) in (set_msgSeq id r, id).

(** ** Instances *)

(** [r.registry.get(id)]: the location of the instance. *)
Definition lookup_actor (id : string) (r : Runtime) : option nat :=
  registry_get id (ap_registry (rt_actors r)).

(** The object at a location; locations handed out stay valid. *)
Definition instance (l : nat) (r : Runtime) : option actorInstance := ap_heap (rt_actors r) !! l.

Definition update_instance (l : nat) (f : actorInstance -> actorInstance) (r : Runtime) : Runtime :=
  set_actors (mkActorsPart (alter f l (ap_heap (rt_actors r))) (ap_next (rt_actors r))
    (ap_registry (rt_actors r))) r.

(** The registered instance of an actor ID. *)
Definition actor_of (id : string) (r : Runtime) : option actorInstance :=
  l ← lookup_actor id r; instance l r.

(** [Status]. *)
Definition Status (actorID : string) (r : Runtime) : ActorStatus :=
  match actor_of actorID r with
  | None => ActorStopped
  | Some inst =>
      match ai_status inst with
      | ActorStartingCode => ActorStarting
      | ActorRunningCode => ActorRunning
      | ActorRestartCode => ActorRestarting
      | ActorStoppingCode => ActorStopping
      | ActorStoppedCode => ActorStopped
      end
  end.

(** ** The monad *)

(** An operation on the runtime with a result; [None] when it does not
    terminate. *)
Definition M (A : Type) : Type := Runtime -> option (Runtime * A).

#[export] Instance M_ret : MRet M := fun A a r => Some (r, a).
#[export] Instance M_bind : MBind M := fun A B f m r =>
  match m r with
  | None => None
  | Some (r', a) => f a r'
  end.

(** Change the state, run a total operation, read the state, diverge. *)
Definition upd (f : Runtime -> Runtime) : M unit := fun r => Some (f r, tt).
Definition total {A} (f : Runtime -> Runtime * A) : M A := fun r => Some (f r).
Definition gets {A} (f : Runtime -> A) : M A := fun r => Some (r, f r).
Definition diverge {A} : M A := fun _ => None.

(** A Go loop over a slice. *)
Fixpoint forM {A} (l : list A) (f : A -> M unit) : M unit :=
  match l with
  | [] => mret tt
  | x :: l' => _ ← f x; forM l' f
  end.

(** ** Preservation of an invariant by an operation *)

Definition preserves (P : Runtime -> Prop) {A} (m : M A) : Prop :=
  forall r r' a, m r = Some (r', a) -> P r -> P r'.

Section preserves.
Context (P : Runtime -> Prop).

Lemma preserves_ret {A} (a : A) : preserves P (mret a).
Proof. intros r r' x H Hp. by inversion H; subst. Qed.

Lemma preserves_bind {A B} (m : M A) (k : A -> M B) :
  preserves P m -> (forall a, preserves P (k a)) -> preserves P (m ≫= k).
Proof.
  intros Hm Hk r r' b H Hp. unfold mbind, M_bind in H.
  destruct (m r) as [[r1 a]|] eqn:E; [|done]. eapply Hk; eauto.
Qed.

Lemma preserves_upd f : (forall r, P r -> P (f r)) -> preserves P (upd f).
Proof. intros Hf r r' x H Hp. inversion H; subst. auto. Qed.

Lemma preserves_total {A} (f : Runtime -> Runtime * A) :
  (forall r, P r -> P (f r).1) -> preserves P (total f).
Proof. intros Hf r r' x H Hp. inversion H as [E]. specialize (Hf r Hp). by rewrite E in Hf. Qed.

Lemma preserves_gets {A} (f : Runtime -> A) : preserves P (gets f).
Proof. intros r r' x H Hp. by inversion H; subst. Qed.

Lemma preserves_diverge {A} : preserves P (@diverge A).
Proof. by intros r r' x H. Qed.

Lemma preserves_forM {A} (l : list A) f :
  (forall x, preserves P (f x)) -> preserves P (forM l f).
Proof.
  intros Hf. induction l as [|x l IH]; cbn; [apply preserves_ret|].
  apply preserves_bind; auto.
Qed.
End preserves.

Create HintDb pres.
#[export] Hint Resolve preserves_ret preserves_gets preserves_diverge preserves_forM : pres.

(** Decompose the preservation of an operation into that of its parts. *)
Ltac pres_step :=
  lazymatch goal with
  | |- preserves _ (mbind _ _) => apply preserves_bind; [|intros ?]
  | |- preserves _ (mret _) => apply preserves_ret
  | |- preserves _ (gets _) => apply preserves_gets
  | |- preserves _ diverge => apply preserves_diverge
  | |- preserves _ (forM _ _) => apply preserves_forM; intros ?
  | |- preserves _ (match ?x with _ => _ end) => destruct x
  | |- preserves _ (let _ := _ in _) => cbv zeta
  end.

Ltac pres := repeat first [pres_step | solve [eauto with pres] ].

(** ** Recording leaves the rest of the state alone *)

(** Two states that differ at most in what is observable. *)
Definition same_core (r r' : Runtime) : Prop :=
  rt_actors r' = rt_actors r /\ rt_ask r' = rt_ask r /\ rt_pids r' = rt_pids r /\
  rt_routes r' = rt_routes r /\ rt_svc r' = rt_svc r /\ rt_cfg r' = rt_cfg r /\
  rt_msgSeq r' = rt_msgSeq r /\ rt_now r' = rt_now r /\ rt_ext r' = rt_ext r.
