(* ===== verification/Send.v ===== *)
(** * Sending: mailboxes, routers, asks and PIDs ([runtime.go])

    [sendWithAskContext] is the path every local message takes.  A router
    forwards to one of its workers through the same function, so sending is
    recursive; [fuel] bounds the depth of router nesting.  The bound is not
    part of the code: [send_terminates]
    (in [Delivery.v]) shows that any fuel above the rank of
    the target gives the result when the routers are acyclic, and
    [router_cycle_diverges] that no fuel does for a router that is its own
    worker. *)

From S2P Require Import Prelude Types Mailbox Resolver Registry Routing Outcomes Monitors PubSub.
From S2P Require Import Fnv Program State Emit.

(** ** Routers *)

(** [routerState]. *)
Definition routerState (actorID : string) (r : Runtime) : option (RouterStrategy * list string) :=
  match rp_routers (rt_routes r) !! actorID with
  | None => None
  | Some st => Some (rs_strategy st, rs_workers st)
  end.

(** [rrCounter.Add(1)] on the counter of a router. *)
Definition bump_rrNext (routerID : string) (r : Runtime) : Runtime * Z :=
  let rp := rt_routes r in
  match rp_routers rp !! routerID with
  | None => (r, 0)
  | Some st =>
      let n := u64_succ (rs_rrNext st) in
      (set_routes (mkRoutesPart (rp_routing rp)
         (<[routerID := mkRouterRuntimeState (rs_strategy st) (rs_workers st) n]> (rp_routers rp))
         (rp_draws rp)) r, n)
  end.

(** [r.randSrc.Intn(n)]. *)
Definition randIntn (n : Z) (r : Runtime) : Runtime * Z :=
  let rp := rt_routes r in
  (set_routes (mkRoutesPart (rp_routing rp) (rp_routers rp) (S (rp_draws rp))) r,
   cf_rand (rt_cfg r) (rp_draws rp) mod n).

(** [workers[idx]], for an index that is always in range. *)
Definition worker_at (workers : list string) (idx : Z) : string :=
  default "" (workers !! Z.to_nat idx).

(** The [HashKey] method of a payload, when it has one. *)
Definition hashKeyOf (p : payload) : option string :=
  match p with PUser v => uv_HashKey v | _ => None end.

(** [selectRoutedWorker]; the router's ID stands for its counter. *)
Definition selectRoutedWorker (routerID : string) (strategy : RouterStrategy)
    (workers : list string) (p : payload) (r : Runtime)
    : Runtime * (string * RoutingOutcomeType * string) :=
  if (length workers =? 0)%nat
  then (r, (""%string, RouteFailedNoWorkers, "router_no_workers"%string))
  else
    let n := Z.of_nat (length workers) in
    match strategy with
    | RouterStrategyRoundRobin =>
        let '(r, c) := bump_rrNext routerID r in
        let idx := u64 (c - 1) in
        (r, (worker_at workers (idx mod n), RouteSuccess, ""%string))
    | RouterStrategyRandom =>
        let '(r, idx) := randIntn n r in
        (r, (worker_at workers idx, RouteSuccess, ""%string))
    | RouterStrategyConsistentKey =>
        match hashKeyOf p with
        | None => (r, (""%string, RouteFailedInvalidKey, "router_missing_hash_key"%string))
        | Some key =>
            if bool_decide (key = ""%string)
            then (r, (""%string, RouteFailedInvalidKey, "router_empty_hash_key"%string))
            else (r, (worker_at workers (fnv32a key mod u32 n), RouteSuccess, ""%string))
        end
    | RouterStrategyOther _ =>
        (r, (""%string, RouteFailedInvalidKey, "router_invalid_strategy"%string))
    end.

(** [dispatchRouted], over the send it calls for the selected worker. *)
Definition dispatchRouted
    (send : string -> payload -> option AskRequestContext -> M SubmitAck)
    (routerID : string) (p : payload) (askCtx : option AskRequestContext)
    (strategy : RouterStrategy) (workers : list string) : M SubmitAck :=
  msgID ← total nextMsgID;
  sel ← total (selectRoutedWorker routerID strategy workers p);
  let '(selectedWorker, outcome, reason) := sel in
  if decide (outcome = RouteSuccess) then
    ack ← send selectedWorker p askCtx;
    if decide (sa_Result ack = SubmitAccepted) then
      _ ← upd (emitRouter routerID (sa_MessageID ack) strategy selectedWorker RouteSuccess "");
      mret ack
    else
      _ ← upd (emitRouter routerID (sa_MessageID ack) strategy selectedWorker
                 RouteFailedWorkerUnavailable (SubmitResult_string (sa_Result ack)));
      mret ack
  else
    _ ← upd (emitRouter routerID msgID strategy "" outcome reason);
    mret (mkSubmitAck SubmitRejectedFound msgID).

(** ** Local sends *)

(** A rejection: outcome, [message_rejected] event and acknowledgement. *)
Definition reject (actorID : string) (msgID : Z) (result : ProcessingResult) (res : SubmitResult)
    (r : Runtime) : Runtime * SubmitAck :=
  let r := putOutcome msgID actorID result (SubmitResult_string res) r in
  let r := emit EventMessageRejected actorID msgID (ProcessingResult_string result)
             (SubmitResult_string res) r in
  (r, mkSubmitAck res msgID).

(** The rejections of type routing emit the message's type and version. *)
Definition rejectLocal (actorID : string) (msg : Message) (result : ProcessingResult)
    (res : SubmitResult) (r : Runtime) : Runtime * SubmitAck :=
  let r := putOutcome (msg_ID msg) actorID result (SubmitResult_string res) r in
  let r := emitLocal EventMessageRejected actorID msg (ProcessingResult_string result)
             (SubmitResult_string res) r in
  (r, mkSubmitAck res (msg_ID msg)).

(** The final part of [sendWithAskContext]: enqueue and record a rejection. *)
Definition enqueueMessage (l : nat) (inst : actorInstance) (actorID : string) (msg : Message)
    (r : Runtime) : Runtime * SubmitAck :=
  let '(mb, res) := Enqueue msg (ai_mailbox inst) in
  let r := update_instance l (ai_set_mailbox mb) r in
  let r := if decide (res = SubmitRejectedFull)
           then (reject actorID (msg_ID msg) ResultRejectedFull SubmitRejectedFull r).1 else r in
  let r := if decide (res = SubmitRejectedStop)
           then (reject actorID (msg_ID msg) ResultRejectedStop SubmitRejectedStop r).1 else r in
  (r, mkSubmitAck res (msg_ID msg)).

(** [sendWithAskContext] for an actor that is not a router. *)
Definition sendDirect (actorID : string) (p : payload) (askCtx : option AskRequestContext)
    (r : Runtime) : Runtime * SubmitAck :=
  let found := lookup_actor actorID r in
  let '(r, msgID) := nextMsgID r in
  match found ≫= (fun l => (fun inst => (l, inst)) <$> instance l r) with
  | None => reject actorID msgID ResultRejectedFound SubmitRejectedFound r
  | Some (l, inst) =>
      if decide (ai_status inst = ActorStoppedCode)
      then reject actorID msgID ResultRejectedStop SubmitRejectedStop r
      else
        let typeName := messageTypeName p in
        let schemaVersion := messageSchemaVersion p in
        let msg := mkMessage msgID actorID "" p askCtx typeName schemaVersion (rt_now r) 1 in
        match rr_match (resolve actorID typeName schemaVersion (rp_routing (rt_routes r))) with
        | routeVersionMismatch =>
            rejectLocal actorID msg ResultRejectedVersionMismatch SubmitRejectedVersionMismatch r
        | routeUnsupportedType =>
            rejectLocal actorID msg ResultRejectedUnsupportedType SubmitRejectedUnsupportedType r
        | routeExact =>
            enqueueMessage l inst actorID msg
              (emitLocal EventMessageRoutedExact actorID msg (SubmitResult_string SubmitAccepted) "" r)
        | routeFallback =>
            enqueueMessage l inst actorID msg
              (emitLocal EventMessageRoutedFallback actorID msg (SubmitResult_string SubmitAccepted) "" r)
        | routeNoRules => enqueueMessage l inst actorID msg r
        end
  end.

Fixpoint sendWithAskContext (fuel : nat) (actorID : string) (p : payload)
    (askCtx : option AskRequestContext) : M SubmitAck :=
  match fuel with
  | O => diverge
  | S fuel' =>
      if is_nil p then
        msgID ← total nextMsgID;
        total (reject actorID msgID ResultRejectedNilPayload SubmitRejectedNilPayload)
      else
        router ← gets (routerState actorID);
        match router with
        | Some (strategy, workers) =>
            inst ← gets (actor_of actorID);
            msgID ← total nextMsgID;
            match inst with
            | None => total (reject actorID msgID ResultRejectedFound SubmitRejectedFound)
            | Some inst =>
                if decide (ai_status inst = ActorStoppedCode)
                then total (reject actorID msgID ResultRejectedStop SubmitRejectedStop)
                else dispatchRouted (sendWithAskContext fuel') actorID p askCtx strategy workers
            end
        | None => total (sendDirect actorID p askCtx)
        end
  end.

Definition Send (fuel : nat) (actorID : string) (p : payload) : M SubmitAck :=
  sendWithAskContext fuel actorID p None.

Definition Route (fuel : nat) (routerID : string) (p : payload) : M SubmitAck :=
  sendWithAskContext fuel routerID p None.

Definition DeliverLocal (fuel : nat) (actorID : string) (p : payload)
    (askCtx : option AskRequestContext) : M SubmitAck :=
  sendWithAskContext fuel actorID p askCtx.

(** ** Asks *)

(** [newAskRequest]. *)
Definition newAskRequest (targetActor : string) (r : Runtime) : Runtime * pendingAsk :=
  let k := rt_ask r in
  let seq := u64_succ (kp_seq k) in
  let requestID := "ask-" +:+ itoa seq in
  let ns := if bool_decide (cf_nodeID (rt_cfg r) = ""%string) then askReplyNamespace
            else askReplyNamespace +:+ "@" +:+ cf_nodeID (rt_cfg r) in
  let replyTo := mkPID ns requestID 1 in
  let wait := mkPendingAsk requestID targetActor replyTo in
  (set_ask (mkAskPart seq (<[requestID := wait]> (kp_wait k))
     (<[Key replyTo := requestID]> (kp_reply k)) (kp_closed k)
     (<[requestID := (wait, None)]> (kp_ch k))) r, wait).

(** [for k := range m { delete(m, k); break }]: any one key goes. *)
Definition evict_one (m : gmap string string) : gmap string string :=
  match map_to_list m with
  | [] => m
  | (k, _) :: _ => delete k m
  end.

(** [completeAskRequest]. *)
Definition completeAskRequest (wait : pendingAsk) (r : Runtime) : Runtime :=
  let k := rt_ask r in
  let closed := <[pa_requestID wait := pa_targetActor wait]> (kp_closed k) in
  let closed := if 4096 <? Z.of_nat (size closed) then evict_one closed else closed in
  set_ask (mkAskPart (kp_seq k) (delete (pa_requestID wait) (kp_wait k))
    (delete (Key (pa_replyTo wait)) (kp_reply k)) closed (kp_ch k)) r.

(** The caller of [Ask] drops its reference to the channel when it returns. *)
Definition dropChannel (wait : pendingAsk) (r : Runtime) : Runtime :=
  let k := rt_ask r in
  set_ask (mkAskPart (kp_seq k) (kp_wait k) (kp_reply k) (kp_closed k)
    (delete (pa_requestID wait) (kp_ch k))) r.

(** [Ask] up to its [select]: an error, or the request it waits for. *)
Definition AskBegin (fuel : nat) (actorID : string) (p : payload) (timeout : Z)
    : M (pendingAsk + string) :=
  if timeout <=? 0 then mret (inr ErrAskInvalidTimeout)
  else
    wait ← total (newAskRequest actorID);
    ack ← sendWithAskContext fuel actorID p
            (Some (mkAskRequestContext (pa_requestID wait) (pa_replyTo wait)));
    if decide (sa_Result ack = SubmitAccepted) then mret (inl wait)
    else
      _ ← upd (completeAskRequest wait);
      _ ← upd (dropChannel wait);
      _ ← upd (emitAsk actorID (pa_requestID wait) (pa_replyTo wait) AskOutcomeReplyTargetInvalid
                 (SubmitResult_string (sa_Result ack)));
      mret (inr ErrAskReplyTargetInvalid).

(** What ends the [select]: a reply in the channel, the timer, the context. *)
Inductive askWake := WakeReply | WakeTimeout | WakeCanceled.

(** The [select] of [Ask] and [AskPID] (whose actor ID is the target of the
    request); [None] when the chosen case is not ready (no reply in the
    channel). *)
Definition AskEnd (wait : pendingAsk) (w : askWake) (r : Runtime)
    : option (Runtime * (AskResult + string)) :=
  let finish outcome code r :=
    emitAsk (pa_targetActor wait) (pa_requestID wait) (pa_replyTo wait) outcome code
      (dropChannel wait (completeAskRequest wait r)) in
  match w with
  | WakeReply =>
      match kp_ch (rt_ask r) !! pa_requestID wait with
      | Some (_, Some env) =>
          Some (finish AskOutcomeSuccess "" r, inl (mkAskResult (are_RequestID env) (are_Payload env)))
      | _ => None
      end
  | WakeTimeout => Some (finish AskOutcomeTimeout ErrAskTimeout r, inr ErrAskTimeout)
  | WakeCanceled => Some (finish AskOutcomeCanceled ErrAskCanceled r, inr ErrAskCanceled)
  end.

(** [routeAskReply]: [None] when the PID is not an ask-reply address of this
    node. *)
Definition routeAskReply (pid : PID) (p : payload) (msgID : Z) (r : Runtime)
    : Runtime * option PIDSendAck :=
  let nodeID := cf_nodeID (rt_cfg r) in
  if negb (isAskReplyNamespace (Namespace pid)) then (r, None)
  else if negb (bool_decide (nodeID = ""%string))
          && negb (bool_decide (Namespace pid = askReplyNamespace))
          && negb (bool_decide (Namespace pid = askReplyNamespace +:+ "@" +:+ nodeID))
  then (r, None)
  else
    let k := rt_ask r in
    let replyKey := Key pid in
    match kp_reply k !! replyKey with
    | None =>
        match kp_closed k !! ActorID pid with
        | Some targetActor =>
            (emitAsk targetActor (ActorID pid) pid AskOutcomeLateReplyDropped "ask_wait_closed" r,
             Some (mkPIDSendAck PIDRejectedStopped msgID))
        | None =>
            (emitAsk "" (ActorID pid) pid AskOutcomeReplyTargetInvalid ErrAskReplyTargetInvalid r,
             Some (mkPIDSendAck PIDRejectedNotFound msgID))
        end
    | Some requestID =>
        let wait := kp_wait k !! requestID in
        let target := match wait with Some w => pa_targetActor w | None => ""%string end in
        let r := set_ask (mkAskPart (kp_seq k) (delete requestID (kp_wait k))
                   (delete replyKey (kp_reply k)) (<[requestID := target]> (kp_closed k))
                   (kp_ch k)) r in
        let env :=
          match p with
          | PAskReplyEnvelope rid pl at_ => mkAskReplyEnvelope rid pl at_
          | _ => mkAskReplyEnvelope requestID p (rt_now r)
          end in
        let env :=
          if bool_decide (are_RequestID env = ""%string)
          then mkAskReplyEnvelope requestID (are_Payload env) (are_RepliedAt env) else env in
        if negb (bool_decide (are_RequestID env = requestID)) then
          (emitAsk target requestID pid AskOutcomeReplyTargetInvalid "ask_request_mismatch" r,
           Some (mkPIDSendAck PIDRejectedNotFound msgID))
        else
          (* wait.waitCh <- env: a nil or full channel takes the default case *)
          match wait, kp_ch (rt_ask r) !! requestID with
          | None, _ | Some _, Some (_, Some _) =>
              (emitAsk target requestID pid AskOutcomeLateReplyDropped "ask_duplicate_reply" r,
               Some (mkPIDSendAck PIDRejectedStopped msgID))
          | Some _, _ =>
              let k := rt_ask r in
              (set_ask (mkAskPart (kp_seq k) (kp_wait k) (kp_reply k) (kp_closed k)
                 (alter (fun c => (c.1, Some env)) requestID (kp_ch k))) r,
               Some (mkPIDSendAck PIDDelivered msgID))
          end
    end.

(** [AskPID] up to its [select]. *)
Definition AskPIDBegin (fuel : nat) (pid : PID) (p : payload) (timeout : Z)
    : M (pendingAsk + string) :=
  if timeout <=? 0 then mret (inr ErrAskInvalidTimeout)
  else
    wait ← total (newAskRequest (ActorID pid));
    let askCtx := mkAskRequestContext (pa_requestID wait) (pa_replyTo wait) in
    let fail code :=
      _ ← upd (completeAskRequest wait);
      _ ← upd (dropChannel wait);
      _ ← upd (emitAsk (ActorID pid) (pa_requestID wait) (pa_replyTo wait)
                 AskOutcomeReplyTargetInvalid code);
      (mret (inr ErrAskReplyTargetInvalid) : M (pendingAsk + string)) in
    cfg ← gets rt_cfg;
    let local :=
      ack ← sendWithAskContext fuel (ActorID pid) p (Some askCtx);
      if decide (sa_Result ack = SubmitAccepted) then mret (inl wait)
      else fail (SubmitResult_string (sa_Result ack)) in
    match cf_remoteAsk cfg with
    | Some remoteAsk =>
        if IsRemote pid (cf_nodeID cfg) then
          msgID ← total nextMsgID;
          _ ← upd (ext_call (ExtRemoteAsk pid p msgID (arc_RequestID askCtx) (arc_ReplyTo askCtx)));
          let '(ack, err) := remoteAsk "" pid p msgID (arc_RequestID askCtx) (arc_ReplyTo askCtx) in
          if bool_decide (is_Some err) || negb (bool_decide (psa_Outcome ack = PIDDelivered))
          then fail "remote_send_failed"%string
          else mret (inl wait)
        else local
    | None => local
    end.

(** ** PIDs *)

(** [PIDForActor]. *)
Definition PIDForActor (actorID : string) (r : Runtime) : option PID :=
  pp_actorPID (rt_pids r) !! actorID.

Definition set_resolver (x : InMemoryPIDResolver) (r : Runtime) : Runtime :=
  let p := rt_pids r in set_pids (mkPidsPart x (pp_actorPID p) (pp_names p) (pp_policy p)) r.

Definition store_actorPID (actorID : string) (pid : PID) (r : Runtime) : Runtime :=
  let p := rt_pids r in
  set_pids (mkPidsPart (pp_resolver p) (<[actorID := pid]> (pp_actorPID p)) (pp_names p)
    (pp_policy p)) r.

(** [IssuePID]. *)
Definition IssuePID (namespace actorID : string) (r : Runtime) : Runtime * (PID + string) :=
  match lookup_actor actorID r with
  | None => (r, inr ErrActorNotFound)
  | Some _ =>
      let nodeID := cf_nodeID (rt_cfg r) in
      let namespace :=
        if bool_decide (namespace = ""%string) && negb (bool_decide (nodeID = ""%string))
        then nodeID else namespace in
      let pid := mkPID namespace actorID 1 in
      match Validate pid with
      | Some err => (r, inr err)
      | None =>
          let r := set_resolver (Register (rt_now r) pid (pp_resolver (rt_pids r))) r in
          (store_actorPID actorID pid r, inl pid)
      end
  end.

(** [ResolvePID]. *)
Definition ResolvePID (pid : PID) (r : Runtime) : Runtime * option PIDResolverEntry :=
  match Resolve (rt_now r) pid (pp_resolver (rt_pids r)) with
  | None =>
      (emitPID EventPIDUnresolved pid 0 PIDUnresolved (PIDDeliveryOutcome_string PIDUnresolved) r, None)
  | Some entry => (emitPID EventPIDResolved pid 0 PIDDelivered "" r, Some entry)
  end.

(** A refused PID send: event, guardrail outcome, dead letter when there is a
    reason for one, and the acknowledgement. *)
Definition refusePID (ev : EventType) (pid : PID) (msgID : Z) (outcome : PIDDeliveryOutcome)
    (code : string) (guardrailActor : string) (mode : GatewayRouteMode) (p : payload)
    (dead : option string) (r : Runtime) : Runtime * PIDSendAck :=
  let r := emitPID ev pid msgID outcome code r in
  let r := emitGuardrail guardrailActor mode GuardrailGatewayRouteFailure code r in
  let r := match dead with Some reason => dls_emitPID pid p reason r | None => r end in
  (r, mkPIDSendAck outcome msgID).

(** [sendPIDWithSender] after the ask-reply and remote cases: resolution and
    local delivery. *)
Definition sendPIDLocal (fuel : nat) (senderActorID : string) (pid : PID) (p : payload) (msgID : Z)
    : M PIDSendAck :=
  r0 ← gets id;
  let resolver := pp_resolver (rt_pids r0) in
  let mode := GatewayMode resolver in
  let guardrailActor :=
    if bool_decide (senderActorID = ""%string) then ActorID pid else senderActorID in
  let refuse ev outcome code dead :=
    total (refusePID ev pid msgID outcome code guardrailActor mode p dead) in
  match Resolve (rt_now r0) pid resolver with
  | None =>
      match lookup_actor (ActorID pid) r0 with
      | None =>
          refuse EventPIDRejected PIDRejectedNotFound
            (PIDDeliveryOutcome_string PIDRejectedNotFound) (Some "actor_not_found"%string)
      | Some _ =>
          refuse EventPIDUnresolved PIDUnresolved
            (PIDDeliveryOutcome_string PIDUnresolved) (Some "pid_unresolved"%string)
      end
  | Some entry =>
      if decide (pre_RouteState entry = PIDRouteStopped) then
        refuse EventPIDRejected PIDRejectedStopped
          (PIDDeliveryOutcome_string PIDRejectedStopped) (Some "actor_stopped"%string)
      else if negb (Generation pid =? pre_CurrentGeneration entry) then
        refuse EventPIDRejected PIDRejectedStaleGeneration
          (PIDDeliveryOutcome_string PIDRejectedStaleGeneration) (Some "stale_generation"%string)
      else if bool_decide (mode = GatewayRouteGatewayMediated) && negb (GatewayAvailable resolver) then
        refuse EventPIDRejected PIDUnresolved ErrGatewayRouteFailed None
      else
        ack ← Send fuel (ActorID pid) p;
        if decide (sa_Result ack = SubmitAccepted) then
          _ ← upd (emitPID EventPIDDelivered pid (sa_MessageID ack) PIDDelivered "");
          _ ← upd (emitGuardrail guardrailActor mode GuardrailGatewayRouteSuccess "");
          mret (mkPIDSendAck PIDDelivered (sa_MessageID ack))
        else
          total (refusePID EventPIDRejected pid (sa_MessageID ack) PIDRejectedStopped
            (PIDDeliveryOutcome_string PIDRejectedStopped) guardrailActor mode p None)
  end.

Definition sendPIDWithSender (fuel : nat) (senderActorID : string) (pid : PID) (p : payload)
    : M PIDSendAck :=
  msgID ← total nextMsgID;
  handled ← total (routeAskReply pid p msgID);
  match handled with
  | Some askAck =>
      _ ← upd (if decide (psa_Outcome askAck = PIDDelivered)
               then emitPID EventPIDDelivered pid msgID (psa_Outcome askAck) ""
               else emitPID EventPIDRejected pid msgID (psa_Outcome askAck)
                      (PIDDeliveryOutcome_string (psa_Outcome askAck)));
      mret askAck
  | None =>
      cfg ← gets rt_cfg;
      match cf_remoteSend cfg with
      | Some remoteSend =>
          if IsRemote pid (cf_nodeID cfg) then
            _ ← upd (ext_call (ExtRemoteSend senderActorID pid p msgID));
            let '(ack, err) := remoteSend senderActorID pid p msgID in
            match err with
            | Some e => _ ← upd (emitPID EventPIDRejected pid msgID PIDUnresolved e); mret ack
            | None => _ ← upd (emitPID EventPIDDelivered pid msgID PIDDelivered ""); mret ack
            end
          else sendPIDLocal fuel senderActorID pid p msgID
      | None => sendPIDLocal fuel senderActorID pid p msgID
      end
  end.

Definition SendPID (fuel : nat) (pid : PID) (p : payload) : M PIDSendAck :=
  sendPIDWithSender fuel "" pid p.

Definition DeliverPID (fuel : nat) (pid : PID) (p : payload) : M PIDSendAck := SendPID fuel pid p.

(** [CrossActorSendByActorID] and [CrossActorSendPID]. *)
Definition CrossActorSendByActorID (fuel : nat) (senderActorID targetActorID : string) (p : payload)
    : M SubmitAck :=
  r0 ← gets id;
  let mode := GatewayMode (pp_resolver (rt_pids r0)) in
  if bool_decide (pp_policy (rt_pids r0) = PIDInteractionPolicyPIDOnly)
     && negb (bool_decide (senderActorID = ""%string))
     && negb (bool_decide (senderActorID = targetActorID))
  then
    msgID ← total nextMsgID;
    _ ← upd (putOutcome msgID targetActorID ResultRejectedFound ErrNonPIDCrossActor);
    _ ← upd (emitGuardrail senderActorID mode GuardrailPolicyRejectNonPID ErrNonPIDCrossActor);
    mret (mkSubmitAck SubmitRejectedFound msgID)
  else
    _ ← upd (emitGuardrail senderActorID mode GuardrailPolicyAccept "");
    Send fuel targetActorID p.

Definition CrossActorSendPID (fuel : nat) (senderActorID : string) (target : PID) (p : payload)
    : M PIDSendAck :=
  r0 ← gets id;
  _ ← upd (if bool_decide (pp_policy (rt_pids r0) = PIDInteractionPolicyPIDOnly)
           then emitGuardrail senderActorID (GatewayMode (pp_resolver (rt_pids r0)))
                  GuardrailPolicyAccept ""
           else id);
  sendPIDWithSender fuel senderActorID target p.
