(* ===== verification/Lifecycle.v ===== *)
(** * Names, monitors, configuration and the life of an actor ([runtime.go],
      [monitors.go], [timers.go])

    The remaining operations of the runtime: the name registry with its
    cluster fallback, monitors and their notifications, timers, the tables that
    configure routing, batching and policies, and creation, stopping and removal
    of actors. *)

From S2P Require Import Prelude Types Mailbox Resolver Registry Routing Outcomes Monitors PubSub.
From S2P Require Import Fnv Program State Emit Send.

(** ** Names *)

Definition set_names (x : namedRegistry) (r : Runtime) : Runtime :=
  let p := rt_pids r in set_pids (mkPidsPart (pp_resolver p) (pp_actorPID p) x (pp_policy p)) r.

(** The actor's PID when it is in the namespace, a newly issued one otherwise. *)
Definition pidInNamespace (namespace actorID : string) (r : Runtime) : Runtime * (PID + string) :=
  match PIDForActor actorID r with
  | Some pid =>
      if bool_decide (Namespace pid = namespace) then (r, inl pid) else IssuePID namespace actorID r
  | None => IssuePID namespace actorID r
  end.

(** [RegisterName]: the acknowledgement and the error. *)
Definition RegisterName (actorID name namespace : string) (r : Runtime)
    : Runtime * (RegistryRegisterAck * option string) :=
  let rejected := mkRegistryRegisterAck RegistryRegisterRejectedDup name zeroPID in
  match lookup_actor actorID r with
  | None => (r, (rejected, Some ErrActorNotFound))
  | Some _ =>
      let namespace := if bool_decide (namespace = ""%string) then "default"%string else namespace in
      let '(r, issued) := pidInNamespace namespace actorID r in
      match issued with
      | inr err => (r, (rejected, Some err))
      | inl pid =>
          let '(names, res) := nr_register (rt_now r) name actorID pid (pp_names (rt_pids r)) in
          let r := set_names names r in
          match res with
          | inr err =>
              (emitRegistry EventRegistryRegister name actorID pid RegistryRegisterRejectedDup err r,
               (rejected, Some err))
          | inl entry =>
              let r := emitRegistry EventRegistryRegister (re_name entry) (re_actorID entry)
                         (re_pid entry) RegistryRegisterSuccess "" r in
              let r := if cf_clusterRegister (rt_cfg r)
                       then ext_call (ExtClusterRegister name (re_pid entry)) r else r in
              (r, (mkRegistryRegisterAck RegistryRegisterSuccess (re_name entry) (re_pid entry), None))
          end
      end
  end.

(** [LookupName]. *)
Definition LookupName (name : string) (r : Runtime) : Runtime * RegistryLookupAck :=
  match nr_lookup name (pp_names (rt_pids r)) with
  | None =>
      let missing :=
        (emitRegistry EventRegistryLookup name "" zeroPID RegistryLookupNotFound ErrRegistryNameNotFound r,
         mkRegistryLookupAck RegistryLookupNotFound name zeroPID) in
      match cf_clusterLookup (rt_cfg r) with
      | Some lookup =>
          match lookup name with
          | Some pid =>
              (emitRegistry EventRegistryLookup name (ActorID pid) pid RegistryLookupHit "cluster" r,
               mkRegistryLookupAck RegistryLookupHit name pid)
          | None => missing
          end
      | None => missing
      end
  | Some entry =>
      (emitRegistry EventRegistryLookup (re_name entry) (re_actorID entry) (re_pid entry)
         RegistryLookupHit "" r,
       mkRegistryLookupAck RegistryLookupHit (re_name entry) (re_pid entry))
  end.

(** [UnregisterName]. *)
Definition UnregisterName (name : string) (r : Runtime) : Runtime * RegistryLookupAck :=
  let '(names, res) := nr_unregister name (pp_names (rt_pids r)) in
  match res with
  | None =>
      (emitRegistry EventRegistryUnregister name "" zeroPID RegistryLookupNotFound
         ErrRegistryNameNotFound r,
       mkRegistryLookupAck RegistryLookupNotFound name zeroPID)
  | Some entry =>
      let r := set_names names r in
      let r := emitRegistry EventRegistryUnregister (re_name entry) (re_actorID entry) (re_pid entry)
                 RegistryUnregisterSuccess "" r in
      let r := if cf_clusterUnregister (rt_cfg r) then ext_call (ExtClusterUnregister name) r else r in
      (r, mkRegistryLookupAck RegistryUnregisterSuccess (re_name entry) (re_pid entry))
  end.

(** [SendName]; the not-found acknowledgement has no message ID. *)
Definition SendName (fuel : nat) (name : string) (p : payload) : M PIDSendAck :=
  ack ← total (LookupName name);
  if decide (rla_Result ack = RegistryLookupHit) then SendPID fuel (rla_PID ack) p
  else mret (mkPIDSendAck PIDRejectedNotFound 0).

(** [AskName] up to its [select]. *)
Definition AskNameBegin (fuel : nat) (name : string) (p : payload) (timeout : Z)
    : M (pendingAsk + string) :=
  ack ← total (LookupName name);
  if decide (rla_Result ack = RegistryLookupHit) then AskPIDBegin fuel (rla_PID ack) p timeout
  else mret (inr (ErrRegistryNameNotFound +:+ ": " +:+ name)).

(** ** Monitors *)

Definition set_monitors (x : monitorManager) (r : Runtime) : Runtime :=
  let s := rt_svc r in
  set_svc (mkServicesPart (sp_brokers s) (sp_cron s) x (sp_timers s) (sp_timerTasks s)
    (sp_schedules s) (sp_publishes s) (sp_nextTask s)) r.

Definition Monitor (watcher target : PID) (r : Runtime) : Runtime * MonitorRef :=
  let '(mm, ref) := mm_add watcher target (sp_monitors (rt_svc r)) in (set_monitors mm r, ref).

Definition Demonitor (ref : MonitorRef) (r : Runtime) : Runtime :=
  set_monitors (mm_remove ref (sp_monitors (rt_svc r))).1 r.

(** [notifyMonitors]. *)
Definition notifyMonitors (fuel : nat) (actorID reason : string) : M unit :=
  entries ← total (fun r =>
    let '(mm, es) := mm_drain actorID (sp_monitors (rt_svc r)) in (set_monitors mm r, es));
  forM entries (fun entry =>
    _ ← SendPID fuel (me_watcher entry)
          (PDownMessage (mkDownMessage (me_ref entry) (me_target entry) reason));
    mret tt).

(** [cleanupRegistryForActor]. *)
Definition cleanupRegistryForActor (fuel : nat) (actorID : string)
    (result : RegistryOperationResult) : M unit :=
  entries ← total (fun r =>
    let '(names, es) := nr_unregisterByActor actorID (pp_names (rt_pids r)) in (set_names names r, es));
  _ ← forM entries (fun e =>
        upd (emitRegistry EventRegistryUnregister (re_name e) (re_actorID e) (re_pid e) result ""));
  notifyMonitors fuel actorID "stopped".

(** ** Timers ([timers.go]) *)

Definition set_timers (x : timerManager) (ts : gmap Z timerTask) (r : Runtime) : Runtime :=
  let s := rt_svc r in
  set_svc (mkServicesPart (sp_brokers s) (sp_cron s) (sp_monitors s) x ts
    (sp_schedules s) (sp_publishes s) (sp_nextTask s)) r.

(** [SendAfter], [SendInterval], [SendAfterName] and [SendIntervalName]: a new
    timer and the goroutine that waits for it. *)
Definition SendTimer (target : timerTarget) (p : payload) (delay : Z) (interval : bool)
    (r : Runtime) : Runtime * Z :=
  let tm := sp_timers (rt_svc r) in
  let id := u64_succ (tm_seq tm) in
  (set_timers (mkTimerManager id (<[id := interval]> (tm_timers tm)))
     (<[id := mkTimerTask target p (rt_now r + delay) (if interval then Some delay else None) false]>
        (sp_timerTasks (rt_svc r))) r, id).

(** [CancelTimer]/[TimerRef.Cancel]. *)
Definition CancelTimer (id : Z) (r : Runtime) : Runtime :=
  set_timers (sp_timers (rt_svc r))
    (alter (fun t => mkTimerTask (tt_target t) (tt_payload t) (tt_deadline t) (tt_interval t) true)
       id (sp_timerTasks (rt_svc r))) r.

(** [timerManager.cancelAll]. *)
Definition cancelAll (r : Runtime) : Runtime :=
  let tm := sp_timers (rt_svc r) in
  set_timers (mkTimerManager (tm_seq tm) ∅)
    (map_imap (fun id t => Some (if decide (is_Some (tm_timers tm !! id))
        then mkTimerTask (tt_target t) (tt_payload t) (tt_deadline t) (tt_interval t) true else t))
      (sp_timerTasks (rt_svc r))) r.

(** The goroutine returns: [defer r.timers.remove(id)]. *)
Definition endTimer (id : Z) (r : Runtime) : Runtime :=
  let tm := sp_timers (rt_svc r) in
  set_timers (mkTimerManager (tm_seq tm) (delete id (tm_timers tm)))
    (delete id (sp_timerTasks (rt_svc r))) r.

(** The timer case of the goroutine's [select], once the deadline is reached:
    send, then return or wait for the next tick. *)
Definition fireTimer (fuel : nat) (id : Z) (t : timerTask) : M unit :=
  _ ← match tt_target t with
      | TimerPID pid => SendPID fuel pid (tt_payload t)
      | TimerName name => SendName fuel name (tt_payload t)
      end;
  match tt_interval t with
  | None => upd (endTimer id)
  | Some interval =>
      upd (fun r => set_timers (sp_timers (rt_svc r))
        (alter (fun t => mkTimerTask (tt_target t) (tt_payload t) (tt_deadline t + interval)
                           (tt_interval t) (tt_cancelled t)) id (sp_timerTasks (rt_svc r))) r)
  end.

(** ** Routing, batching and policy configuration *)

Definition set_routing (x : gmap string actorRoutes) (r : Runtime) : Runtime :=
  let rp := rt_routes r in set_routes (mkRoutesPart x (rp_routers rp) (rp_draws rp)) r.

Definition RegisterTypeRoute (actorID typeName schemaVersion handlerKey : string) (r : Runtime)
    : Runtime * option string :=
  match lookup_actor actorID r with
  | None => (r, Some ErrActorNotFound)
  | Some _ =>
      (set_routing (registerExact actorID typeName schemaVersion handlerKey
         (rp_routing (rt_routes r))) r, None)
  end.

Definition RegisterFallbackRoute (actorID handlerKey : string) (r : Runtime)
    : Runtime * option string :=
  match lookup_actor actorID r with
  | None => (r, Some ErrActorNotFound)
  | Some _ =>
      (set_routing (registerFallback actorID handlerKey (rp_routing (rt_routes r))) r, None)
  end.

Definition ConfigureBatching (actorID : string) (maxBatchSize : Z) (rcv : option receiver)
    (r : Runtime) : Runtime * option string :=
  match lookup_actor actorID r with
  | None => (r, Some ErrActorNotFound)
  | Some l =>
      if maxBatchSize <=? 0 then (r, Some ErrBatchConfigInvalid)
      else (update_instance l (ai_set_batch (mkBatchConfig true maxBatchSize rcv)) r, None)
  end.

Definition DisableBatching (actorID : string) (r : Runtime) : Runtime * option string :=
  match lookup_actor actorID r with
  | None => (r, Some ErrActorNotFound)
  | Some l => (update_instance l (ai_set_batch zeroBatchConfig) r, None)
  end.

(** The loop that drops empty and repeated workers. *)
Fixpoint normalizeWorkers (seen : gset string) (workers : list string) : list string :=
  match workers with
  | [] => []
  | worker :: workers' =>
      if bool_decide (worker = ""%string) then normalizeWorkers seen workers'
      else if bool_decide (worker ∈ seen) then normalizeWorkers seen workers'
      else worker :: normalizeWorkers ({[worker]} ∪ seen) workers'
  end.

Definition ConfigureRouter (routerID : string) (strategy : RouterStrategy) (workers : list string)
    (r : Runtime) : Runtime * option string :=
  match lookup_actor routerID r with
  | None => (r, Some ErrActorNotFound)
  | Some _ =>
      match strategy with
      | RouterStrategyOther s => (r, Some ("invalid router strategy: " +:+ s))
      | _ =>
          let rp := rt_routes r in
          (set_routes (mkRoutesPart (rp_routing rp)
             (<[routerID := mkRouterRuntimeState strategy (normalizeWorkers ∅ workers) 0]>
                (rp_routers rp)) (rp_draws rp)) r, None)
      end
  end.

Definition SetPIDInteractionPolicy (mode : PIDInteractionPolicyMode) (r : Runtime) : Runtime :=
  let p := rt_pids r in
  set_pids (mkPidsPart (pp_resolver p) (pp_actorPID p) (pp_names p) mode) r.

Definition SetGatewayRouteMode (mode : GatewayRouteMode) (r : Runtime) : Runtime :=
  set_resolver (SetGatewayMode mode (pp_resolver (rt_pids r))) r.

Definition SetGatewayAvailable (available : bool) (r : Runtime) : Runtime :=
  set_resolver (SetGatewayAvailability available (pp_resolver (rt_pids r))) r.

(** [ValidateDistributedReadiness]. *)
Definition ValidateDistributedReadiness (r : Runtime) : Runtime * list ReadinessValidationRecord :=
  let r :=
    if bool_decide (pp_policy (rt_pids r) = PIDInteractionPolicyPIDOnly)
    then emitReadiness ReadinessScopePIDPolicy ReadinessPass "" r
    else emitReadiness ReadinessScopePIDPolicy ReadinessFail "pid_policy_not_enforced" r in
  let mode := GatewayMode (pp_resolver (rt_pids r)) in
  let r :=
    if bool_decide (mode = GatewayRouteLocalDirect) || bool_decide (mode = GatewayRouteGatewayMediated)
    then emitReadiness ReadinessScopeGatewayBoundary ReadinessPass "" r
    else emitReadiness ReadinessScopeGatewayBoundary ReadinessFail "invalid_gateway_mode" r in
  let r := emitReadiness ReadinessScopeLocationTransparency ReadinessPass "" r in
  (r, readinessAll (ob_outcomes (rt_obs r))).

(** ** Lifecycle hooks *)

(** The code and the error of a hook that returned. *)
Definition hookOutcome (res : hookResult) : option (string * string) :=
  match res with
  | HookOk | HookHangs => None
  | HookErr e => Some ("error"%string, e)
  | HookPanic => Some ("panic"%string, "panic"%string)
  end.

Definition putHookOutcome (actorID : string) (phase : LifecycleHookPhase)
    (result : LifecycleHookResult) (code : string) (r : Runtime) : Runtime :=
  let r := record_outcome
             (putLifecycle (mkLifecycleHookOutcome actorID phase result (rt_now r) code)) r in
  emitLifecycle actorID phase result code r.

(** [runLifecycleHook]: the error, if any.  It waits for the hook without a
    time limit, so it does not return when the hook does not. *)
Definition runLifecycleHook (actorID : string) (phase : LifecycleHookPhase)
    (h : option LifecycleHook) : M (option string) :=
  match h with
  | None => mret None
  | Some h =>
      now ← gets rt_now;
      match h now actorID with
      | HookHangs => diverge
      | res =>
          match hookOutcome res with
          | Some (code, err) =>
              _ ← upd (putHookOutcome actorID phase
                     (match phase with LifecyclePhaseStart => LifecycleStartFailed
                                  | LifecyclePhaseStop => LifecycleStopFailed end) code);
              mret (Some err)
          | None =>
              _ ← upd (putHookOutcome actorID phase
                     (match phase with LifecyclePhaseStart => LifecycleStartSuccess
                                  | LifecyclePhaseStop => LifecycleStopSuccess end) "");
              mret None
          end
      end
  end.

(** [runLifecycleStopHookWithTimeout]: a hook that does not return in time is
    reported as a time-out ([hookCtx] expires, or the actor's own context is
    already cancelled and the hook has not returned). *)
Definition runStopHookWithTimeout (inst : actorInstance) (r : Runtime) : Runtime :=
  match ai_stopHook inst with
  | None => r
  | Some h =>
      match h (rt_now r) (ai_id inst) with
      | HookHangs => putHookOutcome (ai_id inst) LifecyclePhaseStop LifecycleStopFailed "timeout" r
      | res =>
          match hookOutcome res with
          | Some (code, _) => putHookOutcome (ai_id inst) LifecyclePhaseStop LifecycleStopFailed code r
          | None => putHookOutcome (ai_id inst) LifecyclePhaseStop LifecycleStopSuccess "" r
          end
      end
  end.

(** ** Creation, stopping and removal *)

(** [CreateActor]: an error, or a reference to the actor. *)
Definition CreateActor (id : string) (initialState : payload) (h : option handler)
    (opts : list actorOption) (r : Runtime) : Runtime * option string :=
  if bool_decide (id = ""%string) then (r, Some "empty actor id"%string)
  else match h with
  | None => (r, Some "nil handler"%string)
  | Some h =>
      let cfg := actorConfigOf opts in
      let inst := mkActorInstance id ActorStartingCode (NewMailbox (ac_mailboxCapacity cfg)) h
        (newActorState initialState) initialState 0 (DecisionOther "") false cfg
        (ac_startHook cfg) (ac_stopHook cfg) (ac_batch cfg) GoStarting in
      let ap := rt_actors r in
      let '(reg, err) := registry_put id (ap_next ap) (ap_registry ap) in
      match err with
      | Some e => (r, Some e)
      | None =>
          (set_actors (mkActorsPart (<[ap_next ap := inst]> (ap_heap ap)) (S (ap_next ap)) reg) r, None)
      end
  end.

(** The route of a stopped actor's PID. *)
Definition markPIDStopped (actorID : string) (r : Runtime) : Runtime :=
  match PIDForActor actorID r with
  | Some pid => set_resolver (SetState (rt_now r) pid PIDRouteStopped (pp_resolver (rt_pids r))) r
  | None => r
  end.

(** The common part of [Stop] and [StopAndCapture] after the status check. *)
Definition stopInstance (fuel : nat) (actorID : string) (l : nat) (inst : actorInstance) : M unit :=
  _ ← upd (runStopHookWithTimeout inst);
  _ ← upd (update_instance l (ai_set_status ActorStoppedCode));
  _ ← upd (markPIDStopped actorID);
  _ ← upd (update_instance l ai_cancel);
  _ ← upd (update_instance l ai_close);
  cleanupRegistryForActor fuel actorID RegistryUnregisterLifecycleTerm.

Definition Stop (fuel : nat) (actorID : string) : M StopResult :=
  r0 ← gets id;
  match lookup_actor actorID r0 ≫= (fun l => (fun inst => (l, inst)) <$> instance l r0) with
  | None => mret StopNotFound
  | Some (l, inst) =>
      if decide (Status actorID r0 = ActorStopped) then mret StopAlready
      else
        _ ← upd (update_instance l (ai_set_status ActorStoppingCode));
        _ ← stopInstance fuel actorID l inst;
        mret StopStopped
  end.

(** [StopAndCapture]: the state is read before the stop hook runs. *)
Definition StopAndCapture (fuel : nat) (actorID : string) : M (payload * StopResult) :=
  r0 ← gets id;
  match lookup_actor actorID r0 ≫= (fun l => (fun inst => (l, inst)) <$> instance l r0) with
  | None => mret (PNil, StopNotFound)
  | Some (l, inst) =>
      if decide (Status actorID r0 = ActorStopped) then mret (PNil, StopAlready)
      else
        _ ← upd (update_instance l (ai_set_status ActorStoppingCode));
        let state := as_value (ai_state inst) in
        _ ← stopInstance fuel actorID l inst;
        mret (state, StopStopped)
  end.

Definition RemoveActor (actorID : string) (r : Runtime) : Runtime * option string :=
  match actor_of actorID r with
  | None => (r, Some ErrActorNotFound)
  | Some inst =>
      if negb (bool_decide (ai_status inst = ActorStoppedCode))
      then (r, Some ("cannot remove actor " +:+ quote actorID +:+ ": " +:+ ErrActorStillRunning))
      else
        let ap := rt_actors r in
        let r := set_actors (mkActorsPart (ap_heap ap) (ap_next ap)
                   (registry_remove actorID (ap_registry ap)).1) r in
        match PIDForActor actorID r with
        | None => (r, None)
        | Some pid =>
            let p := rt_pids r in
            (set_pids (mkPidsPart (Remove pid (pp_resolver p)) (delete actorID (pp_actorPID p))
               (pp_names p) (pp_policy p)) r, None)
        end
  end.
