(* ===== verification/Broker.v ===== *)
(** * The pub/sub broker actor ([pubsub_broker.go], [pubsub_runtime.go])

    The handler of the broker actor, the goroutine that fans a publication
    out, and the runtime's entry points.  The tables and the trie are in
    [PubSub.v]. *)

From S2P Require Import Prelude Types Mailbox Resolver Registry Routing Outcomes Monitors PubSub.
From S2P Require Import Fnv Program State Emit Send Lifecycle.

Definition DefaultBrokerActorID : string := "__native_pubsub_broker".
Definition defaultBrokerMailboxCapacity : Z := 65536.
Definition ClusterMembershipTopic : string := "cluster.membership".

(** [defaultBrokerID]. *)
Definition defaultBrokerID (brokerID : string) : string :=
  if negb (bool_decide (brokerID = ""%string)) then brokerID else DefaultBrokerActorID.

Definition set_broker (id : string) (b : pubsubBrokerService) (r : Runtime) : Runtime :=
  let s := rt_svc r in
  set_svc (mkServicesPart (<[id := b]> (sp_brokers s)) (sp_cron s) (sp_monitors s) (sp_timers s)
    (sp_timerTasks s) (sp_schedules s) (sp_publishes s) (sp_nextTask s)) r.

(** The service a broker handler belongs to. *)
Definition broker_service (id : string) (r : Runtime) : pubsubBrokerService :=
  default (newPubSubBrokerService id) (sp_brokers (rt_svc r) !! id).

(** [replyAsk]. *)
Definition broker_replyAsk (fuel : nat) (requestID : string) (replyTo : PID) (a : BrokerCommandAck)
    : M unit :=
  now ← gets rt_now;
  _ ← SendPID fuel replyTo (PAskReplyEnvelope requestID (PBrokerCommandAck a) now);
  mret tt.

(** [handleSubscribe]. *)
Definition broker_handleSubscribe (fuel : nat) (id : string) (msg : Message) (subscriber : PID)
    (pattern : string) : M unit :=
  if negb (IsAsk msg) then
    upd (emitBroker id BrokerOperationSubscribe pattern subscriber 0 BrokerOutcomeInvalidCommand
           ErrPubSubInvalidCommand)
  else
    let replyTo := (AskReplyTo msg).1 in
    match parseTopicPattern pattern with
    | inr _ =>
        _ ← upd (emitBroker id BrokerOperationSubscribe pattern subscriber 0
                   BrokerOutcomeInvalidPattern ErrPubSubInvalidPattern);
        broker_replyAsk fuel (AskRequestID msg) replyTo
          (mkBrokerCommandAck BrokerOperationSubscribe BrokerOutcomeInvalidPattern pattern 0
             ErrPubSubInvalidPattern)
    | inl p =>
        first ← total (fun r =>
          let '(b, first) := subscribe_tables p subscriber (broker_service id r) in
          (set_broker id b r, first));
        _ ← upd (fun r => if first && cf_pubsubOnSubscribe (rt_cfg r)
                          then ext_call (ExtOnSubscribe (tp_raw p)) r else r);
        _ ← upd (emitBroker id BrokerOperationSubscribe (tp_raw p) subscriber 0
                   BrokerOutcomeSubscribeSuccess "");
        broker_replyAsk fuel (AskRequestID msg) replyTo
          (mkBrokerCommandAck BrokerOperationSubscribe BrokerOutcomeSubscribeSuccess (tp_raw p) 0 "")
    end.

(** [handleUnsubscribe]. *)
Definition broker_handleUnsubscribe (fuel : nat) (id : string) (msg : Message) (subscriber : PID)
    (pattern : string) : M unit :=
  if negb (IsAsk msg) then
    upd (emitBroker id BrokerOperationUnsubscribe pattern subscriber 0 BrokerOutcomeInvalidCommand
           ErrPubSubInvalidCommand)
  else
    let replyTo := (AskReplyTo msg).1 in
    match parseTopicPattern pattern with
    | inr _ =>
        _ ← upd (emitBroker id BrokerOperationUnsubscribe pattern subscriber 0
                   BrokerOutcomeInvalidPattern ErrPubSubInvalidPattern);
        broker_replyAsk fuel (AskRequestID msg) replyTo
          (mkBrokerCommandAck BrokerOperationUnsubscribe BrokerOutcomeInvalidPattern pattern 0
             ErrPubSubInvalidPattern)
    | inl p =>
        flags ← total (fun r =>
          let '(b, hasSub, last) := unsubscribe_tables p subscriber (broker_service id r) in
          (set_broker id b r, (hasSub, last)));
        let '(hasSub, lastForPattern) := flags in
        _ ← upd (fun r => if lastForPattern && cf_pubsubOnUnsubscribe (rt_cfg r)
                          then ext_call (ExtOnUnsubscribe (tp_raw p)) r else r);
        let result := if negb hasSub then BrokerOutcomeNotFoundNoop else BrokerOutcomeUnsubscribeSuccess in
        _ ← upd (emitBroker id BrokerOperationUnsubscribe (tp_raw p) subscriber 0 result "");
        broker_replyAsk fuel (AskRequestID msg) replyTo
          (mkBrokerCommandAck BrokerOperationUnsubscribe result (tp_raw p) 0 "")
    end.

Definition set_publishes (x : gmap Z publishTask) (next : Z) (r : Runtime) : Runtime :=
  let s := rt_svc r in
  set_svc (mkServicesPart (sp_brokers s) (sp_cron s) (sp_monitors s) (sp_timers s)
    (sp_timerTasks s) (sp_schedules s) x next) r.

(** [dispatchPublish]: the fan-out runs in a goroutine of its own. *)
Definition dispatchPublish (id topic : string) (p : payload) (publisher : string)
    (targets : list PID) (r : Runtime) : Runtime :=
  if (length targets =? 0)%nat
  then emitBroker id BrokerOperationPublish topic zeroPID 0 BrokerOutcomePublishSuccess "" r
  else
    let s := rt_svc r in
    set_publishes
      (<[sp_nextTask s := mkPublishTask id topic p publisher targets (Z.of_nat (length targets)) 0]>
         (sp_publishes s)) (sp_nextTask s + 1) r.

(** One iteration of that goroutine: a send, or its last statement. *)
Definition publish_step (fuel : nat) (task : Z) (t : publishTask) : M unit :=
  match pt_pending t with
  | pid :: rest =>
      now ← gets rt_now;
      ack ← SendPID fuel pid (PBrokerPublishedMessage (pt_topic t) (pt_payload t) (pt_publisher t) now);
      let unreachable :=
        if decide (psa_Outcome ack = PIDDelivered) then pt_unreachable t else pt_unreachable t + 1 in
      upd (fun r => set_publishes
        (<[task := mkPublishTask (pt_brokerID t) (pt_topic t) (pt_payload t) (pt_publisher t) rest
                     (pt_total t) unreachable]> (sp_publishes (rt_svc r))) (sp_nextTask (rt_svc r)) r)
  | [] =>
      let '(result, reason) := classifyPublishResult (pt_unreachable t) (pt_total t) in
      _ ← upd (emitBroker (pt_brokerID t) BrokerOperationPublish (pt_topic t) zeroPID (pt_total t)
                 result reason);
      upd (fun r => set_publishes (delete task (sp_publishes (rt_svc r))) (sp_nextTask (rt_svc r)) r)
  end.

(** [handlePublish]. *)
Definition broker_handlePublish (id topic : string) (p : payload) (publisher : string)
    (isRemote : bool) (r : Runtime) : Runtime :=
  match parsePublishTopic topic with
  | inr _ =>
      emitBroker id BrokerOperationPublish topic zeroPID 0 BrokerOutcomeInvalidTopic
        ErrPubSubInvalidTopic r
  | inl segs =>
      let targets := trie_match segs (ps_trie (broker_service id r)) in
      let r := dispatchPublish id topic p publisher targets r in
      if negb isRemote && cf_pubsubBroadcast (rt_cfg r) then ext_call (ExtBroadcast topic p) r else r
  end.

(** [pubsubBrokerService.handler]. *)
Definition broker_handler (fuel : nat) (id : string) (state : payload) (msg : Message)
    : M handlerResult :=
  _ ← match msg_Payload msg with
      | PBrokerSubscribeCommand subscriber pattern =>
          broker_handleSubscribe fuel id msg subscriber pattern
      | PBrokerUnsubscribeCommand subscriber pattern =>
          broker_handleUnsubscribe fuel id msg subscriber pattern
      | PBrokerPublishCommand topic p publisher =>
          upd (broker_handlePublish id topic p publisher false)
      | PBrokerRemotePublishCommand topic p publisher =>
          upd (broker_handlePublish id topic p publisher true)
      | _ =>
          _ ← upd (emitBroker id BrokerOperationPublish "" zeroPID 0 BrokerOutcomeInvalidCommand
                     ErrPubSubInvalidCommand);
          match AskReplyTo msg with
          | (replyTo, true) =>
              broker_replyAsk fuel (AskRequestID msg) replyTo
                (mkBrokerCommandAck BrokerOperationPublish BrokerOutcomeInvalidCommand "" 0
                   ErrPubSubInvalidCommand)
          | (_, false) => mret tt
          end
      end;
  mret (HROk state).

(** [EnsureBrokerActor]: an error, or the broker's actor ID. *)
Definition EnsureBrokerActor (brokerID : string) (r : Runtime) : Runtime * (string + string) :=
  let brokerID := defaultBrokerID brokerID in
  match sp_brokers (rt_svc r) !! brokerID with
  | Some _ => (r, inl brokerID)
  | None =>
      let '(r, err) := CreateActor brokerID PNil (Some (HBroker brokerID))
                         [WithMailboxCapacity defaultBrokerMailboxCapacity] r in
      match err with
      | Some e => (r, inr e)
      | None => (set_broker brokerID (newPubSubBrokerService brokerID) r, inl brokerID)
      end
  end.

(** [BrokerPublish] and [BrokerPublishRemote]. *)
Definition BrokerPublish (fuel : nat) (brokerID topic : string) (p : payload) (publisher : string)
    : M SubmitAck :=
  res ← total (EnsureBrokerActor (defaultBrokerID brokerID));
  match res with
  | inr _ => mret (mkSubmitAck SubmitRejectedFound 0)
  | inl broker => Send fuel broker (PBrokerPublishCommand topic p publisher)
  end.

Definition BrokerPublishRemote (fuel : nat) (brokerID topic : string) (p : payload)
    (publisher : string) : M SubmitAck :=
  res ← total (EnsureBrokerActor (defaultBrokerID brokerID));
  match res with
  | inr _ => mret (mkSubmitAck SubmitRejectedFound 0)
  | inl broker => Send fuel broker (PBrokerRemotePublishCommand topic p publisher)
  end.

(** [PublishMembershipEvent] ([runtime.go]). *)
Definition PublishMembershipEvent (fuel : nat) (type_ : string) (m : ClusterMemberInfo)
    : M SubmitAck :=
  BrokerPublish fuel "" ClusterMembershipTopic (PClusterMembershipEvent type_ m) "cluster".

(** [BrokerSubscribe] and [BrokerUnsubscribe] up to the [select] of [Ask],
    and what they make of its result. *)
Definition BrokerSubscribeBegin (fuel : nat) (brokerID : string) (subscriber : PID)
    (pattern : string) (timeout : Z) : M (pendingAsk + string) :=
  res ← total (EnsureBrokerActor (defaultBrokerID brokerID));
  match res with
  | inr e => mret (inr e)
  | inl broker => AskBegin fuel broker (PBrokerSubscribeCommand subscriber pattern) timeout
  end.

Definition BrokerUnsubscribeBegin (fuel : nat) (brokerID : string) (subscriber : PID)
    (pattern : string) (timeout : Z) : M (pendingAsk + string) :=
  res ← total (EnsureBrokerActor (defaultBrokerID brokerID));
  match res with
  | inr e => mret (inr e)
  | inl broker => AskBegin fuel broker (PBrokerUnsubscribeCommand subscriber pattern) timeout
  end.

Definition brokerAckOf (res : AskResult + string) : BrokerCommandAck + string :=
  match res with
  | inr e => inr e
  | inl a =>
      match ar_Payload a with
      | PBrokerCommandAck ack => inl ack
      | _ => inr (ErrPubSubInvalidCommand +:+ ": ack type")
      end
  end.
