(* ===== verification/Cron.v ===== *)
(** * The cron timer actor ([cron_broker.go], [cron_runtime.go])

    The handler of the cron actor with its subscription tables, the goroutine
    that fires each subscription, the hand-over of subscriptions through the
    actor's state, and the runtime's entry points.  Parsing a schedule and
    computing its next fire time belong to the cron library and come from the
    configuration ([cf_cronParse], [cf_cronNext]). *)

From S2P Require Import Prelude Types Mailbox Resolver Registry Routing Outcomes Monitors PubSub.
From S2P Require Import Fnv Program State Emit Send Lifecycle.

Definition DefaultCronActorID : string := "__native_cron_timer".
Definition SingletonCronActorID : string := "__native_cron_singleton_timer".
Definition defaultCronMailboxCapacity : Z := 65536.

(** [defaultCronID]. *)
Definition defaultCronID (cronID : string) : string :=
  if negb (bool_decide (cronID = ""%string)) then cronID else DefaultCronActorID.

Definition newCronBrokerService (cronID : string) : cronBrokerService :=
  mkCronBrokerService cronID ∅ ∅ 0 false.

Definition set_cron (id : string) (c : cronBrokerService) (r : Runtime) : Runtime :=
  let s := rt_svc r in
  set_svc (mkServicesPart (sp_brokers s) (<[id := c]> (sp_cron s)) (sp_monitors s) (sp_timers s)
    (sp_timerTasks s) (sp_schedules s) (sp_publishes s) (sp_nextTask s)) r.

(** The service a cron handler belongs to. *)
Definition cron_service (id : string) (r : Runtime) : cronBrokerService :=
  default (newCronBrokerService id) (sp_cron (rt_svc r) !! id).

Definition update_cron (id : string) (f : cronBrokerService -> cronBrokerService) (r : Runtime)
    : Runtime := set_cron id (f (cron_service id r)) r.

Definition set_schedules (x : gmap Z scheduleTask) (next : Z) (r : Runtime) : Runtime :=
  let s := rt_svc r in
  set_svc (mkServicesPart (sp_brokers s) (sp_cron s) (sp_monitors s) (sp_timers s)
    (sp_timerTasks s) x (sp_publishes s) next) r.

(** ** The tables *)

(** [cs.subs[refID] = sub; cs.byActor[actorID][refID] = struct{}{}]. *)
Definition cron_add (sub : cronSubscription) (c : cronBrokerService) : cronBrokerService :=
  let refID := cref_ID (csub_ref sub) in
  mkCronBrokerService (cr_cronID c) (<[refID := sub]> (cr_subs c))
    (<[csub_actorID sub := {[refID]} ∪ default ∅ (cr_byActor c !! csub_actorID sub)]> (cr_byActor c))
    (cr_seq c) (cr_restored c).

(** The table part of [removeLocked]. *)
Definition cron_remove (refID : string) (sub : cronSubscription) (c : cronBrokerService)
    : cronBrokerService :=
  let byActor :=
    match cr_byActor c !! csub_actorID sub with
    | None => cr_byActor c
    | Some refs =>
        let refs := refs ∖ {[refID]} in
        if bool_decide (refs = ∅) then delete (csub_actorID sub) (cr_byActor c)
        else <[csub_actorID sub := refs]> (cr_byActor c)
    end in
  mkCronBrokerService (cr_cronID c) (delete refID (cr_subs c)) byActor (cr_seq c) (cr_restored c).

(** [sub.cancel()]. *)
Definition cancelSchedule (ctx : Z) (r : Runtime) : Runtime :=
  set_schedules (alter (fun t => mkScheduleTask (st_sub t) (st_next t) true) ctx
    (sp_schedules (rt_svc r))) (sp_nextTask (rt_svc r)) r.

(** [removeLocked]. *)
Definition removeLocked (id refID : string) (sub : cronSubscription) (r : Runtime) : Runtime :=
  let r := cancelSchedule (csub_ctx sub) r in
  let r := Demonitor (csub_monitorRef sub) r in
  update_cron id (cron_remove refID sub) r.

(** [go cs.runSchedule(subCtx, sub)]: a goroutine at the top of its loop. *)
Definition startSchedule (sub : cronSubscription) (r : Runtime) : Runtime :=
  set_schedules (<[csub_ctx sub := mkScheduleTask sub None false]> (sp_schedules (rt_svc r)))
    (sp_nextTask (rt_svc r) + 1) r.

(** ** The handler *)

(** [replyAsk]. *)
Definition cron_replyAsk (fuel : nat) (requestID : string) (replyTo : PID) (a : CronCommandAck)
    : M unit :=
  now ← gets rt_now;
  _ ← SendPID fuel replyTo (PAskReplyEnvelope requestID (PCronCommandAck a) now);
  mret tt.

Definition zeroCronRef : CronRef := mkCronRef "" "" "".

(** [cs.seq.Add(1)]. *)
Definition cron_nextSeq (id : string) (r : Runtime) : Runtime * Z :=
  let c := cron_service id r in
  let n := u64_succ (cr_seq c) in
  (set_cron id (mkCronBrokerService (cr_cronID c) (cr_subs c) (cr_byActor c) n (cr_restored c)) r, n).

(** The new subscription: monitor, goroutine context and table entries. *)
Definition cron_install (id : string) (ref : CronRef) (subscriber : PID) (actorID : string)
    (p : payload) (tag : string) (r : Runtime) : Runtime :=
  let cronPID := mkPID (Namespace subscriber) id 1 in
  let '(r, monRef) := Monitor cronPID subscriber r in
  let sub := mkCronSubscription ref subscriber actorID (cref_Schedule ref) p tag monRef
               (sp_nextTask (rt_svc r)) in
  startSchedule sub (update_cron id (cron_add sub) r).

(** [handleSubscribe]. *)
Definition cron_handleSubscribe (fuel : nat) (id : string) (msg : Message) (subscriber : PID)
    (schedule : string) (p : payload) (tag : string) : M unit :=
  if negb (IsAsk msg) then mret tt
  else
    let replyTo := (AskReplyTo msg).1 in
    cfg ← gets rt_cfg;
    if negb (cf_cronParse cfg schedule) then
      cron_replyAsk fuel (AskRequestID msg) replyTo
        (mkCronCommandAck CronOperationSubscribe CronOutcomeInvalidSchedule zeroCronRef []
           ErrCronInvalidSchedule)
    else
      n ← total (cron_nextSeq id);
      c ← gets (cron_service id);
      let ref := mkCronRef ("cron-" +:+ cr_cronID c +:+ "-" +:+ itoa n) schedule (ActorID subscriber) in
      _ ← upd (cron_install id ref subscriber (ActorID subscriber) p tag);
      cron_replyAsk fuel (AskRequestID msg) replyTo
        (mkCronCommandAck CronOperationSubscribe CronOutcomeSubscribeSuccess ref [] "").

(** [handleUnsubscribe]. *)
Definition cron_handleUnsubscribe (fuel : nat) (id : string) (msg : Message) (refID : string)
    : M unit :=
  if negb (IsAsk msg) then mret tt
  else
    let replyTo := (AskReplyTo msg).1 in
    c ← gets (cron_service id);
    match cr_subs c !! refID with
    | Some sub =>
        _ ← upd (removeLocked id refID sub);
        cron_replyAsk fuel (AskRequestID msg) replyTo
          (mkCronCommandAck CronOperationUnsubscribe CronOutcomeUnsubscribeSuccess (csub_ref sub) [] "")
    | None =>
        cron_replyAsk fuel (AskRequestID msg) replyTo
          (mkCronCommandAck CronOperationUnsubscribe CronOutcomeNotFound zeroCronRef []
             ErrCronRefNotFound)
    end.

(** The loop of [handleUnsubscribeAll] over the references of the actor. *)
Definition removeRefs (id : string) (refIDs : list string) (r : Runtime) : Runtime :=
  foldl (fun r refID =>
    match cr_subs (cron_service id r) !! refID with
    | Some sub => removeLocked id refID sub r
    | None => r
    end) r refIDs.

(** [handleUnsubscribeAll]. *)
Definition cron_handleUnsubscribeAll (fuel : nat) (id : string) (msg : Message) (subscriber : PID)
    : M unit :=
  if negb (IsAsk msg) then mret tt
  else
    let replyTo := (AskReplyTo msg).1 in
    c ← gets (cron_service id);
    _ ← upd (removeRefs id (elements (default ∅ (cr_byActor c !! ActorID subscriber))));
    cron_replyAsk fuel (AskRequestID msg) replyTo
      (mkCronCommandAck CronOperationUnsubscribeAll CronOutcomeUnsubscribeSuccess zeroCronRef [] "").

(** The references [handleList] returns. *)
Definition listRefs (actorID : string) (c : cronBrokerService) : list CronRef :=
  omap (fun refID => csub_ref <$> cr_subs c !! refID)
    (elements (default ∅ (cr_byActor c !! actorID))).

(** [handleList]. *)
Definition cron_handleList (fuel : nat) (id : string) (msg : Message) (subscriber : PID) : M unit :=
  if negb (IsAsk msg) then mret tt
  else
    let replyTo := (AskReplyTo msg).1 in
    c ← gets (cron_service id);
    cron_replyAsk fuel (AskRequestID msg) replyTo
      (mkCronCommandAck CronOperationList CronOutcomeListSuccess zeroCronRef
         (listRefs (ActorID subscriber) c) "").

(** [handleDown]: the subscriptions of the stopped actor are cancelled and
    dropped; their monitors are gone already. *)
Definition cron_handleDown (id : string) (down : DownMessage) (r : Runtime) : Runtime :=
  let actorID := ActorID (down_Target down) in
  let refIDs := elements (default ∅ (cr_byActor (cron_service id r) !! actorID)) in
  let r := foldl (fun r refID =>
      match cr_subs (cron_service id r) !! refID with
      | Some sub =>
          update_cron id (fun c => mkCronBrokerService (cr_cronID c) (delete refID (cr_subs c))
            (cr_byActor c) (cr_seq c) (cr_restored c)) (cancelSchedule (csub_ctx sub) r)
      | None => r
      end) r refIDs in
  update_cron id (fun c => mkCronBrokerService (cr_cronID c) (cr_subs c)
    (delete actorID (cr_byActor c)) (cr_seq c) (cr_restored c)) r.

(** [captureState]. *)
Definition captureState (c : cronBrokerService) : payload :=
  PCronHandoffState ((fun sub => mkCronHandoffEntry (cref_ID (csub_ref sub)) (csub_actorID sub)
    (cref_Schedule (csub_ref sub)) (csub_tag sub) (csub_payload sub)) <$> (map_to_list (cr_subs c)).*2).

(** [restoreFromHandoff]. *)
Definition restoreFromHandoff (id : string) (entries : list CronHandoffEntry) (r : Runtime) : Runtime :=
  foldl (fun r entry =>
    if negb (cf_cronParse (rt_cfg r) (che_Schedule entry)) then r
    else
      let ref := mkCronRef (che_RefID entry) (che_Schedule entry) (che_ActorID entry) in
      let pid := mkPID (cf_nodeID (rt_cfg r)) (che_ActorID entry) 1 in
      cron_install id ref pid (che_ActorID entry) (che_Payload entry) (che_Tag entry) r) r entries.

(** The first message after a hand-over restores the subscriptions. *)
Definition restoreOnce (id : string) (state : payload) (r : Runtime) : Runtime :=
  let c := cron_service id r in
  if cr_restored c then r
  else
    let r := set_cron id (mkCronBrokerService (cr_cronID c) (cr_subs c) (cr_byActor c) (cr_seq c) true) r in
    match state with
    | PCronHandoffState entries => restoreFromHandoff id entries r
    | _ => r
    end.

(** [cronBrokerService.handler]. *)
Definition cron_handler (fuel : nat) (id : string) (state : payload) (msg : Message)
    : M handlerResult :=
  _ ← upd (restoreOnce id state);
  _ ← match msg_Payload msg with
      | PCronSubscribeCommand subscriber schedule p tag =>
          cron_handleSubscribe fuel id msg subscriber schedule p tag
      | PCronUnsubscribeCommand _ refID => cron_handleUnsubscribe fuel id msg refID
      | PCronUnsubscribeAllCommand subscriber => cron_handleUnsubscribeAll fuel id msg subscriber
      | PCronListCommand subscriber => cron_handleList fuel id msg subscriber
      | PDownMessage d => upd (cron_handleDown id d)
      | _ =>
          match AskReplyTo msg with
          | (replyTo, true) =>
              cron_replyAsk fuel (AskRequestID msg) replyTo
                (mkCronCommandAck CronOperationSubscribe CronOutcomeInvalidCommand zeroCronRef []
                   ErrCronInvalidCommand)
          | (_, false) => mret tt
          end
      end;
  c ← gets (cron_service id);
  mret (HROk (captureState c)).

(** ** The schedule goroutine *)

Definition set_schedule (ctx : Z) (t : scheduleTask) (r : Runtime) : Runtime :=
  set_schedules (<[ctx := t]> (sp_schedules (rt_svc r))) (sp_nextTask (rt_svc r)) r.

Definition end_schedule (ctx : Z) (r : Runtime) : Runtime :=
  set_schedules (delete ctx (sp_schedules (rt_svc r))) (sp_nextTask (rt_svc r)) r.

(** The top of the loop of [runSchedule]. *)
Definition schedule_top (ctx : Z) (t : scheduleTask) (r : Runtime) : Runtime :=
  if st_cancelled t then end_schedule ctx r
  else match cf_cronNext (rt_cfg r) (csub_schedule (st_sub t)) (rt_now r) with
  | None => end_schedule ctx r
  | Some next => set_schedule ctx (mkScheduleTask (st_sub t) (Some next) (st_cancelled t)) r
  end.

(** The timer case of its [select], for a fire time that has come. *)
Definition schedule_fire (fuel : nat) (ctx : Z) (t : scheduleTask) (next : Z) : M unit :=
  if st_cancelled t then upd (end_schedule ctx)
  else
    _ ← Send fuel (csub_actorID (st_sub t))
          (PCronTickMessage (csub_ref (st_sub t)) (csub_payload (st_sub t)) next (csub_tag (st_sub t)));
    upd (set_schedule ctx (mkScheduleTask (st_sub t) None (st_cancelled t))).

(** ** Entry points ([cron_runtime.go]) *)

(** [EnsureCronActor]. *)
Definition EnsureCronActor (cronID : string) (r : Runtime) : Runtime * (string + string) :=
  let cronID := defaultCronID cronID in
  match sp_cron (rt_svc r) !! cronID with
  | Some _ => (r, inl cronID)
  | None =>
      let '(r, err) := CreateActor cronID PNil (Some (HCron cronID))
                         [WithMailboxCapacity defaultCronMailboxCapacity] r in
      match err with
      | Some e => (r, inr e)
      | None => (set_cron cronID (newCronBrokerService cronID) r, inl cronID)
      end
  end.

(** [CronHandler]: registers the service without an actor. *)
Definition CronHandler (cronID : string) (r : Runtime) : Runtime * handler :=
  let cronID := defaultCronID cronID in
  match sp_cron (rt_svc r) !! cronID with
  | Some _ => (r, HCron cronID)
  | None => (set_cron cronID (newCronBrokerService cronID) r, HCron cronID)
  end.

(** [CronSubscribe], [CronUnsubscribe], [CronUnsubscribeAll] and [CronList] up
    to the [select] of [Ask]: they differ in the command they send. *)
Definition CronCommandBegin (fuel : nat) (cronID : string) (cmd : payload) (timeout : Z)
    : M (pendingAsk + string) :=
  res ← total (EnsureCronActor (defaultCronID cronID));
  match res with
  | inr e => mret (inr e)
  | inl cron => AskBegin fuel cron cmd timeout
  end.

Definition CronSubscribeBegin (fuel : nat) (cronID : string) (subscriber : PID) (schedule : string)
    (p : payload) (tag : string) (timeout : Z) : M (pendingAsk + string) :=
  CronCommandBegin fuel cronID (PCronSubscribeCommand subscriber schedule p tag) timeout.

Definition CronUnsubscribeBegin (fuel : nat) (cronID : string) (subscriber : PID) (refID : string)
    (timeout : Z) : M (pendingAsk + string) :=
  CronCommandBegin fuel cronID (PCronUnsubscribeCommand subscriber refID) timeout.

Definition CronUnsubscribeAllBegin (fuel : nat) (cronID : string) (subscriber : PID) (timeout : Z)
    : M (pendingAsk + string) :=
  CronCommandBegin fuel cronID (PCronUnsubscribeAllCommand subscriber) timeout.

Definition CronListBegin (fuel : nat) (cronID : string) (subscriber : PID) (timeout : Z)
    : M (pendingAsk + string) :=
  CronCommandBegin fuel cronID (PCronListCommand subscriber) timeout.

Definition cronAckOf (res : AskResult + string) : CronCommandAck + string :=
  match res with
  | inr e => inr e
  | inl a =>
      match ar_Payload a with
      | PCronCommandAck ack => inl ack
      | _ => inr (ErrCronInvalidCommand +:+ ": ack type")
      end
  end.
