(* ===== verification/Actor.v ===== *)
(** * Running actors: user programs, message processing and supervision
      ([runtime.go]: [processMessage], [processBatch], [runActor])

    The interpreter of user programs, the processing of one message or batch
    with the supervision decision a failure leads to, and the goroutine of an
    actor, cut into the pieces between which other goroutines can run. *)

From S2P Require Import Prelude Types Mailbox Resolver Registry Routing Outcomes Monitors PubSub.
From S2P Require Import Fnv Program State Emit Send Lifecycle Broker Cron.

(** ** Operations called by user code *)

Definition exec_api (fuel : nat) (o : api) : M api_result :=
  match o with
  | ACreateActor id init h opts =>
      e ← total (CreateActor id init h opts); mret (RError e)
  | ASend id p => a ← Send fuel id p; mret (RSubmit a)
  | ARoute id p => a ← Route fuel id p; mret (RSubmit a)
  | ADeliverLocal id p ask => a ← DeliverLocal fuel id p ask; mret (RSubmit a)
  | ASendPID pid p => a ← SendPID fuel pid p; mret (RPIDSend a)
  | ADeliverPID pid p => a ← DeliverPID fuel pid p; mret (RPIDSend a)
  | ASendName name p => a ← SendName fuel name p; mret (RPIDSend a)
  | ACrossActorSendByActorID s t p => a ← CrossActorSendByActorID fuel s t p; mret (RSubmit a)
  | ACrossActorSendPID s pid p => a ← CrossActorSendPID fuel s pid p; mret (RPIDSend a)
  | AStop id => s ← Stop fuel id; mret (RStop s)
  | AStopAndCapture id => s ← StopAndCapture fuel id; mret (RCapture s.1 s.2)
  | ARemoveActor id => e ← total (RemoveActor id); mret (RError e)
  | AStatus id => s ← gets (Status id); mret (RStatus s)
  | AIssuePID ns id =>
      p ← total (IssuePID ns id);
      mret (RPID (match p with inl pid => Some pid | inr _ => None end))
  | APIDForActor id => p ← gets (PIDForActor id); mret (RPID p)
  | AResolvePID pid => e ← total (ResolvePID pid); mret (RBool (bool_decide (is_Some (pre_PID <$> e))))
  | ARegisterName id name ns => a ← total (RegisterName id name ns); mret (RRegister a.1 a.2)
  | ALookupName name => a ← total (LookupName name); mret (RLookup a)
  | AUnregisterName name => a ← total (UnregisterName name); mret (RLookup a)
  | ARegisterTypeRoute id t v h => e ← total (RegisterTypeRoute id t v h); mret (RError e)
  | ARegisterFallbackRoute id h => e ← total (RegisterFallbackRoute id h); mret (RError e)
  | AConfigureBatching id n rcv => e ← total (ConfigureBatching id n rcv); mret (RError e)
  | ADisableBatching id => e ← total (DisableBatching id); mret (RError e)
  | AConfigureRouter id s ws => e ← total (ConfigureRouter id s ws); mret (RError e)
  | ASetPIDInteractionPolicy m => _ ← upd (SetPIDInteractionPolicy m); mret RUnit
  | ASetGatewayRouteMode m => _ ← upd (SetGatewayRouteMode m); mret RUnit
  | ASetGatewayAvailable b => _ ← upd (SetGatewayAvailable b); mret RUnit
  | AValidateDistributedReadiness => l ← total ValidateDistributedReadiness; mret (RReadiness l)
  | AMonitor w t => ref ← total (Monitor w t); mret (RMonitor ref)
  | ADemonitor ref => _ ← upd (Demonitor ref); mret RUnit
  | ASendTimer t p d i => id ← total (SendTimer t p d i); mret (RTimer id)
  | ACancelTimer id => _ ← upd (CancelTimer id); mret RUnit
  | AEnsureBrokerActor id =>
      e ← total (EnsureBrokerActor id);
      mret (RError (match e with inl _ => None | inr e => Some e end))
  | ABrokerPublish id t p pub => a ← BrokerPublish fuel id t p pub; mret (RSubmit a)
  | ABrokerPublishRemote id t p pub => a ← BrokerPublishRemote fuel id t p pub; mret (RSubmit a)
  | APublishMembershipEvent t m => a ← PublishMembershipEvent fuel t m; mret (RSubmit a)
  | AEnsureCronActor id =>
      e ← total (EnsureCronActor id);
      mret (RError (match e with inl _ => None | inr e => Some e end))
  end.

Fixpoint run_prog (fuel : nat) (p : prog) : M handlerResult :=
  match p with
  | Return res => mret res
  | Call o k => res ← exec_api fuel o; run_prog fuel (k res)
  end.

(** [inst.handler(inst.ctx, cur, msg)]. *)
Definition run_handler (fuel : nat) (h : handler) (cur : payload) (msg : Message)
    : M handlerResult :=
  match h with
  | HUser body => run_prog fuel (body cur msg)
  | HBroker id => broker_handler fuel id cur msg
  | HCron id => cron_handler fuel id cur msg
  end.

(** ** Supervision *)

(** The instance stops for good: status, context, mailbox and registry. *)
Definition terminate (fuel : nat) (l : nat) (actorID : string) : M unit :=
  _ ← upd (update_instance l (ai_set_status ActorStoppedCode));
  _ ← upd (update_instance l ai_cancel);
  _ ← upd (update_instance l ai_close);
  cleanupRegistryForActor fuel actorID RegistryUnregisterLifecycleTerm.

(** The PID of a restarting actor gets the next generation. *)
Definition bumpPID (actorID : string) (r : Runtime) : Runtime :=
  match PIDForActor actorID r with
  | None => r
  | Some oldPID =>
      let r := set_resolver (SetState (rt_now r) oldPID PIDRouteRestarting (pp_resolver (rt_pids r))) r in
      let '(resolver, bumped) := BumpGeneration (rt_now r) oldPID (pp_resolver (rt_pids r)) in
      let r := set_resolver resolver r in
      match bumped with
      | Some newPID => store_actorPID actorID newPID r
      | None => r
      end
  end.

(** The [switch] on the decision, shared by [processMessage] and
    [processBatch]; [batch] is the size of the failed batch. *)
Definition supervise (fuel : nat) (l : nat) (actorID : string) (msgID : Z)
    (decision : SupervisionDecision) (batch : option Z) : M unit :=
  let failed_batch reason :=
    match batch with
    | Some n => emitBatch actorID n BatchResultFailedSupervision reason
    | None => fun r => r
    end in
  let restarts r := match instance l r with Some i => ai_restarts i | None => 0 end in
  match decision with
  | DecisionRestart =>
      _ ← upd (update_instance l (ai_set_status ActorRestartCode));
      _ ← upd (update_instance l (fun i => ai_set_restarts (ai_restarts i + 1) i));
      _ ← upd (update_instance l (fun i => ai_set_state (newActorState (ai_initialState i)) i));
      _ ← upd (bumpPID actorID);
      inst ← gets (instance l);
      startErr ← runLifecycleHook actorID LifecyclePhaseStart (inst ≫= ai_startHook);
      match startErr with
      | Some _ =>
          _ ← terminate fuel l actorID;
          _ ← upd (failed_batch ErrLifecycleStartFailed);
          n ← gets restarts;
          upd (emitDecision EventActorStopped actorID msgID DecisionStop n
                 (ActorStatus_string ActorStopped) ErrLifecycleStartFailed)
      | None =>
          _ ← upd (update_instance l (ai_set_status ActorRunningCode));
          n ← gets restarts;
          upd (emitDecision EventActorRestarted actorID msgID decision n
                 (ActorStatus_string ActorRunning) "")
      end
  | DecisionEscalate =>
      _ ← terminate fuel l actorID;
      _ ← upd (failed_batch "escalated"%string);
      n ← gets restarts;
      upd (emitDecision EventActorEscalated actorID msgID decision n
             (ActorStatus_string ActorStopped) "escalated")
  | _ =>
      _ ← terminate fuel l actorID;
      _ ← upd (failed_batch "supervisor_stop"%string);
      n ← gets restarts;
      upd (emitDecision EventActorStopped actorID msgID decision n
             (ActorStatus_string ActorStopped) "supervisor_stop")
  end.

(** ** Messages and batches *)

(** [processMessage]. *)
Definition processMessage (fuel : nat) (l : nat) (msg : Message) : M unit :=
  found ← gets (instance l);
  match found with
  | None => mret tt
  | Some inst =>
      let actorID := ai_id inst in
      res ← run_handler fuel (ai_handler inst) (as_value (ai_state inst)) msg;
      match handlerError res, res with
      | None, HROk next =>
          _ ← upd (update_instance l (fun i => ai_set_state (as_apply next (ai_state i)) i));
          _ ← upd (putOutcome (msg_ID msg) actorID ResultDelivered "");
          upd (emitLocal EventMessageProcessed actorID msg (ProcessingResult_string ResultDelivered) "")
      | Some err, _ =>
          (* the handler may have changed the runtime, not the restart count *)
          cfg ← gets rt_cfg;
          let decision := cf_policy cfg actorID err (ai_restarts inst) in
          _ ← upd (putFailedOutcome (msg_ID msg) actorID decision (ai_restarts inst) "handler_error");
          _ ← upd (emitDecision EventActorFailed actorID (msg_ID msg) decision (ai_restarts inst)
                     (ProcessingResult_string ResultFailed) "handler_error");
          _ ← upd (update_instance l (ai_set_lastDecision decision));
          supervise fuel l actorID (msg_ID msg) decision None
      | None, _ => mret tt
      end
  end.

(** [processBatch]. *)
Definition processBatch (fuel : nat) (l : nat) (msgs : list Message) : M unit :=
  found ← gets (instance l);
  match msgs, found with
  | first :: _, Some inst =>
      let actorID := ai_id inst in
      let cfg := ai_batch inst in
      let n := Z.of_nat (length msgs) in
      match bc_Enabled cfg, bc_Receiver cfg with
      | true, Some (BatchReceiver body) =>
          res ← run_prog fuel (body (as_value (ai_state inst)) (msg_Payload <$> msgs));
          match handlerError res, res with
          | None, HROk next =>
              _ ← upd (update_instance l (fun i => ai_set_state (as_apply next (ai_state i)) i));
              _ ← forM msgs (fun msg =>
                    _ ← upd (putOutcome (msg_ID msg) actorID ResultDelivered "");
                    upd (emitLocal EventMessageProcessed actorID msg
                           (ProcessingResult_string ResultDelivered) ""));
              upd (emitBatch actorID n BatchResultSuccess "")
          | Some err, _ =>
              _ ← upd (emitBatch actorID n BatchResultFailedHandler "batch_handler_error");
              rcfg ← gets rt_cfg;
              let decision := cf_policy rcfg actorID err (ai_restarts inst) in
              _ ← forM msgs (fun msg =>
                    upd (putFailedOutcome (msg_ID msg) actorID decision (ai_restarts inst)
                           "batch_handler_error"));
              _ ← upd (emitDecision EventActorFailed actorID (msg_ID first) decision (ai_restarts inst)
                         (ProcessingResult_string ResultFailed) "batch_handler_error");
              _ ← upd (update_instance l (ai_set_lastDecision decision));
              supervise fuel l actorID (msg_ID first) decision (Some n)
          | None, _ => mret tt
          end
      | _, _ => forM msgs (processMessage fuel l)
      end
  | _, _ => mret tt
  end.

(** ** The actor goroutine *)

(** [runActor] up to its loop: the start hook. *)
Definition goroutine_start (l : nat) : M unit :=
  found ← gets (instance l);
  match found with
  | None => mret tt
  | Some inst =>
      err ← runLifecycleHook (ai_id inst) LifecyclePhaseStart (ai_startHook inst);
      match err with
      | Some _ =>
          _ ← upd (update_instance l (ai_set_status ActorStoppedCode));
          _ ← upd (update_instance l ai_close);
          _ ← upd (update_instance l ai_cancel);
          _ ← upd (emit EventActorStopped (ai_id inst) 0 (ActorStatus_string ActorStopped)
                     ErrLifecycleStartFailed);
          upd (update_instance l (ai_set_go GoExited))
      | None =>
          _ ← upd (update_instance l (ai_set_status ActorRunningCode));
          _ ← upd (emit EventActorStarted (ai_id inst) 0 (ActorStatus_string ActorRunning) "");
          upd (update_instance l (ai_set_go GoSelect))
      end
  end.

(** The [ctx.Done()] case of its [select]. *)
Definition goroutine_done (l : nat) (inst : actorInstance) (r : Runtime) : Runtime :=
  let r := update_instance l (ai_set_status ActorStoppedCode) r in
  let r := emit EventActorStopped (ai_id inst) 0 (ActorStatus_string ActorStopped) "" r in
  update_instance l (ai_set_go GoExited) r.

(** The [Notify()] case: take the token and enter the inner loop. *)
Definition goroutine_wake (l : nat) (mb : Mailbox) (r : Runtime) : Runtime :=
  update_instance l (ai_set_go GoDraining) (update_instance l (ai_set_mailbox mb) r).

(** One iteration of the inner loop: a batch, a message, or the [break]. *)
Definition goroutine_iter (fuel : nat) (l : nat) : M unit :=
  found ← gets (instance l);
  match found with
  | None => mret tt
  | Some inst =>
      if bc_Enabled (ai_batch inst) && (1 <? bc_MaxSize (ai_batch inst)) then
        let '(mb, msgs) := DequeueBatch (bc_MaxSize (ai_batch inst)) (ai_mailbox inst) in
        _ ← upd (update_instance l (ai_set_mailbox mb));
        match msgs with
        | [] => upd (update_instance l (ai_set_go GoSelect))
        | _ => processBatch fuel l msgs
        end
      else
        let '(mb, msg) := Dequeue (ai_mailbox inst) in
        _ ← upd (update_instance l (ai_set_mailbox mb));
        match msg with
        | None => upd (update_instance l (ai_set_go GoSelect))
        | Some msg => processMessage fuel l msg
        end
  end.
