(* ===== verification/Prim.v ===== *)
(** * Primitive mutations

    Every operation of the runtime is a sequence of a few kinds of primitive
    mutations of its state, each with the guard under which the code performs
    it: recording, allocation of identifiers, changes of the tables, enqueueing,
    and the transitions of an actor's life.  Invariants of the whole runtime are
    then proved by rule induction on the mutations, once for all operations.

    [prim] has the mutations that any caller can cause; the additional ones an
    actor's own goroutine performs are in [System.v]. *)

From S2P Require Import Prelude Types Mailbox Resolver Registry Routing Outcomes Monitors PubSub.
From S2P Require Import Fnv Program State Emit Send Lifecycle Broker Cron Actor.

(** ** The mutations *)

(** A fresh instance, as [CreateActor] builds it. *)
Definition fresh_instance (id : string) (inst : actorInstance) : Prop :=
  id <> ""%string /\ ai_id inst = id /\ ai_status inst = ActorStartingCode /\
  (exists c, ai_mailbox inst = NewMailbox c) /\
  ai_state inst = newActorState (ai_initialState inst) /\
  ai_restarts inst = 0 /\ ai_cancelled inst = false /\ ai_go inst = GoStarting.

(** The last transition of an instance: stopped, cancelled and closed. *)
Definition halt (a : actorInstance) : actorInstance :=
  ai_close (ai_cancel (ai_set_status ActorStoppedCode a)).

(** A request as [newAskRequest] makes it: its reply address is determined by
    its identifier. *)
Definition canonical_ask (nodeID : string) (w : pendingAsk) : Prop :=
  pa_replyTo w =
    mkPID (if bool_decide (nodeID = ""%string) then askReplyNamespace
           else askReplyNamespace +:+ "@" +:+ nodeID) (pa_requestID w) 1.

Definition put_instance (id : string) (inst : actorInstance) (r : Runtime) : Runtime :=
  let ap := rt_actors r in
  set_actors (mkActorsPart (<[ap_next ap := inst]> (ap_heap ap)) (S (ap_next ap))
    (<[id := ap_next ap]> (ap_registry ap))) r.

Definition drop_actor (id : string) (r : Runtime) : Runtime :=
  let ap := rt_actors r in
  set_actors (mkActorsPart (ap_heap ap) (ap_next ap) (delete id (ap_registry ap))) r.

Definition put_router (id : string) (st : routerRuntimeState) (r : Runtime) : Runtime :=
  let rp := rt_routes r in
  set_routes (mkRoutesPart (rp_routing rp) (<[id := st]> (rp_routers rp)) (rp_draws rp)) r.

Definition forget_pid (id : string) (pid : PID) (r : Runtime) : Runtime :=
  let p := rt_pids r in
  set_pids (mkPidsPart (Remove pid (pp_resolver p)) (delete id (pp_actorPID p)) (pp_names p)
    (pp_policy p)) r.

Definition issue_pid (id : string) (pid : PID) (r : Runtime) : Runtime :=
  store_actorPID id pid (set_resolver (Register (rt_now r) pid (pp_resolver (rt_pids r))) r).

Inductive prim : Runtime -> Runtime -> Prop :=
  (* recording and identifiers *)
  | p_event ev r : (forall n, ev_EventID (ev n) = n) -> prim r (emitEvent ev r)
  | p_outcome op r : prim r (record_outcome (fun o => run_outcome_op o op) r)
  | p_dead dl r : prim r (emit_dead_letter dl r)
  | p_ext c r : prim r (ext_call c r)
  | p_msgID r : prim r (nextMsgID r).1
  (* routing *)
  | p_rr id r : prim r (bump_rrNext id r).1
  | p_rand n r : prim r (randIntn n r).1
  | p_route o r : prim r (set_routing (run_route_reg o (rp_routing (rt_routes r))) r)
  | p_router id strategy ws r :
      is_Some (lookup_actor id r) ->
      prim r (put_router id (mkRouterRuntimeState strategy (normalizeWorkers ∅ ws) 0) r)
  (* actors *)
  | p_enqueue l inst msg r :
      instance l r = Some inst -> ai_status inst <> ActorStoppedCode ->
      prim r (update_instance l (ai_set_mailbox (Enqueue msg (ai_mailbox inst)).1) r)
  | p_batch l b r : prim r (update_instance l (ai_set_batch b) r)
  | p_create id inst r :
      lookup_actor id r = None -> fresh_instance id inst -> prim r (put_instance id inst r)
  | p_remove id inst r :
      actor_of id r = Some inst -> ai_status inst = ActorStoppedCode -> prim r (drop_actor id r)
  | p_stopping l inst r :
      instance l r = Some inst -> ai_status inst <> ActorStoppedCode ->
      prim r (update_instance l (ai_set_status ActorStoppingCode) r)
  | p_halt l r : prim r (update_instance l halt r)
  (* PIDs and names *)
  | p_issue id pid r :
      is_Some (lookup_actor id r) -> Validate pid = None -> ActorID pid = id -> Generation pid = 1 ->
      prim r (issue_pid id pid r)
  | p_stopPID id r : prim r (markPIDStopped id r)
  | p_forget id pid r : PIDForActor id r = Some pid -> prim r (forget_pid id pid r)
  | p_gateway mode r : prim r (SetGatewayRouteMode mode r)
  | p_gatewayUp b r : prim r (SetGatewayAvailable b r)
  | p_names o r : prim r (set_names (run_nr_op o (pp_names (rt_pids r))).1 r)
  | p_policy m r : prim r (SetPIDInteractionPolicy m r)
  (* asks *)
  | p_askNew target r : prim r (newAskRequest target r).1
  | p_askEnd w r :
      canonical_ask (cf_nodeID (rt_cfg r)) w -> prim r (dropChannel w (completeAskRequest w r))
  | p_askReply pid p msgID r : prim r (routeAskReply pid p msgID r).1
  (* services *)
  | p_monitor o r : prim r (set_monitors (run_monitor_op o (sp_monitors (rt_svc r))).1 r)
  | p_timers tm ts r : prim r (set_timers tm ts r)
  | p_brokerNew id r :
      sp_brokers (rt_svc r) !! id = None -> prim r (set_broker id (newPubSubBrokerService id) r)
  | p_brokerOp id o r : prim r (set_broker id (run_ps_op (broker_service id r) o) r)
  | p_publishes ts n r : prim r (set_publishes ts n r)
  | p_cron id c r : prim r (set_cron id c r)
  | p_schedules ts n r : prim r (set_schedules ts n r).

Create HintDb prim.
#[export] Hint Constructors prim : prim.

(** A sequence of mutations. *)
Abbreviation prims := (rtc prim).

(** ** Symbolic execution of the monad *)

Lemma bind_inv {A B} (m : M A) (k : A -> M B) r r' b :
  (m ≫= k) r = Some (r', b) -> exists r1 a, m r = Some (r1, a) /\ k a r1 = Some (r', b).
Proof. unfold mbind, M_bind. destruct (m r) as [[r1 a]|]; [eauto|done]. Qed.

Lemma total_inv {A} (f : Runtime -> Runtime * A) r r' a :
  total f r = Some (r', a) -> f r = (r', a).
Proof. unfold total. congruence. Qed.

Lemma upd_bind {B} f (k : unit -> M B) r : (upd f ≫= k) r = k tt (f r).
Proof. reflexivity. Qed.

Lemma gets_bind {A B} (f : Runtime -> A) (k : A -> M B) r : (gets f ≫= k) r = k (f r) r.
Proof. reflexivity. Qed.

Lemma ret_bind {A B} (a : A) (k : A -> M B) r : (mret a ≫= k) r = k a r.
Proof. reflexivity. Qed.

(** Run [H : m r = Some (r', a)] forward as far as it is known. *)
Ltac minv H :=
  repeat match type of H with
  | mret _ _ = Some _ => unfold mret, M_ret in H; simplify_eq
  | upd _ _ = Some _ => unfold upd in H; simplify_eq
  | gets _ _ = Some _ => unfold gets in H; simplify_eq
  | diverge _ = Some _ => done
  | (upd ?f ≫= ?k) ?r = Some _ => rewrite upd_bind in H; cbv beta in H
  | (gets ?f ≫= ?k) ?r = Some _ => rewrite gets_bind in H; cbv beta in H
  | (mret ?a ≫= ?k) ?r = Some _ => rewrite ret_bind in H; cbv beta in H
  | (_ ≫= _) _ = Some _ =>
      let r1 := fresh "r" in let a1 := fresh "a" in let H1 := fresh "Hm" in
      apply bind_inv in H as (r1 & a1 & H1 & H)
  | total _ _ = Some _ => apply total_inv in H
  | match ?x with _ => _ end _ = Some _ => destruct x eqn:?
  | (let '(_, _) := ?x in _) _ = Some _ => destruct x eqn:?
  end.

(** An operation that is a sequence of mutations. *)
Definition runs {A} (m : M A) : Prop := forall r r' a, m r = Some (r', a) -> prims r r'.

Definition runs_total {A} (f : Runtime -> Runtime * A) : Prop := forall r, prims r (f r).1.

Definition runs_upd (f : Runtime -> Runtime) : Prop := forall r, prims r (f r).

Lemma runs_ret {A} (a : A) : runs (mret a).
Proof. intros r r' x H. minv H. reflexivity. Qed.

Lemma runs_bind {A B} (m : M A) (k : A -> M B) : runs m -> (forall a, runs (k a)) -> runs (m ≫= k).
Proof.
  intros Hm Hk r r' b H. apply bind_inv in H as (r1 & a & H1 & H2).
  etransitivity; [by eapply Hm|by eapply Hk].
Qed.

Lemma runs_gets {A} (f : Runtime -> A) : runs (gets f).
Proof. intros r r' x H. minv H. reflexivity. Qed.

Lemma runs_diverge {A} : runs (@diverge A).
Proof. by intros r r' x H. Qed.

Lemma runs_of_total {A} (f : Runtime -> Runtime * A) : runs_total f -> runs (total f).
Proof. intros Hf r r' x H. apply total_inv in H. specialize (Hf r). by rewrite H in Hf. Qed.

Lemma runs_of_upd f : runs_upd f -> runs (upd f).
Proof. intros Hf r r' x H. minv H. apply Hf. Qed.

Lemma runs_forM {A} (l : list A) f : (forall x, runs (f x)) -> runs (forM l f).
Proof.
  intros Hf. induction l as [|x l IH]; cbn; [apply runs_ret|]. apply runs_bind; auto.
Qed.

Lemma runs_upd_prim f : (forall r, prim r (f r)) -> runs_upd f.
Proof. intros Hf r. by apply rtc_once. Qed.

Create HintDb runs.
#[export] Hint Resolve runs_ret runs_gets runs_diverge : runs.

(** Decompose an operation into its parts. *)
Ltac runs_step :=
  lazymatch goal with
  | |- runs (mbind _ _) => apply runs_bind; [|intros ?]
  | |- runs (mret _) => apply runs_ret
  | |- runs (gets _) => apply runs_gets
  | |- runs diverge => apply runs_diverge
  | |- runs (forM _ _) => apply runs_forM; intros ?
  | |- runs (total _) => apply runs_of_total
  | |- runs (upd _) => apply runs_of_upd
  | |- runs (match ?x with _ => _ end) => destruct x
  | |- runs_upd (match ?x with _ => _ end) => destruct x
  | |- runs_total (match ?x with _ => _ end) => destruct x
  | |- runs _ => cbv zeta
  end.

Ltac runs_tac := repeat first [solve [eauto with runs] | runs_step].

(** One more mutation at the end of a sequence. *)
Lemma prims_r r r1 r2 : prims r r1 -> prim r1 r2 -> prims r r2.
Proof. intros H1 H2. eapply rtc_r; eauto. Qed.

(** ** Recording *)

Lemma prims_event ev r r0 :
  (forall n, ev_EventID (ev n) = n) -> prims r0 r -> prims r0 (emitEvent ev r).
Proof. intros He H. eapply prims_r; [done|]. by constructor. Qed.

Lemma prims_outcome op r r0 :
  prims r0 r -> prims r0 (record_outcome (fun o => run_outcome_op o op) r).
Proof. intros H. eapply prims_r; [done|]. constructor. Qed.

Lemma runs_emit t a m x c : runs_upd (emit t a m x c).
Proof. intros r. by apply prims_event. Qed.
Lemma runs_emitDecision t a m d n x c : runs_upd (emitDecision t a m d n x c).
Proof. intros r. by apply prims_event. Qed.
Lemma runs_emitLocal t a m x c : runs_upd (emitLocal t a m x c).
Proof. intros r. by apply prims_event. Qed.
Lemma runs_emitPID t p m o c : runs_upd (emitPID t p m o c).
Proof. intros r. by apply prims_event. Qed.
Lemma runs_emitRegistry t n a p x c : runs_upd (emitRegistry t n a p x c).
Proof. intros r. by apply prims_event. Qed.
Lemma runs_emitLifecycle a p x c : runs_upd (emitLifecycle a p x c).
Proof. intros r. by apply prims_event. Qed.
Lemma runs_emitGuardrail a m o c : runs_upd (emitGuardrail a m o c).
Proof. intros r. apply (prims_outcome (OpGuardrail _)). by apply prims_event. Qed.
Lemma runs_emitReadiness s x e : runs_upd (emitReadiness s x e).
Proof. intros r. apply (prims_outcome (OpReadiness _)). by apply prims_event. Qed.
Lemma runs_emitAsk a i p o c : runs_upd (emitAsk a i p o c).
Proof. intros r. apply (prims_outcome (OpAsk _)). by apply prims_event. Qed.
Lemma runs_emitRouter i m s w o c : runs_upd (emitRouter i m s w o c).
Proof. intros r. apply (prims_outcome (OpRouting _)). by apply prims_event. Qed.
Lemma runs_emitBatch a n x c : runs_upd (emitBatch a n x c).
Proof. intros r. apply (prims_outcome (OpBatch _)). by apply prims_event. Qed.
Lemma runs_emitBroker i o t s n x c : runs_upd (emitBroker i o t s n x c).
Proof. intros r. apply (prims_outcome (OpBroker _)). by apply prims_event. Qed.
Lemma runs_putOutcome m a x c : runs_upd (putOutcome m a x c).
Proof. intros r. by apply (prims_outcome (OpPut _)). Qed.
Lemma runs_putFailedOutcome m a d n c : runs_upd (putFailedOutcome m a d n c).
Proof. intros r. by apply (prims_outcome (OpPut _)). Qed.
Lemma runs_putHookOutcome a p x c : runs_upd (putHookOutcome a p x c).
Proof. intros r. apply prims_event; [done|]. by apply (prims_outcome (OpLifecycle _)). Qed.
Lemma runs_dls_emitPID pid p reason : runs_upd (dls_emitPID pid p reason).
Proof. apply runs_upd_prim. intros r. constructor. Qed.
Lemma runs_ext_call c : runs_upd (ext_call c).
Proof. apply runs_upd_prim. intros r. constructor. Qed.
Lemma runs_upd_id : runs_upd (fun r => r).
Proof. intros r. reflexivity. Qed.
Lemma runs_nextMsgID : runs_total nextMsgID.
Proof. intros r. apply rtc_once. constructor. Qed.

#[export] Hint Resolve runs_emit runs_emitDecision runs_emitLocal runs_emitPID runs_emitRegistry
  runs_emitLifecycle runs_emitGuardrail runs_emitReadiness runs_emitAsk runs_emitRouter runs_emitBatch
  runs_emitBroker runs_putOutcome runs_putFailedOutcome runs_putHookOutcome runs_dls_emitPID
  runs_ext_call runs_upd_id runs_nextMsgID : runs.

(** Append an operation to a sequence of mutations. *)
Lemma prims_upd f r0 r : runs_upd f -> prims r0 r -> prims r0 (f r).
Proof. intros Hf H. etransitivity; [done|apply Hf]. Qed.

Lemma prims_total {A} (f : Runtime -> Runtime * A) r0 r r' a :
  runs_total f -> f r = (r', a) -> prims r0 r -> prims r0 r'.
Proof. intros Hf E H. etransitivity; [done|]. specialize (Hf r). by rewrite E in Hf. Qed.

(** ** Sending *)

Lemma runs_reject a m x s : runs_total (reject a m x s).
Proof. intros r. cbn. apply prims_upd; [eauto with runs|]. apply runs_putOutcome. Qed.

Lemma runs_rejectLocal a m x s : runs_total (rejectLocal a m x s).
Proof. intros r. cbn. apply prims_upd; [eauto with runs|]. apply runs_putOutcome. Qed.

Lemma runs_selectRoutedWorker i s ws p : runs_total (selectRoutedWorker i s ws p).
Proof.
  intros r. unfold selectRoutedWorker. destruct (_ =? _)%nat; [reflexivity|].
  destruct s; cbn -[bump_rrNext].
  - pose proof (p_rr i r) as H. destruct (bump_rrNext i r) as [r' c]. by apply rtc_once.
  - apply rtc_once. apply p_rand with (n := 0).
  - repeat case_match; reflexivity.
  - reflexivity.
Qed.

#[export] Hint Resolve runs_reject runs_rejectLocal runs_selectRoutedWorker : runs.

Lemma prims_enqueueMessage l inst a msg r0 r :
  prims r0 r -> instance l r = Some inst -> ai_status inst <> ActorStoppedCode ->
  prims r0 (enqueueMessage l inst a msg r).1.
Proof.
  intros H Hi Hs. unfold enqueueMessage.
  pose proof (p_enqueue l inst msg r Hi Hs) as Hp.
  destruct (Enqueue msg (ai_mailbox inst)) as [mb res]. cbn [fst] in *.
  assert (prims r0 (update_instance l (ai_set_mailbox mb) r)) as H1 by (by eapply prims_r).
  repeat case_decide; cbn [fst]; repeat (first [done|etransitivity; [|apply runs_reject]]).
Qed.

Lemma runs_sendDirect a p ask : runs_total (sendDirect a p ask).
Proof.
  intros r. unfold sendDirect. pose proof (runs_nextMsgID r) as Hn.
  destruct (nextMsgID r) as [r1 id]. cbn [fst] in Hn.
  destruct (lookup_actor a r) as [l|]; cbn [mbind option_bind];
    [|etransitivity; [exact Hn|apply runs_reject]].
  destruct (instance l r1) as [inst|] eqn:Hi; cbn [fmap option_fmap option_map];
    [|etransitivity; [exact Hn|apply runs_reject]].
  case_decide; [etransitivity; [exact Hn|apply runs_reject]|].
  destruct (rr_match _); try (etransitivity; [exact Hn|apply runs_rejectLocal]);
    apply prims_enqueueMessage; try done; (apply prims_upd; [eauto with runs|done]).
Qed.

Lemma runs_dispatchRouted send i p ask s ws :
  (forall w p ask, runs (send w p ask)) -> runs (dispatchRouted send i p ask s ws).
Proof. intros Hs. unfold dispatchRouted. runs_tac. Qed.

Lemma runs_sendWithAskContext fuel a p ask : runs (sendWithAskContext fuel a p ask).
Proof.
  revert a p ask. induction fuel as [|fuel IH]; intros a p ask; cbn [sendWithAskContext]; [by eauto with runs|].
  pose proof runs_sendDirect. pose proof (runs_dispatchRouted (sendWithAskContext fuel)). runs_tac.
Qed.

#[export] Hint Resolve runs_sendWithAskContext : runs.

(** ** The configuration never changes *)

Lemma emitAsk_cfg a i p o c r : rt_cfg (emitAsk a i p o c r) = rt_cfg r.
Proof. reflexivity. Qed.

Lemma routeAskReply_frame pid p m r :
  let r' := (routeAskReply pid p m r).1 in
  rt_cfg r' = rt_cfg r /\ rt_actors r' = rt_actors r /\ rt_pids r' = rt_pids r /\
  rt_routes r' = rt_routes r /\ rt_svc r' = rt_svc r /\ rt_msgSeq r' = rt_msgSeq r /\
  rt_now r' = rt_now r /\ rt_ext r' = rt_ext r.
Proof.
  cbv zeta. unfold routeAskReply. do 2 (destruct (_ : bool); [by repeat split|]).
  destruct (kp_reply _ !! _) as [rq|]; [|by destruct (kp_closed _ !! _); repeat split].
  generalize (match p with PAskReplyEnvelope rid pl at_ => mkAskReplyEnvelope rid pl at_
    | _ => mkAskReplyEnvelope rq p (rt_now (set_ask (mkAskPart (kp_seq (rt_ask r)) (delete rq (kp_wait (rt_ask r)))
        (delete (Key pid) (kp_reply (rt_ask r)))
        (<[rq:=match kp_wait (rt_ask r) !! rq with Some w => pa_targetActor w | None => ""%string end]>
           (kp_closed (rt_ask r))) (kp_ch (rt_ask r))) r)) end).
  intros env. destruct (negb _); [by repeat split|]. repeat case_match; by repeat split.
Qed.

Lemma markPIDStopped_frame id r :
  let r' := markPIDStopped id r in
  rt_cfg r' = rt_cfg r /\ rt_actors r' = rt_actors r /\ rt_ask r' = rt_ask r /\
  rt_routes r' = rt_routes r /\ rt_svc r' = rt_svc r /\ rt_obs r' = rt_obs r /\
  rt_msgSeq r' = rt_msgSeq r /\ rt_now r' = rt_now r.
Proof. unfold markPIDStopped. case_match; repeat split; reflexivity. Qed.

Lemma bump_rrNext_frame id r :
  let r' := (bump_rrNext id r).1 in
  rt_cfg r' = rt_cfg r /\ rt_actors r' = rt_actors r /\ rt_ask r' = rt_ask r /\
  rt_pids r' = rt_pids r /\ rt_svc r' = rt_svc r /\ rt_obs r' = rt_obs r /\
  rt_msgSeq r' = rt_msgSeq r /\ rt_now r' = rt_now r.
Proof. unfold bump_rrNext. case_match; repeat split; reflexivity. Qed.

Lemma prim_cfg r r' : prim r r' -> rt_cfg r' = rt_cfg r.
Proof.
  destruct 1; try reflexivity;
    [apply bump_rrNext_frame|apply markPIDStopped_frame|apply routeAskReply_frame].
Qed.

Lemma prims_cfg r r' : prims r r' -> rt_cfg r' = rt_cfg r.
Proof. induction 1 as [|x y z H1 _ IH]; [done|]. rewrite IH. by apply prim_cfg. Qed.

(** ** Asks *)

Lemma newAskRequest_canonical t r :
  canonical_ask (cf_nodeID (rt_cfg r)) (newAskRequest t r).2.
Proof. reflexivity. Qed.

Lemma runs_newAskRequest t : runs_total (newAskRequest t).
Proof. intros r. apply rtc_once. constructor. Qed.

Lemma runs_routeAskReply pid p m : runs_total (routeAskReply pid p m).
Proof. intros r. apply rtc_once. constructor. Qed.

(** Ending a request that was created in a state with the same node. *)
Lemma prims_askEnd w r0 r :
  prims r0 r -> canonical_ask (cf_nodeID (rt_cfg r)) w ->
  prims r0 (dropChannel w (completeAskRequest w r)).
Proof. intros H Hc. eapply prims_r; [done|]. by constructor. Qed.

Lemma runs_askFail w a c (r r1 r2 : Runtime) x :
  prims r r1 -> canonical_ask (cf_nodeID (rt_cfg r)) w ->
  (_ ← upd (completeAskRequest w); _ ← upd (dropChannel w);
   _ ← upd (emitAsk a (pa_requestID w) (pa_replyTo w) AskOutcomeReplyTargetInvalid c);
   (mret (inr ErrAskReplyTargetInvalid) : M (pendingAsk + string))) r1 = Some (r2, x) ->
  prims r r2.
Proof.
  intros H Hc E. minv E. apply prims_upd; [eauto with runs|]. apply prims_askEnd; [done|].
  by rewrite (prims_cfg _ _ H).
Qed.

Lemma runs_AskBegin fuel a p t : runs (AskBegin fuel a p t).
Proof.
  intros r r' x H. unfold AskBegin in H. destruct (t <=? 0); [by minv H|].
  apply bind_inv in H as (r1 & w & Hn & H). apply total_inv in Hn.
  apply bind_inv in H as (r2 & ack & Hs & H).
  assert (canonical_ask (cf_nodeID (rt_cfg r)) w) as Hc.
  { pose proof (newAskRequest_canonical a r) as Hc. by rewrite Hn in Hc. }
  assert (prims r r2) as H2.
  { etransitivity; [|by eapply runs_sendWithAskContext].
    eapply prims_total; [apply runs_newAskRequest|exact Hn|reflexivity]. }
  case_decide; [by minv H|]. by eapply runs_askFail.
Qed.

Lemma runs_AskPIDBegin fuel pid p t : runs (AskPIDBegin fuel pid p t).
Proof.
  intros r r' x H. unfold AskPIDBegin in H. destruct (t <=? 0); [by minv H|].
  apply bind_inv in H as (r1 & w & Hn & H). apply total_inv in Hn. cbv zeta in H.
  assert (canonical_ask (cf_nodeID (rt_cfg r)) w) as Hc.
  { pose proof (newAskRequest_canonical (ActorID pid) r) as Hc. by rewrite Hn in Hc. }
  assert (prims r r1) as H1.
  { eapply prims_total; [apply runs_newAskRequest|exact Hn|reflexivity]. }
  apply bind_inv in H as (r1' & cfg & Hg & H). minv Hg.
  assert (forall r2 y, (ack ← sendWithAskContext fuel (ActorID pid) p
      (Some (mkAskRequestContext (pa_requestID w) (pa_replyTo w)));
      if decide (sa_Result ack = SubmitAccepted) then mret (inl w)
      else _ ← upd (completeAskRequest w); _ ← upd (dropChannel w);
        _ ← upd (emitAsk (ActorID pid) (pa_requestID w) (pa_replyTo w) AskOutcomeReplyTargetInvalid
          (SubmitResult_string (sa_Result ack)));
        (mret (inr ErrAskReplyTargetInvalid) : M (pendingAsk + string))) r1' = Some (r2, y) ->
      prims r r2) as Hlocal.
  { intros r2 y E. apply bind_inv in E as (r3 & ack & Hs & E).
    apply runs_sendWithAskContext in Hs. assert (prims r r3) by (by etransitivity).
    case_decide; [by minv E|]. by eapply runs_askFail. }
  destruct (cf_remoteAsk (rt_cfg r1')) as [remote|]; [|by eapply Hlocal].
  destruct (IsRemote _ _); [|by eapply Hlocal].
  apply bind_inv in H as (r3 & id & Hm & H). apply total_inv in Hm.
  apply bind_inv in H as (r4 & u & He & H). minv He.
  assert (prims r (ext_call (ExtRemoteAsk pid p id (pa_requestID w) (pa_replyTo w)) r3)) as H4.
  { apply prims_upd; [eauto with runs|]. eapply prims_total; [apply runs_nextMsgID|exact Hm|done]. }
  destruct (remote _ _ _ _ _ _) as [ack err]. destruct (_ || _); [|by minv H].
  by eapply runs_askFail.
Qed.

(** [AskEnd] of a request this node made. *)
Lemma prims_AskEnd w k r r' x :
  AskEnd w k r = Some (r', x) -> canonical_ask (cf_nodeID (rt_cfg r)) w -> prims r r'.
Proof.
  intros H Hc. unfold AskEnd in H.
  repeat case_match; simplify_eq; (apply prims_upd; [eauto with runs|]); by apply prims_askEnd.
Qed.

(** ** PIDs *)

Lemma runs_refusePID ev pid m o c g mode p d : runs_total (refusePID ev pid m o c g mode p d).
Proof.
  intros r. unfold refusePID. cbn [fst].
  destruct d; repeat (apply prims_upd; [eauto with runs|]); reflexivity.
Qed.

Lemma runs_sendPIDLocal fuel s pid p m : runs (sendPIDLocal fuel s pid p m).
Proof. unfold sendPIDLocal, Send. pose proof runs_refusePID. runs_tac. Qed.

Lemma runs_sendPIDWithSender fuel s pid p : runs (sendPIDWithSender fuel s pid p).
Proof.
  unfold sendPIDWithSender. pose proof runs_routeAskReply. pose proof runs_sendPIDLocal. runs_tac.
Qed.

Lemma runs_SendPID fuel pid p : runs (SendPID fuel pid p).
Proof. apply runs_sendPIDWithSender. Qed.

Lemma runs_IssuePID ns id : runs_total (IssuePID ns id).
Proof.
  intros r. unfold IssuePID. destruct (lookup_actor id r) eqn:Hl; [|reflexivity].
  destruct (Validate _) eqn:Hv; [reflexivity|]. apply rtc_once, (p_issue id); [by eexists|done..].
Qed.

Lemma runs_ResolvePID pid : runs_total (ResolvePID pid).
Proof. intros r. unfold ResolvePID. case_match; apply runs_emitPID. Qed.

Lemma runs_CrossActorSendByActorID fuel s t p : runs (CrossActorSendByActorID fuel s t p).
Proof. unfold CrossActorSendByActorID, Send. runs_tac. Qed.

Lemma runs_CrossActorSendPID fuel s pid p : runs (CrossActorSendPID fuel s pid p).
Proof.
  unfold CrossActorSendPID. pose proof runs_sendPIDWithSender.
  assert (runs_upd id) by (intros r; reflexivity). runs_tac.
Qed.

#[export] Hint Resolve runs_sendPIDWithSender runs_SendPID runs_IssuePID runs_ResolvePID
  runs_CrossActorSendByActorID runs_CrossActorSendPID : runs.

(** ** Names and monitors *)

Lemma prims_names o r0 r : prims r0 r -> prims r0 (set_names (run_nr_op o (pp_names (rt_pids r))).1 r).
Proof. intros H. eapply prims_r; [done|]. constructor. Qed.

Lemma prims_ext_if (b : bool) c r0 r : prims r0 r -> prims r0 (if b then ext_call c r else r).
Proof. intros H. destruct b; [|done]. apply prims_upd; [eauto with runs|done]. Qed.

Lemma runs_RegisterName id name ns : runs_total (RegisterName id name ns).
Proof.
  intros r. unfold RegisterName. destruct (lookup_actor id r); [|reflexivity].
  cbv zeta. set (ns' := if bool_decide _ then _ else _).
  assert (prims r (pidInNamespace ns' id r).1) as Hq.
  { unfold pidInNamespace. pose proof (runs_IssuePID ns' id r). repeat case_match; done. }
  destruct (pidInNamespace ns' id r) as [r1 [pid|err]]; cbn [fst] in Hq; [|done].
  pose proof (prims_names (NrRegister (rt_now r1) name id pid) _ _ Hq) as H. cbn [run_nr_op] in H.
  destruct (nr_register _ _ _ _ _) as [names [entry|err]]; cbn [fst] in *.
  - apply prims_ext_if. apply prims_upd; [eauto with runs|done].
  - apply prims_upd; [eauto with runs|done].
Qed.

Lemma runs_LookupName name : runs_total (LookupName name).
Proof. intros r. unfold LookupName. repeat case_match; apply runs_emitRegistry. Qed.

Lemma runs_UnregisterName name : runs_total (UnregisterName name).
Proof.
  intros r. unfold UnregisterName.
  pose proof (prims_names (NrUnregister name) r r (rtc_refl _ _)) as H. cbn [run_nr_op] in H.
  destruct (nr_unregister _ _) as [names [entry|]]; cbn [fst] in *.
  - apply prims_ext_if. apply prims_upd; [eauto with runs|done].
  - apply runs_emitRegistry.
Qed.

Lemma runs_SendName fuel name p : runs (SendName fuel name p).
Proof. unfold SendName. pose proof runs_LookupName. runs_tac. Qed.

Lemma runs_AskNameBegin fuel name p t : runs (AskNameBegin fuel name p t).
Proof. unfold AskNameBegin. pose proof runs_LookupName. pose proof runs_AskPIDBegin. runs_tac. Qed.

Lemma prims_monitor o r0 r :
  prims r0 r -> prims r0 (set_monitors (run_monitor_op o (sp_monitors (rt_svc r))).1 r).
Proof. intros H. eapply prims_r; [done|]. constructor. Qed.

Lemma runs_Monitor w t : runs_total (Monitor w t).
Proof.
  intros r. unfold Monitor. pose proof (prims_monitor (MoAdd w t) r r (rtc_refl _ _)) as H.
  cbn [run_monitor_op] in H. by destruct (mm_add _ _ _).
Qed.

Lemma runs_Demonitor ref : runs_upd (Demonitor ref).
Proof.
  intros r. unfold Demonitor. pose proof (prims_monitor (MoRemove ref) r r (rtc_refl _ _)) as H.
  cbn [run_monitor_op] in H. by destruct (mm_remove _ _).
Qed.

Lemma runs_notifyMonitors fuel id reason : runs (notifyMonitors fuel id reason).
Proof.
  unfold notifyMonitors. apply runs_bind; [|intros es; runs_tac].
  apply runs_of_total. intros r. pose proof (prims_monitor (MoDrain id) r r (rtc_refl _ _)) as H.
  cbn [run_monitor_op] in H. by destruct (mm_drain _ _).
Qed.

Lemma runs_cleanup fuel id res : runs (cleanupRegistryForActor fuel id res).
Proof.
  unfold cleanupRegistryForActor. pose proof runs_notifyMonitors.
  apply runs_bind; [|intros es; runs_tac].
  apply runs_of_total. intros r. pose proof (prims_names (NrUnregisterByActor id) r r (rtc_refl _ _)) as H'.
  cbn [run_nr_op] in H'. by destruct (nr_unregisterByActor _ _).
Qed.

#[export] Hint Resolve runs_RegisterName runs_LookupName runs_UnregisterName runs_SendName
  runs_AskNameBegin runs_Monitor runs_Demonitor runs_notifyMonitors runs_cleanup
  runs_AskBegin runs_AskPIDBegin : runs.

(** ** Timers and configuration *)

Lemma runs_SendTimer t p d i : runs_total (SendTimer t p d i).
Proof. intros r. apply rtc_once. constructor. Qed.
Lemma runs_CancelTimer id : runs_upd (CancelTimer id).
Proof. intros r. apply rtc_once. constructor. Qed.
Lemma runs_endTimer id : runs_upd (endTimer id).
Proof. intros r. apply rtc_once. constructor. Qed.
Lemma runs_cancelAll : runs_upd cancelAll.
Proof. intros r. apply rtc_once. constructor. Qed.

#[export] Hint Resolve runs_SendTimer runs_CancelTimer runs_endTimer : runs.

Lemma runs_fireTimer fuel id t : runs (fireTimer fuel id t).
Proof.
  unfold fireTimer. runs_tac. intros r. apply rtc_once. constructor.
Qed.

Lemma runs_RegisterTypeRoute id t v h : runs_total (RegisterTypeRoute id t v h).
Proof.
  intros r. unfold RegisterTypeRoute. case_match; [|reflexivity].
  apply rtc_once, (p_route (RegExact id t v h)).
Qed.

Lemma runs_RegisterFallbackRoute id h : runs_total (RegisterFallbackRoute id h).
Proof.
  intros r. unfold RegisterFallbackRoute. case_match; [|reflexivity].
  apply rtc_once, (p_route (RegFallback id h)).
Qed.

Lemma runs_ConfigureBatching id n rcv : runs_total (ConfigureBatching id n rcv).
Proof.
  intros r. unfold ConfigureBatching. case_match; [|reflexivity]. case_match; [reflexivity|].
  apply rtc_once. constructor.
Qed.

Lemma runs_DisableBatching id : runs_total (DisableBatching id).
Proof.
  intros r. unfold DisableBatching. case_match; [|reflexivity]. apply rtc_once. constructor.
Qed.

Lemma runs_ConfigureRouter id s ws : runs_total (ConfigureRouter id s ws).
Proof.
  intros r. unfold ConfigureRouter. destruct (lookup_actor id r) eqn:Hl; [|reflexivity].
  destruct s; try reflexivity; apply rtc_once, p_router; by eexists.
Qed.

Lemma runs_SetPolicy m : runs_upd (SetPIDInteractionPolicy m).
Proof. intros r. apply rtc_once. constructor. Qed.
Lemma runs_SetGatewayRouteMode m : runs_upd (SetGatewayRouteMode m).
Proof. intros r. apply rtc_once. constructor. Qed.
Lemma runs_SetGatewayAvailable b : runs_upd (SetGatewayAvailable b).
Proof. intros r. apply rtc_once. constructor. Qed.

Lemma runs_ValidateDistributedReadiness : runs_total ValidateDistributedReadiness.
Proof.
  intros r. unfold ValidateDistributedReadiness. cbn [fst].
  repeat case_match; repeat (apply prims_upd; [eauto with runs|]); reflexivity.
Qed.

#[export] Hint Resolve runs_fireTimer runs_RegisterTypeRoute runs_RegisterFallbackRoute
  runs_ConfigureBatching runs_DisableBatching runs_ConfigureRouter runs_SetPolicy
  runs_SetGatewayRouteMode runs_SetGatewayAvailable runs_ValidateDistributedReadiness : runs.

(** ** Lifecycle *)

Lemma runs_runLifecycleHook id ph h : runs (runLifecycleHook id ph h).
Proof. unfold runLifecycleHook. runs_tac. Qed.

Lemma runs_runStopHook inst : runs_upd (runStopHookWithTimeout inst).
Proof. intros r. unfold runStopHookWithTimeout. repeat case_match; try apply runs_putHookOutcome; reflexivity. Qed.

Lemma runs_CreateActor id init h opts : runs_total (CreateActor id init h opts).
Proof.
  intros r. unfold CreateActor. case_bool_decide as Hid; [reflexivity|]. destruct h as [h|]; [|reflexivity].
  unfold registry_put. destruct (ap_registry (rt_actors r) !! id) eqn:Hr; [reflexivity|].
  apply rtc_once, (p_create id); [done|]. repeat split; try done. by eexists.
Qed.

Lemma runs_RemoveActor id : runs_total (RemoveActor id).
Proof.
  intros r. unfold RemoveActor. destruct (actor_of id r) as [inst|] eqn:Ha; [|reflexivity].
  destruct (bool_decide_reflect (ai_status inst = ActorStoppedCode)) as [Hs|]; [|reflexivity]. cbn [negb].
  assert (set_actors (mkActorsPart (ap_heap (rt_actors r)) (ap_next (rt_actors r))
            (registry_remove id (ap_registry (rt_actors r))).1) r = drop_actor id r) as ->.
  { unfold drop_actor, registry_remove. destruct (ap_registry (rt_actors r) !! id) eqn:Hl; cbn [fst]; [done|].
    by rewrite delete_id. }
  assert (prims r (drop_actor id r)) as Hd by (apply rtc_once; by eapply p_remove).
  destruct (PIDForActor id (drop_actor id r)) as [pid|] eqn:Hp; [|done].
  eapply prims_r; [exact Hd|]. by apply p_forget.
Qed.

(** The updates of a stopping instance commute with that of its PID. *)
Lemma halt_steps l id r :
  update_instance l ai_close (update_instance l ai_cancel
    (markPIDStopped id (update_instance l (ai_set_status ActorStoppedCode) r))) =
  markPIDStopped id (update_instance l halt r).
Proof.
  unfold markPIDStopped, PIDForActor, update_instance. cbn.
  destruct (pp_actorPID (rt_pids r) !! id); cbn; rewrite !alter_alter_eq; done.
Qed.

Lemma halt_steps' l r :
  update_instance l ai_close (update_instance l ai_cancel
    (update_instance l (ai_set_status ActorStoppedCode) r)) = update_instance l halt r.
Proof. unfold update_instance. cbn. rewrite !alter_alter_eq. done. Qed.

Lemma runs_stopInstance fuel id l inst : runs (stopInstance fuel id l inst).
Proof.
  intros r r' x H. unfold stopInstance in H. rewrite !upd_bind, halt_steps in H.
  etransitivity; [|eapply runs_cleanup, H].
  eapply prims_r; [|apply p_stopPID]. eapply prims_r; [|apply p_halt].
  apply runs_runStopHook.
Qed.

Lemma prims_stopping id l inst r :
  lookup_actor id r = Some l -> instance l r = Some inst -> Status id r <> ActorStopped ->
  prims r (update_instance l (ai_set_status ActorStoppingCode) r).
Proof.
  intros Hl Hi Hs. apply rtc_once. apply (p_stopping l inst); [done|].
  unfold Status, actor_of in Hs. rewrite Hl in Hs. cbn in Hs. rewrite Hi in Hs.
  by destruct (ai_status inst).
Qed.

Lemma runs_Stop fuel aid : runs (Stop fuel aid).
Proof.
  intros r r' x H. unfold Stop in H. rewrite gets_bind in H. unfold id in H.
  destruct (lookup_actor aid r) as [l|] eqn:Hl; cbn [mbind option_bind] in H; [|by minv H].
  destruct (instance l r) as [inst|] eqn:Hi; cbn [fmap option_fmap option_map] in H; [|by minv H].
  case_decide as Hs; [by minv H|]. rewrite upd_bind in H. apply bind_inv in H as (r1 & u & H1 & H).
  minv H. etransitivity; [by eapply prims_stopping|]. by eapply runs_stopInstance.
Qed.

Lemma runs_StopAndCapture fuel aid : runs (StopAndCapture fuel aid).
Proof.
  intros r r' x H. unfold StopAndCapture in H. rewrite gets_bind in H. unfold id in H.
  destruct (lookup_actor aid r) as [l|] eqn:Hl; cbn [mbind option_bind] in H; [|by minv H].
  destruct (instance l r) as [inst|] eqn:Hi; cbn [fmap option_fmap option_map] in H; [|by minv H].
  case_decide as Hs; [by minv H|]. rewrite upd_bind in H. apply bind_inv in H as (r1 & u & H1 & H).
  minv H. etransitivity; [by eapply prims_stopping|]. by eapply runs_stopInstance.
Qed.

#[export] Hint Resolve runs_runLifecycleHook runs_runStopHook runs_CreateActor runs_RemoveActor
  runs_stopInstance runs_Stop runs_StopAndCapture : runs.

(** ** Broker *)

Lemma runs_broker_replyAsk fuel i p a : runs (broker_replyAsk fuel i p a).
Proof. unfold broker_replyAsk. runs_tac. Qed.

Lemma runs_ext_if (b : bool) c : runs_upd (fun r => if b then ext_call c r else r).
Proof. intros r. by apply prims_ext_if. Qed.

Lemma prims_brokerOp id o r0 r :
  prims r0 r -> prims r0 (set_broker id (run_ps_op (broker_service id r) o) r).
Proof. intros H. eapply prims_r; [done|]. constructor. Qed.

Lemma runs_broker_handleSubscribe fuel id m s pat : runs (broker_handleSubscribe fuel id m s pat).
Proof.
  unfold broker_handleSubscribe. pose proof runs_broker_replyAsk.
  destruct (parseTopicPattern pat) as [p|] eqn:Hp; [|runs_tac].
  destruct (negb _); [runs_tac|]. apply runs_bind.
  - apply runs_of_total. intros r.
    pose proof (prims_brokerOp id (PsSubscribe pat s) r r (rtc_refl _ _)) as H'.
    cbn [run_ps_op] in H'. rewrite Hp in H'. by destruct (subscribe_tables _ _ _).
  - intros first. runs_tac. intros r. apply prims_ext_if. reflexivity.
Qed.

Lemma runs_broker_handleUnsubscribe fuel id m s pat : runs (broker_handleUnsubscribe fuel id m s pat).
Proof.
  unfold broker_handleUnsubscribe. pose proof runs_broker_replyAsk.
  destruct (parseTopicPattern pat) as [p|] eqn:Hp; [|runs_tac].
  destruct (negb _); [runs_tac|]. apply runs_bind.
  - apply runs_of_total. intros r.
    pose proof (prims_brokerOp id (PsUnsubscribe pat s) r r (rtc_refl _ _)) as H'.
    cbn [run_ps_op] in H'. rewrite Hp in H'. by destruct (unsubscribe_tables _ _ _) as [[? ?] ?].
  - intros [hasSub last]. runs_tac; intros r; apply prims_ext_if; reflexivity.
Qed.

Lemma runs_dispatchPublish id t p pub ts : runs_upd (dispatchPublish id t p pub ts).
Proof.
  intros r. unfold dispatchPublish. case_match; [apply runs_emitBroker|]. apply rtc_once. constructor.
Qed.

Lemma runs_set_publishes ts n : runs_upd (set_publishes ts n).
Proof. intros r. apply rtc_once. constructor. Qed.

Lemma runs_publish_step fuel task t : runs (publish_step fuel task t).
Proof.
  unfold publish_step. runs_tac; intros r; apply rtc_once; constructor.
Qed.

Lemma runs_broker_handlePublish id t p pub rem : runs_upd (broker_handlePublish id t p pub rem).
Proof.
  intros r. unfold broker_handlePublish. case_match; [|apply runs_emitBroker].
  apply prims_ext_if. apply runs_dispatchPublish.
Qed.

Lemma runs_broker_handler fuel id st m : runs (broker_handler fuel id st m).
Proof.
  unfold broker_handler. pose proof runs_broker_replyAsk. pose proof runs_broker_handleSubscribe.
  pose proof runs_broker_handleUnsubscribe. pose proof runs_broker_handlePublish. runs_tac.
Qed.

(** Creating a service's actor leaves the services alone. *)
Lemma CreateActor_svc id init h opts r :
  rt_svc (CreateActor id init h opts r).1 = rt_svc r.
Proof. unfold CreateActor, registry_put. by repeat case_match; simplify_eq. Qed.

Lemma runs_EnsureBrokerActor id : runs_total (EnsureBrokerActor id).
Proof.
  intros r. unfold EnsureBrokerActor. destruct (sp_brokers _ !! _) eqn:Hb; [reflexivity|].
  pose proof (runs_CreateActor (defaultBrokerID id) PNil (Some (HBroker (defaultBrokerID id)))
    [WithMailboxCapacity defaultBrokerMailboxCapacity] r) as Hc.
  pose proof (CreateActor_svc (defaultBrokerID id) PNil (Some (HBroker (defaultBrokerID id)))
    [WithMailboxCapacity defaultBrokerMailboxCapacity] r) as Hs.
  destruct (CreateActor _ _ _ _ r) as [r1 [e|]]; cbn [fst] in *; [done|].
  eapply prims_r; [done|]. apply p_brokerNew. by rewrite Hs.
Qed.

#[export] Hint Resolve runs_publish_step runs_broker_handler runs_EnsureBrokerActor : runs.

Lemma runs_BrokerPublish fuel id t p pub : runs (BrokerPublish fuel id t p pub).
Proof. unfold BrokerPublish, Send. runs_tac. Qed.

Lemma runs_BrokerPublishRemote fuel id t p pub : runs (BrokerPublishRemote fuel id t p pub).
Proof. unfold BrokerPublishRemote, Send. runs_tac. Qed.

Lemma runs_BrokerSubscribeBegin fuel id s pat t : runs (BrokerSubscribeBegin fuel id s pat t).
Proof. unfold BrokerSubscribeBegin. runs_tac. Qed.

Lemma runs_BrokerUnsubscribeBegin fuel id s pat t : runs (BrokerUnsubscribeBegin fuel id s pat t).
Proof. unfold BrokerUnsubscribeBegin. runs_tac. Qed.

(** ** Cron *)

Lemma runs_set_cron id c : runs_upd (set_cron id c).
Proof. intros r. apply rtc_once. constructor. Qed.

Lemma runs_update_cron id f : runs_upd (update_cron id f).
Proof. intros r. apply rtc_once. constructor. Qed.

Lemma runs_set_schedules ts n : runs_upd (set_schedules ts n).
Proof. intros r. apply rtc_once. constructor. Qed.

Lemma runs_cancelSchedule ctx : runs_upd (cancelSchedule ctx).
Proof. intros r. apply rtc_once. constructor. Qed.

Lemma runs_startSchedule sub : runs_upd (startSchedule sub).
Proof. intros r. apply rtc_once. constructor. Qed.

#[export] Hint Resolve runs_set_cron runs_update_cron runs_set_schedules runs_cancelSchedule
  runs_startSchedule : runs.

Lemma runs_removeLocked id ref sub : runs_upd (removeLocked id ref sub).
Proof.
  intros r. unfold removeLocked. repeat (apply prims_upd; [eauto with runs|]). reflexivity.
Qed.

Lemma prims_foldl {X} (f : Runtime -> X -> Runtime) (xs : list X) r0 r :
  (forall r x, prims r (f r x)) -> prims r0 r -> prims r0 (foldl f r xs).
Proof.
  intros Hf. revert r. induction xs as [|x xs IH]; intros r H; cbn; [done|].
  apply IH. etransitivity; [done|apply Hf].
Qed.

Lemma runs_cron_install id ref s a p tag : runs_upd (cron_install id ref s a p tag).
Proof.
  intros r. unfold cron_install. pose proof (runs_Monitor (mkPID (Namespace s) id 1) s r) as H.
  destruct (Monitor _ _ r) as [r1 m]. cbn [fst] in H.
  repeat (apply prims_upd; [eauto with runs|]). done.
Qed.

Lemma runs_restoreOnce id st : runs_upd (restoreOnce id st).
Proof.
  intros r. unfold restoreOnce. case_match; [reflexivity|].
  case_match; try apply runs_set_cron. unfold restoreFromHandoff.
  apply prims_foldl; [|apply runs_set_cron].
  intros r1 e. case_match; [reflexivity|apply runs_cron_install].
Qed.

Lemma runs_removeRefs id refs : runs_upd (removeRefs id refs).
Proof.
  intros r. apply prims_foldl; [|reflexivity].
  intros r1 ref. case_match; [apply runs_removeLocked|reflexivity].
Qed.

Lemma runs_cron_handleDown id d : runs_upd (cron_handleDown id d).
Proof.
  intros r. unfold cron_handleDown. apply prims_upd; [eauto with runs|].
  apply prims_foldl; [|reflexivity]. intros r1 ref. case_match; [|reflexivity].
  apply prims_upd; [eauto with runs|]. apply runs_cancelSchedule.
Qed.

Lemma runs_cron_nextSeq id : runs_total (cron_nextSeq id).
Proof. intros r. apply rtc_once. constructor. Qed.

Lemma runs_cron_replyAsk fuel i p a : runs (cron_replyAsk fuel i p a).
Proof. unfold cron_replyAsk. runs_tac. Qed.

#[export] Hint Resolve runs_removeLocked runs_cron_install runs_restoreOnce runs_removeRefs
  runs_cron_handleDown runs_cron_nextSeq runs_cron_replyAsk : runs.

Lemma runs_cron_handler fuel id st m : runs (cron_handler fuel id st m).
Proof.
  unfold cron_handler, cron_handleSubscribe, cron_handleUnsubscribe, cron_handleUnsubscribeAll,
    cron_handleList. runs_tac.
Qed.

Lemma runs_schedule_top ctx t : runs_upd (schedule_top ctx t).
Proof. intros r. unfold schedule_top. repeat case_match; apply rtc_once; constructor. Qed.

Lemma runs_schedule_fire fuel ctx t next : runs (schedule_fire fuel ctx t next).
Proof. unfold schedule_fire, Send. runs_tac; intros r; apply rtc_once; constructor. Qed.

Lemma runs_EnsureCronActor id : runs_total (EnsureCronActor id).
Proof.
  intros r. unfold EnsureCronActor. destruct (sp_cron _ !! _) eqn:Hb; [reflexivity|].
  pose proof (runs_CreateActor (defaultCronID id) PNil (Some (HCron (defaultCronID id)))
    [WithMailboxCapacity defaultCronMailboxCapacity] r) as Hc.
  destruct (CreateActor _ _ _ _ r) as [r1 [e|]]; cbn [fst] in *; [done|].
  apply prims_upd; [eauto with runs|done].
Qed.

#[export] Hint Resolve runs_cron_handler runs_schedule_fire runs_schedule_top runs_EnsureCronActor
  runs_BrokerPublish runs_BrokerPublishRemote : runs.

Lemma runs_CronCommandBegin fuel id cmd t : runs (CronCommandBegin fuel id cmd t).
Proof. unfold CronCommandBegin. runs_tac. Qed.

(** ** Every operation is a sequence of mutations *)

Lemma runs_exec_api fuel o : runs (exec_api fuel o).
Proof.
  destruct o; cbn [exec_api]; unfold Send, Route, DeliverLocal, DeliverPID, PublishMembershipEvent;
    runs_tac.
Qed.

(** Induction on user programs. *)
Definition prog_induction (P : prog -> Prop) (Hret : forall res, P (Return res))
    (Hcall : forall o k, (forall res, P (k res)) -> P (Call o k)) : forall p, P p :=
  fix F (p : prog) : P p :=
    match p with
    | Return res => Hret res
    | Call o k => Hcall o k (fun res => F (k res))
    end.

Lemma runs_run_prog fuel p : runs (run_prog fuel p).
Proof.
  induction p as [res|o k IH] using prog_induction; cbn [run_prog]; [apply runs_ret|].
  apply runs_bind; [apply runs_exec_api|done].
Qed.

Lemma runs_run_handler fuel h st m : runs (run_handler fuel h st m).
Proof. destruct h; cbn [run_handler]; [apply runs_run_prog|eauto with runs..]. Qed.

#[export] Hint Resolve runs_exec_api runs_run_prog runs_run_handler : runs.

Lemma runs_terminate fuel l id : runs (terminate fuel l id).
Proof.
  intros r r' x H. unfold terminate in H. rewrite !upd_bind, halt_steps' in H.
  etransitivity; [|eapply runs_cleanup, H]. apply rtc_once, p_halt.
Qed.
#[export] Hint Resolve runs_terminate : runs.
