(* ===== verification/System.v ===== *)
(** * The running system

    The steps of the runtime's environment and goroutines: calls by clients,
    asks and their wake-ups, the pieces of each actor's goroutine, timers,
    publications and schedules, and the passing of time.  A step is atomic:
    interleavings between operations are all interleavings of steps, those
    inside one operation (or one message's processing) are not modelled.

    The additional mutations an actor's goroutine performs are [gprim]; every
    step is a sequence of them. *)

From S2P Require Import Prelude Types Mailbox Resolver Registry Routing Outcomes Monitors PubSub.
From S2P Require Import Fnv Program State Emit Send Lifecycle Broker Cron Actor Prim.

(** ** Mutations of an actor's goroutine *)

(** The first updates of a restart: status, restart count, state. *)
Definition restarting (a : actorInstance) : actorInstance :=
  ai_set_state (newActorState (ai_initialState a))
    (ai_set_restarts (ai_restarts a + 1) (ai_set_status ActorRestartCode a)).

(** The mutations of message processing by the instance at [l]... *)
Inductive pprim (l : nat) : Runtime -> Runtime -> Prop :=
  | g_prim r r' : prim r r' -> pprim l r r'
  | g_apply inst next r :
      instance l r = Some inst -> ai_go inst <> GoExited ->
      pprim l r (update_instance l (fun i => ai_set_state (as_apply next (ai_state i)) i) r)
  | g_decision d r : pprim l r (update_instance l (ai_set_lastDecision d) r)
  | g_restart inst err r :
      instance l r = Some inst -> ai_go inst <> GoExited ->
      cf_policy (rt_cfg r) (ai_id inst) err (ai_restarts inst) = DecisionRestart ->
      pprim l r (update_instance l restarting r)
  | g_bump id r : pprim l r (bumpPID id r)
  | g_running inst r :
      instance l r = Some inst -> ai_go inst <> GoExited ->
      pprim l r (update_instance l (ai_set_status ActorRunningCode) r).

(** ... those of the goroutine around it, and of time ... *)
Inductive gquiet (l : nat) : Runtime -> Runtime -> Prop :=
  | g_proc r r' : pprim l r r' -> gquiet l r r'
  | g_tick d r : 0 <= d -> gquiet l r (set_now (rt_now r + d) r)
  | g_wake inst mb r :
      instance l r = Some inst -> ai_go inst = GoSelect -> take_token (ai_mailbox inst) = Some mb ->
      gquiet l r (update_instance l (fun a => ai_set_go GoDraining (ai_set_mailbox mb a)) r)
  | g_stopped inst r :
      instance l r = Some inst -> ai_go inst <> GoExited ->
      gquiet l r (update_instance l (ai_set_status ActorStoppedCode) r)
  | g_started inst r :
      instance l r = Some inst -> ai_go inst = GoStarting ->
      gquiet l r (update_instance l (ai_set_go GoSelect) r)
  | g_sleep inst r :
      instance l r = Some inst -> ai_go inst = GoDraining -> Depth (ai_mailbox inst) = 0 ->
      gquiet l r (update_instance l (ai_set_go GoSelect) r)
  | g_exit inst r :
      instance l r = Some inst -> ai_go inst <> GoExited -> ai_status inst = ActorStoppedCode ->
      gquiet l r (update_instance l (ai_set_go GoExited) r).

(** ... and a dequeue by the goroutine, with the messages it yields. *)
Inductive takes (l : nat) : list Message -> Runtime -> Runtime -> Prop :=
  | tk_one inst r :
      instance l r = Some inst -> ai_go inst = GoDraining ->
      takes l (option_list (Dequeue (ai_mailbox inst)).2) r
        (update_instance l (ai_set_mailbox (Dequeue (ai_mailbox inst)).1) r)
  | tk_batch inst n r :
      instance l r = Some inst -> ai_go inst = GoDraining ->
      takes l (DequeueBatch n (ai_mailbox inst)).2 r
        (update_instance l (ai_set_mailbox (DequeueBatch n (ai_mailbox inst)).1) r).

Inductive gprim (l : nat) (r r' : Runtime) : Prop :=
  | g_quiet : gquiet l r r' -> gprim l r r'
  | g_takes msgs : takes l msgs r r' -> gprim l r r'.

Abbreviation pprims l := (rtc (pprim l)).
Abbreviation gprims l := (rtc (gprim l)).

Lemma rtc_map {A} (R S : relation A) x y :
  (forall a b, R a b -> S a b) -> rtc R x y -> rtc S x y.
Proof. intros HRS. induction 1; [reflexivity|]. eapply rtc_l; eauto. Qed.

Lemma pprims_of_prims l r r' : prims r r' -> pprims l r r'.
Proof. apply rtc_map. apply g_prim. Qed.

Lemma gprims_of_pprims l r r' : pprims l r r' -> gprims l r r'.
Proof. apply rtc_map. intros a b H. by apply g_quiet, g_proc. Qed.

(** ** What no caller changes about an instance *)

(** The parts of an instance that only its own goroutine changes. *)
Definition own_part (a : actorInstance) :=
  (ai_id a, ai_state a, ai_initialState a, ai_restarts a, ai_go a, ai_startHook a, ai_handler a).

Lemma instance_update l l' f r :
  instance l (update_instance l' f r) = if decide (l = l') then f <$> instance l r else instance l r.
Proof.
  unfold instance, update_instance. cbn. destruct (decide (l = l')) as [->|H];
    [apply lookup_alter_eq|by apply lookup_alter_ne].
Qed.

Lemma instance_update_eq l f r : instance l (update_instance l f r) = f <$> instance l r.
Proof. rewrite instance_update. by rewrite decide_True. Qed.

Lemma instance_put l id inst r :
  instance l (put_instance id inst r) =
  if decide (l = ap_next (rt_actors r)) then Some inst else instance l r.
Proof.
  unfold instance, put_instance. cbn. destruct (decide _) as [->|];
    [apply lookup_insert_eq|by apply lookup_insert_ne].
Qed.

(** Locations are allocated once. *)
Definition heap_ok (r : Runtime) : Prop :=
  forall l inst, instance l r = Some inst -> (l < ap_next (rt_actors r))%nat.

Lemma prim_instance r r' l inst :
  prim r r' -> heap_ok r -> instance l r = Some inst ->
  exists inst', instance l r' = Some inst' /\ own_part inst' = own_part inst.
Proof.
  intros Hp Hh Hi. pose proof (Hh _ _ Hi) as Hl.
  assert (forall f l0 r0, (forall a, own_part (f a) = own_part a) ->
    instance l r0 = Some inst ->
    exists inst', instance l (update_instance l0 f r0) = Some inst' /\ own_part inst' = own_part inst)
    as Hupd.
  { intros f l0 r0 Hf H0. rewrite instance_update, H0. destruct (decide _); cbn; eauto. }
  destruct Hp; try (by exists inst); try (by apply Hupd).
  - exists inst. split; [|done]. unfold instance. by rewrite (proj1 (proj2 (bump_rrNext_frame id r))).
  - exists inst. rewrite instance_put, decide_False by lia. done.
  - exists inst. split; [|done]. unfold instance. by rewrite (proj1 (proj2 (markPIDStopped_frame id r))).
  - exists inst. split; [|done]. unfold instance. by rewrite (proj1 (proj2 (routeAskReply_frame pid p msgID r))).
Qed.

Lemma instance_next r r' :
  (forall l, instance l r' = instance l r \/ exists f, instance l r' = f <$> instance l r) ->
  ap_next (rt_actors r') = ap_next (rt_actors r) -> heap_ok r -> heap_ok r'.
Proof.
  intros Hi Hn Hh l inst H. rewrite Hn. destruct (Hi l) as [E|[f E]]; rewrite E in H; [by eapply Hh|].
  destruct (instance l r) eqn:E'; [|done]. by eapply Hh.
Qed.

Lemma heap_ok_actors r r' : rt_actors r' = rt_actors r -> heap_ok r -> heap_ok r'.
Proof. intros E Hh l inst. unfold instance. rewrite E. apply Hh. Qed.

Lemma heap_ok_update l f r : heap_ok r -> heap_ok (update_instance l f r).
Proof.
  intros Hh. apply instance_next with r; [|done|done]. intros l0. rewrite instance_update.
  destruct (decide _); eauto.
Qed.

Lemma prim_heap_ok r r' : prim r r' -> heap_ok r -> heap_ok r'.
Proof.
  intros Hp Hh. destruct Hp; try (by apply (heap_ok_actors r)); try (by apply heap_ok_update).
  - apply (heap_ok_actors r); [apply bump_rrNext_frame|done].
  - intros l i. rewrite instance_put. cbn. destruct (decide _) as [->|]; [lia|].
    intros H'. apply Hh in H'. lia.
  - exact Hh.
  - apply (heap_ok_actors r); [apply markPIDStopped_frame|done].
  - apply (heap_ok_actors r); [apply routeAskReply_frame|done].
Qed.

Lemma prims_heap_ok r r' : prims r r' -> heap_ok r -> heap_ok r'.
Proof. apply rtc_invariant. apply prim_heap_ok. Qed.

Lemma prims_instance r r' l inst :
  prims r r' -> heap_ok r -> instance l r = Some inst ->
  exists inst', instance l r' = Some inst' /\ own_part inst' = own_part inst.
Proof.
  intros Hp. revert inst. induction Hp as [|x y z H _ IH]; intros inst Hh Hi; [eauto|].
  destruct (prim_instance _ _ _ _ H Hh Hi) as (i1 & H1 & E1).
  destruct (IH i1) as (i2 & H2 & E2); [by eapply prim_heap_ok|done|]. exists i2. split; [done|congruence].
Qed.

(** ** Supervision and processing are sequences of mutations *)

Lemma restarting_steps l r :
  update_instance l (fun i => ai_set_state (newActorState (ai_initialState i)) i)
    (update_instance l (fun i => ai_set_restarts (ai_restarts i + 1) i)
      (update_instance l (ai_set_status ActorRestartCode) r)) = update_instance l restarting r.
Proof. unfold update_instance. cbn. rewrite !alter_alter_eq. done. Qed.

Lemma bumpPID_frame id r :
  let r' := bumpPID id r in
  rt_actors r' = rt_actors r /\ rt_cfg r' = rt_cfg r /\ rt_ask r' = rt_ask r /\
  rt_obs r' = rt_obs r /\ rt_svc r' = rt_svc r /\ rt_routes r' = rt_routes r /\
  rt_msgSeq r' = rt_msgSeq r.
Proof.
  unfold bumpPID. destruct (PIDForActor id r); [|done].
  destruct (BumpGeneration _ _ _) as [res [p'|]]; done.
Qed.

(** The instance after its handler ran: its own part is unchanged. *)
Lemma own_part_eq a b :
  own_part a = own_part b ->
  ai_id a = ai_id b /\ ai_state a = ai_state b /\ ai_restarts a = ai_restarts b /\ ai_go a = ai_go b.
Proof. unfold own_part. intros. by simplify_eq. Qed.

Lemma pprim_heap_ok l r r' : pprim l r r' -> heap_ok r -> heap_ok r'.
Proof.
  intros Hg Hh. destruct Hg; try (by apply heap_ok_update); [by eapply prim_heap_ok|].
  apply (heap_ok_actors r); [apply bumpPID_frame|done].
Qed.

Lemma pprims_heap_ok l r r' : pprims l r r' -> heap_ok r -> heap_ok r'.
Proof. apply rtc_invariant. apply pprim_heap_ok. Qed.

(** Processing never moves a goroutine. *)
Lemma pprim_instance r r' l inst :
  pprim l r r' -> heap_ok r -> instance l r = Some inst ->
  exists inst', instance l r' = Some inst' /\ ai_id inst' = ai_id inst /\ ai_go inst' = ai_go inst.
Proof.
  intros Hg Hh Hi.
  assert (forall f l0, (forall a, ai_id (f a) = ai_id a /\ ai_go (f a) = ai_go a) ->
    exists inst', instance l (update_instance l0 f r) = Some inst' /\ ai_id inst' = ai_id inst /\
    ai_go inst' = ai_go inst) as Hupd.
  { intros f l0 Hf. rewrite instance_update, Hi. destruct (decide _); cbn; [|by eauto].
    eexists. split; [done|]. apply Hf. }
  destruct Hg; try (by apply Hupd).
  - destruct (prim_instance _ _ _ _ H Hh Hi) as (i & H1 & Ho). exists i.
    apply own_part_eq in Ho as (E & _ & _ & E'). done.
  - exists inst. split; [|done]. unfold instance. by rewrite (proj1 (bumpPID_frame id r)).
Qed.

Lemma pprims_instance r r' l inst :
  pprims l r r' -> heap_ok r -> instance l r = Some inst ->
  exists inst', instance l r' = Some inst' /\ ai_id inst' = ai_id inst /\ ai_go inst' = ai_go inst.
Proof.
  intros Hg. revert inst. induction Hg as [|x y z H _ IH]; intros inst Hh Hi; [eauto|].
  destruct (pprim_instance _ _ _ _ H Hh Hi) as (i1 & H1 & E1 & G1).
  destruct (IH i1) as (i2 & H2 & E2 & G2); [by eapply pprim_heap_ok|done|].
  exists i2. split_and!; [done|congruence..].
Qed.

(** The instance exists and its goroutine has not returned. *)
Definition live (l : nat) (r : Runtime) : Prop :=
  heap_ok r /\ exists inst, instance l r = Some inst /\ ai_go inst <> GoExited.

Lemma live_pprims l r r' : pprims l r r' -> live l r -> live l r'.
Proof.
  intros Hp (Hh & inst & Hi & Hgo). split; [by eapply pprims_heap_ok|].
  destruct (pprims_instance _ _ _ _ Hp Hh Hi) as (i & H1 & _ & H2). exists i. split; [done|congruence].
Qed.

(** ** Answers

    A mutation of processing answers a message when it replaces the actor's
    state: [g_apply] and [g_restart].  [spends l n] is a sequence of mutations
    with at most [n] answers. *)

Definition replaceable (l : nat) (r : Runtime) : option (actorState * Z) :=
  (fun a => (ai_state a, ai_restarts a)) <$> instance l r.

Inductive spends (l : nat) : nat -> Runtime -> Runtime -> Prop :=
  | sp_done n r : spends l n r r
  | sp_quiet n r1 r2 r3 :
      pprim l r1 r2 -> replaceable l r2 = replaceable l r1 -> spends l n r2 r3 -> spends l n r1 r3
  | sp_answer n r1 r2 r3 : pprim l r1 r2 -> spends l n r2 r3 -> spends l (S n) r1 r3.

Lemma spends_S l n r1 r2 : spends l n r1 r2 -> spends l (S n) r1 r2.
Proof. induction 1; eauto using spends. Qed.

Lemma spends_trans l n m r1 r2 r3 : spends l n r1 r2 -> spends l m r2 r3 -> spends l (n + m) r1 r3.
Proof.
  intros H1 H2. induction H1 as [n r|n r1 r1' r2 H E _ IH|n r1 r1' r2 H _ IH].
  - induction n as [|n IH]; [done|by apply spends_S].
  - eapply sp_quiet; [done..|by apply IH].
  - eapply sp_answer; [done|by apply IH].
Qed.

Lemma spends_more l n r1 r2 : spends l 0 r1 r2 -> spends l n r1 r2.
Proof. intros H. rewrite <- (Nat.add_0_l n). eapply spends_trans; [done|constructor]. Qed.

Lemma spends_pprims l n r r' : spends l n r r' -> pprims l r r'.
Proof. induction 1; [reflexivity|eapply rtc_l; eauto..]. Qed.

Lemma spends_once l r r' : pprim l r r' -> spends l 1 r r'.
Proof. intros H. eapply sp_answer; [done|constructor]. Qed.

Lemma spends_quiet l r r' : pprim l r r' -> replaceable l r' = replaceable l r -> spends l 0 r r'.
Proof. intros H E. eapply sp_quiet; [done..|constructor]. Qed.

Lemma spends_prims l r r' : live l r -> prims r r' -> spends l 0 r r'.
Proof.
  intros Hl Hp. induction Hp as [|x y z H _ IH]; [constructor|].
  eapply sp_quiet; [by apply g_prim| |apply IH].
  - destruct Hl as (Hh & a & Ha & _). destruct (prim_instance _ _ _ _ H Hh Ha) as (b & Hb & Ho).
    apply own_part_eq in Ho as (_ & E1 & E2 & _). unfold replaceable. rewrite Ha, Hb. cbn. congruence.
  - apply (live_pprims l x); [|done]. by apply rtc_once, g_prim.
Qed.

Lemma replaceable_update l f r :
  (forall a, ai_state (f a) = ai_state a /\ ai_restarts (f a) = ai_restarts a) ->
  replaceable l (update_instance l f r) = replaceable l r.
Proof.
  intros Hf. unfold replaceable. rewrite instance_update_eq. destruct (instance l r) as [a|]; [|done].
  cbn. by destruct (Hf a) as [-> ->].
Qed.

Lemma spends_decision l d r : spends l 0 r (update_instance l (ai_set_lastDecision d) r).
Proof. apply spends_quiet; [apply g_decision|by apply replaceable_update]. Qed.

Lemma spends_bump l id r : spends l 0 r (bumpPID id r).
Proof.
  apply spends_quiet; [apply g_bump|]. unfold replaceable, instance.
  by rewrite (proj1 (bumpPID_frame id r)).
Qed.

Lemma spends_running l r : live l r -> spends l 0 r (update_instance l (ai_set_status ActorRunningCode) r).
Proof.
  intros (Hh & a & Ha & Hgo). apply spends_quiet; [by eapply g_running|by apply replaceable_update].
Qed.

Lemma spends_upd l f r : runs_upd f -> live l r -> spends l 0 r (f r).
Proof. intros Hf Hl. apply spends_prims; [done|apply Hf]. Qed.

Lemma live_spends l n r r' : spends l n r r' -> live l r -> live l r'.
Proof. intros H. by apply live_pprims, (spends_pprims l n). Qed.

(** The reporting at the end of a supervision decision. *)
Lemma runs_report (actorID : string) (batch : option Z) (reason : string)
    (f : Runtime -> Z) (g : Z -> Runtime -> Runtime) :
  (forall n, runs_upd (g n)) ->
  runs (_ ← upd (match batch with
          | Some n => emitBatch actorID n BatchResultFailedSupervision reason
          | None => fun r => r end);
        n ← gets f; upd (g n)).
Proof. intros Hg. destruct batch; runs_tac. Qed.

Lemma spends_supervise fuel l inst err mid d batch r r' x :
  heap_ok r -> instance l r = Some inst -> ai_go inst <> GoExited ->
  cf_policy (rt_cfg r) (ai_id inst) err (ai_restarts inst) = d ->
  supervise fuel l (ai_id inst) mid d batch r = Some (r', x) -> spends l 1 r r'.
Proof.
  intros Hh Hi Hgo Hd H. assert (live l r) as Hl by (split; eauto).
  assert (forall r1 reason (f : Runtime -> Z) (g : Z -> Runtime -> Runtime),
    live l r1 -> (forall n, runs_upd (g n)) ->
    (_ ← terminate fuel l (ai_id inst);
     _ ← upd (match batch with
          | Some n => emitBatch (ai_id inst) n BatchResultFailedSupervision reason
          | None => fun r => r end);
     n ← gets f; upd (g n)) r1 = Some (r', x) -> spends l 0 r1 r') as Hterm.
  { intros r1 reason f g Hl1 Hg E. apply spends_prims; [done|]. revert E.
    apply runs_bind; [apply runs_terminate|intros _; by apply runs_report]. }
  destruct d; cbn [supervise] in H;
    try (apply spends_more; eapply Hterm; [done| |exact H]; intros n; apply runs_emitDecision).
  rewrite !upd_bind, restarting_steps in H. rewrite gets_bind in H.
  set (r1 := update_instance l restarting r) in *. set (r2 := bumpPID (ai_id inst) r1) in *.
  assert (spends l 1 r r2) as H2.
  { apply (spends_trans l 1 0 r r1); [|apply spends_bump]. apply spends_once. by eapply g_restart. }
  pose proof (live_spends _ _ _ _ H2 Hl) as Hl2.
  apply bind_inv in H as (r3 & e & Hhook & H).
  pose proof (runs_runLifecycleHook _ _ _ _ _ _ Hhook) as H3. apply (spends_prims l) in H3; [|done].
  pose proof (live_spends _ _ _ _ H3 Hl2) as Hl3.
  apply (spends_trans l 1 0 r r2); [done|]. apply (spends_trans l 0 0 r2 r3); [done|].
  destruct e; [eapply Hterm; [done| |exact H]; intros n; apply runs_emitDecision|].
  minv H. apply (spends_trans l 0 0 r3 (update_instance l (ai_set_status ActorRunningCode) r3));
    [by apply spends_running|].
  apply spends_upd; [eauto with runs|]. eapply live_spends; [by apply spends_running|done].
Qed.

(** A failure after some mutations of the handler: the decision and its
    supervision answer once. *)
Lemma spends_failed fuel l inst err mid d batch r r1 r' x :
  heap_ok r -> instance l r = Some inst -> ai_go inst <> GoExited -> prims r r1 ->
  cf_policy (rt_cfg r) (ai_id inst) err (ai_restarts inst) = d ->
  supervise fuel l (ai_id inst) mid d batch (update_instance l (ai_set_lastDecision d) r1) =
    Some (r', x) ->
  spends l 1 r r'.
Proof.
  intros Hh Hi Hgo Hp Hd H. assert (live l r) as Hl by (split; eauto).
  destruct (prims_instance _ _ _ _ Hp Hh Hi) as (i1 & Hi1 & (Eid & _ & Ers & Ego)%own_part_eq).
  apply (spends_trans l 0 1 r r1); [by apply spends_prims|].
  apply (spends_trans l 0 1 r1 (update_instance l (ai_set_lastDecision d) r1)); [apply spends_decision|].
  rewrite <- Eid in H. eapply (spends_supervise fuel l (ai_set_lastDecision d i1) err); [| | | |exact H].
  - apply heap_ok_update. by eapply prims_heap_ok.
  - by rewrite instance_update_eq, Hi1.
  - cbn. congruence.
  - cbn. by rewrite (prims_cfg _ _ Hp), Eid, Ers.
Qed.

(** A success after some mutations of the handler: the new state answers. *)
Lemma spends_succeeded l r r1 next :
  live l r -> prims r r1 ->
  spends l 1 r (update_instance l (fun i => ai_set_state (as_apply next (ai_state i)) i) r1).
Proof.
  intros Hl Hp. apply (spends_trans l 0 1 r r1); [by apply spends_prims|]. apply spends_once.
  destruct (live_pprims l r r1) as (_ & i1 & Hi1 & Hgo); [by apply pprims_of_prims|done|].
  by apply (g_apply l i1).
Qed.

Lemma spends_processMessage fuel l msg r r' x :
  live l r -> processMessage fuel l msg r = Some (r', x) -> spends l 1 r r'.
Proof.
  intros Hl H. pose proof Hl as (Hh & inst & Hi & Hgo). unfold processMessage in H.
  rewrite gets_bind, Hi in H. cbv zeta in H.
  apply bind_inv in H as (r1 & res & Hrun & H). apply runs_run_handler in Hrun as H1.
  destruct (handlerError res) as [err|] eqn:He.
  - rewrite gets_bind, !upd_bind in H. eapply (spends_failed fuel l inst err); [done..| | |exact H].
    + repeat (apply prims_upd; [solve [eauto with runs]|]). done.
    + by rewrite (prims_cfg _ _ H1).
  - destruct res; try done. rewrite !upd_bind in H. minv H.
    apply (spends_trans l 1 0 r (update_instance l
      (fun i => ai_set_state (as_apply next (ai_state i)) i) r1)); [by apply spends_succeeded|].
    pose proof (live_spends _ _ _ _ (spends_succeeded l r r1 next Hl H1) Hl) as Hl1.
    apply spends_prims; [done|]. repeat (apply prims_upd; [solve [eauto with runs]|]). reflexivity.
Qed.

Lemma spends_processMessages fuel l msgs r r' u :
  live l r -> forM msgs (processMessage fuel l) r = Some (r', u) -> spends l (length msgs) r r'.
Proof.
  revert r. induction msgs as [|msg msgs IH]; intros r Hl H; cbn [forM] in H; [minv H; constructor|].
  apply bind_inv in H as (r1 & u1 & H1 & H). apply spends_processMessage in H1; [|done].
  apply (spends_trans l 1 (length msgs) r r1); [done|]. apply IH; [by eapply live_spends|done].
Qed.

Lemma spends_processBatch fuel l msgs r r' x :
  live l r -> processBatch fuel l msgs r = Some (r', x) -> spends l (length msgs) r r'.
Proof.
  intros Hl H. pose proof Hl as (Hh & inst & Hi & Hgo). unfold processBatch in H.
  rewrite gets_bind, Hi in H. destruct msgs as [|first msgs]; [minv H; constructor|]. cbv zeta in H.
  destruct (bc_Enabled (ai_batch inst)); [|by eapply spends_processMessages].
  destruct (bc_Receiver (ai_batch inst)) as [[body]|]; [|by eapply spends_processMessages].
  apply bind_inv in H as (r1 & res & Hrun & H). apply runs_run_prog in Hrun as H1.
  cbn [length]. apply (spends_trans l 1 (length msgs) r r'); [|constructor].
  destruct (handlerError res) as [err|] eqn:He.
  - rewrite upd_bind, gets_bind in H. apply bind_inv in H as (r2 & u & Hf & H). rewrite !upd_bind in H.
    eapply (spends_failed fuel l inst err); [done..| | |exact H].
    + apply prims_upd; [eauto with runs|]. etransitivity; [exact H1|].
      etransitivity; [apply runs_emitBatch|]. eapply (runs_forM (first :: msgs)); [|exact Hf].
      intros m. apply runs_of_upd, runs_putFailedOutcome.
    + change (rt_cfg (emitBatch _ _ _ _ r1)) with (rt_cfg r1). by rewrite (prims_cfg _ _ H1).
  - destruct res; try done. rewrite upd_bind in H.
    pose proof (spends_succeeded l r r1 next Hl H1) as H2.
    apply (spends_trans l 1 0 r _ r' H2). apply spends_prims; [by eapply live_spends|].
    revert H. match goal with |- ?m _ = _ -> _ => cut (runs m); [intros Hm; apply Hm|runs_tac] end.
Qed.

Lemma pprims_processMessage fuel l msg r r' x :
  live l r -> processMessage fuel l msg r = Some (r', x) -> pprims l r r'.
Proof. intros Hl H. by eapply spends_pprims, spends_processMessage. Qed.

Lemma pprims_processBatch fuel l msgs r r' x :
  live l r -> processBatch fuel l msgs r = Some (r', x) -> pprims l r r'.
Proof. intros Hl H. by eapply spends_pprims, spends_processBatch. Qed.

(** ** The goroutine *)

Lemma halt_steps_start l r :
  update_instance l ai_cancel (update_instance l ai_close
    (update_instance l (ai_set_status ActorStoppedCode) r)) = update_instance l halt r.
Proof. unfold update_instance. cbn. rewrite !alter_alter_eq. done. Qed.

(** Mutations of the goroutine that take [ms] and answer at most these and [n]
    messages more. *)
Inductive gspends (l : nat) : nat -> list Message -> Runtime -> Runtime -> Prop :=
  | gs_done n r : gspends l n [] r r
  | gs_quiet n ms r1 r2 r3 :
      gquiet l r1 r2 -> replaceable l r2 = replaceable l r1 -> gspends l n ms r2 r3 ->
      gspends l n ms r1 r3
  | gs_answer n ms r1 r2 r3 : pprim l r1 r2 -> gspends l n ms r2 r3 -> gspends l (S n) ms r1 r3
  | gs_take n msgs ms r1 r2 r3 :
      takes l msgs r1 r2 -> gspends l (n + length msgs) ms r2 r3 -> gspends l n (msgs ++ ms) r1 r3.

Lemma gspends_gprims l n ms r r' : gspends l n ms r r' -> gprims l r r'.
Proof.
  induction 1 as [|n ms r1 r2 r3 H|n ms r1 r2 r3 H|n msgs ms r1 r2 r3 H]; [reflexivity|eapply rtc_l; eauto..].
  - by apply g_quiet.
  - by apply g_quiet, g_proc.
  - by eapply g_takes.
Qed.

Lemma gspends_more l m n ms r1 r2 : gspends l m ms r1 r2 -> gspends l (m + n) ms r1 r2.
Proof.
  induction 1 as [m r|m ms r1 r2 r3 H E _ IH|m ms r1 r2 r3 H _ IH|m msgs ms r1 r2 r3 H _ IH].
  - constructor.
  - by eapply gs_quiet.
  - by eapply gs_answer.
  - eapply gs_take; [done|]. by replace (m + n + length msgs)%nat with (m + length msgs + n)%nat by lia.
Qed.

Lemma gspends_of_spends l n ms r1 r2 r3 :
  spends l n r1 r2 -> gspends l 0 ms r2 r3 -> gspends l n ms r1 r3.
Proof.
  intros H1 H2. induction H1 as [n r|n r1 r1' r2 H E _ IH|n r1 r1' r2 H _ IH].
  - by apply (gspends_more l 0).
  - eapply gs_quiet; [by apply g_proc|done|by apply IH].
  - eapply gs_answer; [done|by apply IH].
Qed.

(** Who takes nothing answers nothing. *)
Lemma gspends_idle l r r' : gspends l 0 [] r r' -> replaceable l r' = replaceable l r.
Proof.
  remember 0%nat as n eqn:En. remember (@nil Message) as ms eqn:Em. intros H. revert En Em.
  induction H as [n r|n ms r1 r2 r3 H E _ IH|n ms r1 r2 r3 H _ IH|n msgs ms r1 r2 r3 H _ IH];
    intros En Em; subst; [done| |done|].
  - by rewrite IH, E.
  - apply app_eq_nil in Em as [-> ->]. rewrite IH by done. destruct H; by apply replaceable_update.
Qed.

(** Quiet mutations of the goroutine's position and status. *)
Lemma gspends_last l n f r :
  gquiet l r (update_instance l f r) ->
  (forall a, ai_state (f a) = ai_state a /\ ai_restarts (f a) = ai_restarts a) ->
  gspends l n [] r (update_instance l f r).
Proof. intros H Hf. eapply gs_quiet; [done|by apply replaceable_update|constructor]. Qed.

Lemma gspends_start l inst r r' x :
  heap_ok r -> instance l r = Some inst -> ai_go inst = GoStarting ->
  goroutine_start l r = Some (r', x) -> gspends l 0 [] r r'.
Proof.
  intros Hh Hi Hgo H. unfold goroutine_start in H. rewrite gets_bind, Hi in H.
  apply bind_inv in H as (r1 & e & Hhook & H).
  pose proof (runs_runLifecycleHook _ _ _ _ _ _ Hhook) as H1.
  assert (live l r) as Hl by (split; [done|exists inst; split; [done|congruence]]).
  destruct (prims_instance _ _ _ _ H1 Hh Hi) as (i1 & Hi1 & (_ & _ & _ & Ego)%own_part_eq).
  apply (spends_prims l) in H1; [|done]. pose proof (live_spends _ _ _ _ H1 Hl) as Hl1.
  apply (gspends_of_spends l 0 [] r r1); [done|].
  destruct e; rewrite !upd_bind in H; rewrite ?halt_steps_start in H; minv H.
  - set (r2 := emit _ _ _ _ _ _). apply (gspends_of_spends l 0 [] r1 r2).
    { apply (spends_prims l); [done|]. apply prims_upd; [eauto with runs|]. apply rtc_once, p_halt. }
    apply gspends_last; [|done]. apply (g_exit l (halt i1)); [|cbn; congruence|done].
    unfold r2. change (instance l (emit _ _ _ _ _ ?r)) with (instance l r).
    by rewrite instance_update_eq, Hi1.
  - set (r2 := emit _ _ _ _ _ _). apply (gspends_of_spends l 0 [] r1 r2).
    { apply (spends_trans l 0 0 r1 (update_instance l (ai_set_status ActorRunningCode) r1));
        [by apply spends_running|]. apply spends_upd; [eauto with runs|].
      eapply live_spends; [by apply spends_running|done]. }
    apply gspends_last; [|done]. apply (g_started l (ai_set_status ActorRunningCode i1)); [|cbn; congruence].
    unfold r2. change (instance l (emit _ _ _ _ _ ?r)) with (instance l r).
    by rewrite instance_update_eq, Hi1.
Qed.

Lemma gspends_goroutine_done l inst r :
  heap_ok r -> instance l r = Some inst -> ai_go inst = GoSelect ->
  gspends l 0 [] r (goroutine_done l inst r).
Proof.
  intros Hh Hi Hgo. unfold goroutine_done. set (r1 := update_instance l (ai_set_status _) r).
  set (r2 := emit _ _ _ _ _ _).
  assert (instance l r1 = Some (ai_set_status ActorStoppedCode inst)) as Hi1.
  { unfold r1. by rewrite instance_update_eq, Hi. }
  eapply gs_quiet; [by apply (g_stopped l inst); [|congruence]|by apply replaceable_update|]. apply (gspends_of_spends l 0 [] r1 r2).
  - apply spends_upd; [eauto with runs|]. split; [by apply heap_ok_update|].
    eexists. split; [done|]. cbn. congruence.
  - apply gspends_last; [|done].
    by apply (g_exit l (ai_set_status ActorStoppedCode inst)); [|cbn; congruence|].
Qed.

Lemma gspends_wake l inst mb r :
  instance l r = Some inst -> ai_go inst = GoSelect -> take_token (ai_mailbox inst) = Some mb ->
  gspends l 0 [] r (goroutine_wake l mb r).
Proof.
  intros Hi Hgo Ht. assert (goroutine_wake l mb r =
    update_instance l (fun a => ai_set_go GoDraining (ai_set_mailbox mb a)) r) as ->.
  { unfold goroutine_wake, update_instance. cbn. by rewrite alter_alter_eq. }
  apply gspends_last; [|done]. by eapply g_wake.
Qed.

(** The messages one iteration of the inner loop takes. *)
Definition iteration_takes (a : actorInstance) : list Message :=
  if bc_Enabled (ai_batch a) && (1 <? bc_MaxSize (ai_batch a))
  then (DequeueBatch (bc_MaxSize (ai_batch a)) (ai_mailbox a)).2
  else option_list (Dequeue (ai_mailbox a)).2.

Lemma gspends_iter fuel l inst r r' x :
  heap_ok r -> instance l r = Some inst -> ai_go inst = GoDraining -> mailbox_ok (ai_mailbox inst) ->
  goroutine_iter fuel l r = Some (r', x) -> gspends l 0 (iteration_takes inst) r r'.
Proof.
  intros Hh Hi Hgo Hmb H. unfold goroutine_iter in H. rewrite gets_bind, Hi in H.
  assert (forall mb, live l (update_instance l (ai_set_mailbox mb) r)) as Hl.
  { intros mb. split; [by apply heap_ok_update|].
    exists (ai_set_mailbox mb inst). rewrite instance_update_eq, Hi. split; [done|]. cbn. congruence. }
  assert (forall mb n, mb = ai_mailbox inst /\ Depth (ai_mailbox inst) = 0 ->
    gspends l n [] (update_instance l (ai_set_mailbox mb) r)
    (update_instance l (ai_set_go GoSelect) (update_instance l (ai_set_mailbox mb) r))) as Hsel.
  { intros mb n [-> Hd]. apply gspends_last; [|done].
    by apply (g_sleep l (ai_set_mailbox (ai_mailbox inst) inst)); [rewrite instance_update_eq, Hi| |]. }
  unfold iteration_takes. destruct (_ && _).
  - pose proof (tk_batch l inst (bc_MaxSize (ai_batch inst)) r Hi Hgo) as Hd.
    pose proof (DequeueBatch_nil_empty (bc_MaxSize (ai_batch inst)) (ai_mailbox inst)) as Hn.
    destruct (DequeueBatch _ _) as [mb msgs]. cbn [fst snd] in *. rewrite upd_bind in H.
    rewrite <- (app_nil_r msgs). apply (gs_take l 0 msgs [] r _ _ Hd).
    destruct msgs; [minv H; apply Hsel; auto|].
    eapply gspends_of_spends; [by eapply spends_processBatch|constructor].
  - pose proof (tk_one l inst r Hi Hgo) as Hd.
    pose proof (Dequeue_None_empty (ai_mailbox inst)) as Hn.
    destruct (Dequeue _) as [mb msg]. cbn [fst snd] in *. rewrite upd_bind in H.
    rewrite <- (app_nil_r (option_list msg)). apply (gs_take l 0 _ [] r _ _ Hd).
    destruct msg; [|minv H; apply Hsel; auto].
    eapply gspends_of_spends; [by eapply spends_processMessage|constructor].
Qed.

(** ** Steps *)

(** The steps of one actor's goroutine. *)
Inductive actor_step (fuel : nat) (l : nat) (r : Runtime) : Runtime -> Prop :=
  | as_start inst r' x :
      instance l r = Some inst -> ai_go inst = GoStarting ->
      goroutine_start l r = Some (r', x) -> actor_step fuel l r r'
  | as_done inst :
      instance l r = Some inst -> ai_go inst = GoSelect -> ai_cancelled inst = true ->
      actor_step fuel l r (goroutine_done l inst r)
  | as_wake inst mb :
      instance l r = Some inst -> ai_go inst = GoSelect -> take_token (ai_mailbox inst) = Some mb ->
      actor_step fuel l r (goroutine_wake l mb r)
  | as_iter inst r' x :
      instance l r = Some inst -> ai_go inst = GoDraining ->
      goroutine_iter fuel l r = Some (r', x) -> actor_step fuel l r r'.

(** What the goroutine at [l] takes from its mailbox in its next step. *)
Definition next_takes (l : nat) (r : Runtime) : list Message :=
  match instance l r with
  | Some a => if decide (ai_go a = GoDraining) then iteration_takes a else []
  | None => []
  end.

Section steps.
Context (fuel : nat).

Inductive step : Runtime -> Runtime -> Prop :=
  (* clients *)
  | step_api o r r' x : exec_api fuel o r = Some (r', x) -> step r r'
  | step_ask a p t r r' x : AskBegin fuel a p t r = Some (r', x) -> step r r'
  | step_askPID pid p t r r' x : AskPIDBegin fuel pid p t r = Some (r', x) -> step r r'
  | step_askName n p t r r' x : AskNameBegin fuel n p t r = Some (r', x) -> step r r'
  | step_brokerSubscribe b s pat t r r' x :
      BrokerSubscribeBegin fuel b s pat t r = Some (r', x) -> step r r'
  | step_brokerUnsubscribe b s pat t r r' x :
      BrokerUnsubscribeBegin fuel b s pat t r = Some (r', x) -> step r r'
  | step_cronCommand c cmd t r r' x : CronCommandBegin fuel c cmd t r = Some (r', x) -> step r r'
  | step_askEnd w c k r r' x :
      kp_ch (rt_ask r) !! pa_requestID w = Some (w, c) -> AskEnd w k r = Some (r', x) -> step r r'
  | step_cronHandler id r : step r (CronHandler id r).1
  (* actor goroutines *)
  | step_actor l r r' : actor_step fuel l r r' -> step r r'
  (* other goroutines and time *)
  | step_timerFire id t r r' x :
      sp_timerTasks (rt_svc r) !! id = Some t -> tt_deadline t <= rt_now r ->
      fireTimer fuel id t r = Some (r', x) -> step r r'
  | step_timerDone id t r :
      sp_timerTasks (rt_svc r) !! id = Some t -> tt_cancelled t = true -> step r (endTimer id r)
  | step_publish task t r r' x :
      sp_publishes (rt_svc r) !! task = Some t -> publish_step fuel task t r = Some (r', x) -> step r r'
  | step_scheduleTop ctx t r :
      sp_schedules (rt_svc r) !! ctx = Some t -> st_next t = None -> step r (schedule_top ctx t r)
  | step_scheduleFire ctx t next r r' x :
      sp_schedules (rt_svc r) !! ctx = Some t -> st_next t = Some next -> next <= rt_now r ->
      schedule_fire fuel ctx t next r = Some (r', x) -> step r r'
  | step_scheduleDone ctx t r :
      sp_schedules (rt_svc r) !! ctx = Some t -> st_cancelled t = true -> step r (end_schedule ctx r)
  | step_tick d r : 0 <= d -> step r (set_now (rt_now r + d) r).
End steps.
