(* ===== verification/Invariants.v ===== *)
(** * Invariants of the running system

    Well-formedness of the runtime's state, preserved by every mutation and so
    by every step: actor instances, asks, names, brokers and routers.
    The properties that follow from it are in [Safety.v] and the files after it. *)

From S2P Require Import Prelude Types Mailbox Resolver Registry Routing Outcomes Monitors PubSub.
From S2P Require Import Fnv Program State Emit Send Lifecycle Broker Cron Actor Prim System.

(** ** Actors *)

Record instance_ok (a : actorInstance) : Prop := {
  iok_mailbox : mailbox_ok (ai_mailbox a);
  iok_exited : ai_go a = GoExited -> ai_status a = ActorStoppedCode;
  iok_closed : ai_cancelled a = mb_closed (ai_mailbox a);
  iok_wake : ai_go a = GoStarting \/ ai_go a = GoSelect ->
    0 < Depth (ai_mailbox a) -> mb_notify (ai_mailbox a) = true;
  iok_restarts : 0 <= ai_restarts a
}.

Record actors_ok (r : Runtime) : Prop := {
  aok_heap : heap_ok r;
  aok_instances l inst : instance l r = Some inst -> instance_ok inst;
  aok_registry id l : lookup_actor id r = Some l ->
    exists inst, instance l r = Some inst /\ ai_id inst = id
}.

Lemma actors_ok_same r r' : rt_actors r' = rt_actors r -> actors_ok r -> actors_ok r'.
Proof.
  intros E [Hh Hi Hr]. split.
  - by apply (heap_ok_actors r).
  - intros l inst. unfold instance. rewrite E. apply Hi.
  - intros id l. unfold lookup_actor, instance. rewrite E. apply Hr.
Qed.

(** An update that keeps an instance well formed. *)
Lemma actors_ok_update l f r :
  (forall inst, instance l r = Some inst -> instance_ok inst ->
     instance_ok (f inst) /\ ai_id (f inst) = ai_id inst) ->
  actors_ok r -> actors_ok (update_instance l f r).
Proof.
  intros Hf [Hh Hi Hr]. split; [by apply heap_ok_update| |].
  - intros l' inst. rewrite instance_update. destruct (decide (l' = l)) as [->|]; [|apply Hi].
    destruct (instance l r) as [i|] eqn:E; cbn; [|done]. intros. simplify_eq. by apply Hf; [|apply (Hi l)].
  - intros id l' H. change (lookup_actor id r = Some l') in H. destruct (Hr id l' H) as (inst & H1 & H2).
    rewrite instance_update, H1. destruct (decide (l' = l)) as [->|]; cbn; [|eauto].
    eexists. split; [done|]. destruct (Hf inst H1 (Hi _ _ H1)) as [_ ->]. done.
Qed.

Lemma Enqueue_closed msg m : mb_closed (Enqueue msg m).1 = mb_closed m.
Proof. unfold Enqueue. destruct (mb_closed m) eqn:E; [done|]. by repeat case_match. Qed.

Lemma Dequeue_closed m : mb_closed (Dequeue m).1 = mb_closed m.
Proof. unfold Dequeue. repeat case_match; done. Qed.

Lemma DequeueBatch_closed n m : mb_closed (DequeueBatch n m).1 = mb_closed m.
Proof. unfold DequeueBatch. repeat case_match; done. Qed.

Lemma Enqueue_notify msg m :
  mailbox_ok m -> (0 < Depth m -> mb_notify m = true) ->
  0 < Depth (Enqueue msg m).1 -> mb_notify (Enqueue msg m).1 = true.
Proof.
  intros Hok Hw Hd. pose proof (depth_nonneg _ Hok). unfold Enqueue in *.
  destruct (mb_closed m), (mb_max m <=? Depth m); cbn in *; auto.
  destruct (Z.eqb_spec (Depth m) 0); [done|]. apply Hw. lia.
Qed.

Lemma fresh_instance_ok id inst : fresh_instance id inst -> instance_ok inst.
Proof.
  intros (_ & _ & Hs & [c Hm] & _ & Hr & Hc & Hg). split.
  - rewrite Hm. apply NewMailbox_ok.
  - by rewrite Hg.
  - by rewrite Hc, Hm.
  - rewrite Hm. unfold Depth. cbn. lia.
  - lia.
Qed.

Lemma halt_ok a : instance_ok a -> instance_ok (halt a).
Proof. intros [Hm He Hc Hw Hr]. split; cbn; try done. by apply Close_ok. Qed.

Lemma set_status_ok s a :
  instance_ok a -> (ai_go a = GoExited -> s = ActorStoppedCode) -> instance_ok (ai_set_status s a).
Proof. intros [Hm He Hc Hw Hr] Hs. by split. Qed.

Lemma prim_actors_ok r r' : prim r r' -> actors_ok r -> actors_ok r'.
Proof.
  intros Hp Hr. destruct Hp; try (by apply (actors_ok_same r)).
  - apply (actors_ok_same r); [apply bump_rrNext_frame|done].
  - apply actors_ok_update; [|done]. intros i Hi [Hm He Hc Hw Hn]. simplify_eq. split; [|done].
    split; cbn; [by apply Enqueue_ok|done|by rewrite Enqueue_closed| |done].
    intros Hg. apply Enqueue_notify; auto.
  - apply actors_ok_update; [|done]. intros i _ [Hm He Hc Hw Hn]. split; [by split|done].
  - destruct Hr as [Hh Hi Hreg]. split.
    + by apply (prim_heap_ok r); [constructor|].
    + intros l i. rewrite instance_put. destruct (decide _); [|apply Hi].
      intros. simplify_eq. by eapply fresh_instance_ok.
    + intros id' l. unfold lookup_actor. cbn. unfold registry_get. rewrite lookup_insert_Some.
      intros [[<- <-]|[Hne Hl]].
      * exists inst. rewrite instance_put, decide_True by done. split; [done|]. apply H0.
      * destruct (Hreg id' l Hl) as (i & H1 & H2). exists i. rewrite instance_put.
        rewrite decide_False; [done|]. apply Hh in H1. lia.
  - destruct Hr as [Hh Hi Hreg]. split; [exact Hh|exact Hi|].
    intros id' l. unfold lookup_actor. cbn. unfold registry_get. rewrite lookup_delete_Some.
    intros [_ Hl]. by apply Hreg.
  - apply actors_ok_update; [|done]. intros i Hi Hok. simplify_eq. split; [|done].
    apply set_status_ok; [done|]. intros Hg. by apply (iok_exited _ Hok) in Hg.
  - apply actors_ok_update; [|done]. intros i _ Hok. split; [by apply halt_ok|done].
  - apply (actors_ok_same r); [apply markPIDStopped_frame|done].
  - apply (actors_ok_same r); [apply routeAskReply_frame|done].
Qed.

Lemma pprim_actors_ok l r r' : pprim l r r' -> actors_ok r -> actors_ok r'.
Proof.
  intros Hp Hr. destruct Hp.
  - by eapply prim_actors_ok.
  - apply actors_ok_update; [|done]. intros i _ [Hm He Hc Hw Hn]. by split.
  - apply actors_ok_update; [|done]. intros i _ [Hm He Hc Hw Hn]. by split.
  - apply actors_ok_update; [|done]. intros i Hi [Hm He Hc Hw Hn]. simplify_eq.
    split; [|done]. split; cbn; try done. lia.
  - apply (actors_ok_same r); [apply bumpPID_frame|done].
  - apply actors_ok_update; [|done]. intros i Hi Hok. simplify_eq. split; [|done]. by apply set_status_ok.
Qed.

Lemma gquiet_actors_ok l r r' : gquiet l r r' -> actors_ok r -> actors_ok r'.
Proof.
  intros Hp Hr. destruct Hp.
  - by eapply pprim_actors_ok.
  - by apply (actors_ok_same r).
  - apply actors_ok_update; [|done]. intros i Hi [Hm He Hc Hw Hn]. simplify_eq. split; [|done].
    unfold take_token in H1. destruct (mb_notify (ai_mailbox inst)) eqn:En; [|done]. simplify_eq.
    split; cbn; try done; [|by intros [|]]. by destruct Hm; split.
  - apply actors_ok_update; [|done]. intros i Hi Hok. split; [by apply set_status_ok|done].
  - apply actors_ok_update; [|done]. intros i Hi [Hm He Hc Hw Hn]. simplify_eq. split; [|done].
    split; cbn; try done. intros _. apply Hw. auto.
  - apply actors_ok_update; [|done]. intros i Hi [Hm He Hc Hw Hn]. simplify_eq. split; [|done].
    split; cbn; try done. lia.
  - apply actors_ok_update; [|done]. intros i Hi [Hm He Hc Hw Hn]. simplify_eq. split; [|done].
    split; cbn; try done. by intros [|].
Qed.

Lemma takes_actors_ok l msgs r r' : takes l msgs r r' -> actors_ok r -> actors_ok r'.
Proof.
  intros Hp Hr. destruct Hp as [inst r Hi Hg|inst n r Hi Hg];
    (apply actors_ok_update; [|done]); intros i Hi' [Hm He Hc Hw Hn]; simplify_eq; (split; [|done]);
    split; cbn; try done.
  - by apply Dequeue_spec.
  - by rewrite Dequeue_closed.
  - intros [|]; congruence.
  - by apply DequeueBatch_spec.
  - by rewrite DequeueBatch_closed.
  - intros [|]; congruence.
Qed.

Lemma gprim_actors_ok l r r' : gprim l r r' -> actors_ok r -> actors_ok r'.
Proof. destruct 1; [by eapply gquiet_actors_ok|by eapply takes_actors_ok]. Qed.

(** ** Asks *)

Definition env_for (id : string) (c : option AskReplyEnvelope) : Prop :=
  forall env, c = Some env -> are_RequestID env = id.

(** The three tables of pending asks describe the same requests, and a
    channel only ever holds a reply to its own request. *)
Record ask_tables_ok (nodeID : string) (k : askPart) : Prop := {
  kok_wait id w : kp_wait k !! id = Some w ->
    pa_requestID w = id /\ canonical_ask nodeID w /\ kp_reply k !! Key (pa_replyTo w) = Some id /\
    kp_ch k !! id = Some (w, None);
  kok_reply key id : kp_reply k !! key = Some id ->
    exists w, kp_wait k !! id = Some w /\ key = Key (pa_replyTo w);
  kok_ch id w c : kp_ch k !! id = Some (w, c) ->
    pa_requestID w = id /\ canonical_ask nodeID w /\ env_for id c
}.

Definition ask_ok (r : Runtime) : Prop := ask_tables_ok (cf_nodeID (rt_cfg r)) (rt_ask r).

Lemma canonical_key nodeID w w' :
  canonical_ask nodeID w -> canonical_ask nodeID w' ->
  Key (pa_replyTo w) = Key (pa_replyTo w') -> pa_requestID w = pa_requestID w'.
Proof.
  unfold canonical_ask, Key. intros -> ->. cbn. intros H.
  apply (inj (String.append _)) in H. by simplify_eq.
Qed.

Lemma ask_ok_new target r : ask_ok r -> ask_ok (newAskRequest target r).1.
Proof.
  intros [Hw Hr Hc]. unfold ask_ok, newAskRequest. cbn -[itoa Key u64_succ].
  set (id := ("ask-" +:+ itoa _)%string). set (rt := mkPID _ id 1). set (w0 := mkPendingAsk id target rt).
  assert (canonical_ask (cf_nodeID (rt_cfg r)) w0) as Hcan by reflexivity.
  split; cbn -[itoa Key].
  - intros i w. rewrite lookup_insert_Some. intros [[<- <-]|[Hne H]].
    + split_and!; [done|done|apply lookup_insert_eq|apply lookup_insert_eq].
    + destruct (Hw i w H) as (H1 & H2 & H3 & H4). split_and!; [done|done| |by rewrite lookup_insert_ne].
      rewrite lookup_insert_ne; [done|]. intros E. apply Hne.
      change rt with (pa_replyTo w0) in E. apply canonical_key with (nodeID := cf_nodeID (rt_cfg r)) in E;
        [|done..]. cbn in E. congruence.
  - intros key i. rewrite lookup_insert_Some. intros [[<- <-]|[Hne H]].
    + exists w0. split; [apply lookup_insert_eq|done].
    + destruct (Hr key i H) as (w & H1 & ->). exists w. split; [|done].
      rewrite lookup_insert_ne; [done|]. intros <-. apply Hne.
      destruct (Hw _ _ H1) as (Hid & Hcw & _). change rt with (pa_replyTo w0).
      unfold canonical_ask in Hcan, Hcw. rewrite Hcan, Hcw. cbn. by rewrite Hid.
  - intros i w c. rewrite lookup_insert_Some. intros [[<- E]|[Hne H]]; [|by apply Hc].
    simplify_eq. split_and!; [done|done|]. by intros env.
Qed.

Lemma ask_ok_end w r :
  canonical_ask (cf_nodeID (rt_cfg r)) w -> ask_ok r -> ask_ok (dropChannel w (completeAskRequest w r)).
Proof.
  intros Hcan [Hw Hr Hc]. split; cbn -[Key].
  - intros i w'. rewrite lookup_delete_Some. intros [Hne H].
    destruct (Hw i w' H) as (H1 & H2 & H3 & H4).
    split_and!; [done|done| |by rewrite lookup_delete_ne]. rewrite lookup_delete_ne; [done|].
    intros E. apply (canonical_key (cf_nodeID (rt_cfg r))) in E; [|done..]. congruence.
  - intros key i. rewrite lookup_delete_Some. intros [Hne H].
    destruct (Hr key i H) as (w' & H1 & ->). exists w'. split; [|done].
    rewrite lookup_delete_ne; [done|]. intros <-. apply Hne.
    destruct (Hw _ _ H1) as (Hid & Hcw & _). unfold canonical_ask in Hcan, Hcw.
    rewrite Hcan, Hcw. by rewrite Hid.
  - intros i w' c. rewrite lookup_delete_Some. intros [Hne H]. by apply Hc.
Qed.

(** The tables without an answered request. *)
Lemma ask_tables_answer nodeID k key id w target c :
  ask_tables_ok nodeID k -> kp_reply k !! key = Some id -> kp_wait k !! id = Some w -> env_for id c ->
  ask_tables_ok nodeID (mkAskPart (kp_seq k) (delete id (kp_wait k)) (delete key (kp_reply k))
    (<[id := target]> (kp_closed k)) (alter (fun x => (x.1, c)) id (kp_ch k))).
Proof.
  intros [Hw Hr Hc] Hk Hwid He. destruct (Hr _ _ Hk) as (w0 & H0 & ->). assert (w0 = w) as -> by congruence.
  destruct (Hw _ _ H0) as (Hid & Hcan & _ & Hch). split; cbn -[Key].
  - intros i w'. rewrite lookup_delete_Some. intros [Hne H].
    destruct (Hw i w' H) as (H1 & H2 & H3 & H4). split_and!; [done|done| |].
    + rewrite lookup_delete_ne; [done|]. intros E.
      apply (canonical_key nodeID) in E; [|done..]. congruence.
    + by rewrite lookup_alter_ne.
  - intros key i. rewrite lookup_delete_Some. intros [Hne H].
    destruct (Hr key i H) as (w' & H1 & ->). exists w'. split; [|done].
    rewrite lookup_delete_ne; [done|]. intros <-. by simplify_eq.
  - intros i w' c'. rewrite lookup_alter_Some. intros [(-> & [w1 c1] & H1 & E)|[_ H1]]; [|by eapply Hc].
    by simplify_eq/=.
Qed.

Lemma ask_ok_obs r r' :
  rt_cfg r' = rt_cfg r -> rt_ask r' = rt_ask r -> ask_ok r -> ask_ok r'.
Proof. unfold ask_ok. by intros -> ->. Qed.

Lemma ask_ok_reply pid p m r : ask_ok r -> ask_ok (routeAskReply pid p m r).1.
Proof.
  intros Hok. unfold routeAskReply. destruct (negb _); [done|]. destruct (_ && _); [done|].
  destruct (kp_reply (rt_ask r) !! Key pid) as [id|] eqn:Hk; [|by destruct (kp_closed _ !! _)].
  destruct (kok_reply _ _ Hok _ _ Hk) as (w & Hw & _). rewrite Hw. cbn -[Key].
  destruct (kok_wait _ _ Hok _ _ Hw) as (_ & _ & _ & Hch).
  set (env0 := match p with PAskReplyEnvelope _ _ _ => _ | _ => _ end).
  set (env := if bool_decide _ then _ else env0).
  rewrite Hch. destruct (bool_decide_reflect (are_RequestID env = id)) as [He|He]; cbn -[Key].
  - apply (ask_tables_answer _ (rt_ask r) _ _ w); [done|done|done|]. intros e ?. by simplify_eq.
  - pose proof (ask_tables_answer _ _ _ _ w (pa_targetActor w) None Hok Hk Hw ltac:(by intros e)) as Ha.
    unfold ask_ok. cbn -[Key]. eapply eq_rect; [exact Ha|]. f_equal.
    apply alter_id. intros [w1 c1] H1. by simplify_eq.
Qed.

Lemma prim_ask_ok r r' : prim r r' -> ask_ok r -> ask_ok r'.
Proof.
  intros Hp Hr. destruct Hp; try done.
  - destruct (bump_rrNext_frame id r) as (E1 & _ & E2 & _). by apply (ask_ok_obs r).
  - destruct (markPIDStopped_frame id r) as (E1 & _ & E2 & _). by apply (ask_ok_obs r).
  - by apply ask_ok_new.
  - by apply ask_ok_end.
  - by apply ask_ok_reply.
Qed.

(** ** Names, routers and brokers *)

Definition names_ok (r : Runtime) : Prop := namedRegistry_ok (pp_names (rt_pids r)).

Definition brokers_ok (r : Runtime) : Prop :=
  forall id b, sp_brokers (rt_svc r) !! id = Some b -> broker_ok b.

(** A router's workers are distinct and named. *)
Definition routers_ok (r : Runtime) : Prop :=
  forall id st, rp_routers (rt_routes r) !! id = Some st ->
    NoDup (rs_workers st) /\ (""%string ∉ rs_workers st).

Lemma normalizeWorkers_spec seen ws :
  NoDup (normalizeWorkers seen ws) /\
  forall w, w ∈ normalizeWorkers seen ws <-> w ∈ ws /\ w <> ""%string /\ w ∉ seen.
Proof.
  revert seen. induction ws as [|x ws IH]; intros seen; cbn; [split; [constructor|set_solver]|].
  destruct (bool_decide_reflect (x = ""%string)) as [->|Hx].
  { destruct (IH seen) as [H1 H2]. split; [done|]. intros w. rewrite H2. set_solver. }
  destruct (bool_decide_reflect (x ∈ seen)) as [Hs|Hs].
  { destruct (IH seen) as [H1 H2]. split; [done|]. intros w. rewrite H2. set_solver. }
  destruct (IH ({[x]} ∪ seen)) as [H1 H2]. split.
  - constructor; [|done]. rewrite H2. set_solver.
  - intros w. rewrite elem_of_cons, H2. destruct (decide (w = x)); set_solver.
Qed.

Lemma prim_names_ok r r' : prim r r' -> names_ok r -> names_ok r'.
Proof.
  intros Hp Hr. destruct Hp; try done.
  - unfold names_ok. by rewrite (proj1 (proj2 (proj2 (proj2 (bump_rrNext_frame id r))))).
  - unfold names_ok, markPIDStopped. by destruct (PIDForActor id r).
  - by apply run_nr_op_refines.
  - unfold names_ok. by rewrite (proj1 (proj2 (proj2 (routeAskReply_frame pid p msgID r)))).
Qed.

Lemma brokers_ok_svc r r' :
  sp_brokers (rt_svc r') = sp_brokers (rt_svc r) -> brokers_ok r -> brokers_ok r'.
Proof. unfold brokers_ok. by intros ->. Qed.

Lemma run_ps_op_ok b o : broker_ok b -> broker_ok (run_ps_op b o).
Proof.
  intros Hb. destruct o as [raw pid|raw pid]; cbn [run_ps_op];
    destruct (parseTopicPattern raw) as [p|] eqn:Hp; try done; pose proof (parse_raw _ _ Hp) as Hr.
  - apply subscribe_tables_ok; [done|by rewrite Hr].
  - by apply unsubscribe_tables_ok.
Qed.

Lemma prim_brokers_ok r r' : prim r r' -> brokers_ok r -> brokers_ok r'.
Proof.
  intros Hp Hr. destruct Hp; try done.
  - apply (brokers_ok_svc r); [|done]. by rewrite (proj1 (proj2 (proj2 (proj2 (proj2 (bump_rrNext_frame id r)))))).
  - apply (brokers_ok_svc r); [|done]. by rewrite (proj1 (proj2 (proj2 (proj2 (proj2 (markPIDStopped_frame id r)))))).
  - apply (brokers_ok_svc r); [|done].
    by rewrite (proj1 (proj2 (proj2 (proj2 (proj2 (routeAskReply_frame pid p msgID r)))))).
  - intros id' b. cbn. rewrite lookup_insert_Some.
    intros [[_ <-]|[_ Hb]]; [apply newPubSubBrokerService_ok|by eapply Hr].
  - intros id' b. cbn. rewrite lookup_insert_Some. intros [[_ <-]|[_ Hb]]; [|by eapply Hr].
    apply run_ps_op_ok. unfold broker_service.
    destruct (sp_brokers (rt_svc r) !! id) eqn:E; cbn; [by eapply Hr|apply newPubSubBrokerService_ok].
Qed.

Lemma prim_routers_ok r r' : prim r r' -> routers_ok r -> routers_ok r'.
Proof.
  intros Hp Hr. destruct Hp; try done.
  - unfold routers_ok, bump_rrNext. destruct (rp_routers (rt_routes r) !! id) as [st|] eqn:E; [|done].
    cbn. intros id' st'. rewrite lookup_insert_Some. intros [[<- <-]|[_ H]]; [|by eapply Hr].
    cbn. by eapply Hr.
  - intros id' st. cbn. rewrite lookup_insert_Some. intros [[_ <-]|[_ H']]; [|by eapply Hr]. cbn.
    destruct (normalizeWorkers_spec ∅ ws) as [H1 H2]. split; [done|]. rewrite H2. naive_solver.
  - unfold routers_ok. by rewrite (proj1 (proj2 (proj2 (proj2 (markPIDStopped_frame id r))))).
  - unfold routers_ok. by rewrite (proj1 (proj2 (proj2 (proj2 (routeAskReply_frame pid p msgID r))))).
Qed.

(** ** The invariant *)

Record runtime_ok (r : Runtime) : Prop := {
  rok_actors : actors_ok r;
  rok_ask : ask_ok r;
  rok_names : names_ok r;
  rok_brokers : brokers_ok r;
  rok_routers : routers_ok r
}.

Lemma NewRuntime_ok cfg d now : runtime_ok (NewRuntime cfg d now).
Proof.
  split.
  - split.
    + intros l inst H. unfold instance in H. cbn in H. by rewrite lookup_empty in H.
    + intros l inst H. unfold instance in H. cbn in H. by rewrite lookup_empty in H.
    + intros id l H. change ((∅ : gmap string nat) !! id = Some l) in H. by rewrite lookup_empty in H.
  - split; cbn; intros *; by rewrite lookup_empty.
  - apply newNamedRegistry_ok.
  - intros id b. cbn. by rewrite lookup_empty.
  - intros id st. cbn. by rewrite lookup_empty.
Qed.

Lemma gprim_prim_or_frame l r r' :
  gprim l r r' ->
  prim r r' \/ (rt_cfg r' = rt_cfg r /\ rt_ask r' = rt_ask r /\ rt_svc r' = rt_svc r /\
    rt_routes r' = rt_routes r /\ pp_names (rt_pids r') = pp_names (rt_pids r)).
Proof.
  intros [Hq|msgs Ht]; [destruct Hq as [r r' Hp| | | | | |]|destruct Ht]; try (by right). destruct Hp; try (by right); [by left|].
  right. unfold bumpPID. destruct (PIDForActor id r); [|done].
  destruct (BumpGeneration _ _ _) as [res [p'|]]; done.
Qed.

Lemma gprim_runtime_ok l r r' : gprim l r r' -> runtime_ok r -> runtime_ok r'.
Proof.
  intros Hg [Ha Hk Hn Hb Hr]. pose proof (gprim_actors_ok _ _ _ Hg Ha).
  destruct (gprim_prim_or_frame _ _ _ Hg) as [Hp|(E1 & E2 & E3 & E4 & E5)].
  - split; [done|by eapply prim_ask_ok|by eapply prim_names_ok|by eapply prim_brokers_ok|by eapply prim_routers_ok].
  - split; [done|by apply (ask_ok_obs r)| | |].
    + unfold names_ok. by rewrite E5.
    + apply (brokers_ok_svc r); [by rewrite E3|done].
    + unfold routers_ok. by rewrite E4.
Qed.

Lemma gprims_runtime_ok l r r' : gprims l r r' -> runtime_ok r -> runtime_ok r'.
Proof. apply rtc_invariant. apply gprim_runtime_ok. Qed.

(** A step of a goroutine answers no more messages than it takes. *)
Lemma actor_step_gspends fuel l r r' : actor_step fuel l r r' -> runtime_ok r -> gspends l 0 (next_takes l r) r r'.
Proof.
  intros Hs [Ha _ _ _ _]. pose proof (aok_heap _ Ha) as Hh. unfold next_takes.
  destruct Hs as [inst r' x Hi Hg H|inst Hi Hg Hc|inst mb Hi Hg Ht|inst r' x Hi Hg H];
    rewrite Hi, Hg; cbn [decide].
  - by eapply gspends_start.
  - by apply gspends_goroutine_done.
  - by eapply gspends_wake.
  - eapply gspends_iter; [done..| |exact H]. by apply (aok_instances _ Ha l inst).
Qed.

Lemma actor_step_gprims fuel l r r' : actor_step fuel l r r' -> runtime_ok r -> gprims l r r'.
Proof. intros Hs Hok. by eapply gspends_gprims, actor_step_gspends. Qed.

(** Every step from a well-formed state is a sequence of mutations that any
    caller can cause, the passing of time, or a step of an actor's goroutine. *)
Inductive step_kind (fuel : nat) (r : Runtime) : Runtime -> Prop :=
  | sk_prims r' : prims r r' -> step_kind fuel r r'
  | sk_tick d : 0 <= d -> step_kind fuel r (set_now (rt_now r + d) r)
  | sk_actor l r' : actor_step fuel l r r' -> gprims l r r' -> step_kind fuel r r'.

Lemma prims_runs {A} (m : M A) r r' a : runs m -> m r = Some (r', a) -> prims r r'.
Proof. intros Hm. apply Hm. Qed.

Lemma step_cases fuel r r' : step fuel r r' -> runtime_ok r -> step_kind fuel r r'.
Proof.
  intros Hs Hok. pose proof (rok_ask _ Hok) as Hk. destruct Hs;
    try (by apply sk_prims; eapply prims_runs; [|eassumption]; eauto with runs;
         first [apply runs_BrokerSubscribeBegin|apply runs_BrokerUnsubscribeBegin|apply runs_CronCommandBegin]).
  - apply sk_prims. eapply prims_AskEnd; [eassumption|]. by apply (kok_ch _ _ Hk) in H as (_ & ? & _).
  - apply sk_prims. unfold CronHandler. destruct (sp_cron _ !! _); [reflexivity|apply runs_set_cron].
  - eapply sk_actor; [eassumption|]. by eapply actor_step_gprims.
  - apply sk_prims. by eapply runs_endTimer.
  - apply sk_prims. by eapply runs_schedule_top.
  - apply sk_prims, rtc_once. constructor.
  - by apply sk_tick.
Qed.

Lemma step_runtime_ok fuel r r' : step fuel r r' -> runtime_ok r -> runtime_ok r'.
Proof.
  intros Hs Hok. destruct (step_cases _ _ _ Hs Hok).
  - apply (gprims_runtime_ok 0 r); [|done]. by apply gprims_of_pprims, pprims_of_prims.
  - apply (gprim_runtime_ok 0 r); [|done]. by apply g_quiet, g_tick.
  - by eapply gprims_runtime_ok.
Qed.

(** States the system reaches from a new runtime. *)
Definition reachable (fuel : nat) (cfg : config) (d : bool) (now : Z) (r : Runtime) : Prop :=
  rtc (step fuel) (NewRuntime cfg d now) r.

Lemma reachable_ok fuel cfg d now r : reachable fuel cfg d now r -> runtime_ok r.
Proof.
  intros H. eapply (rtc_invariant (step fuel) runtime_ok); [|exact H|apply NewRuntime_ok].
  intros a b. apply step_runtime_ok.
Qed.
