(* ===== verification/Scheduler.v ===== *)
(** * An executable scheduler for the running system

    [perform] carries out one chosen step, when it is enabled, and [schedule] a
    list of them; every result is reachable by the steps of [System.v].  The
    concrete scenarios of the development are schedules. *)

From S2P Require Import Prelude Types Mailbox Resolver Registry Routing Outcomes Monitors PubSub.
From S2P Require Import Fnv Program State Emit Send Lifecycle Broker Cron Actor Prim System Invariants.

(** The choice of a step. *)
Inductive action :=
  | DoApi (o : api)
  | DoAsk (actorID : string) (p : payload) (timeout : Z)
  | DoAskPID (pid : PID) (p : payload) (timeout : Z)
  | DoBrokerSubscribe (broker : string) (subscriber : PID) (pattern : string) (timeout : Z)
  | DoBrokerUnsubscribe (broker : string) (subscriber : PID) (pattern : string) (timeout : Z)
  | DoCron (cron : string) (cmd : payload) (timeout : Z)
  | DoAskEnd (requestID : string) (k : askWake)
  | DoStart (l : nat)
  | DoDone (l : nat)
  | DoWake (l : nat)
  | DoIter (l : nat)
  | DoTimer (id : Z)
  | DoPublish (task : Z)
  | DoScheduleTop (ctx : Z)
  | DoScheduleFire (ctx : Z)
  | DoTick (d : Z).

(** The instance at [l], when its goroutine is at [g]. *)
Definition at_point (l : nat) (g : goroutine) (r : Runtime) : option actorInstance :=
  inst ← instance l r; if decide (ai_go inst = g) then Some inst else None.

Definition perform (fuel : nat) (a : action) (r : Runtime) : option Runtime :=
  match a with
  | DoApi o => fst <$> exec_api fuel o r
  | DoAsk id p t => fst <$> AskBegin fuel id p t r
  | DoAskPID pid p t => fst <$> AskPIDBegin fuel pid p t r
  | DoBrokerSubscribe b s pat t => fst <$> BrokerSubscribeBegin fuel b s pat t r
  | DoBrokerUnsubscribe b s pat t => fst <$> BrokerUnsubscribeBegin fuel b s pat t r
  | DoCron c cmd t => fst <$> CronCommandBegin fuel c cmd t r
  | DoAskEnd id k =>
      '(w, _) ← kp_ch (rt_ask r) !! id;
      if decide (pa_requestID w = id) then fst <$> AskEnd w k r else None
  | DoStart l => _ ← at_point l GoStarting r; fst <$> goroutine_start l r
  | DoDone l =>
      inst ← at_point l GoSelect r;
      if ai_cancelled inst then Some (goroutine_done l inst r) else None
  | DoWake l =>
      inst ← at_point l GoSelect r;
      mb ← take_token (ai_mailbox inst); Some (goroutine_wake l mb r)
  | DoIter l => _ ← at_point l GoDraining r; fst <$> goroutine_iter fuel l r
  | DoTimer id =>
      t ← sp_timerTasks (rt_svc r) !! id;
      if decide (tt_deadline t <= rt_now r) then fst <$> fireTimer fuel id t r else None
  | DoPublish task =>
      t ← sp_publishes (rt_svc r) !! task; fst <$> publish_step fuel task t r
  | DoScheduleTop ctx =>
      t ← sp_schedules (rt_svc r) !! ctx;
      match st_next t with None => Some (schedule_top ctx t r) | Some _ => None end
  | DoScheduleFire ctx =>
      t ← sp_schedules (rt_svc r) !! ctx;
      next ← st_next t;
      if decide (next <= rt_now r) then fst <$> schedule_fire fuel ctx t next r else None
  | DoTick d => if decide (0 <= d) then Some (set_now (rt_now r + d) r) else None
  end.

Fixpoint schedule (fuel : nat) (l : list action) (r : Runtime) : option Runtime :=
  match l with
  | [] => Some r
  | a :: l => r1 ← perform fuel a r; schedule fuel l r1
  end.

(** ** Scheduled steps are steps *)

Lemma at_point_Some l g r inst :
  at_point l g r = Some inst -> instance l r = Some inst /\ ai_go inst = g.
Proof.
  unfold at_point. destruct (instance l r) as [i|]; cbn; [|done]. case_decide; [|done].
  intros. by simplify_eq.
Qed.

Lemma fst_Some {A} (m : M A) r r' : fst <$> m r = Some r' -> exists x, m r = Some (r', x).
Proof. destruct (m r) as [[r1 x]|]; cbn; [|done]. intros. simplify_eq. eauto. Qed.

Lemma perform_step fuel a r r' : perform fuel a r = Some r' -> step fuel r r'.
Proof.
  destruct a; cbn [perform]; intros H;
    repeat match type of H with
    | fst <$> ?m r = Some _ => apply (fst_Some m r r') in H as [x H]
    | (_ ≫= _) = Some _ => apply bind_Some in H as (?z & ?Hz & H)
    | (let '(_, _) := ?z in _) = Some _ => destruct z
    | (if decide _ then _ else _) = Some _ => case_decide; [|done]
    | (if ?b then _ else _) = Some _ => destruct b eqn:?; [|done]
    | match ?o with _ => _ end = Some _ => destruct o eqn:?; try done
    | Some _ = Some _ => simplify_eq
    end;
    repeat match goal with H : at_point _ _ _ = Some _ |- _ => apply at_point_Some in H as [??] end.
  - by eapply step_api.
  - by eapply step_ask.
  - by eapply step_askPID.
  - by eapply step_brokerSubscribe.
  - by eapply step_brokerUnsubscribe.
  - by eapply step_cronCommand.
  - subst. by eapply step_askEnd.
  - by eapply step_actor, as_start.
  - by eapply step_actor, as_done.
  - by eapply step_actor, as_wake.
  - by eapply step_actor, as_iter.
  - by eapply step_timerFire.
  - by eapply step_publish.
  - by eapply step_scheduleTop.
  - by eapply step_scheduleFire.
  - by apply step_tick.
Qed.

Lemma schedule_steps fuel l r r' : schedule fuel l r = Some r' -> rtc (step fuel) r r'.
Proof.
  revert r. induction l as [|a l IH]; intros r H; cbn in H; [by simplify_eq|].
  apply bind_Some in H as (r1 & H1 & H). eapply rtc_l; [by eapply perform_step|by apply IH].
Qed.

Lemma schedule_reachable fuel l cfg d now r :
  schedule fuel l (NewRuntime cfg d now) = Some r -> reachable fuel cfg d now r.
Proof. apply schedule_steps. Qed.

(** ** A scenario *)

(** A user value of type [main.Job]. *)
Definition job (n : Z) : payload := PUser (mkUserValue "main.Job" None None n).

Definition content (p : payload) : Z := match p with PUser v => uv_Content v | _ => 0 end.

(** An accumulator: it adds the content of its messages to its state and
    fails on negative ones. *)
Definition accumulator : handler :=
  HUser (fun st msg =>
    if content (msg_Payload msg) <? 0 then Return (HRErr "negative job"%string)
    else Return (HROk (job (content st + content (msg_Payload msg))))).

(** Two accumulators, the first of them started, with two jobs queued. *)
Definition two_actors : list action :=
  [DoApi (ACreateActor "a" (job 0) (Some accumulator) []);
   DoApi (ACreateActor "b" (job 0) (Some accumulator) []);
   DoStart 0; DoApi (ASend "a" (job 1)); DoApi (ASend "a" (job 2))].

Definition start_runtime : Runtime := NewRuntime defaultConfig true 0.

(** The state a schedule leads to. *)
Definition run_schedule (fuel : nat) (l : list action) : Runtime :=
  default start_runtime (schedule fuel l start_runtime).

Lemma run_schedule_reachable fuel l :
  is_Some (schedule fuel l start_runtime) -> reachable fuel defaultConfig true 0 (run_schedule fuel l).
Proof.
  intros [r H]. unfold run_schedule. rewrite H. by eapply schedule_reachable.
Qed.

Example two_actors_progress :
  (fun r => (as_value (ai_state r), ai_go r)) <$>
    instance 0 (run_schedule 2 (two_actors ++ [DoWake 0; DoIter 0; DoIter 0; DoIter 0]))
  = Some (job 3, GoSelect).
Proof. vm_compute. reflexivity. Qed.
