(* ===== verification/Safety.v ===== *)
(** * Safety of the running system

    What holds in every reachable state and across every step, whatever the
    user programs do: well-formedness, wake-ups, isolation of actor state,
    mailbox order, bounded restarts and event numbering. *)

From S2P Require Import Prelude Types Mailbox Resolver Registry Routing Outcomes Monitors PubSub.
From S2P Require Import Fnv Program State Emit Send Lifecycle Broker Cron Actor Prim System Invariants.
From S2P Require Import Scheduler.

(** ** Well-formedness *)

(** C1: Every reachable state is well formed.  For every actor instance: the
    mailbox invariant holds, a returned goroutine left the status stopped, the
    context is cancelled exactly when the mailbox is closed, an idle goroutine
    with queued messages has a wake-up token, the restart count is not
    negative.  The registry maps IDs to instances of that ID; the tables of
    pending asks describe the same requests and a reply channel only holds a
    reply to its own request; the name registry's two indices agree; a broker's
    trie serves exactly its subscriptions; a router's workers are distinct. *)
Theorem reachable_state_well_formed fuel cfg d now r :
  reachable fuel cfg d now r -> runtime_ok r.
Proof. apply reachable_ok. Qed.

Lemma reachable_state_well_formed_witness : runtime_ok (run_schedule 2 two_actors).
Proof.
  apply (reachable_state_well_formed 2 defaultConfig true 0), run_schedule_reachable.
  vm_compute. eexists. reflexivity.
Defined.

(** C18: No lost wake-up in the running system: in a reachable state, an actor
    whose goroutine waits in its [select] while messages are queued can take
    the notification and start draining, its messages still queued in order. *)
Theorem waiting_actor_is_woken fuel cfg d now r l inst :
  reachable fuel cfg d now r -> instance l r = Some inst -> ai_go inst = GoSelect ->
  0 < Depth (ai_mailbox inst) ->
  exists r' inst', actor_step fuel l r r' /\ instance l r' = Some inst' /\ ai_go inst' = GoDraining /\
    Spec.items (abs (ai_mailbox inst')) = Spec.items (abs (ai_mailbox inst)).
Proof.
  intros Hr Hi Hg Hd. apply reachable_ok in Hr as [[_ Hinst _] _ _ _ _].
  pose proof (iok_wake _ (Hinst _ _ Hi) (or_intror Hg) Hd) as Hn.
  set (mb := mkMailbox (mb_queue (ai_mailbox inst)) (mb_head (ai_mailbox inst))
               (mb_max (ai_mailbox inst)) false (mb_closed (ai_mailbox inst))).
  assert (take_token (ai_mailbox inst) = Some mb) as Ht by (unfold take_token; by rewrite Hn).
  exists (goroutine_wake l mb r), (ai_set_go GoDraining (ai_set_mailbox mb inst)).
  split_and!; [by eapply as_wake| |done|done].
  unfold goroutine_wake. by rewrite !instance_update_eq, Hi.
Qed.

Lemma waiting_actor_is_woken_witness :
  exists inst, instance 0 (run_schedule 2 two_actors) = Some inst /\ ai_go inst = GoSelect /\
  Depth (ai_mailbox inst) = 2 /\
  exists r' inst', actor_step 2 0 (run_schedule 2 two_actors) r' /\ instance 0 r' = Some inst' /\
    ai_go inst' = GoDraining /\ Spec.items (abs (ai_mailbox inst')) = Spec.items (abs (ai_mailbox inst)).
Proof.
  eexists. split; [vm_compute; reflexivity|]. split; [reflexivity|]. split; [reflexivity|].
  apply (waiting_actor_is_woken 2 defaultConfig true 0).
  - apply run_schedule_reachable. vm_compute. eexists. reflexivity.
  - vm_compute. reflexivity.
  - reflexivity.
  - reflexivity.
Defined.

(** ** Isolation and mailbox order *)

(** The queued messages of an instance. *)
Definition pending (a : actorInstance) : list Message := Spec.items (abs (ai_mailbox a)).

(** What happens to an instance that does not run: its own part stays, messages
    are appended, and nothing reaches a closed mailbox. *)
Record untouched (a a' : actorInstance) : Prop := {
  ut_own : own_part a' = own_part a;
  ut_pending : exists new, pending a' = pending a ++ new;
  ut_closed : mb_closed (ai_mailbox a) = true ->
    mb_closed (ai_mailbox a') = true /\ pending a' = pending a
}.

#[export] Instance untouched_preorder : PreOrder untouched.
Proof.
  split.
  - intros a. split; [done|exists []; by rewrite app_nil_r|done].
  - intros a b c [O1 [n1 P1] C1] [O2 [n2 P2] C2]. split; [congruence| |].
    + exists (n1 ++ n2). by rewrite P2, P1, app_assoc.
    + intros H. destruct (C1 H) as [H1 E1]. destruct (C2 H1) as [H2 E2]. split; [done|congruence].
Qed.

Lemma enqueue_untouched msg a :
  mailbox_ok (ai_mailbox a) -> untouched a (ai_set_mailbox (Enqueue msg (ai_mailbox a)).1 a).
Proof.
  intros Hok. pose proof (f_equal fst (Enqueue_refines msg _ Hok)) as E. cbn [fst] in E.
  split; [done| |]; unfold pending; cbn [ai_set_mailbox ai_mailbox]; rewrite <- E; unfold Spec.push.
  - destruct (Spec.stopped _); [|destruct (_ <=? _)]; cbn [fst Spec.items].
    + exists []. by rewrite app_nil_r.
    + exists []. by rewrite app_nil_r.
    + by exists [msg].
  - intros Hc. rewrite Enqueue_closed. split; [done|].
    change (Spec.stopped (abs (ai_mailbox a))) with (mb_closed (ai_mailbox a)). by rewrite Hc.
Qed.

(** The instance at [l] across a change of the state. *)
Definition keeps (l : nat) (r r' : Runtime) : Prop :=
  forall a, instance l r = Some a -> exists a', instance l r' = Some a' /\ untouched a a'.

Lemma keeps_refl_eq l r r' : instance l r' = instance l r -> keeps l r r'.
Proof. intros E a Ha. exists a. by rewrite E. Qed.

Lemma keeps_trans l r1 r2 r3 : keeps l r1 r2 -> keeps l r2 r3 -> keeps l r1 r3.
Proof.
  intros H1 H2 a Ha. destruct (H1 a Ha) as (b & Hb & Ub). destruct (H2 b Hb) as (c & Hc & Uc).
  exists c. split; [done|]. by etransitivity.
Qed.

Lemma keeps_update l l0 f r :
  (forall a, instance l r = Some a -> l = l0 -> untouched a (f a)) -> keeps l r (update_instance l0 f r).
Proof.
  intros Hf a Ha. rewrite instance_update, Ha. destruct (decide (l = l0)) as [->|]; cbn; eauto.
  by exists a.
Qed.

Lemma keeps_actors l r r' : rt_actors r' = rt_actors r -> keeps l r r'.
Proof. intros E. apply keeps_refl_eq. unfold instance. by rewrite E. Qed.

Lemma same_own_untouched a a' :
  own_part a' = own_part a -> pending a' = pending a ->
  (mb_closed (ai_mailbox a) = true -> mb_closed (ai_mailbox a') = true) -> untouched a a'.
Proof. intros H1 H2 H3. split; [done|exists []; by rewrite app_nil_r|auto]. Qed.

Lemma prim_keeps l r r' : prim r r' -> actors_ok r -> keeps l r r'.
Proof.
  intros Hp Hr. destruct Hp; try (by apply keeps_actors);
    try (apply keeps_update; intros a Ha E; subst; by apply same_own_untouched).
  - apply keeps_actors, bump_rrNext_frame.
  - apply keeps_update. intros a Ha E. subst. pose proof (iok_mailbox _ (aok_instances _ Hr _ _ Ha)).
    simplify_eq. by apply enqueue_untouched.
  - intros a Ha. exists a. rewrite instance_put, decide_False; [done|].
    apply (aok_heap _ Hr) in Ha. lia.
  - by apply keeps_refl_eq.
  - apply keeps_actors, markPIDStopped_frame.
  - apply keeps_actors, routeAskReply_frame.
Qed.

(** Sequences that preserve well-formedness keep what their members keep. *)
Lemma rtc_keeps (R : relation Runtime) l r r' :
  (forall a b, R a b -> actors_ok a -> keeps l a b) ->
  (forall a b, R a b -> actors_ok a -> actors_ok b) ->
  rtc R r r' -> actors_ok r -> keeps l r r'.
Proof.
  intros Hk Hok. induction 1 as [|x y z H _ IH]; intros Hx; [by apply keeps_refl_eq|].
  eapply keeps_trans; [by apply Hk|]. apply IH. by eapply Hok.
Qed.

Lemma gprim_keeps l l0 r r' : l <> l0 -> gprim l0 r r' -> actors_ok r -> keeps l r r'.
Proof.
  intros Hne Hp Hr.
  assert (forall f, keeps l r (update_instance l0 f r)) as Hupd by (intros f; by apply keeps_update).
  destruct Hp as [Hq|msgs Ht]; [destruct Hq as [r r' Hp| | | | | |]|destruct Ht]; try done; [|by apply keeps_actors].
  destruct Hp; try done; [by apply prim_keeps|]. apply keeps_actors, bumpPID_frame.
Qed.

Lemma step_keeps fuel l r r' :
  step fuel r r' -> runtime_ok r -> actor_step fuel l r r' \/ keeps l r r'.
Proof.
  intros Hs Hok. pose proof (rok_actors _ Hok) as Ha.
  destruct (step_cases _ _ _ Hs Hok) as [r' Hp|d Hd|l0 r' Hst Hg].
  - right. eapply (rtc_keeps prim); [|apply prim_actors_ok|done|done]. intros a b. apply prim_keeps.
  - right. by apply keeps_actors.
  - destruct (decide (l = l0)) as [->|Hne]; [by left|right].
    eapply (rtc_keeps (gprim l0)); [|apply gprim_actors_ok|done|done]. intros a b. by apply gprim_keeps.
Qed.

(** C2: Actors are isolated.  In any step of the system from a reachable state
    (client calls, other actors' goroutines and handlers, timers, publications,
    schedules) an instance keeps its state, restart count, handler and
    goroutine position, its queued messages stay in order with new ones only
    appended, and a closed mailbox receives nothing, unless the step is one of
    the instance's own goroutine. *)
Theorem actors_are_isolated fuel cfg d now r r' l inst :
  reachable fuel cfg d now r -> step fuel r r' -> instance l r = Some inst ->
  actor_step fuel l r r' \/
  exists inst', instance l r' = Some inst' /\ untouched inst inst'.
Proof.
  intros Hr Hs Hi. apply reachable_ok in Hr.
  destruct (step_keeps _ l _ _ Hs Hr) as [H|H]; [by left|right]. by apply H.
Qed.

Lemma actors_are_isolated_witness :
  exists inst r', instance 1 (run_schedule 2 two_actors) = Some inst /\
  perform 2 (DoApi (ASend "b" (job 7))) (run_schedule 2 two_actors) = Some r' /\
  (actor_step 2 1 (run_schedule 2 two_actors) r' \/
   exists inst', instance 1 r' = Some inst' /\ untouched inst inst').
Proof.
  eexists _, _. split; [vm_compute; reflexivity|]. split; [vm_compute; reflexivity|].
  apply (actors_are_isolated 2 defaultConfig true 0).
  - apply run_schedule_reachable. vm_compute. eexists. reflexivity.
  - apply (perform_step 2 (DoApi (ASend "b" (job 7)))). vm_compute. reflexivity.
  - vm_compute. reflexivity.
Defined.

(** *** The instance's own steps *)

(** Across processing, an instance's queue only grows. *)
Definition grows (l : nat) (r r' : Runtime) : Prop :=
  forall a, instance l r = Some a -> exists a' new, instance l r' = Some a' /\ pending a' = pending a ++ new.

Lemma grows_of_keeps l r r' : keeps l r r' -> grows l r r'.
Proof. intros Hk a Ha. destruct (Hk a Ha) as (a' & Ha' & [_ [new Hn] _]). eauto. Qed.

Lemma grows_update l l0 f r : (forall a, pending (f a) = pending a) -> grows l r (update_instance l0 f r).
Proof.
  intros Hf a Ha. rewrite instance_update, Ha.
  destruct (decide _); cbn; [exists (f a), []|exists a, []]; rewrite app_nil_r; (split; [done|]);
    [apply Hf|done].
Qed.

Lemma pprim_grows l l0 r r' : pprim l0 r r' -> actors_ok r -> grows l r r'.
Proof.
  intros Hp Hr. destruct Hp; try (by apply grows_update); [by apply grows_of_keeps, prim_keeps|].
  apply grows_of_keeps, keeps_actors, bumpPID_frame.
Qed.

Lemma pprims_grows l l0 r r' : pprims l0 r r' -> actors_ok r -> grows l r r'.
Proof.
  induction 1 as [|x y z H _ IH]; intros Hx a Ha; [exists a, []; by rewrite app_nil_r|].
  destruct (pprim_grows l _ _ _ H Hx a Ha) as (b & n1 & Hb & P1).
  destruct (IH (pprim_actors_ok _ _ _ H Hx) b Hb) as (c & n2 & Hc & P2).
  exists c, (n1 ++ n2). split; [done|]. by rewrite P2, P1, app_assoc.
Qed.

(** The number of messages one iteration of the inner loop takes. *)
Definition iteration_size (b : BatchConfig) : nat :=
  if bc_Enabled b && (1 <? bc_MaxSize b) then batch_size (bc_MaxSize b) else 1%nat.

Lemma live_set_mailbox l mb inst r :
  heap_ok r -> instance l r = Some inst -> ai_go inst = GoDraining ->
  live l (update_instance l (ai_set_mailbox mb) r).
Proof.
  intros Hh Hi Hgo. split; [by apply heap_ok_update|].
  exists (ai_set_mailbox mb inst). rewrite instance_update_eq, Hi. split; [done|]. cbn. congruence.
Qed.

Lemma iter_pending fuel l inst r r' x :
  runtime_ok r -> instance l r = Some inst -> ai_go inst = GoDraining ->
  goroutine_iter fuel l r = Some (r', x) ->
  exists inst' new, instance l r' = Some inst' /\
    pending inst' = drop (iteration_size (ai_batch inst)) (pending inst) ++ new.
Proof.
  intros Hok Hi Hgo H. pose proof (rok_actors _ Hok) as Ha. pose proof (aok_heap _ Ha) as Hh.
  pose proof (iok_mailbox _ (aok_instances _ Ha _ _ Hi)) as Hmb.
  unfold goroutine_iter in H. rewrite gets_bind, Hi in H. unfold iteration_size.
  assert (forall mb f, mailbox_ok mb -> f = ai_set_go GoSelect ->
    exists inst' new, instance l (update_instance l f (update_instance l (ai_set_mailbox mb) r)) = Some inst' /\
      pending inst' = Spec.items (abs mb) ++ new) as Hsleep.
  { intros mb f _ ->. eexists _, []. rewrite !instance_update_eq, Hi, app_nil_r. done. }
  assert (forall mb, gprim l r (update_instance l (ai_set_mailbox mb) r) ->
    pprims l (update_instance l (ai_set_mailbox mb) r) r' ->
    exists inst' new, instance l r' = Some inst' /\ pending inst' = Spec.items (abs mb) ++ new) as Hgo'.
  { intros mb Hg Hp. apply (pprims_grows l l _ _ Hp (gprim_actors_ok _ _ _ Hg Ha) (ai_set_mailbox mb inst)).
    by rewrite instance_update_eq, Hi. }
  destruct (_ && _).
  - pose proof (g_takes l _ _ _ (tk_batch l inst (bc_MaxSize (ai_batch inst)) r Hi Hgo)) as Hd.
    destruct (DequeueBatch_spec (bc_MaxSize (ai_batch inst)) _ Hmb) as [Hmb' E].
    apply (f_equal fst) in E. cbn [fst] in E. fold (batch_size (bc_MaxSize (ai_batch inst))) in E.
    replace (drop _ (pending inst)) with
      (Spec.items (abs (DequeueBatch (bc_MaxSize (ai_batch inst)) (ai_mailbox inst)).1)) by (by rewrite <- E).
    destruct (DequeueBatch _ _) as [mb msgs]. cbn [fst] in *. rewrite upd_bind in H.
    destruct msgs; [minv H; by apply Hsleep|]. apply Hgo'; [done|].
    eapply pprims_processBatch; [|exact H]. by eapply live_set_mailbox.
  - pose proof (g_takes l _ _ _ (tk_one l inst r Hi Hgo)) as Hd. destruct (Dequeue_spec _ Hmb) as [Hmb' E].
    apply (f_equal fst) in E. cbn [fst] in E.
    replace (drop _ (pending inst)) with (Spec.items (abs (Dequeue (ai_mailbox inst)).1)).
    2: { rewrite <- E. unfold Spec.pop, pending. by destruct (Spec.items (abs (ai_mailbox inst))) eqn:Ei. }
    destruct (Dequeue _) as [mb msg]. cbn [fst] in *. rewrite upd_bind in H.
    destruct msg; [|minv H; by apply Hsleep]. apply Hgo'; [done|].
    eapply pprims_processMessage; [|exact H]. by eapply live_set_mailbox.
Qed.

(** An actor takes its messages in order.  One iteration of its goroutine's
    inner loop removes exactly the front of the queue (one message, or a batch
    of the configured size), whatever the handler does and even if it fails;
    the rest stays queued in order, followed by what was sent meanwhile. *)
Theorem iteration_takes_the_front fuel cfg d now r l inst r' x :
  reachable fuel cfg d now r -> instance l r = Some inst -> ai_go inst = GoDraining ->
  goroutine_iter fuel l r = Some (r', x) ->
  exists inst' new, instance l r' = Some inst' /\
    pending inst' = drop (iteration_size (ai_batch inst)) (pending inst) ++ new.
Proof. intros Hr. eapply iter_pending. by eapply reachable_ok. Qed.

Lemma iteration_takes_the_front_witness :
  exists inst r', instance 0 (run_schedule 2 (two_actors ++ [DoWake 0])) = Some inst /\
  length (pending inst) = 2%nat /\
  goroutine_iter 2 0 (run_schedule 2 (two_actors ++ [DoWake 0])) = Some (r', tt) /\
  exists inst' new, instance 0 r' = Some inst' /\
    pending inst' = drop (iteration_size (ai_batch inst)) (pending inst) ++ new.
Proof.
  eexists _, _. split; [vm_compute; reflexivity|]. split; [reflexivity|].
  split; [vm_compute; reflexivity|].
  apply (iteration_takes_the_front 2 defaultConfig true 0 (run_schedule 2 (two_actors ++ [DoWake 0])) 0
           _ _ tt).
  - apply run_schedule_reachable. vm_compute. eexists. reflexivity.
  - vm_compute. reflexivity.
  - reflexivity.
  - vm_compute. reflexivity.
Defined.

(** ** Supervision *)

(** Nothing a caller can do revives a stopped instance. *)
Definition halted (a : actorInstance) : Prop :=
  ai_status a = ActorStoppedCode /\ ai_cancelled a = true /\ mb_closed (ai_mailbox a) = true.

Lemma prim_halted l r r' a :
  prim r r' -> heap_ok r -> instance l r = Some a -> halted a ->
  exists a', instance l r' = Some a' /\ halted a'.
Proof.
  intros Hp Hh Hi (H1 & H2 & H3). pose proof (Hh _ _ Hi) as Hl.
  assert (forall r0, rt_actors r0 = rt_actors r -> exists a', instance l r0 = Some a' /\ halted a') as Hsame.
  { intros r0 E. exists a. unfold instance. by rewrite E. }
  assert (forall f l0, (instance l r = Some a -> l = l0 -> halted (f a)) ->
    exists a', instance l (update_instance l0 f r) = Some a' /\ halted a') as Hupd.
  { intros f l0 Hf. rewrite instance_update, Hi. destruct (decide _); cbn; eauto. by exists a. }
  destruct Hp; try (by apply Hsame).
  - apply Hsame, bump_rrNext_frame.
  - apply Hupd. intros Ha E. subst. simplify_eq.
  - apply Hupd. by intros.
  - exists a. by rewrite instance_put, decide_False by lia.
  - by exists a.
  - apply Hupd. intros Ha E. subst. simplify_eq.
  - apply Hupd. by intros.
  - apply Hsame, markPIDStopped_frame.
  - apply Hsame, routeAskReply_frame.
Qed.

Lemma prims_halted l r r' a :
  prims r r' -> heap_ok r -> instance l r = Some a -> halted a ->
  exists a', instance l r' = Some a' /\ halted a' /\ own_part a' = own_part a.
Proof.
  intros Hp. revert a. induction Hp as [|x y z H _ IH]; intros a Hh Hi Ha; [eauto|].
  destruct (prim_halted _ _ _ _ H Hh Hi Ha) as (a1 & Hi1 & Ha1).
  destruct (prim_instance _ _ _ _ H Hh Hi) as (a1' & Hi1' & Ho).
  assert (a1' = a1) as -> by congruence.
  destruct (IH a1 (prim_heap_ok _ _ H Hh) Hi1 Ha1) as (a2 & ? & ? & ?). exists a2.
  split_and!; [done..|congruence].
Qed.

Lemma terminate_halted fuel l id a r r' x :
  heap_ok r -> instance l r = Some a -> terminate fuel l id r = Some (r', x) ->
  exists a', instance l r' = Some a' /\ halted a' /\ own_part a' = own_part a.
Proof.
  intros Hh Hi H. unfold terminate in H. rewrite !upd_bind in H.
  apply runs_cleanup in H.
  destruct (prims_halted l _ _ (halt a) H) as (a' & Hi' & Ha' & Ho).
  - by repeat apply heap_ok_update.
  - by rewrite !instance_update_eq, Hi.
  - done.
  - exists a'. split_and!; [done..|]. by rewrite Ho.
Qed.

(** The result of a failed message or batch for its instance. *)
Definition failure_result (decision : SupervisionDecision) (a a' : actorInstance) : Prop :=
  match decision with
  | DecisionRestart =>
      ai_state a' = newActorState (ai_initialState a) /\ ai_restarts a' = ai_restarts a + 1 /\
      (ai_status a' = ActorRunningCode \/ is_Some (ai_startHook a) /\ halted a')
  | _ => ai_state a' = ai_state a /\ ai_restarts a' = ai_restarts a /\ halted a'
  end.

Lemma supervise_result fuel l a mid d batch r r' x :
  heap_ok r -> instance l r = Some a -> supervise fuel l (ai_id a) mid d batch r = Some (r', x) ->
  exists a', instance l r' = Some a' /\ failure_result d a a'.
Proof.
  intros Hh Hi H.
  assert (forall r1 a1 reason (f : Runtime -> Z) (g : Z -> Runtime -> Runtime),
    (forall n, runs_upd (g n)) -> heap_ok r1 -> instance l r1 = Some a1 ->
    (_ ← terminate fuel l (ai_id a);
     _ ← upd (match batch with
          | Some n => emitBatch (ai_id a) n BatchResultFailedSupervision reason
          | None => fun r => r end);
     n ← gets f; upd (g n)) r1 = Some (r', x) ->
    exists a', instance l r' = Some a' /\ halted a' /\ own_part a' = own_part a1) as Hterm.
  { intros r1 a1 reason f g Hg Hh1 Hi1 E. apply bind_inv in E as (r2 & u & Ht & E).
    destruct (terminate_halted _ _ _ _ _ _ _ Hh1 Hi1 Ht) as (a2 & Hi2 & Ha2 & Ho).
    apply runs_report in E; [|done].
    assert (heap_ok r2) as Hh2 by (eapply prims_heap_ok; [by eapply runs_terminate|done]).
    destruct (prims_halted _ _ _ _ E Hh2 Hi2 Ha2) as (a3 & ? & ? & Ho3). exists a3. split_and!; [done..|congruence]. }
  destruct d; cbn [supervise] in H;
    try (apply (Hterm _ _ _ _ _ (fun n => runs_emitDecision _ _ _ _ _ _ _) Hh Hi) in H as (a' & ? & ? & Ho);
         apply own_part_eq in Ho as (_ & ? & ? & _); by exists a').
  rewrite !upd_bind, restarting_steps in H. rewrite gets_bind in H.
  set (r1 := update_instance l restarting r) in *. set (r2 := bumpPID (ai_id a) r1) in *.
  assert (rt_actors r2 = rt_actors r1) as Ha by apply bumpPID_frame.
  assert (heap_ok r2) as Hh2 by (apply (heap_ok_actors r1); [done|by apply heap_ok_update]).
  assert (instance l r2 = Some (restarting a)) as Hi2.
  { unfold instance. rewrite Ha. fold (instance l r1). unfold r1. by rewrite instance_update_eq, Hi. }
  rewrite Hi2 in H. cbn [mbind option_bind] in H.
  apply bind_inv in H as (r3 & e & Hhook & H).
  pose proof (runs_runLifecycleHook _ _ _ _ _ _ Hhook) as H3.
  destruct (prims_instance _ _ _ _ H3 Hh2 Hi2) as (a3 & Hi3 & Ho3).
  pose proof (prims_heap_ok _ _ H3 Hh2) as Hh3.
  destruct e as [e|].
  - apply (Hterm _ _ _ _ _ (fun n => runs_emitDecision _ _ _ _ _ _ _) Hh3 Hi3) in H as (a' & Hi' & Ha' & Ho).
    rewrite Ho3 in Ho. apply own_part_eq in Ho as (_ & Es & Er & _). exists a'. split; [done|].
    cbn in Es, Er. split_and!; [done..|]. right. split; [|done].
    unfold runLifecycleHook in Hhook. change (ai_startHook (restarting a)) with (ai_startHook a) in Hhook.
    destruct (ai_startHook a); [eauto|]. by minv Hhook.
  - apply own_part_eq in Ho3 as (_ & Es & Er & _). cbn in Es, Er. minv H.
    exists (ai_set_status ActorRunningCode a3). split; [|split_and!; [done..|by left]].
    match goal with |- instance l (emitDecision _ _ _ _ _ _ _ ?q) = _ =>
      change (instance l q = Some (ai_set_status ActorRunningCode a3)) end.
    by rewrite instance_update_eq, Hi3.
Qed.

(** The instance and the policy's view of it after the handler ran. *)
Lemma failed_message fuel l msg inst r r1 res err r' x :
  heap_ok r -> instance l r = Some inst ->
  run_handler fuel (ai_handler inst) (as_value (ai_state inst)) msg r = Some (r1, res) ->
  handlerError res = Some err -> processMessage fuel l msg r = Some (r', x) ->
  exists inst', instance l r' = Some inst' /\
    failure_result (cf_policy (rt_cfg r) (ai_id inst) err (ai_restarts inst)) inst inst'.
Proof.
  intros Hh Hi Hrun He H. unfold processMessage in H. rewrite gets_bind, Hi in H. cbv zeta in H.
  unfold mbind at 1, M_bind at 1 in H. rewrite Hrun, He in H. apply runs_run_handler in Hrun as H1.
  destruct (prims_instance _ _ _ _ H1 Hh Hi) as (i1 & Hi1 & Ho). pose proof (prims_heap_ok _ _ H1 Hh) as Hh1.
  pose proof Ho as (Eid & Es & Ers & _)%own_part_eq.
  rewrite gets_bind, !upd_bind, (prims_cfg _ _ H1) in H.
  set (d := cf_policy (rt_cfg r) (ai_id inst) err (ai_restarts inst)) in *.
  set (r2 := emitDecision _ _ _ _ _ _ _ _) in H. rewrite <- Eid in H.
  apply (supervise_result fuel l (ai_set_lastDecision d i1)) in H as (a' & Hi' & Hf).
  - exists a'. split; [done|]. unfold own_part in Ho. injection Ho as _ _ Hini _ _ Hst _.
    destruct d; cbn in *; rewrite ?Es, ?Ers, ?Hini, ?Hst in Hf; done.
  - apply heap_ok_update, (heap_ok_actors r1); done.
  - rewrite instance_update_eq. unfold r2. change (instance l _) with (instance l r1). by rewrite Hi1.
Qed.

(** C7: Failures follow the supervision policy.  When the handler of a message
    returns an error or panics, the policy's decision for that error and restart
    count determines the instance: on restart it has its initial state again and
    one more restart, and runs, or is stopped because its start hook failed; on
    any other decision it keeps its state and is stopped, cancelled and closed. *)
Theorem failure_follows_policy fuel cfg d now r l msg inst r1 res err r' x :
  reachable fuel cfg d now r -> instance l r = Some inst ->
  run_handler fuel (ai_handler inst) (as_value (ai_state inst)) msg r = Some (r1, res) ->
  handlerError res = Some err -> processMessage fuel l msg r = Some (r', x) ->
  exists inst', instance l r' = Some inst' /\
    failure_result (cf_policy (rt_cfg r) (ai_id inst) err (ai_restarts inst)) inst inst'.
Proof.
  intros Hr. apply failed_message. by apply aok_heap, rok_actors, (reachable_ok fuel cfg d now).
Qed.

Lemma failure_follows_policy_witness :
  let r := run_schedule 2 two_actors in
  let msg := mkMessage 9 "a" "" (job (-1)) None "main.Job" "v1" 0 1 in
  exists inst r', instance 0 r = Some inst /\ processMessage 2 0 msg r = Some (r', tt) /\
  exists inst', instance 0 r' = Some inst' /\
    failure_result (cf_policy (rt_cfg r) (ai_id inst) "negative job" (ai_restarts inst)) inst inst'.
Proof.
  cbv zeta. eexists _, _. split; [vm_compute; reflexivity|]. split; [vm_compute; reflexivity|].
  eapply (failure_follows_policy 2 defaultConfig true 0 _ 0
    (mkMessage 9 "a" "" (job (-1)) None "main.Job" "v1" 0 1) _ (run_schedule 2 two_actors)
    (HRErr "negative job"%string)).
  - apply run_schedule_reachable. vm_compute. eexists. reflexivity.
  - vm_compute. reflexivity.
  - reflexivity.
  - reflexivity.
  - vm_compute. reflexivity.
Defined.

(** A processed message gives the actor the state its handler returned: when
    the handler succeeds with [next], processing completes, the state is [next]
    with the revision incremented, nothing else of the instance's own part
    changes, and the outcome store reports the message as delivered. *)
Theorem success_updates_state fuel cfg d now r l msg inst r1 next :
  reachable fuel cfg d now r -> instance l r = Some inst ->
  run_handler fuel (ai_handler inst) (as_value (ai_state inst)) msg r = Some (r1, HROk next) ->
  exists r' inst', processMessage fuel l msg r = Some (r', tt) /\ instance l r' = Some inst' /\
    own_part inst' = own_part (ai_set_state (as_apply next (ai_state inst)) inst) /\
    outcome_get (msg_ID msg) (ob_outcomes (rt_obs r')) =
      Some (mkProcessingOutcome (msg_ID msg) (ai_id inst) ResultDelivered (DecisionOther "") 0
              (rt_now r1) "").
Proof.
  intros Hr Hi Hrun. pose proof (reachable_ok _ _ _ _ _ Hr) as Hok.
  pose proof (aok_heap _ (rok_actors _ Hok)) as Hh. apply runs_run_handler in Hrun as H1.
  destruct (prims_instance _ _ _ _ H1 Hh Hi) as (i1 & Hi1 & Ho).
  eexists _, (ai_set_state (as_apply next (ai_state i1)) i1).
  unfold processMessage. rewrite gets_bind, Hi. unfold mbind at 1, M_bind at 1. rewrite Hrun.
  cbn [handlerError]. rewrite !upd_bind. split_and!; [reflexivity| | |].
  - match goal with |- instance l (emitLocal _ _ _ _ _ (putOutcome _ _ _ _ ?q)) = _ =>
      change (instance l q = Some (ai_set_state (as_apply next (ai_state i1)) i1)) end.
    by rewrite instance_update_eq, Hi1.
  - unfold own_part in *. cbn. injection Ho as -> -> -> -> -> -> ->. done.
  - cbn. unfold outcome_get. cbn. apply lookup_insert_eq.
Qed.

Lemma success_updates_state_witness :
  let r := run_schedule 2 two_actors in
  let msg := mkMessage 9 "a" "" (job 5) None "main.Job" "v1" 0 1 in
  exists inst, instance 0 r = Some inst /\
  exists r' inst', processMessage 2 0 msg r = Some (r', tt) /\ instance 0 r' = Some inst' /\
    own_part inst' = own_part (ai_set_state (as_apply (job 5) (ai_state inst)) inst) /\
    outcome_get (msg_ID msg) (ob_outcomes (rt_obs r')) =
      Some (mkProcessingOutcome (msg_ID msg) (ai_id inst) ResultDelivered (DecisionOther "") 0 (rt_now r) "").
Proof.
  cbv zeta. eexists. split; [vm_compute; reflexivity|].
  apply (success_updates_state 2 defaultConfig true 0).
  - apply run_schedule_reachable. vm_compute. eexists. reflexivity.
  - vm_compute. reflexivity.
  - reflexivity.
Defined.

(** ** Invariants over histories *)

Lemma step_gprims fuel r r' : step fuel r r' -> runtime_ok r -> exists l, gprims l r r'.
Proof.
  intros Hs Hok. destruct (step_cases _ _ _ Hs Hok) as [r' Hp|d Hd|l r' _ Hg].
  - exists 0%nat. by apply gprims_of_pprims, pprims_of_prims.
  - exists 0%nat. by apply rtc_once, g_quiet, g_tick.
  - by exists l.
Qed.

(** A property of new runtimes that every mutation of a well-formed state
    preserves holds in every reachable state. *)
Lemma reachable_invariant (P : Runtime -> Prop) fuel cfg d now r :
  P (NewRuntime cfg d now) -> (forall l a b, gprim l a b -> runtime_ok a -> P a -> P b) ->
  reachable fuel cfg d now r -> P r.
Proof.
  intros H0 Hstep Hr. apply (rtc_invariant (step fuel) (fun r => runtime_ok r /\ P r)) in Hr;
    [apply Hr| |split; [apply NewRuntime_ok|done]].
  intros a b Hs [Ha HP]. split; [by eapply step_runtime_ok|].
  destruct (step_gprims _ _ _ Hs Ha) as [l Hg]. clear Hs Hr.
  revert Ha HP. induction Hg as [|x y z Hx _ IH]; [done|]. intros Ha HP.
  apply IH; [by eapply gprim_runtime_ok|by eapply Hstep].
Qed.

(** Where an instance of the new state comes from. *)
Lemma prim_origin r r' l a' :
  prim r r' -> instance l r' = Some a' ->
  (exists a, instance l r = Some a /\ own_part a' = own_part a) \/ exists id, fresh_instance id a'.
Proof.
  intros Hp Hi.
  assert (forall r0, rt_actors r0 = rt_actors r -> instance l r0 = Some a' ->
    exists a, instance l r = Some a /\ own_part a' = own_part a) as Hsame.
  { intros r0 E H0. exists a'. split; [|done]. unfold instance in *. by rewrite <- E. }
  assert (forall f l0, (forall a, own_part (f a) = own_part a) ->
    instance l (update_instance l0 f r) = Some a' ->
    exists a, instance l r = Some a /\ own_part a' = own_part a) as Hupd.
  { intros f l0 Hf H0. rewrite instance_update in H0. destruct (decide _); [|by exists a'].
    destruct (instance l r) as [a|]; [|done]. cbn in H0. simplify_eq. by exists a. }
  destruct Hp; try (left; by eapply Hsame); try (left; eapply Hupd; [|done]; done).
  - left. eapply Hsame; [apply (bump_rrNext_frame id r)|done].
  - rewrite instance_put in Hi. destruct (decide _); [simplify_eq; eauto|left; by exists a'].
  - left. eapply Hsame; [apply (markPIDStopped_frame id r)|done].
  - left. eapply Hsame; [apply (routeAskReply_frame pid p msgID r)|done].
Qed.

Lemma gprim_cfg l r r' : gprim l r r' -> rt_cfg r' = rt_cfg r.
Proof.
  intros [Hq|msgs Ht]; [destruct Hq as [r r' Hp| | | | | |]|destruct Ht]; try done. destruct Hp; try done; [by apply prim_cfg|].
  apply bumpPID_frame.
Qed.

Lemma reachable_cfg fuel cfg d now r : reachable fuel cfg d now r -> rt_cfg r = cfg.
Proof.
  apply (reachable_invariant (fun r => rt_cfg r = cfg)); [done|].
  intros l a b Hg _ <-. by eapply gprim_cfg.
Qed.

(** Every instance satisfies a property of its own part. *)
Definition all_restarts (n : Z) (r : Runtime) : Prop :=
  forall l inst, instance l r = Some inst -> ai_restarts inst <= n.

Lemma all_restarts_update n l f r :
  (forall inst, instance l r = Some inst -> ai_restarts (f inst) <= n) ->
  all_restarts n r -> all_restarts n (update_instance l f r).
Proof.
  intros Hf Hn l' a'. rewrite instance_update. destruct (decide _) as [->|]; [|apply Hn].
  destruct (instance l r) as [a|] eqn:E; cbn; [|done]. intros. simplify_eq. by apply Hf.
Qed.

(** The restart limit of the default supervisor. *)
Definition restart_limit (s : DefaultSupervisor) : Z :=
  if ds_MaxRestarts s <? 0 then 1 else ds_MaxRestarts s.

Lemma default_restart s id err n :
  DefaultSupervisor_Decide s id err n = DecisionRestart <-> n < restart_limit s.
Proof.
  unfold DefaultSupervisor_Decide. fold (restart_limit s).
  destruct (Z.ltb_spec n (restart_limit s)); [by split|]. split; [|lia]. by case_decide.
Qed.

Lemma gprim_restarts s l r r' :
  cf_policy (rt_cfg r) = DefaultSupervisor_Decide s -> gprim l r r' ->
  all_restarts (restart_limit s) r -> all_restarts (restart_limit s) r'.
Proof.
  intros Hp Hg Hn.
  assert (0 <= restart_limit s) as H0 by (unfold restart_limit; destruct (Z.ltb_spec (ds_MaxRestarts s) 0); lia).
  assert (forall l f, (forall a, ai_restarts (f a) = ai_restarts a) ->
    all_restarts (restart_limit s) (update_instance l f r)) as Hupd.
  { intros l0 f Hf. apply all_restarts_update; [|done]. intros a Ha. rewrite Hf. by apply (Hn l0). }
  destruct Hg as [Hq|msgs Ht]; [destruct Hq as [r r' Hpp| | | | | |]|destruct Ht]; try (by apply Hupd); [|done].
  destruct Hpp as [r r' Hprim| | | | |]; try (by apply Hupd).
  - intros l' a' Ha'. destruct (prim_origin _ _ _ _ Hprim Ha') as [(a & Ha & Ho)|(id & Hf)].
    + apply own_part_eq in Ho as (_ & _ & -> & _). by apply (Hn l').
    + destruct Hf as (_ & _ & _ & _ & _ & -> & _). done.
  - apply all_restarts_update; [|done]. intros a Ha. simplify_eq. cbn.
    match goal with H : cf_policy _ _ _ _ = _ |- _ => rewrite Hp in H; apply default_restart in H end. lia.
  - intros l' a'. unfold instance. rewrite (proj1 (bumpPID_frame id r)). apply Hn.
Qed.

(** C17: Restarts are bounded.  With the default supervisor, no reachable state
    has an actor with more restarts than its limit ([MaxRestarts], or one when
    that is negative): an actor that keeps failing is stopped, not restarted
    for ever. *)
Theorem restarts_are_bounded fuel cfg d now r l inst s :
  cf_policy cfg = DefaultSupervisor_Decide s ->
  reachable fuel cfg d now r -> instance l r = Some inst ->
  0 <= ai_restarts inst <= restart_limit s.
Proof.
  intros Hp Hr Hi. pose proof (reachable_ok _ _ _ _ _ Hr) as Hok. split.
  { by apply (aok_instances _ (rok_actors _ Hok)) in Hi as []. }
  assert (rt_cfg r = cfg /\ all_restarts (restart_limit s) r) as [_ H]; [|by apply (H l)].
  revert Hr. apply (reachable_invariant (fun r => rt_cfg r = cfg /\ all_restarts (restart_limit s) r)).
  - split; [done|]. intros l' a. unfold instance. cbn. by rewrite lookup_empty.
  - intros l' a b Hg _ [<- Ha]. split; [by eapply gprim_cfg|]. by eapply gprim_restarts.
Qed.

Definition failing_actor : list action :=
  [DoApi (ACreateActor "a" (job 0) (Some accumulator) []); DoStart 0;
   DoApi (ASend "a" (job (-1))); DoApi (ASend "a" (job (-1))); DoWake 0; DoIter 0; DoIter 0].

Lemma restarts_are_bounded_witness :
  exists inst, instance 0 (run_schedule 2 failing_actor) = Some inst /\ ai_restarts inst = 1 /\
  ai_status inst = ActorStoppedCode /\ 0 <= ai_restarts inst <= restart_limit (mkDefaultSupervisor 1 (DecisionOther "")).
Proof.
  eexists. split; [vm_compute; reflexivity|]. split; [reflexivity|]. split; [reflexivity|].
  apply (restarts_are_bounded 2 defaultConfig true 0 (run_schedule 2 failing_actor) 0).
  - reflexivity.
  - apply run_schedule_reachable. vm_compute. eexists. reflexivity.
  - vm_compute. reflexivity.
Defined.

(** *** Event numbering *)

(** The emitted events are numbered from one, in order. *)
Definition events_ok (o : obsPart) : Prop :=
  ob_eventSeq o = u64 (Z.of_nat (length (ob_events o))) /\
  forall i e, ob_events o !! i = Some e -> ev_EventID e = u64 (Z.of_nat i + 1).

Lemma u64_succ_u64 z : u64_succ (u64 z) = u64 (z + 1).
Proof. unfold u64_succ, u64, u64_modulus. by rewrite Zplus_mod_idemp_l. Qed.

Lemma emitEvent_events_ok ev r :
  (forall n, ev_EventID (ev n) = n) -> events_ok (rt_obs r) -> events_ok (rt_obs (emitEvent ev r)).
Proof.
  intros Hev [Hs He]. unfold emitEvent. cbn. split; cbn.
  - rewrite Hs, u64_succ_u64, length_app. cbn. f_equal. lia.
  - intros i e. rewrite lookup_app_Some. intros [H|[Hi H]]; [by apply He|].
    apply list_lookup_singleton_Some in H as [H <-]. rewrite Hev, Hs, u64_succ_u64. f_equal. lia.
Qed.

Lemma routeAskReply_events_ok pid p m r :
  events_ok (rt_obs r) -> events_ok (rt_obs (routeAskReply pid p m r).1).
Proof.
  intros H. unfold routeAskReply.
  assert (forall a q t o c r0, rt_obs r0 = rt_obs r -> events_ok (rt_obs (emitAsk a q t o c r0)))
    as Hemit.
  { intros a q t o c r0 E. unfold emitAsk; cbv zeta.
    match goal with |- context [emitEvent ?ev r0] =>
      pose proof (emitEvent_events_ok ev r0 (fun n => eq_refl)) as Hev end.
    rewrite E in Hev. exact (Hev H). }
  repeat case_match; cbn [fst]; try done; by apply Hemit.
Qed.

Lemma gprim_events_ok l r r' : gprim l r r' -> events_ok (rt_obs r) -> events_ok (rt_obs r').
Proof.
  intros Hg H. destruct Hg as [Hq|msgs Ht]; [destruct Hq as [r r' Hp| | | | | |]|destruct Ht]; try done.
  destruct Hp as [r r' Hp| | | |id r|]; try done.
  - destruct Hp; try done.
    + by apply emitEvent_events_ok.
    + destruct (bump_rrNext_frame id r) as (_ & _ & _ & _ & _ & E & _). by rewrite E.
    + destruct (markPIDStopped_frame id r) as (_ & _ & _ & _ & _ & E & _). by rewrite E.
    + by apply routeAskReply_events_ok.
  - destruct (bumpPID_frame id r) as (_ & _ & _ & E & _). by rewrite E.
Qed.

(** Events are numbered without gaps or duplicates: in a reachable state
    the [i]-th event ever emitted carries the identifier [i] (modulo [2^64]),
    so subscribers can order events and detect losses. *)
Theorem events_are_numbered fuel cfg d now r i e :
  reachable fuel cfg d now r -> ob_events (rt_obs r) !! i = Some e ->
  ev_EventID e = u64 (Z.of_nat i + 1).
Proof.
  intros Hr. assert (events_ok (rt_obs r)) as [_ H]; [|apply H].
  revert Hr. apply (reachable_invariant (fun r => events_ok (rt_obs r))).
  - split; [reflexivity|]. intros j ev H. cbn in H. by destruct j.
  - intros l a b Hg _. by apply gprim_events_ok with l.
Qed.

Lemma events_are_numbered_witness :
  exists e, ob_events (rt_obs (run_schedule 2 failing_actor)) !! 3%nat = Some e /\
  ev_EventID e = u64 (Z.of_nat 3 + 1).
Proof.
  eexists. split; [vm_compute; reflexivity|].
  apply (events_are_numbered 2 defaultConfig true 0 (run_schedule 2 failing_actor) 3).
  - apply run_schedule_reachable. vm_compute. eexists. reflexivity.
  - vm_compute. reflexivity.
Defined.
