(* ===== verification/Machine.v ===== *)
(** * The abstract actor machine

    What the runtime promises its users, without identifiers, tables, routers,
    events, goroutine positions or the clock: actors with an inbox, a state, a
    status and a restart count, and a directory of names.  The machine moves by
    labelled steps, each with the guard it promises ("a message is accepted
    while the actor is not stopped and its inbox has room", "a goroutine that
    has returned takes nothing more").

    The file defines the machine, the abstraction of a runtime, and proves that
    every step of the running system is a trace of the machine whose labels are
    the caller's or those of the one goroutine that ran.  The theorem on
    histories reads an actor's whole life off the labels: what was accepted,
    what was taken, which states it went through. *)

From S2P Require Import Prelude Types Mailbox Resolver Registry Routing Outcomes Monitors PubSub.
From S2P Require Import Fnv Program State Emit Send Lifecycle Broker Cron Actor Prim System.
From S2P Require Import Invariants Scheduler Safety.

(** ** The machine *)

Record aactor := mkAactor {
  aa_id : string;
  aa_status : actorStatusCode;
  aa_inbox : Spec.queue;
  aa_state : actorState;
  aa_initial : payload;
  aa_restarts : Z;
  aa_alive : bool
}.

Record machine := mkMachine {
  ma_actors : gmap nat aactor;
  ma_directory : gmap string nat
}.

Definition empty_machine : machine := mkMachine ∅ ∅.

Definition with_status (s : actorStatusCode) (a : aactor) : aactor :=
  mkAactor (aa_id a) s (aa_inbox a) (aa_state a) (aa_initial a) (aa_restarts a) (aa_alive a).
Definition with_inbox (q : Spec.queue) (a : aactor) : aactor :=
  mkAactor (aa_id a) (aa_status a) q (aa_state a) (aa_initial a) (aa_restarts a) (aa_alive a).
Definition with_state (s : actorState) (a : aactor) : aactor :=
  mkAactor (aa_id a) (aa_status a) (aa_inbox a) s (aa_initial a) (aa_restarts a) (aa_alive a).

(** A new actor, its state initial and its inbox empty. *)
Definition spawn (id : string) (init : payload) (cap : Z) : aactor :=
  mkAactor id ActorStartingCode (Spec.new cap) (newActorState init) init 0 true.

(** An actor at its initial state once more. *)
Definition revive (a : aactor) : aactor :=
  mkAactor (aa_id a) ActorRestartCode (aa_inbox a) (newActorState (aa_initial a)) (aa_initial a)
    (aa_restarts a + 1) (aa_alive a).

(** Nothing is accepted any more; what is queued stays. *)
Definition shut (a : aactor) : aactor :=
  with_status ActorStoppedCode (with_inbox (Spec.stop (aa_inbox a)) a).

Definition bury (a : aactor) : aactor :=
  mkAactor (aa_id a) (aa_status a) (aa_inbox a) (aa_state a) (aa_initial a) (aa_restarts a) false.

Inductive label :=
  (* of any caller *)
  | Spawned (l : nat) (id : string) (init : payload) (cap : Z)
  | Removed (id : string)
  | Posted (l : nat) (msg : Message)
  | Stopping (l : nat)
  | Halted (l : nat)
  (* of the actor's goroutine *)
  | Took (l : nat) (msgs : list Message)
  | Became (l : nat) (next : payload)
  | Restarted (l : nat) (err : string)
  | Running (l : nat)
  | Ended (l : nat)
  | Exited (l : nat).

(** Whose label it is. *)
Definition owner (lb : label) : option nat :=
  match lb with
  | Spawned _ _ _ _ | Removed _ | Posted _ _ | Stopping _ | Halted _ => None
  | Took l _ | Became l _ | Restarted l _ | Running l | Ended l | Exited l => Some l
  end.

(** A caller's label, or one of the goroutine at [who]. *)
Definition permitted (who : option nat) (lb : label) : Prop := owner lb = None \/ owner lb = who.

Section machine.
Context (policy : SupervisorPolicy).

(** The change of one actor, with its guard. *)
Inductive astep (a : aactor) : label -> aactor -> Prop :=
  | a_posted l msg q :
      aa_status a <> ActorStoppedCode -> Spec.push msg (aa_inbox a) = (q, SubmitAccepted) ->
      astep a (Posted l msg) (with_inbox q a)
  | a_stopping l :
      aa_status a <> ActorStoppedCode -> astep a (Stopping l) (with_status ActorStoppingCode a)
  | a_halted l : astep a (Halted l) (shut a)
  | a_took l msgs rest :
      aa_alive a = true -> Spec.items (aa_inbox a) = msgs ++ rest ->
      astep a (Took l msgs)
        (with_inbox (Spec.mkQueue rest (Spec.capacity (aa_inbox a)) (Spec.stopped (aa_inbox a))) a)
  | a_became l next :
      aa_alive a = true -> astep a (Became l next) (with_state (as_apply next (aa_state a)) a)
  | a_restarted l err :
      aa_alive a = true -> policy (aa_id a) err (aa_restarts a) = DecisionRestart ->
      astep a (Restarted l err) (revive a)
  | a_running l : aa_alive a = true -> astep a (Running l) (with_status ActorRunningCode a)
  | a_ended l : aa_alive a = true -> astep a (Ended l) (with_status ActorStoppedCode a)
  | a_exited l :
      aa_alive a = true -> aa_status a = ActorStoppedCode -> astep a (Exited l) (bury a).

(** The actor a label changes. *)
Definition subject (lb : label) : option nat :=
  match lb with
  | Spawned _ _ _ _ | Removed _ => None
  | Posted l _ | Stopping l | Halted l | Took l _ | Became l _ | Restarted l _ | Running l
  | Ended l | Exited l => Some l
  end.

Inductive mstep (m : machine) : label -> machine -> Prop :=
  | m_spawned l id init cap :
      ma_actors m !! l = None -> ma_directory m !! id = None -> id <> ""%string ->
      mstep m (Spawned l id init cap)
        (mkMachine (<[l := spawn id init cap]> (ma_actors m)) (<[id := l]> (ma_directory m)))
  | m_removed id l a :
      ma_directory m !! id = Some l -> ma_actors m !! l = Some a ->
      aa_status a = ActorStoppedCode ->
      mstep m (Removed id) (mkMachine (ma_actors m) (delete id (ma_directory m)))
  | m_actor lb l a a' :
      subject lb = Some l -> ma_actors m !! l = Some a -> astep a lb a' ->
      mstep m lb (mkMachine (<[l := a']> (ma_actors m)) (ma_directory m)).

(** A trace: the labels of a sequence of steps, oldest first. *)
Inductive mtrace (m : machine) : list label -> machine -> Prop :=
  | mt_nil : mtrace m [] m
  | mt_cons lb tr m1 m2 : mstep m lb m1 -> mtrace m1 tr m2 -> mtrace m (lb :: tr) m2.

Lemma mtrace_app m1 tr1 m2 tr2 m3 : mtrace m1 tr1 m2 -> mtrace m2 tr2 m3 -> mtrace m1 (tr1 ++ tr2) m3.
Proof. induction 1; intros; [done|]. cbn. econstructor; eauto. Qed.

Lemma mtrace_once m lb m' : mstep m lb m' -> mtrace m [lb] m'.
Proof. intros. econstructor; [done|constructor]. Qed.

(** ** Histories *)

(** What was accepted for the actor at [l], and what its goroutine took. *)
Fixpoint posted (l : nat) (tr : list label) : list Message :=
  match tr with
  | [] => []
  | Posted l' msg :: tr => if decide (l' = l) then msg :: posted l tr else posted l tr
  | _ :: tr => posted l tr
  end.

Fixpoint taken (l : nat) (tr : list label) : list Message :=
  match tr with
  | [] => []
  | Took l' msgs :: tr => if decide (l' = l) then msgs ++ taken l tr else taken l tr
  | _ :: tr => taken l tr
  end.

(** The states a trace puts the actor at [l] into, one after the other. *)
Definition replay_label (l : nat) (init : payload) (s : actorState) (lb : label) : actorState :=
  match lb with
  | Became l' next => if decide (l' = l) then as_apply next s else s
  | Restarted l' _ => if decide (l' = l) then newActorState init else s
  | _ => s
  end.

Definition replay (l : nat) (init : payload) (tr : list label) : actorState :=
  fold_left (replay_label l init) tr (newActorState init).

Definition is_restart (l : nat) (lb : label) : bool :=
  match lb with Restarted l' _ => bool_decide (l' = l) | _ => false end.

(** How often the trace restarts the actor at [l]. *)
Definition restarts_of (l : nat) (tr : list label) : Z :=
  Z.of_nat (length (List.filter (is_restart l) tr)).

Definition is_answer (l : nat) (lb : label) : bool :=
  match lb with
  | Became l' _ | Restarted l' _ => bool_decide (l' = l)
  | _ => false
  end.

(** How often the trace replaces the state of the actor at [l]. *)
Definition answers_of (l : nat) (tr : list label) : nat := length (List.filter (is_answer l) tr).

(** Once its goroutine has returned, nothing is done in its name. *)
Definition silent_after_exit (l : nat) (tr : list label) : Prop :=
  forall tr1 tr2, tr = tr1 ++ Exited l :: tr2 -> Forall (fun lb => owner lb <> Some l) tr2.

(** The life of an actor, read off a trace. *)
Record life (l : nat) (tr : list label) (a : aactor) : Prop := {
  lf_messages : posted l tr = taken l tr ++ Spec.items (aa_inbox a);
  lf_bounded : Z.of_nat (length (Spec.items (aa_inbox a))) <= Spec.capacity (aa_inbox a);
  lf_state : aa_state a = replay l (aa_initial a) tr;
  lf_restarts : aa_restarts a = restarts_of l tr;
  lf_spawned : exists cap, Spawned l (aa_id a) (aa_initial a) cap ∈ tr;
  lf_exited : Exited l ∈ tr -> aa_alive a = false;
  lf_final : silent_after_exit l tr
}.

Lemma posted_app l tr1 tr2 : posted l (tr1 ++ tr2) = posted l tr1 ++ posted l tr2.
Proof. induction tr1 as [|[] tr1 IH]; cbn; try done. case_decide; by rewrite IH. Qed.

Lemma taken_app l tr1 tr2 : taken l (tr1 ++ tr2) = taken l tr1 ++ taken l tr2.
Proof. induction tr1 as [|[] tr1 IH]; cbn; try done. case_decide; by rewrite IH, ?app_assoc. Qed.

Lemma replay_snoc l init tr lb : replay l init (tr ++ [lb]) = replay_label l init (replay l init tr) lb.
Proof. unfold replay. by rewrite fold_left_app. Qed.

Lemma restarts_snoc l tr lb :
  restarts_of l (tr ++ [lb]) = restarts_of l tr + (if is_restart l lb then 1 else 0).
Proof.
  unfold restarts_of. rewrite List.filter_app, length_app. cbn. destruct (is_restart l lb); cbn; lia.
Qed.

Lemma silent_snoc l tr lb :
  silent_after_exit l tr -> (Exited l ∈ tr -> owner lb <> Some l) -> silent_after_exit l (tr ++ [lb]).
Proof.
  intros Hs Hlb tr1 tr2. destruct tr2 as [|x tr2 _] using rev_ind; [done|].
  intros E. change (Exited l :: tr2 ++ [x]) with ((Exited l :: tr2) ++ [x]) in E.
  rewrite app_assoc in E. apply app_inj_tail in E as [-> ->]. apply Forall_app. split; [by eapply Hs|].
  apply Forall_singleton, Hlb, elem_of_app. right. apply elem_of_cons. by left.
Qed.

Lemma owner_subject lb l : owner lb = Some l -> subject lb = Some l.
Proof. by destruct lb. Qed.

(** A label about another actor is no part of an actor's life. *)
Lemma life_other l tr lb a : subject lb <> Some l -> life l tr a -> life l (tr ++ [lb]) a.
Proof.
  intros Hne [Hm Hb Hs Hr [cap Hin] Hx Hf]. split; try done.
  - rewrite posted_app, taken_app, Hm. destruct lb; cbn in *; rewrite ?app_nil_r; try done;
      case_decide; subst; rewrite ?app_nil_r; done.
  - rewrite replay_snoc, <- Hs. destruct lb; cbn in *; try done; case_decide; by subst.
  - rewrite restarts_snoc, Hr. destruct lb; cbn in *; try lia.
    destruct (bool_decide_reflect (l0 = l)); [by subst|lia].
  - exists cap. apply elem_of_app. by left.
  - rewrite elem_of_app, list_elem_of_singleton. intros [H|<-]; [by apply Hx|done].
  - apply silent_snoc; [done|]. intros _ E. by apply owner_subject in E.
Qed.

Lemma push_accepted msg q q' :
  Spec.push msg q = (q', SubmitAccepted) ->
  Spec.items q' = Spec.items q ++ [msg] /\ Spec.capacity q' = Spec.capacity q /\
  Z.of_nat (length (Spec.items q)) < Spec.capacity q.
Proof.
  unfold Spec.push. destruct (Spec.stopped q); [done|].
  destruct (Z.leb_spec (Spec.capacity q) (Z.of_nat (length (Spec.items q)))); [done|].
  intros. by simplify_eq.
Qed.

(** What a goroutine does, it does alive. *)
Lemma astep_alive a lb a' :
  astep a lb a' ->
  (forall l, owner lb = Some l -> aa_alive a = true) /\
  (aa_alive a' = false -> aa_alive a = false \/ exists l, lb = Exited l).
Proof. destruct 1; cbn; split; eauto; try done; intros E; rewrite H in E; done. Qed.

(** A step of an actor continues its life. *)
Lemma life_astep l tr lb a a' :
  subject lb = Some l -> astep a lb a' -> life l tr a -> life l (tr ++ [lb]) a'.
Proof.
  intros Hl Ha [Hm Hb Hs Hr [cap Hin] Hx Hf]. destruct (astep_alive _ _ _ Ha) as [Hown Hdead].
  assert (exists cap, Spawned l (aa_id a) (aa_initial a) cap ∈ tr ++ [lb]) as Hsp.
  { exists cap. apply elem_of_app. by left. }
  assert (silent_after_exit l (tr ++ [lb])) as Hsil.
  { apply silent_snoc; [done|]. intros Hin' E. apply Hown in E. rewrite Hx in E; done. }
  assert (Exited l ∈ tr ++ [lb] -> aa_alive a' = false) as Hex.
  { rewrite elem_of_app, list_elem_of_singleton. intros [H|<-]; [apply Hx in H|by inversion Ha].
    destruct Ha; cbn; congruence. }
  clear Hown Hdead Hx Hf Hin.
  destruct Ha; cbn in Hl; simplify_eq; split; try done;
    rewrite ?posted_app, ?taken_app, ?replay_snoc, ?restarts_snoc; cbn;
    rewrite ?app_nil_r, ?decide_True, ?bool_decide_eq_true_2 by done;
    rewrite ?Z.add_0_r; try done; try congruence.
  - apply push_accepted in H0 as (-> & _). by rewrite Hm, app_assoc.
  - apply push_accepted in H0 as (-> & -> & ?). rewrite length_app. cbn. lia.
  - by rewrite Hm, H0, app_assoc.
  - rewrite H0, length_app in Hb. lia.
Qed.

(** A location no label is about. *)
Lemma life_spawn l tr id init cap :
  Forall (fun lb => subject lb <> Some l) tr ->
  life l (tr ++ [Spawned l id init cap]) (spawn id init cap).
Proof.
  intros Hn.
  assert (posted l tr = [] /\ taken l tr = [] /\ restarts_of l tr = 0 /\
    replay l init tr = newActorState init /\ Exited l ∉ tr) as (H1 & H2 & H3 & H4 & H5).
  { induction tr as [|lb tr IH] using rev_ind; [split_and!; try done; apply not_elem_of_nil|].
    apply Forall_app in Hn as [Hn [Hlb _]%Forall_cons]. destruct (IH Hn) as (H1 & H2 & H3 & H4 & H5).
    rewrite posted_app, taken_app, restarts_snoc, replay_snoc, H1, H2, H3, H4.
    rewrite elem_of_app, list_elem_of_singleton.
    destruct lb; cbn in *; split_and!; try done; try (by intros [|[= ->]]);
      rewrite ?decide_False, ?bool_decide_eq_false_2 by congruence; done. }
  split; cbn; rewrite ?posted_app, ?taken_app, ?H1, ?H2; try done.
  - destruct (Z.leb_spec cap 0); lia.
  - by rewrite replay_snoc, H4.
  - by rewrite restarts_snoc, H3.
  - exists cap. apply elem_of_app. right. by apply list_elem_of_singleton.
  - rewrite elem_of_app, list_elem_of_singleton. by intros [|].
  - apply silent_snoc; [|done]. intros tr1 tr2 ->. destruct H5. apply elem_of_app. right.
    apply elem_of_cons. by left.
Qed.

(** *** Every trace from the empty machine *)

(** Every actor has its life, and unused locations none. *)
Record history (tr : list label) (m : machine) : Prop := {
  hi_life l a : ma_actors m !! l = Some a -> life l tr a;
  hi_fresh l : ma_actors m !! l = None -> Forall (fun lb => subject lb <> Some l) tr
}.

Lemma history_step tr m lb m' : mstep m lb m' -> history tr m -> history (tr ++ [lb]) m'.
Proof.
  intros Hs [Hl Hf].
  assert (forall l', subject lb <> Some l' -> ma_actors m !! l' = None ->
    Forall (fun lb => subject lb <> Some l') (tr ++ [lb])) as Hfresh.
  { intros l' Hne H. apply Forall_app. split; [by apply Hf|by apply Forall_singleton]. }
  destruct Hs as [l id init cap Hn Hd Hid|id l a Hd Ha Hst|lb l a a' Hsub Ha Has]; split; cbn.
  - intros l' a. rewrite lookup_insert_Some. intros [[<- <-]|[Hne H]];
      [by apply life_spawn, Hf|by apply life_other; [|apply Hl]].
  - intros l' H%lookup_insert_None. apply Hfresh; [done|apply H].
  - intros l' a' H. apply life_other; [done|by apply Hl].
  - intros l' H. by apply Hfresh.
  - intros l' b. rewrite lookup_insert_Some. intros [[<- <-]|[Hne H]].
    + eapply life_astep; [done..|by apply Hl].
    + apply life_other; [congruence|by apply Hl].
  - intros l' H%lookup_insert_None. apply Hfresh; [|apply H]. destruct H. congruence.
Qed.

Lemma history_trace tr0 m tr m' : mtrace m tr m' -> history tr0 m -> history (tr0 ++ tr) m'.
Proof.
  intros Ht. revert tr0. induction Ht as [m|m lb tr m1 m2 Hs _ IH]; intros tr0 H0.
  - by rewrite app_nil_r.
  - change (lb :: tr) with ([lb] ++ tr). rewrite app_assoc. apply IH. by eapply history_step.
Qed.

Lemma history_empty : history [] empty_machine.
Proof. split; intros l; cbn; [intros a; by rewrite lookup_empty|constructor]. Qed.
End machine.

(** ** The abstraction of a runtime *)

Definition abs_actor (a : actorInstance) : aactor :=
  mkAactor (ai_id a) (ai_status a) (abs (ai_mailbox a)) (ai_state a) (ai_initialState a)
    (ai_restarts a) (negb (bool_decide (ai_go a = GoExited))).

Definition abs_machine (r : Runtime) : machine :=
  mkMachine (abs_actor <$> ap_heap (rt_actors r)) (ap_registry (rt_actors r)).

(** [moves who r tr r']: what [who] (a caller, or the goroutine of an instance)
    does to [r] is the trace [tr]. *)
Record moves (who : option nat) (r : Runtime) (tr : list label) (r' : Runtime) : Prop := {
  mv_trace : mtrace (cf_policy (rt_cfg r)) (abs_machine r) tr (abs_machine r');
  mv_owner : Forall (permitted who) tr;
  mv_cfg : rt_cfg r' = rt_cfg r
}.

Lemma abs_machine_actors r r' : rt_actors r' = rt_actors r -> abs_machine r' = abs_machine r.
Proof. unfold abs_machine. by intros ->. Qed.

Lemma abs_machine_lookup l r : ma_actors (abs_machine r) !! l = abs_actor <$> instance l r.
Proof. apply lookup_fmap. Qed.

Lemma abs_machine_update l f a r :
  instance l r = Some a ->
  abs_machine (update_instance l f r) =
    mkMachine (<[l := abs_actor (f a)]> (ma_actors (abs_machine r))) (ma_directory (abs_machine r)).
Proof.
  intros Ha. unfold abs_machine. f_equal. cbn. apply map_eq. intros l'. rewrite lookup_fmap.
  destruct (decide (l' = l)) as [->|Hne].
  - rewrite lookup_insert_eq, lookup_alter_eq. unfold instance in Ha. by rewrite Ha.
  - by rewrite lookup_insert_ne, lookup_alter_ne, lookup_fmap by done.
Qed.

Lemma abs_machine_same l f r :
  (forall a, instance l r = Some a -> abs_actor (f a) = abs_actor a) ->
  abs_machine (update_instance l f r) = abs_machine r.
Proof.
  intros Hf. unfold abs_machine. f_equal. cbn. apply map_eq. intros l'. rewrite !lookup_fmap.
  destruct (decide (l' = l)) as [->|Hne].
  - rewrite lookup_alter_eq. unfold instance in Hf. destruct (ap_heap _ !! l) as [a|] eqn:E; [|done].
    cbn. by rewrite Hf.
  - by rewrite lookup_alter_ne.
Qed.

Lemma moves_silent who r r' : abs_machine r' = abs_machine r -> rt_cfg r' = rt_cfg r -> moves who r [] r'.
Proof. intros E Ec. split; [rewrite E; constructor|constructor|done]. Qed.

Lemma moves_app who r1 tr1 r2 tr2 r3 :
  moves who r1 tr1 r2 -> moves who r2 tr2 r3 -> moves who r1 (tr1 ++ tr2) r3.
Proof.
  intros [H1 O1 C1] [H2 O2 C2]. split; [|by apply Forall_app|congruence].
  eapply mtrace_app; [exact H1|]. by rewrite <- C1.
Qed.

Lemma moves_who r tr r' who : moves None r tr r' -> moves who r tr r'.
Proof.
  intros [H O C]. split; [done| |done]. eapply Forall_impl; [exact O|]. intros lb [E|E]; by left.
Qed.

(** One instance changes as the machine lets it. *)
Lemma moves_update who l f lb a r :
  instance l r = Some a -> astep (cf_policy (rt_cfg r)) (abs_actor a) lb (abs_actor (f a)) ->
  subject lb = Some l -> permitted who lb -> moves who r [lb] (update_instance l f r).
Proof.
  intros Ha Hs Hl Hp. split; [|by apply Forall_singleton|done]. apply mtrace_once.
  rewrite (abs_machine_update l f a) by done. eapply m_actor; [done| |exact Hs].
  by rewrite abs_machine_lookup, Ha.
Qed.

(** An update that the machine does not see. *)
Lemma moves_unseen who l f r :
  (forall a, abs_actor (f a) = abs_actor a) -> moves who r [] (update_instance l f r).
Proof. intros Hf. apply moves_silent; [|done]. by apply abs_machine_same. Qed.

Lemma moves_actors who r r' : rt_actors r' = rt_actors r -> rt_cfg r' = rt_cfg r -> moves who r [] r'.
Proof. intros E. by apply moves_silent, abs_machine_actors. Qed.

(** ** Every mutation is a move *)

Lemma abs_set_mailbox mb a : abs_actor (ai_set_mailbox mb a) = with_inbox (abs mb) (abs_actor a).
Proof. done. Qed.

Lemma enqueue_moves l inst msg r :
  instance l r = Some inst -> ai_status inst <> ActorStoppedCode -> mailbox_ok (ai_mailbox inst) ->
  exists tr, moves None r tr (update_instance l (ai_set_mailbox (Enqueue msg (ai_mailbox inst)).1) r).
Proof.
  intros Hi Hst Hok. pose proof (Enqueue_refines msg _ Hok) as E.
  assert (forall res, Spec.push msg (abs (ai_mailbox inst)) = (abs (ai_mailbox inst), res) ->
    exists tr, moves None r tr
      (update_instance l (ai_set_mailbox (Enqueue msg (ai_mailbox inst)).1) r)) as Hsame.
  { intros res E'. exists []. apply moves_silent; [|done]. apply abs_machine_same. intros a Ha.
    rewrite E' in E. apply (f_equal fst) in E. cbn [fst] in E.
    assert (a = inst) as -> by congruence. by rewrite abs_set_mailbox, <- E. }
  destruct (Enqueue msg (ai_mailbox inst)) as [mb res]. cbn [fst snd] in *.
  destruct (decide (res = SubmitAccepted)) as [->|Hne].
  - exists [Posted l msg]. apply (moves_update _ _ _ _ inst); [done| |done|by left].
    by apply a_posted.
  - revert E Hsame. unfold Spec.push. destruct (Spec.stopped _); [|destruct (_ <=? _)];
      intros E Hsame; simplify_eq; by eapply Hsame.
Qed.

Lemma create_moves id inst r :
  lookup_actor id r = None -> fresh_instance id inst -> heap_ok r ->
  exists tr, moves None r tr (put_instance id inst r).
Proof.
  intros Hd (Hid & <- & Hst & [c Hm] & Hs & Hr & _ & Hg) Hh.
  exists [Spawned (ap_next (rt_actors r)) (ai_id inst) (ai_initialState inst) c].
  split; [|apply Forall_singleton; by left|done]. apply mtrace_once.
  assert (abs_machine (put_instance (ai_id inst) inst r) =
    mkMachine (<[ap_next (rt_actors r) := spawn (ai_id inst) (ai_initialState inst) c]>
                 (ma_actors (abs_machine r)))
              (<[ai_id inst := ap_next (rt_actors r)]> (ma_directory (abs_machine r)))) as ->.
  { unfold abs_machine. cbn. f_equal. rewrite fmap_insert. f_equal.
    unfold abs_actor, spawn. by rewrite Hst, Hm, Hs, Hr, Hg. }
  apply m_spawned; [|done|done]. rewrite abs_machine_lookup.
  destruct (instance (ap_next (rt_actors r)) r) as [a|] eqn:E; [|done]. apply Hh in E. lia.
Qed.

Lemma prim_moves r r' : prim r r' -> actors_ok r -> exists tr, moves None r tr r'.
Proof.
  intros Hp Hok. pose proof (prim_cfg _ _ Hp) as Hc. destruct Hp; try (by exists []; apply moves_actors).
  - exists []. by apply moves_actors; [apply bump_rrNext_frame|].
  - apply enqueue_moves; [done..|]. by apply (iok_mailbox _ (aok_instances _ Hok l inst H)).
  - exists []. by apply moves_unseen.
  - by apply create_moves; [| |apply aok_heap].
  - exists [Removed id]. split; [|apply Forall_singleton; by left|done]. apply mtrace_once.
    unfold actor_of in H. destruct (lookup_actor id r) as [l|] eqn:El; [|done]. cbn in H.
    change (abs_machine (drop_actor id r)) with
      (mkMachine (ma_actors (abs_machine r)) (delete id (ma_directory (abs_machine r)))).
    apply (m_removed _ _ id l (abs_actor inst)); [done| |done]. by rewrite abs_machine_lookup, H.
  - exists [Stopping l]. apply (moves_update _ _ _ _ inst); [done| |done|by left]. by apply a_stopping.
  - destruct (instance l r) as [a|] eqn:E.
    + exists [Halted l]. apply (moves_update _ _ _ _ a); [done|apply a_halted|done|by left].
    + exists []. apply moves_silent; [|done]. apply abs_machine_same. intros a Ha. congruence.
  - exists []. by apply moves_actors; [apply markPIDStopped_frame|].
  - exists []. by apply moves_actors; [apply routeAskReply_frame|].
Qed.

(** Who is not the goroutine at [l] takes and answers nothing in its name. *)
Lemma moves_others who l tr r r' :
  moves who r tr r' -> who <> Some l -> answers_of l tr = 0%nat /\ taken l tr = [].
Proof.
  intros [_ O _] Hne. clear -O Hne. unfold answers_of.
  induction O as [|lb tr Hp _ [IH1 IH2]]; [done|]. cbn [List.filter].
  assert (is_answer l lb = false) as ->.
  { destruct Hp as [H|H]; destruct lb; cbn in *; try done; apply bool_decide_eq_false_2; congruence. }
  split; [done|]. destruct Hp as [H|H]; destruct lb; cbn in *; try done.
  rewrite decide_False; [done|congruence].
Qed.

(** ** Every mutation of a goroutine is a move of its own *)

(** Nothing is taken, and there is at most one answer, none when the state is
    not replaced. *)
Record quiet_trace (l : nat) (r : Runtime) (tr : list label) (r' : Runtime) : Prop := {
  qt_taken : taken l tr = [];
  qt_answers : (answers_of l tr <= 1)%nat;
  qt_replaced : replaceable l r' = replaceable l r -> answers_of l tr = 0%nat
}.

Lemma quiet_answers l r tr r' :
  answers_of l tr = 0%nat -> taken l tr = [] -> quiet_trace l r tr r'.
Proof. intros E1 E2. split; [done|lia|done]. Qed.

(** A label of a goroutine that takes nothing. *)
Definition is_take (lb : label) : bool := match lb with Took _ _ => true | _ => false end.

Lemma taken_single l lb : is_take lb = false -> taken l [lb] = [].
Proof. by destruct lb. Qed.

(** An instance at work is alive. *)
Lemma abs_alive a : ai_go a <> GoExited -> aa_alive (abs_actor a) = true.
Proof. intros H. cbn. by rewrite bool_decide_eq_false_2. Qed.

(** The goroutine changes its own instance as the machine lets it. *)
Lemma own_move l f lb a r :
  instance l r = Some a -> astep (cf_policy (rt_cfg r)) (abs_actor a) lb (abs_actor (f a)) ->
  owner lb = Some l -> moves (Some l) r [lb] (update_instance l f r).
Proof. intros Ha Hs Ho. eapply moves_update; [done..|by apply owner_subject|by right]. Qed.

Lemma answer_move l f lb a r :
  instance l r = Some a -> astep (cf_policy (rt_cfg r)) (abs_actor a) lb (abs_actor (f a)) ->
  owner lb = Some l -> is_take lb = false ->
  (ai_state (f a), ai_restarts (f a)) <> (ai_state a, ai_restarts a) ->
  exists tr, moves (Some l) r tr (update_instance l f r) /\ quiet_trace l r tr (update_instance l f r).
Proof.
  intros Ha Hs Ho Ht Hne. exists [lb]. split; [by eapply own_move|]. split.
  - by apply taken_single.
  - unfold answers_of. cbn. destruct (is_answer l lb); cbn; lia.
  - unfold replaceable. rewrite instance_update_eq, Ha. cbn. intros E. congruence.
Qed.

Lemma quiet_move l f lb a r :
  instance l r = Some a -> astep (cf_policy (rt_cfg r)) (abs_actor a) lb (abs_actor (f a)) ->
  owner lb = Some l -> is_take lb = false -> is_answer l lb = false ->
  exists tr, moves (Some l) r tr (update_instance l f r) /\ quiet_trace l r tr (update_instance l f r).
Proof.
  intros Ha Hs Ho Ht Hn. exists [lb]. split; [by eapply own_move|].
  apply quiet_answers; [|by apply taken_single]. unfold answers_of. cbn. by rewrite Hn.
Qed.

Lemma silent_move l r r' :
  moves (Some l) r [] r' -> exists tr, moves (Some l) r tr r' /\ quiet_trace l r tr r'.
Proof. intros H. exists []. split; [done|by apply quiet_answers]. Qed.

Lemma pprim_moves l r r' :
  pprim l r r' -> actors_ok r -> exists tr, moves (Some l) r tr r' /\ quiet_trace l r tr r'.
Proof.
  intros Hp Hok. destruct Hp as [r r' Hp|inst next r Hi Hg|d r|inst err r Hi Hg Hd|id r|inst r Hi Hg].
  - destruct (prim_moves _ _ Hp Hok) as [tr H]. exists tr. split; [by apply moves_who|].
    by apply quiet_answers; eapply moves_others.
  - apply (answer_move l _ (Became l next) inst); [done| |done|done|].
    + apply a_became. by apply abs_alive.
    + intros E. apply (f_equal (fun x => as_revision x.1)) in E. cbn in E. lia.
  - by apply silent_move, moves_unseen.
  - apply (answer_move l _ (Restarted l err) inst); [done| |done|done|].
    + by apply a_restarted; [apply abs_alive|].
    + intros E. apply (f_equal snd) in E. cbn in E. lia.
  - destruct (bumpPID_frame id r) as (E & Ec & _). by apply silent_move, moves_actors.
  - apply (quiet_move l _ (Running l) inst); [done| |done..]. apply a_running. by apply abs_alive.
Qed.

(** What a dequeue takes is the front of the inbox. *)
Lemma takes_moves l msgs r r' : takes l msgs r r' -> actors_ok r -> moves (Some l) r [Took l msgs] r'.
Proof.
  intros Ht Hok. destruct Ht as [inst r Hi Hg|inst n r Hi Hg];
    pose proof (iok_mailbox _ (aok_instances _ Hok _ _ Hi)) as Hmb;
    (apply own_move with inst; [done| |done]); rewrite abs_set_mailbox;
    assert (aa_alive (abs_actor inst) = true) as Ha by (apply abs_alive; congruence).
  - destruct (Dequeue_spec _ Hmb) as [_ E]. unfold Spec.pop in E.
    destruct (Dequeue (ai_mailbox inst)) as [mb res]. cbn [fst snd] in *.
    destruct (Spec.items (abs (ai_mailbox inst))) as [|msg rest] eqn:Ei;
      apply pair_equal_spec in E as [<- <-].
    + pose proof (a_took (cf_policy (rt_cfg r)) (abs_actor inst) l [] [] Ha Ei) as H.
      replace (abs (ai_mailbox inst)) with (Spec.mkQueue [] (Spec.capacity (aa_inbox (abs_actor inst)))
        (Spec.stopped (aa_inbox (abs_actor inst)))); [done|].
      unfold abs in *. cbn in *. by rewrite Ei.
    + by apply (a_took _ (abs_actor inst) l [msg] rest).
  - destruct (DequeueBatch_spec n _ Hmb) as [_ E]. unfold Spec.pop_many in E.
    destruct (DequeueBatch n (ai_mailbox inst)) as [mb res]. cbn [fst snd] in *.
    apply pair_equal_spec in E as [<- <-]. apply (a_took _ (abs_actor inst)); [done|].
    by rewrite take_drop.
Qed.

Lemma taken_took l msgs : taken l [Took l msgs] = msgs.
Proof. cbn. by rewrite decide_True, app_nil_r. Qed.

Lemma gquiet_moves l r r' :
  gquiet l r r' -> actors_ok r -> exists tr, moves (Some l) r tr r' /\ quiet_trace l r tr r'.
Proof.
  intros Hp Hok.
  destruct Hp as [r r' Hp|d r Hd|inst mb r Hi Hg Ht|inst r Hi Hg|inst r Hi Hg|inst r Hi Hg Hd|inst r Hi Hg Hs].
  - by apply pprim_moves.
  - by apply silent_move, moves_actors.
  - apply silent_move, moves_silent; [|done]. apply abs_machine_same. intros a Ha.
    assert (a = inst) as -> by congruence. unfold take_token in Ht.
    destruct (mb_notify (ai_mailbox inst)); [|done]. simplify_eq. unfold abs_actor, abs. cbn.
    by rewrite Hg.
  - apply (quiet_move l _ (Ended l) inst); [done| |done..]. apply a_ended. by apply abs_alive.
  - apply silent_move, moves_silent; [|done]. apply abs_machine_same. intros a Ha.
    assert (a = inst) as -> by congruence. unfold abs_actor. cbn. by rewrite Hg.
  - apply silent_move, moves_silent; [|done]. apply abs_machine_same. intros a Ha.
    assert (a = inst) as -> by congruence. unfold abs_actor. cbn. by rewrite Hg.
  - apply (quiet_move l _ (Exited l) inst); [done| |done..]. apply a_exited; [by apply abs_alive|done].
Qed.

Lemma answers_app l tr1 tr2 : answers_of l (tr1 ++ tr2) = (answers_of l tr1 + answers_of l tr2)%nat.
Proof. unfold answers_of. by rewrite List.filter_app, length_app. Qed.

(** The moves of a goroutine take what they take, and answer that and [n]
    messages more. *)
Lemma gspends_moves l n ms r r' :
  gspends l n ms r r' -> actors_ok r ->
  exists tr, moves (Some l) r tr r' /\ taken l tr = ms /\ (answers_of l tr <= n + length ms)%nat.
Proof.
  induction 1 as [n r|n ms r1 r2 r3 H E _ IH|n ms r1 r2 r3 H _ IH|n msgs ms r1 r2 r3 H _ IH]; intros Hok.
  - exists []. split; [by apply moves_silent|split; [done|cbn; lia]].
  - destruct (gquiet_moves _ _ _ H Hok) as (tr1 & H1 & [T1 _ A1]). specialize (A1 E).
    destruct IH as (tr2 & H2 & T2 & A2); [by eapply gquiet_actors_ok|]. exists (tr1 ++ tr2).
    split; [by eapply moves_app|]. rewrite answers_app, taken_app, T1, T2. split; [done|lia].
  - destruct (pprim_moves _ _ _ H Hok) as (tr1 & H1 & [T1 A1 _]).
    destruct IH as (tr2 & H2 & T2 & A2); [by eapply pprim_actors_ok|]. exists (tr1 ++ tr2).
    split; [by eapply moves_app|]. rewrite answers_app, taken_app, T1, T2. split; [done|lia].
  - pose proof (takes_moves _ _ _ _ H Hok) as H1.
    destruct IH as (tr2 & H2 & T2 & A2); [by eapply takes_actors_ok|].
    exists ([Took l msgs] ++ tr2). split; [by eapply moves_app|].
    rewrite answers_app, taken_app, length_app, taken_took, T2. cbn [answers_of is_answer List.filter length].
    split; [done|lia].
Qed.

Lemma prims_moves r r' : prims r r' -> actors_ok r -> exists tr, moves None r tr r'.
Proof.
  induction 1 as [r|r1 r2 r3 H _ IH]; intros Hok; [exists []; by apply moves_silent|].
  destruct (prim_moves _ _ H Hok) as [tr1 H1]. destruct IH as [tr2 H2]; [by eapply prim_actors_ok|].
  exists (tr1 ++ tr2). by eapply moves_app.
Qed.

(** ** The running system refines the machine *)

(** The trace of one step: whose it is, what its goroutine takes, and that no
    goroutine replaces the state of its actor more often than it took messages. *)
Record step_trace (fuel : nat) (who : option nat) (r : Runtime) (tr : list label) (r' : Runtime) : Prop := {
  st_moves : moves who r tr r';
  st_own l : who = Some l -> actor_step fuel l r r';
  st_taken l : taken l tr = if decide (who = Some l) then next_takes l r else [];
  st_answers l : (answers_of l tr <= length (taken l tr))%nat
}.

Lemma step_moves fuel r r' :
  step fuel r r' -> runtime_ok r -> exists who tr, step_trace fuel who r tr r'.
Proof.
  intros Hs Hok. pose proof (rok_actors _ Hok) as Ha.
  destruct (step_cases _ _ _ Hs Hok) as [r' Hp|d Hd|l r' Hst _].
  - destruct (prims_moves _ _ Hp Ha) as [tr H]. exists None, tr.
    split; [done|done|..]; intros l; destruct (moves_others _ l _ _ _ H) as [E1 E2]; rewrite ?E1; (done || lia).
  - exists None, []. split; [by apply moves_actors|done|done|cbn; lia].
  - destruct (gspends_moves _ _ _ _ _ (actor_step_gspends _ _ _ _ Hst Hok) Ha) as (tr & H & T & A).
    exists (Some l), tr. split; [done|by intros ? [= <-]|..]; intros l'; destruct (decide (l' = l)) as [->|Hne].
    + by rewrite decide_True.
    + rewrite decide_False by congruence. apply (moves_others _ l' _ _ _ H). congruence.
    + by rewrite T.
    + destruct (moves_others _ l' _ _ _ H) as [-> _]; [congruence|lia].
Qed.

(** C3: The running system refines the abstract actor machine.  Every step of
    a reachable runtime (any call of a client, handler, timer, broker or
    schedule, any piece of an actor's goroutine, the passing of time) is a
    trace of the machine, so every guard of the machine holds: messages are
    accepted only by actors that are not stopped and have room, taken from the
    front, identifiers are spawned once, restarts are the policy's.  A caller's
    step has only a caller's labels; the labels of a goroutine come from its own
    steps, which replace the actor's state at most once per message taken. *)
Theorem runtime_refines_machine fuel cfg d now r r' :
  reachable fuel cfg d now r -> step fuel r r' ->
  exists who tr,
    mtrace (cf_policy cfg) (abs_machine r) tr (abs_machine r') /\
    Forall (permitted who) tr /\
    (forall l, who = Some l -> actor_step fuel l r r') /\
    (forall l, (answers_of l tr <= length (taken l tr))%nat).
Proof.
  intros Hr Hs. destruct (step_moves _ _ _ Hs (reachable_ok _ _ _ _ _ Hr)) as (who & tr & [[H1 H2 _] H3 _ H4]).
  rewrite (reachable_cfg _ _ _ _ _ Hr) in H1. by exists who, tr.
Qed.

Lemma runtime_refines_machine_witness :
  let r := run_schedule 2 (two_actors ++ [DoWake 0]) in
  exists r', perform 2 (DoIter 0) r = Some r' /\
  ma_actors (abs_machine r) !! 0%nat <> ma_actors (abs_machine r') !! 0%nat /\
  exists who tr,
    mtrace (cf_policy defaultConfig) (abs_machine r) tr (abs_machine r') /\
    Forall (permitted who) tr /\
    (forall l, who = Some l -> actor_step 2 l r r') /\
    (forall l, (answers_of l tr <= length (taken l tr))%nat).
Proof.
  cbv zeta. eexists. split; [vm_compute; reflexivity|]. split; [vm_compute; intros [=]|].
  apply (runtime_refines_machine 2 defaultConfig true 0).
  - apply run_schedule_reachable. vm_compute. eexists. reflexivity.
  - apply (perform_step 2 (DoIter 0)). vm_compute. reflexivity.
Defined.

(** A whole execution, step by step. *)
Lemma reachable_moves fuel cfg d now r :
  reachable fuel cfg d now r ->
  exists tr, mtrace (cf_policy cfg) empty_machine tr (abs_machine r) /\
    forall l, (answers_of l tr <= length (taken l tr))%nat.
Proof.
  unfold reachable. revert r. apply (rtc_ind_r (R := step fuel)).
  - exists []. split; [|cbn; lia].
    replace (abs_machine (NewRuntime cfg d now)) with empty_machine; [constructor|].
    unfold abs_machine, empty_machine. cbn. by rewrite fmap_empty.
  - intros r1 r2 Hr1 Hs (tr1 & H1 & A1).
    destruct (step_moves _ _ _ Hs (reachable_ok _ _ _ _ _ Hr1)) as (who & tr2 & [[H2 _ _] _ _ A2]).
    rewrite (reachable_cfg _ _ _ _ _ Hr1) in H2. exists (tr1 ++ tr2).
    split; [by eapply mtrace_app|]. intros l. specialize (A1 l). specialize (A2 l).
    rewrite answers_app, taken_app, length_app. lia.
Qed.

(** C4: The life of every actor is the history of its messages.  Every state a
    new runtime reaches is explained by one trace of the machine in which, for
    every instance: the messages accepted for it are those its goroutine took,
    in the same order, followed by those still queued, which its capacity
    bounds (none is lost, doubled or reordered, over restarts and after it
    stopped); its state is its initial state replayed through the states its
    handler returned and its restarts; its restart count is the number of
    restarts; at most one state change answers each message taken; and once its
    goroutine has returned nothing is done in its name. *)
Theorem actors_live_by_history fuel cfg d now r :
  reachable fuel cfg d now r ->
  exists tr, mtrace (cf_policy cfg) empty_machine tr (abs_machine r) /\
  forall l inst, instance l r = Some inst ->
    posted l tr = taken l tr ++ pending inst /\
    Z.of_nat (length (pending inst)) <= mb_max (ai_mailbox inst) /\
    ai_state inst = replay l (ai_initialState inst) tr /\
    ai_restarts inst = restarts_of l tr /\
    (answers_of l tr <= length (taken l tr))%nat /\
    silent_after_exit l tr.
Proof.
  intros Hr. destruct (reachable_moves _ _ _ _ _ Hr) as (tr & Ht & Ha). exists tr. split; [done|].
  intros l inst Hi. pose proof (history_trace _ [] _ _ _ Ht history_empty) as [Hl _].
  destruct (Hl l (abs_actor inst)) as [H1 H2 H3 H4 _ _ H5]; [by rewrite abs_machine_lookup, Hi|done].
Qed.

Lemma actors_live_by_history_witness :
  let r := run_schedule 2 (two_actors ++ [DoWake 0; DoIter 0]) in
  exists inst tr, instance 0 r = Some inst /\ length (pending inst) = 1%nat /\
    mtrace (cf_policy defaultConfig) empty_machine tr (abs_machine r) /\
    posted 0 tr = taken 0 tr ++ pending inst /\ as_value (ai_state inst) = job 1.
Proof.
  cbv zeta.
  destruct (actors_live_by_history 2 defaultConfig true 0 (run_schedule 2 (two_actors ++ [DoWake 0; DoIter 0])))
    as (tr & Ht & H).
  - apply run_schedule_reachable. vm_compute. eexists. reflexivity.
  - destruct (instance 0 (run_schedule 2 (two_actors ++ [DoWake 0; DoIter 0]))) as [inst|] eqn:E.
    + exists inst, tr. destruct (H 0%nat inst E) as (H1 & _). split; [reflexivity|].
      vm_compute in E. injection E as <-. split; [reflexivity|]. split; [exact Ht|].
      split; [exact H1|reflexivity].
    + vm_compute in E. discriminate E.
Defined.
