(* ===== verification/Sequential.v ===== *)
(** * Actors as sequential functions

    The promise of the actor model, for actors whose handler is a function of its
    state and the payload: whatever else happens in the system, such an actor is
    the fold of that function over the messages accepted for it, in order.

    The proof reads the taken messages off the trace of [Machine.v]; only the one
    step that processes messages looks at the handler. *)

From S2P Require Import Prelude Types Mailbox Resolver Registry Routing Outcomes Monitors PubSub.
From S2P Require Import Fnv Program State Emit Send Lifecycle Broker Cron Actor Prim System.
From S2P Require Import Invariants Scheduler Safety Machine.

(** ** Handlers that are functions *)

Section fold.
Context (g : payload -> payload -> payload).

(** A handler that returns [g state payload] and calls nothing. *)
Definition pure_handler : handler :=
  HUser (fun state msg => Return (HROk (g state (msg_Payload msg)))).

Definition fold_payloads (state : payload) (msgs : list Message) : payload :=
  foldl g state (msg_Payload <$> msgs).

(** The instance after some processing. *)
Definition processed (a : actorInstance) (msgs : list Message) (a' : actorInstance) : Prop :=
  ai_handler a' = ai_handler a /\ ai_batch a' = ai_batch a /\
  as_value (ai_state a') = fold_payloads (as_value (ai_state a)) msgs /\
  ai_restarts a' = ai_restarts a.

Lemma processed_nil a : processed a [] a.
Proof. done. Qed.

Lemma processed_app a ms1 b ms2 c : processed a ms1 b -> processed b ms2 c -> processed a (ms1 ++ ms2) c.
Proof.
  intros (H1 & B1 & S1 & R1) (H2 & B2 & S2 & R2). unfold processed, fold_payloads in *.
  rewrite fmap_app, foldl_app, <- S1. split_and!; congruence.
Qed.

(** One message. *)
Lemma pure_processMessage fuel l msg r r' x a :
  instance l r = Some a -> ai_handler a = pure_handler -> processMessage fuel l msg r = Some (r', x) ->
  exists a', instance l r' = Some a' /\ processed a [msg] a'.
Proof.
  intros Hi Hh H. unfold processMessage in H. rewrite gets_bind, Hi, Hh in H.
  cbn [run_handler pure_handler run_prog] in H. rewrite ret_bind in H. cbn [handlerError] in H.
  rewrite !upd_bind in H. minv H.
  match goal with |- context [instance l (emitLocal _ _ _ _ _ (putOutcome _ _ _ _ ?q))] =>
    change (instance l (emitLocal _ _ _ _ _ (putOutcome _ _ _ _ q))) with (instance l q) end.
  rewrite instance_update_eq, Hi. eexists. split; [reflexivity|]. done.
Qed.

(** Several. *)
Lemma pure_messages fuel l msgs r r' u a :
  instance l r = Some a -> ai_handler a = pure_handler ->
  forM msgs (processMessage fuel l) r = Some (r', u) ->
  exists a', instance l r' = Some a' /\ processed a msgs a'.
Proof.
  revert r a. induction msgs as [|msg msgs IH]; intros r a Hi Hh H; cbn [forM] in H.
  { minv H. exists a. split; [done|apply processed_nil]. }
  apply bind_inv in H as (r1 & u1 & H1 & H).
  destruct (pure_processMessage _ _ _ _ _ _ _ Hi Hh H1) as (b & Hb & Pb).
  destruct (IH r1 b Hb) as (c & Hc & Pc); [by destruct Pb as (-> & _)|done|].
  exists c. split; [done|]. by apply (processed_app a [msg] b msgs).
Qed.

Lemma pure_batch fuel l msgs r r' x a :
  instance l r = Some a -> ai_handler a = pure_handler -> bc_Receiver (ai_batch a) = None ->
  processBatch fuel l msgs r = Some (r', x) ->
  exists a', instance l r' = Some a' /\ processed a msgs a'.
Proof.
  intros Hi Hh Hr H. unfold processBatch in H. rewrite gets_bind, Hi, Hr in H.
  destruct msgs as [|m msgs]; [minv H; exists a; split; [done|apply processed_nil]|].
  cbv zeta in H. destruct (bc_Enabled _); by eapply pure_messages.
Qed.

(** One iteration of the goroutine's inner loop. *)
Lemma pure_iter fuel l r r' x a :
  instance l r = Some a -> ai_handler a = pure_handler -> bc_Receiver (ai_batch a) = None ->
  goroutine_iter fuel l r = Some (r', x) ->
  exists a', instance l r' = Some a' /\ processed a (iteration_takes a) a'.
Proof.
  intros Hi Hh Hr H. unfold goroutine_iter in H. rewrite gets_bind, Hi in H. unfold iteration_takes.
  destruct (_ && _).
  - destruct (DequeueBatch _ _) as [mb msgs]. cbn [snd]. rewrite upd_bind in H.
    destruct msgs as [|m msgs].
    + minv H. exists (ai_set_go GoSelect (ai_set_mailbox mb a)). by rewrite !instance_update_eq, Hi.
    + apply (pure_batch _ _ _ _ _ _ (ai_set_mailbox mb a)) in H as (b & Hb & Pb);
        [by exists b|by rewrite instance_update_eq, Hi|done|done].
  - destruct (Dequeue _) as [mb [msg|]]; cbn [snd option_list]; rewrite upd_bind in H.
    + apply (pure_processMessage _ _ _ _ _ _ (ai_set_mailbox mb a)) in H as (b & Hb & Pb);
        [by exists b|by rewrite instance_update_eq, Hi|done].
    + minv H. exists (ai_set_go GoSelect (ai_set_mailbox mb a)). by rewrite !instance_update_eq, Hi.
Qed.
End fold.

(** ** What never changes about an instance *)

Definition const_part (a : actorInstance) : string * handler * payload :=
  (ai_id a, ai_handler a, ai_initialState a).

Lemma gprim_const l l0 r r' a :
  gprim l0 r r' -> heap_ok r -> instance l r = Some a ->
  exists a', instance l r' = Some a' /\ const_part a' = const_part a.
Proof.
  intros Hg Hh Hi.
  assert (forall f l1, (forall b, const_part (f b) = const_part b) ->
    exists a', instance l (update_instance l1 f r) = Some a' /\ const_part a' = const_part a) as Hupd.
  { intros f l1 Hf. rewrite instance_update, Hi. destruct (decide _); cbn; eauto. }
  destruct Hg as [Hq|msgs Ht]; [destruct Hq as [r r' Hp| | | | | |]|destruct Ht]; try (by apply Hupd); [|by exists a].
  destruct Hp; try (by apply Hupd).
  - destruct (prim_instance _ _ _ _ H Hh Hi) as (b & Hb & Ho). exists b. split; [done|].
    unfold own_part in Ho. unfold const_part. by injection Ho as -> _ -> _ _ _ ->.
  - exists a. split; [|done]. unfold instance. by rewrite (proj1 (bumpPID_frame id r)).
Qed.

Lemma step_const fuel l r r' a :
  step fuel r r' -> runtime_ok r -> instance l r = Some a ->
  exists a', instance l r' = Some a' /\ const_part a' = const_part a.
Proof.
  intros Hs Hok Hi. destruct (step_gprims _ _ _ Hs Hok) as [l0 Hg]. clear Hs. revert a Hi Hok.
  induction Hg as [|x y z H _ IH]; intros a Hi Hok; [eauto|].
  destruct (gprim_const _ _ _ _ _ H (aok_heap _ (rok_actors _ Hok)) Hi) as (b & Hb & E).
  destruct (IH b Hb) as (c & Hc & E'); [by eapply gprim_runtime_ok|]. exists c. split; [done|congruence].
Qed.

(** ** A trace without answers changes no state *)

Lemma no_answers l init tr s :
  answers_of l tr = 0%nat ->
  fold_left (replay_label l init) tr s = s /\ restarts_of l tr = 0.
Proof.
  unfold answers_of, restarts_of. revert s. induction tr as [|lb tr IH]; intros s H; [done|].
  cbn [List.filter] in H. destruct (is_answer l lb) eqn:Ea; [done|]. cbn [fold_left List.filter].
  assert (replay_label l init s lb = s /\ is_restart l lb = false) as [-> ->]; [|by apply IH].
  destruct lb; cbn in *; try done; apply bool_decide_eq_false in Ea.
  - by rewrite decide_False.
  - rewrite decide_False by done. by rewrite bool_decide_eq_false_2.
Qed.

Lemma replay_app l init tr1 tr2 :
  replay l init (tr1 ++ tr2) = fold_left (replay_label l init) tr2 (replay l init tr1).
Proof. unfold replay. by rewrite fold_left_app. Qed.

Lemma restarts_app l tr1 tr2 : restarts_of l (tr1 ++ tr2) = restarts_of l tr1 + restarts_of l tr2.
Proof. unfold restarts_of. rewrite List.filter_app, length_app. lia. Qed.

Lemma nothing_taken l tr : Forall (fun lb => subject lb <> Some l) tr -> taken l tr = [].
Proof.
  induction 1 as [|lb tr Hne _ IH]; [done|]. destruct lb; cbn in *; try done.
  rewrite decide_False; [done|congruence].
Qed.

(** ** The fold *)

Definition no_receiver (l : nat) (r : Runtime) : Prop :=
  forall a, instance l r = Some a -> bc_Receiver (ai_batch a) = None.

(** A step after which the actor at [l] has no batch receiver. *)
Definition plain_step (fuel l : nat) (r r' : Runtime) : Prop := step fuel r r' /\ no_receiver l r'.

Section execution.
Context (fuel : nat) (cfg : config) (d : bool) (now : Z) (l : nat) (g : payload -> payload -> payload).

(** A trace to [r] that folds the actor at [l]. *)
Record folded (tr : list label) (r : Runtime) : Prop := {
  fo_trace : mtrace (cf_policy cfg) empty_machine tr (abs_machine r);
  fo_answers : (answers_of l tr <= length (taken l tr))%nat;
  fo_value a : instance l r = Some a -> ai_handler a = pure_handler g ->
    as_value (ai_state a) = fold_payloads g (ai_initialState a) (taken l tr) /\ restarts_of l tr = 0
}.

Lemma instance_life tr r a :
  mtrace (cf_policy cfg) empty_machine tr (abs_machine r) -> instance l r = Some a -> life l tr (abs_actor a).
Proof.
  intros Ht Hi. pose proof (history_trace _ [] _ _ _ Ht history_empty) as [Hl _]. apply Hl.
  by rewrite abs_machine_lookup, Hi.
Qed.

(** A step that takes nothing leaves the state as it was. *)
Lemma folded_idle tr1 tr2 r1 r2 :
  step fuel r1 r2 -> runtime_ok r1 -> folded tr1 r1 ->
  mtrace (cf_policy cfg) empty_machine (tr1 ++ tr2) (abs_machine r2) ->
  taken l tr2 = [] -> answers_of l tr2 = 0%nat -> folded (tr1 ++ tr2) r2.
Proof.
  intros Hs Hok [Ht Ha Hv] Ht2 Htk Hno. split; [done|rewrite answers_app, taken_app, Htk, Hno, length_app; lia|].
  intros a2 Hi2 Hh. destruct (instance_life _ _ _ Ht2 Hi2) as [_ _ Hst _ _ _ _]. cbn in Hst.
  destruct (no_answers l (ai_initialState a2) tr2 (replay l (ai_initialState a2) tr1) Hno) as [Er Ec].
  rewrite replay_app, Er in Hst. rewrite taken_app, Htk, app_nil_r, restarts_app, Ec, Z.add_0_r, Hst.
  destruct (instance l r1) as [a1|] eqn:Hi1.
  - destruct (step_const _ _ _ _ _ Hs Hok Hi1) as (b & Hb & [= _ Eh Ei]).
    assert (b = a2) as -> by congruence. destruct (instance_life _ _ _ Ht Hi1) as [_ _ Hst1 _ _ _ _].
    cbn in Hst1. rewrite Ei, <- Hst1. apply Hv; congruence.
  - pose proof (history_trace _ [] _ _ _ Ht history_empty) as [_ Hf].
    assert (taken l tr1 = []) as E.
    { apply nothing_taken, Hf. by rewrite abs_machine_lookup, Hi1. }
    rewrite E in Ha |- *. destruct (no_answers l (ai_initialState a2) tr1 (newActorState (ai_initialState a2)))
      as [E1 E2]; [cbn in Ha; lia|]. split; [|done]. unfold replay. by rewrite E1.
Qed.

(** A step of the actor that takes messages folds them. *)
Lemma folded_iter tr1 tr2 r1 r2 :
  step fuel r1 r2 -> runtime_ok r1 -> no_receiver l r1 -> folded tr1 r1 ->
  mtrace (cf_policy cfg) empty_machine (tr1 ++ tr2) (abs_machine r2) ->
  actor_step fuel l r1 r2 -> taken l tr2 = next_takes l r1 -> next_takes l r1 <> [] ->
  (answers_of l tr2 <= length (taken l tr2))%nat -> folded (tr1 ++ tr2) r2.
Proof.
  intros Hs Hok Hnr [Ht Ha Hv] Ht2 Hst Htk Hne Hans.
  split; [done|rewrite answers_app, taken_app, length_app; lia|]. intros a2 Hi2 Hh.
  destruct (instance_life _ _ _ Ht2 Hi2) as [_ _ _ Hc _ _ _]. cbn in Hc. rewrite <- Hc, taken_app, Htk.
  unfold next_takes in *.
  destruct Hst as [a1 r2 x Hi1 Hg _|a1 Hi1 Hg _|a1 mb Hi1 Hg _|a1 r2 x Hi1 Hg Hrun];
    rewrite Hi1, Hg in Htk, Hne |- *; try done. rewrite decide_True by done.
  destruct (step_const _ _ _ _ _ Hs Hok Hi1) as (b & Hb & [= _ Eh Ei]).
  assert (b = a2) as -> by congruence.
  assert (ai_handler a1 = pure_handler g) as Hh1 by congruence.
  destruct (pure_iter g _ _ _ _ _ _ Hi1 Hh1 (Hnr _ Hi1) Hrun) as (b & Hb' & (_ & _ & Ev & Er)).
  assert (b = a2) as -> by congruence.
  destruct (instance_life _ _ _ Ht Hi1) as [_ _ _ Hc1 _ _ _]. cbn in Hc1.
  destruct (Hv a1 Hi1 Hh1) as [Ev1 Er1]. split; [|congruence].
  rewrite Ev, Ev1, Ei. unfold fold_payloads. by rewrite fmap_app, foldl_app.
Qed.

Lemma folded_step tr1 r1 r2 :
  reachable fuel cfg d now r1 -> no_receiver l r1 -> step fuel r1 r2 -> folded tr1 r1 ->
  exists tr2, folded (tr1 ++ tr2) r2.
Proof.
  intros Hr Hnr Hs Hf. pose proof (reachable_ok _ _ _ _ _ Hr) as Hok.
  destruct (step_moves _ _ _ Hs Hok) as (who & tr2 & [[Ht2 _ _] Hown Htk Hans]).
  rewrite (reachable_cfg _ _ _ _ _ Hr) in Ht2. specialize (Htk l). specialize (Hans l). exists tr2.
  pose proof (mtrace_app _ _ _ _ _ _ (fo_trace _ _ Hf) Ht2) as Ht.
  assert (taken l tr2 = [] \/ taken l tr2 <> []) as [E|Hne] by (destruct (taken l tr2); auto).
  - apply (folded_idle tr1 tr2 r1); [done..|]. rewrite E in Hans. cbn in Hans. lia.
  - destruct (decide (who = Some l)) as [Hw|Hw]; [|done].
    apply (folded_iter tr1 tr2 r1); try done; [by apply Hown|congruence].
Qed.

Lemma plain_folded r :
  rtc (plain_step fuel l) (NewRuntime cfg d now) r ->
  reachable fuel cfg d now r /\ no_receiver l r /\ exists tr, folded tr r.
Proof.
  revert r. apply (rtc_ind_r (R := plain_step fuel l)).
  - split; [apply rtc_refl|]. split; [intros a; unfold instance; cbn; by rewrite lookup_empty|].
    exists []. split; [|done|intros a; unfold instance; cbn; by rewrite lookup_empty].
    replace (abs_machine (NewRuntime cfg d now)) with empty_machine; [constructor|].
    unfold abs_machine, empty_machine. cbn. by rewrite fmap_empty.
  - intros r1 r2 _ [Hs Hn2] (Hr & Hn1 & tr1 & Hf). split; [by eapply rtc_r|]. split; [done|].
    destruct (folded_step tr1 r1 r2 Hr Hn1 Hs Hf) as [tr2 H]. by eexists.
Qed.
End execution.

(** C5: An actor is the fold of its handler.  If the handler of an actor is a
    function of state and payload and no batch receiver is ever installed for it,
    then in every state of every execution, whatever callers, other actors and
    services do in between, there is a sequence of messages accepted for the
    actor in this order, of which a prefix has been processed and the rest is its
    queue, and its state is the fold of the function over that prefix from its
    initial state; it was never restarted. *)
Theorem pure_actors_fold fuel cfg d now l g r inst :
  rtc (plain_step fuel l) (NewRuntime cfg d now) r ->
  instance l r = Some inst -> ai_handler inst = pure_handler g ->
  exists tr, mtrace (cf_policy cfg) empty_machine tr (abs_machine r) /\
    posted l tr = taken l tr ++ pending inst /\
    as_value (ai_state inst) = fold_payloads g (ai_initialState inst) (taken l tr) /\
    ai_restarts inst = 0.
Proof.
  intros Hx Hi Hh. destruct (plain_folded fuel cfg d now l g r Hx) as (_ & _ & tr & [Ht _ Hv]). exists tr.
  destruct (instance_life cfg l tr r inst Ht Hi) as [Hm _ _ Hc _ _ _]. cbn in Hc.
  destruct (Hv inst Hi Hh) as [Hst Hr]. split_and!; [done|exact Hm|done|congruence].
Qed.

(** *** An example *)

Definition no_receiver_now (l : nat) (r : Runtime) : bool :=
  match instance l r with
  | Some a => match bc_Receiver (ai_batch a) with Some _ => false | None => true end
  | None => true
  end.

Fixpoint plain_schedule (fuel l : nat) (acts : list action) (r : Runtime) : option Runtime :=
  match acts with
  | [] => Some r
  | a :: acts =>
      r1 ← perform fuel a r; if no_receiver_now l r1 then plain_schedule fuel l acts r1 else None
  end.

Lemma plain_schedule_steps fuel l acts r r' :
  plain_schedule fuel l acts r = Some r' -> rtc (plain_step fuel l) r r'.
Proof.
  revert r. induction acts as [|a acts IH]; intros r H; cbn in H; [by simplify_eq|].
  apply bind_Some in H as (r1 & H1 & H). destruct (no_receiver_now l r1) eqn:En; [|done].
  eapply rtc_l; [|by apply IH]. split; [by eapply perform_step|]. intros b Hb.
  unfold no_receiver_now in En. rewrite Hb in En. by destruct (bc_Receiver _).
Qed.

Definition add (st p : payload) : payload := job (content st + content p).

(** An adder and a failing neighbour, their messages and steps interleaved. *)
Definition adding : list action :=
  [DoApi (ACreateActor "a" (job 10) (Some (pure_handler add)) []);
   DoApi (ACreateActor "b" (job 0) (Some accumulator) []); DoStart 0; DoStart 1;
   DoApi (ASend "a" (job 1)); DoApi (ASend "b" (job (-1))); DoApi (ASend "a" (job 2)); DoWake 0; DoWake 1;
   DoIter 0; DoIter 1; DoApi (ASend "a" (job 4)); DoIter 0].

Definition adding_runtime : Runtime := default start_runtime (plain_schedule 2 0 adding start_runtime).

Lemma pure_actors_fold_witness :
  exists inst tr, instance 0 adding_runtime = Some inst /\ length (pending inst) = 1%nat /\
    mtrace (cf_policy defaultConfig) empty_machine tr (abs_machine adding_runtime) /\
    posted 0 tr = taken 0 tr ++ pending inst /\ as_value (ai_state inst) = job 13 /\
    job 13 = fold_payloads add (job 10) (taken 0 tr).
Proof.
  assert (exists inst, instance 0 adding_runtime = Some inst /\ length (pending inst) = 1%nat /\
    ai_handler inst = pure_handler add /\ as_value (ai_state inst) = job 13 /\
    ai_initialState inst = job 10) as (inst & Hi & Hl & Hh & Hs & H0).
  { eexists. split; [vm_compute; reflexivity|]. repeat split. }
  destruct (pure_actors_fold 2 defaultConfig true 0 0 add adding_runtime inst) as (tr & Ht & Hm & Hv & _).
  - unfold adding_runtime. destruct (plain_schedule 2 0 adding start_runtime) as [r|] eqn:E.
    + exact (plain_schedule_steps _ _ _ _ _ E).
    + apply (f_equal (fun x => match x with Some _ => true | None => false end)) in E.
      vm_compute in E. discriminate E.
  - exact Hi.
  - exact Hh.
  - exists inst, tr. rewrite Hs, H0 in Hv.
    exact (conj Hi (conj Hl (conj Ht (conj Hm (conj Hs Hv))))).
Defined.
