(* ===== verification/Delivery.v ===== *)
(** * Delivery: what a send does

    The frame of a send (what it cannot change), the result of a direct send on
    every branch, termination of routed sends, fairness of routers, and delivery
    by PID: what makes a PID current, and what the runtime answers to a stale
    one. *)

From S2P Require Import Prelude Types Mailbox Resolver Registry Routing Outcomes Monitors PubSub.
From S2P Require Import Fnv Program State Emit Send Lifecycle Broker Cron Actor Prim System Invariants.
From S2P Require Import Scheduler Safety.

(** ** The frame of a send *)

(** An instance up to the content of its mailbox. *)
Definition strip (a : actorInstance) :=
  (ai_set_mailbox (NewMailbox 0) a, mb_max (ai_mailbox a), mb_closed (ai_mailbox a)).

(** A send changes mailbox contents, message identifiers, router counters and
    draws, what is observable, pending asks, and calls the cluster layer. *)
Record send_frame (r r' : Runtime) : Prop := {
  sf_cfg : rt_cfg r' = rt_cfg r;
  sf_now : rt_now r' = rt_now r;
  sf_pids : rt_pids r' = rt_pids r;
  sf_svc : rt_svc r' = rt_svc r;
  sf_registry : ap_registry (rt_actors r') = ap_registry (rt_actors r);
  sf_routing : rp_routing (rt_routes r') = rp_routing (rt_routes r);
  sf_routers id : routerState id r' = routerState id r;
  sf_instance l : strip <$> instance l r' = strip <$> instance l r
}.

#[export] Instance send_frame_preorder : PreOrder send_frame.
Proof.
  split; [by split|]. intros a b c [? ? ? ? ? ? H1 I1] [? ? ? ? ? ? H2 I2].
  split; congruence.
Qed.

(** Changes outside the actors and the routes. *)
Lemma send_frame_obs r r' :
  rt_actors r' = rt_actors r -> rt_routes r' = rt_routes r -> rt_pids r' = rt_pids r ->
  rt_svc r' = rt_svc r -> rt_cfg r' = rt_cfg r -> rt_now r' = rt_now r -> send_frame r r'.
Proof.
  intros Ea Er Ep Es Ec En. split; try done; [by rewrite Ea|by rewrite Er| |].
  - intros id. unfold routerState. by rewrite Er.
  - intros l. unfold instance. by rewrite Ea.
Qed.

Lemma frame_bump id r : send_frame r (bump_rrNext id r).1.
Proof.
  unfold bump_rrNext. destruct (rp_routers (rt_routes r) !! id) as [st|] eqn:E; [|reflexivity].
  split; try done. intros id'. unfold routerState. cbn.
  destruct (decide (id = id')) as [<-|Hne].
  - by rewrite lookup_insert_eq, E.
  - by rewrite lookup_insert_ne.
Qed.

Lemma frame_select id s ws p r : send_frame r (selectRoutedWorker id s ws p r).1.
Proof.
  unfold selectRoutedWorker. destruct (_ =? _)%nat; [reflexivity|]. destruct s.
  - pose proof (frame_bump id r) as H. by destruct (bump_rrNext id r).
  - by split.
  - destruct (hashKeyOf p); [case_match|]; reflexivity.
  - reflexivity.
Qed.

Lemma frame_reject a m x s r : send_frame r (reject a m x s r).1.
Proof. by apply send_frame_obs. Qed.

Lemma frame_rejectLocal a m x s r : send_frame r (rejectLocal a m x s r).1.
Proof. by apply send_frame_obs. Qed.

Lemma strip_enqueue msg a :
  strip (ai_set_mailbox (Enqueue msg (ai_mailbox a)).1 a) = strip a.
Proof.
  unfold strip. cbn. rewrite Enqueue_closed. f_equal. f_equal.
  unfold Enqueue. destruct (mb_closed _); [done|]. by destruct (_ <=? _).
Qed.

Lemma frame_enqueue l inst a msg r :
  instance l r = Some inst -> send_frame r (enqueueMessage l inst a msg r).1.
Proof.
  intros Hi. unfold enqueueMessage. pose proof (strip_enqueue msg inst) as Hs.
  destruct (Enqueue msg (ai_mailbox inst)) as [mb res]. cbn [fst] in Hs.
  assert (send_frame r (update_instance l (ai_set_mailbox mb) r)) as H1.
  { split; try done. intros l'. rewrite instance_update. destruct (decide _) as [->|]; [|done].
    rewrite Hi. cbn. by f_equal. }
  repeat case_decide; cbn [fst]; repeat (first [done|etransitivity; [|apply frame_reject]]).
Qed.

Lemma frame_sendDirect a p ask r : send_frame r (sendDirect a p ask r).1.
Proof.
  unfold sendDirect.
  assert (send_frame r (nextMsgID r).1) as Hn by by apply send_frame_obs.
  destruct (nextMsgID r) as [r1 id]. cbn [fst] in Hn.
  destruct (lookup_actor a r) as [l|]; cbn [mbind option_bind];
    [|etransitivity; [exact Hn|apply frame_reject]].
  destruct (instance l r1) as [inst|] eqn:Hi; cbn [fmap option_fmap option_map];
    [|etransitivity; [exact Hn|apply frame_reject]].
  case_decide; [etransitivity; [exact Hn|apply frame_reject]|].
  destruct (rr_match _); try (etransitivity; [exact Hn|apply frame_rejectLocal]);
    (etransitivity; [exact Hn|]); try (by apply frame_enqueue);
    match goal with |- send_frame _ (enqueueMessage _ _ _ ?m (emitLocal ?e ?i ?m ?x ?c r1)).1 =>
      transitivity (emitLocal e i m x c r1); [by apply send_frame_obs|by apply frame_enqueue] end.
Qed.

(** An operation within the frame of a send. *)
Definition framed {A} (m : M A) : Prop := forall r r' a, m r = Some (r', a) -> send_frame r r'.

Lemma framed_ret {A} (a : A) : framed (mret a).
Proof. intros r r' x H. by minv H. Qed.

Lemma framed_bind {A B} (m : M A) (k : A -> M B) : framed m -> (forall a, framed (k a)) -> framed (m ≫= k).
Proof.
  intros Hm Hk r r' b H. apply bind_inv in H as (r1 & a & H1 & H2).
  etransitivity; [by eapply Hm|by eapply Hk].
Qed.

Lemma framed_gets {A} (f : Runtime -> A) : framed (gets f).
Proof. intros r r' x H. by minv H. Qed.

Lemma framed_diverge {A} : framed (@diverge A).
Proof. by intros r r' x H. Qed.

Lemma framed_total {A} (f : Runtime -> Runtime * A) : (forall r, send_frame r (f r).1) -> framed (total f).
Proof. intros Hf r r' x H. apply total_inv in H. specialize (Hf r). by rewrite H in Hf. Qed.

Lemma framed_upd f : (forall r, send_frame r (f r)) -> framed (upd f).
Proof. intros Hf r r' x H. minv H. apply Hf. Qed.

(** Decompose an operation; recordings are within the frame. *)
Ltac framed_step :=
  lazymatch goal with
  | |- framed (mbind _ _) => apply framed_bind; [|intros ?]
  | |- framed (mret _) => apply framed_ret
  | |- framed (gets _) => apply framed_gets
  | |- framed diverge => apply framed_diverge
  | |- framed (total _) => apply framed_total; intros ?
  | |- framed (upd _) => apply framed_upd; intros ?
  | |- framed (match ?x with _ => _ end) => destruct x
  | |- framed _ => cbv zeta
  | |- send_frame ?r (match ?x with _ => _ end) => destruct x
  | |- send_frame ?r (match ?x with _ => _ end ?r) => destruct x
  | |- send_frame _ _ => by apply send_frame_obs
  end.

Ltac framed_tac := repeat first [solve [auto] | framed_step].

Lemma framed_send fuel a p ask : framed (sendWithAskContext fuel a p ask).
Proof.
  revert a p ask. induction fuel as [|fuel IH]; intros a p ask; cbn [sendWithAskContext]; [framed_tac|].
  pose proof frame_sendDirect. pose proof frame_select. unfold dispatchRouted. framed_tac.
Qed.

(** ** Termination of routed sends *)

(** More fuel does not change a result. *)
Lemma dispatchRouted_mono (send1 send2 : string -> payload -> option AskRequestContext -> M SubmitAck)
    id p ask s ws r x :
  (forall w q a r0 y, send1 w q a r0 = Some y -> send2 w q a r0 = Some y) ->
  dispatchRouted send1 id p ask s ws r = Some x -> dispatchRouted send2 id p ask s ws r = Some x.
Proof.
  intros Hs. unfold dispatchRouted, mbind, M_bind, total.
  destruct (nextMsgID r) as [r1 m]. destruct (selectRoutedWorker _ _ _ _ _) as [r2 [[w o] c]].
  case_decide; [|done]. destruct (send1 w p ask r2) as [y|] eqn:E; [|done].
  by rewrite (Hs _ _ _ _ _ E).
Qed.

Lemma send_mono fuel fuel' id p ask r x :
  (fuel <= fuel')%nat -> sendWithAskContext fuel id p ask r = Some x ->
  sendWithAskContext fuel' id p ask r = Some x.
Proof.
  revert fuel' id p ask r x. induction fuel as [|fuel IH]; intros fuel' id p ask r x Hle H; [done|].
  destruct fuel' as [|fuel']; [lia|]. cbn [sendWithAskContext] in *.
  destruct (is_nil p); [done|]. rewrite gets_bind in *.
  destruct (routerState id r) as [[s ws]|]; [|done]. rewrite gets_bind in *.
  unfold mbind, M_bind, total in *. destruct (nextMsgID r) as [r1 m].
  destruct (actor_of id r) as [inst|]; [|done]. case_decide; [done|].
  eapply dispatchRouted_mono; [|exact H]. intros w q a r0 y. apply IH. lia.
Qed.

(** A rank of the routers under which every worker is below its router. *)
Definition ranked (rank : string -> nat) (r : Runtime) : Prop :=
  forall id s ws w, routerState id r = Some (s, ws) -> w ∈ ws -> (rank w < rank id)%nat.

Lemma ranked_frame rank r r' : send_frame r r' -> ranked rank r -> ranked rank r'.
Proof. intros Hf Hr id s ws w. rewrite (sf_routers _ _ Hf). apply Hr. Qed.

Lemma worker_at_elem ws i : 0 <= i < Z.of_nat (length ws) -> worker_at ws i ∈ ws.
Proof.
  intros Hi. unfold worker_at.
  destruct (lookup_lt_is_Some_2 ws (Z.to_nat i)) as [w Hw]; [lia|].
  rewrite Hw. by eapply list_elem_of_lookup_2.
Qed.

(** A selected worker is one of the router's. *)
Lemma select_member id s ws p r r' w o c :
  0 <= Z.of_nat (length ws) < u32_modulus ->
  selectRoutedWorker id s ws p r = (r', (w, o, c)) -> o = RouteSuccess -> w ∈ ws.
Proof.
  intros Hlen H Ho. unfold selectRoutedWorker in H. destruct (Nat.eqb_spec (length ws) 0); [by simplify_eq|].
  assert (0 < Z.of_nat (length ws)) as Hpos by lia. destruct s.
  - destruct (bump_rrNext id r) as [r1 n1]. simplify_eq. apply worker_at_elem, Z.mod_pos_bound. lia.
  - unfold randIntn in H. simplify_eq. apply worker_at_elem, Z.mod_pos_bound. lia.
  - destruct (hashKeyOf p) as [k|]; [|by simplify_eq]. case_bool_decide; simplify_eq.
    apply worker_at_elem. unfold u32. rewrite (Z.mod_small (Z.of_nat _)) by lia.
    apply Z.mod_pos_bound. lia.
  - by simplify_eq.
Qed.

(** Router tables that fit the code's [uint32] arithmetic. *)
Definition small_routers (r : Runtime) : Prop :=
  forall id s ws, routerState id r = Some (s, ws) -> Z.of_nat (length ws) < u32_modulus.

Lemma small_routers_frame r r' : send_frame r r' -> small_routers r -> small_routers r'.
Proof. intros Hf Hr id s ws. rewrite (sf_routers _ _ Hf). apply Hr. Qed.

Lemma nextMsgID_frame r : send_frame r (nextMsgID r).1.
Proof. by apply send_frame_obs. Qed.

Lemma send_total rank fuel id p ask r :
  ranked rank r -> small_routers r -> (rank id < fuel)%nat ->
  is_Some (sendWithAskContext fuel id p ask r).
Proof.
  revert id p ask r. induction fuel as [|fuel IH]; intros id p ask r Hr Hsm Hf; [lia|].
  cbn [sendWithAskContext]. destruct (is_nil p); [by eexists|]. rewrite gets_bind.
  destruct (routerState id r) as [[s ws]|] eqn:Ers; [|by eexists]. rewrite gets_bind.
  unfold mbind at 1, M_bind at 1, total at 1. pose proof (nextMsgID_frame r) as F1.
  destruct (nextMsgID r) as [r1 m]. cbn [fst] in F1.
  destruct (actor_of id r) as [inst|]; [|by eexists]. case_decide; [by eexists|].
  unfold dispatchRouted. unfold mbind at 1, M_bind at 1, total at 1.
  pose proof (nextMsgID_frame r1) as F2. destruct (nextMsgID r1) as [r2 m2]. cbn [fst] in F2.
  unfold mbind at 1, M_bind at 1, total at 1.
  pose proof (frame_select id s ws p r2) as F3.
  destruct (selectRoutedWorker id s ws p r2) as [r3 [[w o] c]] eqn:Esel. cbn [fst] in F3.
  case_decide as Ho; [|by eexists].
  assert (send_frame r r3) as F by (etransitivity; [exact F1|]; by etransitivity).
  assert (w ∈ ws) as Hw.
  { eapply select_member; [|exact Esel|done]. pose proof (Hsm _ _ _ Ers). lia. }
  destruct (IH w p ask r3) as [[r4 ack] E].
  - by eapply ranked_frame.
  - by eapply small_routers_frame.
  - pose proof (Hr _ _ _ _ Ers Hw). lia.
  - unfold mbind at 1, M_bind at 1. rewrite E. case_decide; by eexists.
Qed.

(** C16: Sends terminate when routers do not form a cycle.  Given a rank that
    decreases from every router to its workers, a send to [id] has a result,
    and every fuel above [rank id] gives that result: the bound on router
    nesting the model uses is not observable. *)
Theorem send_terminates rank id p ask r :
  ranked rank r -> small_routers r ->
  exists x, forall fuel, (rank id < fuel)%nat -> sendWithAskContext fuel id p ask r = Some x.
Proof.
  intros Hr Hs. destruct (send_total rank (S (rank id)) id p ask r Hr Hs) as [x Hx]; [lia|].
  exists x. intros fuel Hf. eapply send_mono; [|exact Hx]. lia.
Qed.

(** A router [r] in front of the workers [a] and [b]. *)
Definition routed : list action :=
  two_actors ++ [DoApi (ACreateActor "r" PNil (Some accumulator) []);
    DoApi (AConfigureRouter "r" RouterStrategyRoundRobin ["a"; "b"]%string)].

Definition router_rank (id : string) : nat := if decide (id = "r"%string) then 1 else 0.

Lemma routed_routers id s ws :
  routerState id (run_schedule 2 routed) = Some (s, ws) ->
  id = "r"%string /\ ws = ["a"; "b"]%string.
Proof.
  unfold routerState. intros H.
  destruct (rp_routers (rt_routes (run_schedule 2 routed)) !! id) as [st|] eqn:E; [|done].
  assert (rp_routers (rt_routes (run_schedule 2 routed)) =
    {["r"%string := mkRouterRuntimeState RouterStrategyRoundRobin ["a"; "b"]%string 0]}) as E'
    by (vm_compute; reflexivity).
  rewrite E' in E. apply lookup_singleton_Some in E as [<- <-]. injection H as <- <-. by split.
Qed.

Lemma send_terminates_witness :
  ranked router_rank (run_schedule 2 routed) /\
  exists x, forall fuel, (router_rank "r" < fuel)%nat ->
    sendWithAskContext fuel "r" (job 1) None (run_schedule 2 routed) = Some x.
Proof.
  assert (ranked router_rank (run_schedule 2 routed)) as Hr.
  { intros id s ws w H Hw. apply routed_routers in H as [-> ->].
    rewrite !elem_of_cons, elem_of_nil in Hw. destruct Hw as [->|[->|[]]]; vm_compute; lia. }
  split; [exact Hr|]. apply send_terminates; [exact Hr|].
  intros id s ws H. apply routed_routers in H as [_ ->]. reflexivity.
Defined.

Lemma actor_frame id r r' : send_frame r r' -> strip <$> actor_of id r' = strip <$> actor_of id r.
Proof.
  intros Hf. unfold actor_of, lookup_actor. rewrite (sf_registry _ _ Hf).
  destruct (registry_get _ _) as [l|]; [|done]. apply (sf_instance _ _ Hf).
Qed.

Lemma actor_frame_status id r r' inst :
  send_frame r r' -> actor_of id r = Some inst ->
  exists inst', actor_of id r' = Some inst' /\ ai_status inst' = ai_status inst.
Proof.
  intros Hf Hi. pose proof (actor_frame id _ _ Hf) as E. rewrite Hi in E.
  destruct (actor_of id r') as [inst'|]; [|done]. exists inst'. split; [done|].
  unfold strip in E. cbn in E. by injection E.
Qed.

(** A router among its own workers never answers: when a running router's
    only worker is itself, a send to it recurses for ever, with any fuel
    ([ConfigureRouter] accepts such a configuration). *)
Theorem router_cycle_diverges fuel id s inst p ask r :
  routerState id r = Some (s, [id]) -> s = RouterStrategyRoundRobin \/ s = RouterStrategyRandom ->
  actor_of id r = Some inst -> ai_status inst <> ActorStoppedCode -> is_nil p = false ->
  sendWithAskContext fuel id p ask r = None.
Proof.
  revert r inst. induction fuel as [|fuel IH]; intros r inst Hs Hst Hi Hrun Hp; [done|].
  cbn [sendWithAskContext]. rewrite Hp, !gets_bind, Hs, gets_bind, Hi.
  unfold mbind at 1, M_bind at 1, total at 1. pose proof (nextMsgID_frame r) as F1.
  destruct (nextMsgID r) as [r1 m]. cbn [fst] in F1. rewrite decide_False by done.
  unfold dispatchRouted. unfold mbind at 1, M_bind at 1, total at 1.
  pose proof (nextMsgID_frame r1) as F2. destruct (nextMsgID r1) as [r2 m2]. cbn [fst] in F2.
  unfold mbind at 1, M_bind at 1, total at 1. pose proof (frame_select id s [id] p r2) as F3.
  assert (exists c, (selectRoutedWorker id s [id] p r2).2 = (id, RouteSuccess, c)) as [c Hc].
  { unfold selectRoutedWorker. destruct Hst as [-> | ->]; cbn [length Nat.eqb].
    - destruct (bump_rrNext id r2) as [r' n]. cbn [snd]. rewrite Z.mod_1_r. by eexists.
    - unfold randIntn. cbn [snd]. rewrite Z.mod_1_r. by eexists. }
  destruct (selectRoutedWorker id s [id] p r2) as [r3 sel]. cbn [fst snd] in *. subst sel.
  rewrite decide_True by done. assert (send_frame r r3) as F by (etransitivity; [exact F1|]; by etransitivity).
  destruct (actor_frame_status id _ _ _ F Hi) as (inst' & Hi' & E). unfold mbind, M_bind.
  rewrite (IH r3 inst'); [done| |done|done|congruence|done].
  by rewrite (sf_routers _ _ F).
Qed.

Definition self_router : list action :=
  [DoApi (ACreateActor "r" PNil (Some accumulator) []);
   DoApi (AConfigureRouter "r" RouterStrategyRoundRobin ["r"]%string)].

Lemma router_cycle_diverges_witness :
  reachable 2 defaultConfig true 0 (run_schedule 2 self_router) /\
  forall fuel, sendWithAskContext fuel "r" (job 1) None (run_schedule 2 self_router) = None.
Proof.
  split; [apply run_schedule_reachable; vm_compute; eexists; reflexivity|]. intros fuel.
  eapply (router_cycle_diverges fuel "r" RouterStrategyRoundRobin).
  - vm_compute. reflexivity.
  - by left.
  - vm_compute. reflexivity.
  - vm_compute. discriminate.
  - reflexivity.
Defined.

(** ** Fairness *)

(** The workers of [n] consecutive routed sends. *)
Fixpoint select_n (n : nat) (id : string) (s : RouterStrategy) (ws : list string) (p : payload)
    (r : Runtime) : list string :=
  match n with
  | O => []
  | S n =>
      let '(r, (w, _, _)) := selectRoutedWorker id s ws p r in w :: select_n n id s ws p r
  end.

Lemma select_round_robin id ws p r st :
  rp_routers (rt_routes r) !! id = Some st -> ws <> [] ->
  0 <= rs_rrNext st -> rs_rrNext st + 1 < u64_modulus ->
  exists r', selectRoutedWorker id RouterStrategyRoundRobin ws p r =
    (r', (worker_at ws (rs_rrNext st mod Z.of_nat (length ws)), RouteSuccess, ""%string)) /\
  rp_routers (rt_routes r') !! id =
    Some (mkRouterRuntimeState (rs_strategy st) (rs_workers st) (rs_rrNext st + 1)).
Proof.
  intros Hr Hws H0 H1. unfold selectRoutedWorker, bump_rrNext.
  destruct (Nat.eqb_spec (length ws) 0) as [E|_]; [by destruct ws|]. rewrite Hr.
  rewrite u64_succ_small by lia. eexists. split.
  - replace (rs_rrNext st + 1 - 1) with (rs_rrNext st) by lia. by rewrite u64_small by lia.
  - cbn. by rewrite lookup_insert_eq.
Qed.

Lemma select_n_round_robin n id ws p r st :
  rp_routers (rt_routes r) !! id = Some st -> ws <> [] ->
  0 <= rs_rrNext st -> rs_rrNext st + Z.of_nat n < u64_modulus ->
  select_n n id RouterStrategyRoundRobin ws p r =
    (fun i => worker_at ws ((rs_rrNext st + Z.of_nat i) mod Z.of_nat (length ws))) <$> seq 0 n.
Proof.
  revert r st. induction n as [|n IH]; intros r st Hr Hws H0 H1; [done|].
  destruct (select_round_robin id ws p r st Hr Hws) as (r' & E & Hr'); [lia..|].
  cbn [select_n]. rewrite E, (IH r' _ Hr'); [|done|cbn; lia..]. cbn [seq fmap list_fmap].
  rewrite Z.add_0_r. f_equal. rewrite <- seq_shift, <- list_fmap_compose. apply list_fmap_ext.
  intros i j _. cbn. do 2 f_equal. lia.
Qed.

(** Walking once around a list is a rotation of it. *)
Lemma walk_around (ws : list string) (c : Z) :
  ws <> [] -> 0 <= c ->
  (fun i => worker_at ws ((c + Z.of_nat i) mod Z.of_nat (length ws))) <$> seq 0 (length ws)
  = drop (Z.to_nat (c mod Z.of_nat (length ws))) ws ++ take (Z.to_nat (c mod Z.of_nat (length ws))) ws.
Proof.
  intros Hws Hc. set (n := Z.of_nat (length ws)).
  assert (0 < n) as Hn by (destruct ws; [done|subst n; cbn; lia]).
  pose proof (Z.mod_pos_bound c n Hn) as Hk. set (k := Z.to_nat (c mod n)).
  apply list_eq_same_length with (length ws); [|by rewrite length_fmap, length_seq|].
  { rewrite length_app, length_drop, length_take. subst k n. lia. }
  intros i x y Hi Hx Hy. rewrite list_lookup_fmap, lookup_seq_lt in Hx by done.
  cbn in Hx. simplify_eq. unfold worker_at. rewrite Z.add_mod by lia.
  rewrite (Z.mod_small (Z.of_nat i)) by (subst n; lia).
  destruct (decide (k + i < length ws)%nat) as [Hlt|Hge].
  - rewrite Z.mod_small by (subst k n; lia). rewrite lookup_app_l, lookup_drop in Hy by (rewrite length_drop; lia).
    replace (Z.to_nat (c mod n + Z.of_nat i)) with (k + i)%nat by (subst k; lia). by rewrite Hy.
  - rewrite lookup_app_r, length_drop, lookup_take_lt in Hy by (rewrite ?length_drop; subst k n; lia).
    replace ((c mod n + Z.of_nat i) mod n) with (c mod n + Z.of_nat i - n).
    2: { rewrite <- (Z.mod_small (c mod n + Z.of_nat i - n) n) by (subst k n; lia).
         replace (c mod n + Z.of_nat i - n) with (c mod n + Z.of_nat i + (-1) * n) by lia.
         by rewrite Z.mod_add by lia. }
    replace (Z.to_nat (c mod n + Z.of_nat i - n)) with (i - (length ws - k))%nat by (subst k n; lia).
    by rewrite Hy.
Qed.

(** Round-robin routing is fair: over as many consecutive routed messages as
    the router has workers, starting from any counter value (below its
    wrap-around), every worker is selected exactly once. *)
Theorem round_robin_is_fair id st ws p r :
  rp_routers (rt_routes r) !! id = Some st -> ws <> [] ->
  0 <= rs_rrNext st -> rs_rrNext st + Z.of_nat (length ws) < u64_modulus ->
  select_n (length ws) id RouterStrategyRoundRobin ws p r ≡ₚ ws.
Proof.
  intros Hr Hws H0 H1. rewrite (select_n_round_robin _ _ _ _ _ st), walk_around by done.
  by rewrite Permutation_app_comm, take_drop.
Qed.

Lemma round_robin_is_fair_witness :
  select_n 2 "r" RouterStrategyRoundRobin ["a"; "b"]%string (job 1) (run_schedule 2 routed)
    ≡ₚ ["a"; "b"]%string.
Proof.
  apply (round_robin_is_fair "r" (mkRouterRuntimeState RouterStrategyRoundRobin ["a"; "b"]%string 0)
           ["a"; "b"]%string).
  - vm_compute. reflexivity.
  - discriminate.
  - reflexivity.
  - reflexivity.
Defined.

(** ** The result of a direct send *)

(** The acknowledgement of a send to an actor that is not a router: the first
    of the conditions that applies. *)
Definition send_verdict (actorID : string) (p : payload) (r : Runtime) : SubmitResult :=
  match actor_of actorID r with
  | None => SubmitRejectedFound
  | Some inst =>
      if decide (ai_status inst = ActorStoppedCode) then SubmitRejectedStop
      else match rr_match (resolve actorID (messageTypeName p) (messageSchemaVersion p)
                             (rp_routing (rt_routes r))) with
      | routeVersionMismatch => SubmitRejectedVersionMismatch
      | routeUnsupportedType => SubmitRejectedUnsupportedType
      | _ =>
          if mb_closed (ai_mailbox inst) then SubmitRejectedStop
          else if mb_max (ai_mailbox inst) <=? Depth (ai_mailbox inst) then SubmitRejectedFull
          else SubmitAccepted
      end
  end.

(** What a send with a given verdict does to the actors and the outcomes. *)
Record send_effect (actorID : string) (p : payload) (ask : option AskRequestContext) (v : SubmitResult)
    (r : Runtime) (r' : Runtime) (ack : SubmitAck) : Prop := {
  se_result : sa_Result ack = v;
  se_msgID : sa_MessageID ack = u64_succ (rt_msgSeq r) /\ rt_msgSeq r' = sa_MessageID ack;
  se_accepted : v = SubmitAccepted ->
    exists l inst, lookup_actor actorID r = Some l /\ instance l r = Some inst /\
      instance l r' = Some (ai_set_mailbox (Enqueue (mkMessage (sa_MessageID ack) actorID "" p ask
        (messageTypeName p) (messageSchemaVersion p) (rt_now r) 1) (ai_mailbox inst)).1 inst) /\
      (forall l', l' <> l -> instance l' r' = instance l' r);
  se_rejected : v <> SubmitAccepted ->
    (forall l, instance l r' = instance l r) /\
    exists o, outcome_get (sa_MessageID ack) (ob_outcomes (rt_obs r')) = Some o /\
      po_ActorID o = actorID /\ po_ErrorCode o = SubmitResult_string v
}.

Lemma reject_effect actorID p ask m x s r0 r :
  s <> SubmitAccepted -> m = u64_succ (rt_msgSeq r0) -> rt_msgSeq r = m ->
  (forall l, instance l r = instance l r0) ->
  send_effect actorID p ask s r0 (reject actorID m x s r).1 (reject actorID m x s r).2.
Proof.
  intros Hs -> Hm Hi. split; [done|by split|done|]. intros _. split; [exact Hi|].
  eexists. split; [apply lookup_insert_eq|done].
Qed.

Lemma rejectLocal_effect actorID p ask msg x s r0 r :
  s <> SubmitAccepted -> msg_ID msg = u64_succ (rt_msgSeq r0) -> rt_msgSeq r = msg_ID msg ->
  (forall l, instance l r = instance l r0) ->
  send_effect actorID p ask s r0 (rejectLocal actorID msg x s r).1 (rejectLocal actorID msg x s r).2.
Proof.
  intros Hs E Hm Hi. split; [done|by split|done|]. intros _. split; [exact Hi|].
  eexists. split; [apply lookup_insert_eq|done].
Qed.

Lemma ai_set_mailbox_self a : ai_set_mailbox (ai_mailbox a) a = a.
Proof. by destruct a. Qed.

Lemma instance_update_self l mb inst r l' :
  instance l r = Some inst -> mb = ai_mailbox inst ->
  instance l' (update_instance l (ai_set_mailbox mb) r) = instance l' r.
Proof.
  intros Hi ->. rewrite instance_update. destruct (decide _) as [->|]; [|done].
  rewrite Hi. cbn. by rewrite ai_set_mailbox_self.
Qed.

Lemma enqueue_effect actorID p ask l inst r0 r :
  let m := u64_succ (rt_msgSeq r0) in
  let msg := mkMessage m actorID "" p ask (messageTypeName p) (messageSchemaVersion p) (rt_now r0) 1 in
  lookup_actor actorID r0 = Some l -> instance l r0 = Some inst -> rt_msgSeq r = m ->
  (forall l, instance l r = instance l r0) ->
  let v := if mb_closed (ai_mailbox inst) then SubmitRejectedStop
           else if mb_max (ai_mailbox inst) <=? Depth (ai_mailbox inst) then SubmitRejectedFull
           else SubmitAccepted in
  send_effect actorID p ask v r0 (enqueueMessage l inst actorID msg r).1
    (enqueueMessage l inst actorID msg r).2.
Proof.
  intros m msg Hl Hi Hm Hsame v. assert (instance l r = Some inst) as Hi' by (by rewrite Hsame).
  pose proof (fun mb l' => instance_update_self l mb inst r l' Hi') as Hself.
  unfold enqueueMessage. unfold Enqueue. subst v. destruct (mb_closed (ai_mailbox inst)) eqn:Hc.
  - cbv beta iota. rewrite (decide_False (P := SubmitRejectedStop = SubmitRejectedFull)), decide_True by done.
    apply (reject_effect actorID p ask m ResultRejectedStop SubmitRejectedStop r0
             (update_instance l (ai_set_mailbox (ai_mailbox inst)) r)); [done..|].
    intros l'. rewrite Hself by done. apply Hsame.
  - destruct (mb_max (ai_mailbox inst) <=? Depth (ai_mailbox inst)) eqn:Hf.
    + cbv beta iota. rewrite (decide_True (P := SubmitRejectedFull = SubmitRejectedFull)),
        (decide_False (P := SubmitRejectedFull = SubmitRejectedStop)) by done.
      apply (reject_effect actorID p ask m ResultRejectedFull SubmitRejectedFull r0
               (update_instance l (ai_set_mailbox (ai_mailbox inst)) r)); [done..|].
      intros l'. rewrite Hself by done. apply Hsame.
    + cbv beta iota. rewrite !decide_False by done. split; [done|by split| |done]. intros _.
      exists l, inst. split_and!; [done|done| |].
      * unfold Enqueue. rewrite Hc, Hf. cbn [fst]. by rewrite instance_update_eq, Hi'.
      * intros l' Hne. cbn [fst]. rewrite instance_update, decide_False by done. apply Hsame.
Qed.

Lemma sendDirect_effect actorID p ask r :
  send_effect actorID p ask (send_verdict actorID p r) r (sendDirect actorID p ask r).1
    (sendDirect actorID p ask r).2.
Proof.
  unfold sendDirect, send_verdict, actor_of.
  destruct (nextMsgID r) as [r1 m] eqn:En. unfold nextMsgID in En.
  assert (m = u64_succ (rt_msgSeq r) /\ r1 = set_msgSeq m r) as [-> ->] by (by simplify_eq).
  destruct (lookup_actor actorID r) as [l|] eqn:El; cbn [mbind option_bind]; [|by apply reject_effect].
  change (instance l (set_msgSeq (u64_succ (rt_msgSeq r)) r)) with (instance l r).
  destruct (instance l r) as [inst|] eqn:Hi; cbn [fmap option_fmap option_map]; [|by apply reject_effect].
  case_decide; [by apply reject_effect|]. cbn [rt_routes rt_now set_msgSeq].
  destruct (rr_match _); try (by apply rejectLocal_effect); by apply enqueue_effect.
Qed.

(** C6: What a send does, on every branch.  For a payload that is not nil and a
    target that is not a router, [Send] returns, its acknowledgement carries
    the next message ID and the verdict (unknown actor, stopped actor, version
    mismatch, unsupported type, closed or full mailbox, accepted, in this
    order of precedence); an accepted message is enqueued once, at the target
    and nowhere else, with the payload, type and time of the send; a rejected
    one leaves every actor as it is and is recorded under its message ID with
    the code of the acknowledgement. *)
Theorem send_follows_verdict fuel actorID p ask r :
  is_nil p = false -> routerState actorID r = None ->
  exists r' ack, sendWithAskContext (S fuel) actorID p ask r = Some (r', ack) /\
    send_effect actorID p ask (send_verdict actorID p r) r r' ack.
Proof.
  intros Hp Hr. cbn [sendWithAskContext]. rewrite Hp, gets_bind, Hr. unfold total.
  eexists _, _. split; [f_equal; apply surjective_pairing|apply sendDirect_effect].
Qed.

Lemma send_follows_verdict_witness :
  send_verdict "b" (job 5) (run_schedule 2 two_actors) = SubmitAccepted /\
  exists r' ack, sendWithAskContext 1 "b" (job 5) None (run_schedule 2 two_actors) = Some (r', ack) /\
    send_effect "b" (job 5) None (send_verdict "b" (job 5) (run_schedule 2 two_actors))
      (run_schedule 2 two_actors) r' ack.
Proof.
  split; [vm_compute; reflexivity|]. apply (send_follows_verdict 0).
  - reflexivity.
  - vm_compute. reflexivity.
Defined.

(** ** Delivery by PID *)

(** A PID of an actor of this node: not an ask-reply address, not remote. *)
Definition local_pid (pid : PID) (r : Runtime) : Prop :=
  isAskReplyNamespace (Namespace pid) = false /\
  (cf_remoteSend (rt_cfg r) = None \/ IsRemote pid (cf_nodeID (rt_cfg r)) = false).

(** Why a PID send is refused before it reaches a mailbox, and whether a dead
    letter is recorded. *)
Definition pid_refusal (pid : PID) (r : Runtime) : option (PIDDeliveryOutcome * bool) :=
  let resolver := pp_resolver (rt_pids r) in
  match Resolve (rt_now r) pid resolver with
  | None => Some (match lookup_actor (ActorID pid) r with
                  | None => PIDRejectedNotFound | Some _ => PIDUnresolved end, true)
  | Some entry =>
      if decide (pre_RouteState entry = PIDRouteStopped) then Some (PIDRejectedStopped, true)
      else if decide (Generation pid = pre_CurrentGeneration entry) then
        if bool_decide (GatewayMode resolver = GatewayRouteGatewayMediated) && negb (GatewayAvailable resolver)
        then Some (PIDUnresolved, false) else None
      else Some (PIDRejectedStaleGeneration, true)
  end.

(** What a refused send does: nothing to the actors, routes and PIDs. *)
Record pid_refused (o : PIDDeliveryOutcome) (dead : bool) (p : payload) (r r' : Runtime) (ack : PIDSendAck)
    : Prop := {
  pr_outcome : psa_Outcome ack = o;
  pr_frame : rt_actors r' = rt_actors r /\ rt_routes r' = rt_routes r /\ rt_pids r' = rt_pids r;
  pr_dead : DeadLetterCount r' =
    if dead then u64_succ (DeadLetterCount r) else DeadLetterCount r
}.

Lemma refusePID_refused ev pid m o code ga mode p dead r0 r :
  rt_actors r = rt_actors r0 -> rt_routes r = rt_routes r0 -> rt_pids r = rt_pids r0 ->
  DeadLetterCount r = DeadLetterCount r0 ->
  pid_refused o (bool_decide (is_Some dead)) p r0
    (refusePID ev pid m o code ga mode p dead r).1 (refusePID ev pid m o code ga mode p dead r).2.
Proof.
  intros Ea Er Ep Ed. destruct dead; cbn; split; try done; unfold DeadLetterCount in *; cbn; by rewrite Ed.
Qed.

Lemma send_pid_unfold fuel pid p r :
  local_pid pid r ->
  SendPID fuel pid p r =
    sendPIDLocal fuel "" pid p (u64_succ (rt_msgSeq r)) (set_msgSeq (u64_succ (rt_msgSeq r)) r).
Proof.
  intros [Ha Hr]. unfold SendPID, sendPIDWithSender. unfold mbind at 1, M_bind at 1, total at 1.
  cbn [nextMsgID]. unfold mbind at 1, M_bind at 1, total at 1. unfold routeAskReply. rewrite Ha. cbn [negb].
  rewrite gets_bind. cbn [rt_cfg set_msgSeq]. destruct Hr as [-> | ->]; [done|].
  by destruct (cf_remoteSend (rt_cfg r)).
Qed.

Lemma pid_send_cases fuel pid p r :
  local_pid pid r ->
  match pid_refusal pid r with
  | Some (o, dead) =>
      exists r' ack, SendPID fuel pid p r = Some (r', ack) /\ pid_refused o dead p r r' ack
  | None =>
      match Send fuel (ActorID pid) p (set_msgSeq (u64_succ (rt_msgSeq r)) r) with
      | Some (r1, sack) =>
          exists r' ack, SendPID fuel pid p r = Some (r', ack) /\ rt_actors r' = rt_actors r1 /\
            psa_Outcome ack = if decide (sa_Result sack = SubmitAccepted) then PIDDelivered else PIDRejectedStopped
      | None => SendPID fuel pid p r = None
      end
  end.
Proof.
  intros Hl. rewrite send_pid_unfold by done. unfold sendPIDLocal. rewrite gets_bind.
  set (r1 := set_msgSeq (u64_succ (rt_msgSeq r)) r). unfold pid_refusal. cbv zeta. unfold id.
  change (rt_pids r1) with (rt_pids r). change (rt_now r1) with (rt_now r).
  change (lookup_actor (ActorID pid) r1) with (lookup_actor (ActorID pid) r).
  destruct (Resolve (rt_now r) pid (pp_resolver (rt_pids r))) as [entry|].
  - destruct (decide (pre_RouteState entry = PIDRouteStopped)).
    { eexists _, _. split; [reflexivity|]. by apply (refusePID_refused _ _ _ _ _ _ _ _ (Some _)). }
    destruct (decide (Generation pid = pre_CurrentGeneration entry)) as [Hg|Hg].
    2: { apply Z.eqb_neq in Hg. rewrite Hg. cbn [negb]. eexists _, _. split; [reflexivity|].
         by apply (refusePID_refused _ _ _ _ _ _ _ _ (Some _)). }
    rewrite (proj2 (Z.eqb_eq _ _) Hg). cbn [negb]. destruct (_ && _).
    { eexists _, _. split; [reflexivity|]. by apply (refusePID_refused _ _ _ _ _ _ _ _ None). }
    unfold mbind, M_bind. destruct (Send fuel (ActorID pid) p r1) as [[r2 sack]|]; [|reflexivity].
    destruct (decide (sa_Result sack = SubmitAccepted)); eexists _, _; (split; [reflexivity|]); done.
  - destruct (lookup_actor (ActorID pid) r); eexists _, _; (split; [reflexivity|]);
      by apply (refusePID_refused _ _ _ _ _ _ _ _ (Some _)).
Qed.

(** In front of acyclic routers the send returns. *)
Lemma pid_send_total rank fuel pid p r :
  local_pid pid r -> ranked rank r -> small_routers r -> (rank (ActorID pid) < fuel)%nat ->
  is_Some (SendPID fuel pid p r).
Proof.
  intros Hl Hr Hs Hf. pose proof (pid_send_cases fuel pid p r Hl) as H.
  destruct (pid_refusal pid r) as [[o dead]|]; [destruct H as (r' & ack & -> & _); by eexists|].
  destruct (send_total rank fuel (ActorID pid) p None (set_msgSeq (u64_succ (rt_msgSeq r)) r)) as [[r1 sack] E]; [done..|].
  unfold Send in H. rewrite E in H. destruct H as (r' & ack & -> & _). by eexists.
Qed.

(** C9: A PID of this node (not an ask-reply address, not remote) only reaches
    the incarnation it was issued for.  A send to a PID that is unknown, of a
    stopped actor, or of another generation than the current one is refused with
    that outcome, counted as a dead letter, and changes no actor, route or PID;
    a send through an unavailable gateway is refused in the same way but without
    a dead letter.  Any other send is the send to the actor's ID: it returns
    exactly when that does, leaves the actors as that leaves them, and reports
    delivery exactly when that is accepted.  It does return whenever the routers
    in front of the actor are acyclic (each below its [rank]). *)
Theorem pid_send_is_guarded fuel pid p r :
  local_pid pid r ->
  match pid_refusal pid r with
  | Some (o, dead) =>
      exists r' ack, SendPID fuel pid p r = Some (r', ack) /\ pid_refused o dead p r r' ack
  | None =>
      match Send fuel (ActorID pid) p (set_msgSeq (u64_succ (rt_msgSeq r)) r) with
      | Some (r1, sack) =>
          exists r' ack, SendPID fuel pid p r = Some (r', ack) /\ rt_actors r' = rt_actors r1 /\
            psa_Outcome ack = if decide (sa_Result sack = SubmitAccepted) then PIDDelivered else PIDRejectedStopped
      | None => SendPID fuel pid p r = None
      end
  end /\
  forall rank, ranked rank r -> small_routers r -> (rank (ActorID pid) < fuel)%nat ->
    is_Some (SendPID fuel pid p r).
Proof. intros Hl. split; [by apply pid_send_cases|]. intros rank. by apply pid_send_total. Qed.

(** The actor [a] with a PID, restarted once by a failing job. *)
Definition restarted : list action :=
  [DoApi (ACreateActor "a" (job 0) (Some accumulator) []); DoStart 0;
   DoApi (AIssuePID "default" "a"); DoApi (ASend "a" (job (-1))); DoWake 0; DoIter 0].

Definition old_pid : PID := mkPID "default" "a" 1.

(** Before its restart the actor is reached, after it the PID is stale. *)
Lemma pid_send_is_guarded_witness :
  (pid_refusal old_pid (run_schedule 2 restarted) = Some (PIDRejectedStaleGeneration, true) /\
   exists r' ack, SendPID 2 old_pid (job 1) (run_schedule 2 restarted) = Some (r', ack) /\
     pid_refused PIDRejectedStaleGeneration true (job 1) (run_schedule 2 restarted) r' ack) /\
  exists r' ack, SendPID 2 old_pid (job 1) (run_schedule 2 (take 3 restarted)) = Some (r', ack) /\
    psa_Outcome ack = PIDDelivered.
Proof.
  split.
  - assert (pid_refusal old_pid (run_schedule 2 restarted) = Some (PIDRejectedStaleGeneration, true)) as E
      by (vm_compute; reflexivity).
    split; [exact E|]. pose proof (pid_send_is_guarded 2 old_pid (job 1) (run_schedule 2 restarted)) as H.
    rewrite E in H. apply H. split; [reflexivity|left; vm_compute; reflexivity].
  - pose proof (pid_send_is_guarded 2 old_pid (job 1) (run_schedule 2 (take 3 restarted))) as H.
    assert (pid_refusal old_pid (run_schedule 2 (take 3 restarted)) = None) as E by (vm_compute; reflexivity).
    rewrite E in H. destruct H as [H _]; [split; [reflexivity|left; vm_compute; reflexivity]|].
    destruct (Send 2 _ _ _) as [[r1 sack]|] eqn:Es; [|vm_compute in Es; discriminate].
    destruct H as (r' & ack & H & _ & Ho). exists r', ack. split; [exact H|].
    assert (sa_Result sack = SubmitAccepted) as Ea by (vm_compute in Es; injection Es as _ <-; reflexivity).
    rewrite Ho, decide_True by exact Ea. reflexivity.
Defined.

(** The PID with the next generation. *)
Definition next_pid (pid : PID) : PID := mkPID (Namespace pid) (ActorID pid) (u64_succ (Generation pid)).

(** The actor's PID is [pid], current at the resolver. *)
Definition current_pid (id : string) (pid : PID) (r : Runtime) : Prop :=
  PIDForActor id r = Some pid /\
  exists e, Resolve (rt_now r) pid (pp_resolver (rt_pids r)) = Some e /\
    pre_PID e = pid /\ pre_CurrentGeneration e = Generation pid.

(** The bump makes the next PID current and reachable. *)
Lemma bumpPID_next id pid r :
  current_pid id pid r ->
  let r1 := bumpPID id r in
  PIDForActor id r1 = Some (next_pid pid) /\ rt_cfg r1 = rt_cfg r /\
  exists e, imr_byKey (pp_resolver (rt_pids r1)) !! Key pid = Some e /\
    pre_PID e = next_pid pid /\ pre_CurrentGeneration e = u64_succ (Generation pid) /\
    pre_RouteState e = PIDRouteReachable.
Proof.
  intros (Hp & e & He & Hpe & Hg) r1.
  pose (e' := mkPIDResolverEntry (next_pid pid) PIDRouteReachable (u64_succ (Generation pid)) (rt_now r)).
  assert (PIDForActor id r1 = Some (next_pid pid) /\ imr_byKey (pp_resolver (rt_pids r1)) !! Key pid = Some e')
    as (Hp1 & He1).
  { split; unfold r1, bumpPID; rewrite Hp; cbn in He |- *;
      unfold InMemory_Resolve in He; unfold InMemory_BumpGeneration, InMemory_SetState; rewrite He;
      cbn; rewrite lookup_insert_eq; cbn; rewrite Hpe, Hg.
    - apply lookup_insert_eq.
    - by rewrite lookup_insert_eq. }
  split; [done|]. split; [apply bumpPID_frame|]. by exists e'.
Qed.

(** A send to a PID of another generation than the resolver's is refused. *)
Lemma stale_pid_refused fuel pid p r e :
  local_pid pid r -> imr_byKey (pp_resolver (rt_pids r)) !! Key pid = Some e ->
  pre_RouteState e <> PIDRouteStopped -> Generation pid <> pre_CurrentGeneration e ->
  exists r' ack, SendPID fuel pid p r = Some (r', ack) /\
    psa_Outcome ack = PIDRejectedStaleGeneration /\ rt_actors r' = rt_actors r.
Proof.
  intros Hl He Hs Hg. pose proof (pid_send_cases fuel pid p r Hl) as H.
  assert (pid_refusal pid r = Some (PIDRejectedStaleGeneration, true)) as E.
  { unfold pid_refusal. cbn. unfold InMemory_Resolve. rewrite He. by rewrite !decide_False. }
  rewrite E in H. destruct H as (r' & ack & H & [Ho [Hf _] _]). by exists r', ack.
Qed.

Lemma u64_succ_changes z : 0 <= z < u64_modulus -> z <> u64_succ z.
Proof.
  intros Hz Heq. unfold u64_succ, u64 in Heq. symmetry in Heq. revert Heq. unfold u64_modulus in *.
  destruct (Z.eq_dec z (2 ^ 64 - 1)) as [->|]; [by vm_compute|]. rewrite Z.mod_small; lia.
Qed.

(** Issuing a PID again undoes this.  [IssuePID] registers generation one
    whatever the actor's history, so after a restart and a second [IssuePID] in
    the same namespace a PID handed out before the restart is delivered again. *)
Example reissued_pid_revives_old_pid :
  let r1 := run_schedule 2 restarted in
  let r2 := run_schedule 2 (restarted ++ [DoApi (AIssuePID "default" "a")]) in
  (psa_Outcome <$> (snd <$> SendPID 2 old_pid (job 7) r1) = Some PIDRejectedStaleGeneration) /\
  (psa_Outcome <$> (snd <$> SendPID 2 old_pid (job 7) r2) = Some PIDDelivered).
Proof. split; vm_compute; reflexivity. Qed.
