(* ===== verification/Asks.v ===== *)
(** * Asks: requests and their replies

    A reply reaches the caller that waits for it, carries that caller's request,
    and is accepted at most once. *)

From S2P Require Import Prelude Types Mailbox Resolver Registry Routing Outcomes Monitors PubSub.
From S2P Require Import Fnv Program State Emit Send Lifecycle Broker Cron Actor Prim System Invariants.
From S2P Require Import Scheduler Safety.

(** ** Reply addresses *)

(** An ask-reply address of the node. *)
Definition own_reply_address (nodeID : string) (pid : PID) : Prop :=
  Namespace pid =
    (if bool_decide (nodeID = ""%string) then askReplyNamespace else askReplyNamespace +:+ "@" +:+ nodeID).

Lemma own_reply_address_checks nodeID pid :
  own_reply_address nodeID pid ->
  negb (isAskReplyNamespace (Namespace pid)) = false /\
  negb (bool_decide (nodeID = ""%string)) && negb (bool_decide (Namespace pid = askReplyNamespace))
    && negb (bool_decide (Namespace pid = askReplyNamespace +:+ "@" +:+ nodeID)) = false.
Proof.
  unfold own_reply_address. intros ->. destruct (bool_decide_reflect (nodeID = ""%string)); [done|]. split.
  - unfold isAskReplyNamespace.
    change (askReplyNamespace +:+ "@" +:+ nodeID) with ("__ask_reply@" +:+ nodeID).
    by rewrite hasPrefix_app, orb_true_r.
  - set (ns := askReplyNamespace +:+ "@" +:+ nodeID).
    by rewrite (bool_decide_eq_true_2 (ns = ns)), !andb_false_r.
Qed.

Lemma canonical_own_address nodeID w : canonical_ask nodeID w -> own_reply_address nodeID (pa_replyTo w).
Proof. unfold canonical_ask, own_reply_address. by intros ->. Qed.

(** The envelope a payload is delivered in: an envelope as it is (with the
    request filled in when it names none), anything else wrapped. *)
Definition reply_envelope (requestID : string) (now : Z) (p : payload) : AskReplyEnvelope :=
  let env := match p with
             | PAskReplyEnvelope rid pl at_ => mkAskReplyEnvelope rid pl at_
             | _ => mkAskReplyEnvelope requestID p now
             end in
  if bool_decide (are_RequestID env = ""%string)
  then mkAskReplyEnvelope requestID (are_Payload env) (are_RepliedAt env) else env.

(** ** Replies *)

(** A reply to a pending request fills its channel. *)
Lemma reply_pending w p m r :
  ask_ok r -> kp_wait (rt_ask r) !! pa_requestID w = Some w ->
  are_RequestID (reply_envelope (pa_requestID w) (rt_now r) p) = pa_requestID w ->
  exists r1, routeAskReply (pa_replyTo w) p m r = (r1, Some (mkPIDSendAck PIDDelivered m)) /\
    kp_ch (rt_ask r1) !! pa_requestID w =
      Some (w, Some (reply_envelope (pa_requestID w) (rt_now r) p)) /\
    kp_wait (rt_ask r1) !! pa_requestID w = None /\
    kp_reply (rt_ask r1) !! Key (pa_replyTo w) = None /\
    rt_cfg r1 = rt_cfg r /\ rt_actors r1 = rt_actors r.
Proof.
  intros Hok Hw He. destruct (kok_wait _ _ Hok _ _ Hw) as (_ & Hcan & Hk & Hch).
  destruct (own_reply_address_checks _ _ (canonical_own_address _ _ Hcan)) as [E1 E2].
  unfold routeAskReply. rewrite E1, E2, Hk, Hw. cbv zeta. cbn [rt_ask set_ask kp_ch].
  change (rt_now (set_ask ?k r)) with (rt_now r).
  fold (reply_envelope (pa_requestID w) (rt_now r) p).
  rewrite (bool_decide_eq_true_2 _ He), Hch. cbn [negb]. eexists. split; [reflexivity|].
  cbn [rt_ask set_ask kp_ch kp_wait kp_reply rt_cfg rt_actors].
  rewrite lookup_alter_eq, Hch, !lookup_delete_eq. done.
Qed.

(** A reply to an address with no pending request is refused. *)
Lemma reply_refused pid p m r :
  own_reply_address (cf_nodeID (rt_cfg r)) pid -> kp_reply (rt_ask r) !! Key pid = None ->
  exists r1 ack, routeAskReply pid p m r = (r1, Some ack) /\
    psa_Outcome ack <> PIDDelivered /\ rt_ask r1 = rt_ask r /\ rt_actors r1 = rt_actors r.
Proof.
  intros Ha Hk. destruct (own_reply_address_checks _ _ Ha) as [E1 E2].
  unfold routeAskReply. rewrite E1, E2, Hk. cbv zeta. destruct (kp_closed _ !! _); by eexists _, _.
Qed.

(** A client asks [a] and waits. *)
Definition asking : list action := two_actors ++ [DoAsk "a" (job 3) 1000].

Definition example_ask : pendingAsk := mkPendingAsk "ask-1" "a" (mkPID "__ask_reply" "ask-1" 1).

Lemma asking_reachable : reachable 2 defaultConfig true 0 (run_schedule 2 asking).
Proof. apply run_schedule_reachable. vm_compute. eexists. reflexivity. Qed.

(** C12: Ask round trip.  In a reachable state, a payload sent to the reply
    address of a pending request is delivered, and the waiting call returns
    exactly that payload under its own request ID, and leaves no trace of the
    request in the tables. *)
Theorem ask_round_trip fuel cfg d now r w p m :
  reachable fuel cfg d now r -> kp_wait (rt_ask r) !! pa_requestID w = Some w ->
  are_RequestID (reply_envelope (pa_requestID w) (rt_now r) p) = pa_requestID w ->
  exists r1 r2, routeAskReply (pa_replyTo w) p m r = (r1, Some (mkPIDSendAck PIDDelivered m)) /\
    AskEnd w WakeReply r1 = Some (r2, inl (mkAskResult (pa_requestID w)
      (are_Payload (reply_envelope (pa_requestID w) (rt_now r) p)))) /\
    kp_wait (rt_ask r2) !! pa_requestID w = None /\ kp_ch (rt_ask r2) !! pa_requestID w = None /\
    kp_reply (rt_ask r2) !! Key (pa_replyTo w) = None.
Proof.
  intros Hr Hw He. apply reachable_ok in Hr as [_ Hok _ _ _].
  destruct (reply_pending w p m r Hok Hw He) as (r1 & E1 & Hch & _). exists r1.
  unfold AskEnd. rewrite Hch. eexists. split_and!; [done|by rewrite He| | |]; cbn; apply lookup_delete_eq.
Qed.

Lemma ask_round_trip_witness :
  exists r1 r2, routeAskReply (pa_replyTo example_ask) (job 8) 9 (run_schedule 2 asking) =
      (r1, Some (mkPIDSendAck PIDDelivered 9)) /\
    AskEnd example_ask WakeReply r1 = Some (r2, inl (mkAskResult "ask-1" (job 8))) /\
    kp_wait (rt_ask r2) !! "ask-1"%string = None /\ kp_ch (rt_ask r2) !! "ask-1"%string = None /\
    kp_reply (rt_ask r2) !! Key (pa_replyTo example_ask) = None.
Proof.
  apply (ask_round_trip 2 defaultConfig true 0 (run_schedule 2 asking) example_ask (job 8) 9).
  - apply asking_reachable.
  - vm_compute. reflexivity.
  - reflexivity.
Defined.

(** C11: A request is answered at most once.  After a reply was delivered, or
    after the waiting call returned (with a reply, timed out or cancelled), a
    reply to its address is refused and changes neither the ask tables, nor the
    channel of any request, nor any actor. *)
Theorem ask_answered_once fuel cfg d now r w p m p' m' :
  reachable fuel cfg d now r -> kp_wait (rt_ask r) !! pa_requestID w = Some w ->
  are_RequestID (reply_envelope (pa_requestID w) (rt_now r) p) = pa_requestID w ->
  let refused r1 :=
    exists r2 ack, routeAskReply (pa_replyTo w) p' m' r1 = (r2, Some ack) /\
      psa_Outcome ack <> PIDDelivered /\ rt_ask r2 = rt_ask r1 /\ rt_actors r2 = rt_actors r1 in
  refused (routeAskReply (pa_replyTo w) p m r).1 /\
  (forall k r1 res, AskEnd w k r = Some (r1, res) -> refused r1).
Proof.
  intros Hr Hw He refused. apply reachable_ok in Hr as [_ Hok _ _ _].
  destruct (kok_wait _ _ Hok _ _ Hw) as (_ & Hcan & _).
  pose proof (canonical_own_address _ _ Hcan) as Ha. split.
  - destruct (reply_pending w p m r Hok Hw He) as (r1 & -> & _ & _ & Hk & Hc & _).
    apply reply_refused; [cbn; by rewrite Hc|done].
  - intros k r1 res H. unfold AskEnd in H. apply reply_refused.
    + destruct k; [destruct (kp_ch _ !! _) as [[? [?|]]|]|..]; by simplify_eq.
    + destruct k; [destruct (kp_ch _ !! _) as [[? [?|]]|]|..]; simplify_eq; cbn; apply lookup_delete_eq.
Qed.

Lemma ask_answered_once_witness :
  exists r2 ack, routeAskReply (pa_replyTo example_ask) (job 9) 10
      (routeAskReply (pa_replyTo example_ask) (job 8) 9 (run_schedule 2 asking)).1 = (r2, Some ack) /\
    psa_Outcome ack <> PIDDelivered /\
    rt_ask r2 = rt_ask (routeAskReply (pa_replyTo example_ask) (job 8) 9 (run_schedule 2 asking)).1 /\
    rt_actors r2 = rt_actors (routeAskReply (pa_replyTo example_ask) (job 8) 9 (run_schedule 2 asking)).1.
Proof.
  apply (ask_answered_once 2 defaultConfig true 0 (run_schedule 2 asking) example_ask (job 8) 9 (job 9) 10).
  - apply asking_reachable.
  - vm_compute. reflexivity.
  - reflexivity.
Defined.

(** A reply never reaches the wrong caller.  Whenever the call waiting for
    [w] returns a result in a reachable state, the result carries the request
    ID of [w], whatever was sent to whichever address before. *)
Theorem ask_result_is_own fuel cfg d now r w c k r' res :
  reachable fuel cfg d now r -> kp_ch (rt_ask r) !! pa_requestID w = Some (w, c) ->
  AskEnd w k r = Some (r', inl res) -> ar_RequestID res = pa_requestID w.
Proof.
  intros Hr Hch H. apply reachable_ok in Hr as [_ Hok _ _ _].
  destruct (kok_ch _ _ Hok _ _ _ Hch) as (_ & _ & He).
  destruct k; cbn in H; [|by simplify_eq..]. rewrite Hch in H.
  destruct c as [env|]; [|done]. simplify_eq. cbn. by apply He.
Qed.

Lemma ask_result_is_own_witness :
  exists r' res, AskEnd example_ask WakeReply
      (run_schedule 2 (asking ++ [DoApi (ASendPID (pa_replyTo example_ask) (job 8))])) = Some (r', inl res) /\
    ar_RequestID res = pa_requestID example_ask.
Proof.
  eexists _, _. split; [vm_compute; reflexivity|].
  eapply (ask_result_is_own 2 defaultConfig true 0
    (run_schedule 2 (asking ++ [DoApi (ASendPID (pa_replyTo example_ask) (job 8))])) example_ask _ WakeReply).
  - apply run_schedule_reachable. vm_compute. eexists. reflexivity.
  - vm_compute. reflexivity.
  - vm_compute. reflexivity.
Defined.
