(* ===== verification/Shutdown.v ===== *)
(** * Shutdown: what stopping and restarting an actor guarantees

    The postcondition of [Stop]: the actor and its PID are stopped, its names
    and monitors are gone, its mailbox is closed, and later sends are rejected.
    And what stopping does not do: the goroutine that is draining the mailbox
    goes on processing queued messages.  A supervised restart of a failing
    actor raises its generation, so its older PIDs are refused. *)

From S2P Require Import Prelude Types Mailbox Resolver Registry Routing Outcomes Monitors PubSub.
From S2P Require Import Fnv Program State Emit Send Lifecycle Broker Cron Actor Prim System Invariants.
From S2P Require Import Scheduler Safety Delivery.

(** ** Sends by PID are within the frame of a send *)

Lemma frame_routeAskReply pid p m r : send_frame r (routeAskReply pid p m r).1.
Proof.
  destruct (routeAskReply_frame pid p m r) as (E1 & E2 & E3 & E4 & E5 & _ & E7 & _).
  by apply send_frame_obs.
Qed.

Lemma frame_refusePID ev pid m o code ga mode p dead r :
  send_frame r (refusePID ev pid m o code ga mode p dead r).1.
Proof. destruct dead; by apply send_frame_obs. Qed.

Lemma framed_SendPID fuel pid p : framed (SendPID fuel pid p).
Proof.
  unfold SendPID, sendPIDWithSender, sendPIDLocal, Send.
  pose proof framed_send. pose proof frame_routeAskReply. pose proof frame_refusePID.
  framed_tac.
Qed.

Lemma framed_forM {A} (l : list A) f : (forall x, framed (f x)) -> framed (forM l f).
Proof. intros Hf. induction l as [|x l IH]; cbn; [apply framed_ret|]. apply framed_bind; auto. Qed.

Lemma frame_putHookOutcome a ph x c r : send_frame r (putHookOutcome a ph x c r).
Proof. by apply send_frame_obs. Qed.

Lemma frame_stopHook inst r : send_frame r (runStopHookWithTimeout inst r).
Proof.
  unfold runStopHookWithTimeout. destruct (ai_stopHook inst) as [h|]; [|reflexivity].
  destruct (h _ _); apply frame_putHookOutcome.
Qed.

(** A send by PID returns when sends by actor ID do. *)
Lemma SendPID_total rank fuel pid p r :
  ranked rank r -> small_routers r -> (forall id, rank id < fuel)%nat ->
  exists r' ack, SendPID fuel pid p r = Some (r', ack).
Proof.
  intros Hr Hs Hf. unfold SendPID, sendPIDWithSender. unfold mbind at 1, M_bind at 1, total at 1.
  pose proof (nextMsgID_frame r) as F1. destruct (nextMsgID r) as [r1 m]. cbn [fst] in F1.
  unfold mbind at 1, M_bind at 1, total at 1. pose proof (frame_routeAskReply pid p m r1) as F2.
  destruct (routeAskReply pid p m r1) as [r2 [ack|]]; cbn [fst] in F2.
  { eexists _, _. by rewrite upd_bind. }
  rewrite gets_bind.
  assert (exists r' ack, sendPIDLocal fuel "" pid p m r2 = Some (r', ack)) as (r' & ack & E).
  { unfold sendPIDLocal. rewrite gets_bind. unfold id.
    destruct (Resolve _ _ _) as [entry|]; [|destruct (lookup_actor _ _); by eexists _, _].
    case_decide; [by eexists _, _|]. destruct (negb _); [by eexists _, _|]. destruct (_ && _); [by eexists _, _|].
    assert (send_frame r r2) as F by (by etransitivity).
    destruct (send_total rank fuel (ActorID pid) p None r2) as [[r3 sack] E];
      [by eapply ranked_frame|by eapply small_routers_frame|done|].
    unfold Send. unfold mbind at 1, M_bind at 1. rewrite E.
    case_decide; by eexists _, _. }
  destruct (cf_remoteSend (rt_cfg r2)) as [f|]; [|by eexists _, _].
  destruct (IsRemote _ _); [|by eexists _, _]. rewrite upd_bind.
  destruct (f _ _ _ _) as [ack' [e|]]; by eexists _, _.
Qed.

Lemma no_routers_ranked r :
  rp_routers (rt_routes r) = ∅ -> ranked (fun _ => 0%nat) r /\ small_routers r.
Proof.
  intros E. split; intros id s ws; unfold routerState; rewrite E, lookup_empty; [|done].
  intros w H. discriminate.
Qed.

(** ** The postcondition of [cleanupRegistryForActor] *)

(** The state without the names and the monitors of an actor. *)
Definition forget_names (actorID : string) (r : Runtime) : Runtime :=
  set_names (nr_unregisterByActor actorID (pp_names (rt_pids r))).1 r.
Definition forget_monitors (actorID : string) (r : Runtime) : Runtime :=
  set_monitors (mm_drain actorID (sp_monitors (rt_svc r))).1 r.

Lemma cleanup_frame fuel actorID res r r' u :
  cleanupRegistryForActor fuel actorID res r = Some (r', u) ->
  send_frame (forget_monitors actorID (forget_names actorID r)) r'.
Proof.
  intros H. unfold cleanupRegistryForActor in H. apply bind_inv in H as (r1 & es & H1 & H).
  apply total_inv in H1. destruct (nr_unregisterByActor actorID (pp_names (rt_pids r))) as [names es'] eqn:En.
  assert (r1 = forget_names actorID r) as -> by (unfold forget_names; rewrite En; by simplify_eq).
  apply bind_inv in H as (r2 & u2 & H2 & H).
  assert (send_frame (forget_names actorID r) r2) as F2.
  { revert H2. apply framed_forM. intros e. apply framed_upd. intros r0. by apply send_frame_obs. }
  unfold notifyMonitors in H. apply bind_inv in H as (r3 & ms & H3 & H). apply total_inv in H3.
  rewrite (sf_svc _ _ F2) in H3. change (rt_svc (forget_names actorID r)) with (rt_svc r) in H3.
  transitivity r3; [|revert H; apply framed_forM; intros e; apply framed_bind;
                    [apply framed_SendPID|intros; apply framed_ret]].
  cbn in H3. simplify_eq. destruct F2. split; cbn in *; try done; try congruence.
Qed.

(** ** The postcondition of stopping *)

(** The actor [id], with its instance at [l], is shut down. *)
Record shut_down (id : string) (l : nat) (r : Runtime) : Prop := {
  sd_status : Status id r = ActorStopped;
  sd_instance : lookup_actor id r = Some l /\ exists inst, instance l r = Some inst /\ halted inst;
  sd_names name e : nr_lookup name (pp_names (rt_pids r)) = Some e -> re_actorID e <> id;
  sd_monitors : targets_at id (mm_byTarget (sp_monitors (rt_svc r))) = [];
  sd_pid pid : PIDForActor id r = Some pid ->
    exists e, Resolve (rt_now r) pid (pp_resolver (rt_pids r)) = Some e /\ pre_RouteState e = PIDRouteStopped;
  sd_sends p : send_verdict id p r = SubmitRejectedStop
}.

Lemma shut_down_frame id l r r' : send_frame r r' -> shut_down id l r -> shut_down id l r'.
Proof.
  intros Hf [H1 [H2 (inst & Hi & H3)] H4 H5 H6 H7].
  assert (lookup_actor id r' = Some l) as Hl.
  { unfold lookup_actor in *. by rewrite (sf_registry _ _ Hf). }
  assert (exists inst', instance l r' = Some inst' /\ halted inst') as (inst' & Hi' & Hh).
  { pose proof (sf_instance _ _ Hf l) as E. rewrite Hi in E.
    destruct (instance l r') as [inst'|]; [|done]. exists inst'. split; [done|].
    destruct H3 as (S1 & S2 & S3). unfold halted. unfold strip in E. cbn in E. injection E. intros.
    split_and!; congruence. }
  pose proof Hh as (S1 & S2 & S3). split.
  - unfold Status, actor_of. rewrite Hl. cbn. by rewrite Hi', S1.
  - split; [done|]. by exists inst'.
  - rewrite (sf_pids _ _ Hf). exact H4.
  - by rewrite (sf_svc _ _ Hf).
  - unfold PIDForActor in *. rewrite (sf_pids _ _ Hf), (sf_now _ _ Hf). exact H6.
  - intros p. unfold send_verdict, actor_of. rewrite Hl. cbn. rewrite Hi'. by rewrite decide_True.
Qed.

Lemma markPIDStopped_route id r pid :
  PIDForActor id r = Some pid ->
  exists e, Resolve (rt_now r) pid (pp_resolver (rt_pids (markPIDStopped id r))) = Some e /\
    pre_RouteState e = PIDRouteStopped.
Proof.
  intros Hp. unfold markPIDStopped. rewrite Hp. cbn. unfold InMemory_Resolve, InMemory_SetState.
  destruct (imr_byKey (pp_resolver (rt_pids r)) !! Key pid); cbn; rewrite lookup_insert_eq; by eexists.
Qed.

Lemma stopInstance_shut_down fuel id l inst r r' u :
  names_ok r -> lookup_actor id r = Some l -> is_Some (instance l r) ->
  stopInstance fuel id l inst r = Some (r', u) -> shut_down id l r'.
Proof.
  intros Hn Hl [i0 Hi] H. unfold stopInstance in H. rewrite !upd_bind in H. apply cleanup_frame in H.
  eapply shut_down_frame; [exact H|]. clear H. pose proof (frame_stopHook inst r) as Hf.
  set (r1 := runStopHookWithTimeout inst r) in *.
  set (r2 := update_instance l (ai_set_status ActorStoppedCode) r1).
  assert (exists i1, instance l r1 = Some i1) as [i1 Hi1].
  { pose proof (sf_instance _ _ Hf l) as E. rewrite Hi in E. destruct (instance l r1); [eauto|done]. }
  assert (lookup_actor id r1 = Some l) as Hl1.
  { unfold lookup_actor in *. by rewrite (sf_registry _ _ Hf). }
  set (r3 := markPIDStopped id r2).
  pose proof (markPIDStopped_frame id r2) as (_ & Ea & _ & _ & Es & _ & _ & En).
  assert (lookup_actor id r3 = Some l) as Hl3 by (unfold r3, lookup_actor in *; by rewrite Ea).
  assert (instance l r3 = Some (ai_set_status ActorStoppedCode i1)) as Hi3.
  { unfold r3, instance. rewrite Ea. fold (instance l r2). unfold r2. by rewrite instance_update_eq, Hi1. }
  assert (pp_names (rt_pids r3) = pp_names (rt_pids r)) as Hnm.
  { rewrite <- (sf_pids _ _ Hf). unfold r3, markPIDStopped. by destruct (PIDForActor id r2). }
  set (r4 := update_instance l ai_close (update_instance l ai_cancel r3)).
  assert (instance l r4 = Some (halt i1)) as Hi4.
  { unfold r4. by rewrite !instance_update_eq, Hi3. }
  split.
  - unfold Status, actor_of.
    change (lookup_actor id (forget_monitors id (forget_names id r4))) with (lookup_actor id r3).
    rewrite Hl3. cbn [mbind option_bind].
    change (instance l (forget_monitors id (forget_names id r4))) with (instance l r4). by rewrite Hi4.
  - split; [exact Hl3|]. exists (halt i1). by split; [exact Hi4|].
  - intros name e. unfold nr_lookup. cbn. change (pp_names (rt_pids r4)) with (pp_names (rt_pids r3)).
    rewrite Hnm, unregisterByActor_lookup by done. destruct (nr_byName _ !! name); cbn; [|done].
    case_decide; [done|]. intros. by simplify_eq.
  - cbn. unfold targets_at. by rewrite lookup_delete_eq.
  - intros pid Hp. change (PIDForActor id r3 = Some pid) in Hp.
    assert (PIDForActor id r2 = Some pid) as Hp2.
    { unfold r3, markPIDStopped in Hp. destruct (PIDForActor id r2) eqn:E; [|congruence].
      change (PIDForActor id r2 = Some pid) in Hp. congruence. }
    change (exists e, Resolve (rt_now r3) pid (pp_resolver (rt_pids r3)) = Some e /\
      pre_RouteState e = PIDRouteStopped).
    unfold r3. rewrite En. by apply markPIDStopped_route.
  - intros p. unfold send_verdict, actor_of.
    change (lookup_actor id (forget_monitors id (forget_names id r4))) with (lookup_actor id r3).
    rewrite Hl3. cbn [mbind option_bind].
    change (instance l (forget_monitors id (forget_names id r4))) with (instance l r4).
    rewrite Hi4. by rewrite decide_True.
Qed.

Lemma stop_cases {A} fuel a (k : actorInstance -> StopResult -> A) (none : A) r r' y :
  names_ok r ->
  (match lookup_actor a r ≫= (fun l => (fun inst => (l, inst)) <$> instance l r) with
   | None => mret none
   | Some (l, inst) =>
      if decide (Status a r = ActorStopped) then mret (k inst StopAlready)
      else
        _ ← upd (update_instance l (ai_set_status ActorStoppingCode));
        _ ← stopInstance fuel a l inst;
        mret (k inst StopStopped)
   end) r = Some (r', y) ->
  y = none \/ (exists inst, y = k inst StopAlready) \/
  exists l inst, lookup_actor a r = Some l /\ instance l r = Some inst /\ y = k inst StopStopped /\
    shut_down a l r'.
Proof.
  intros Hn H.
  destruct (lookup_actor a r) as [l|] eqn:Hl; cbn [mbind option_bind] in H; [|minv H; by left].
  destruct (instance l r) as [inst|] eqn:Hi; cbn [fmap option_fmap option_map] in H; [|minv H; by left].
  destruct (decide (Status a r = ActorStopped)); [minv H; right; left; by exists inst|].
  rewrite upd_bind in H. apply bind_inv in H as (r1 & u & H1 & H). minv H. right. right.
  exists l, inst. split_and!; [done..|]. eapply stopInstance_shut_down; [| | |exact H1].
  - done.
  - done.
  - rewrite instance_update_eq, Hi. by eexists.
Qed.

(** C8: Stopping is final and complete.  When [Stop] returns in a reachable state
    that the actor was stopped, its status is stopped, its context cancelled and
    its mailbox closed, its PID is marked stopped at the resolver, no name is
    registered for it, no monitor watches it any more, and every later send to
    it is rejected as stopped. *)
Theorem stop_shuts_down fuel cfg d now r a r' :
  reachable fuel cfg d now r -> Stop fuel a r = Some (r', StopStopped) ->
  exists l, lookup_actor a r = Some l /\ shut_down a l r'.
Proof.
  intros Hr H. apply reachable_ok in Hr as [_ _ Hn _ _].
  apply (stop_cases fuel a (fun _ s => s) StopNotFound) in H as [?|[[? ?]|(l & inst & Hl & _ & _ & H)]];
    [done..| |done]. by exists l.
Qed.

Lemma stop_shuts_down_witness :
  exists r', Stop 2 "a" (run_schedule 2 two_actors) = Some (r', StopStopped) /\
  exists l, lookup_actor "a" (run_schedule 2 two_actors) = Some l /\ shut_down "a" l r'.
Proof.
  eexists. split; [vm_compute; reflexivity|].
  apply (stop_shuts_down 2 defaultConfig true 0 (run_schedule 2 two_actors)).
  - apply run_schedule_reachable. vm_compute. eexists. reflexivity.
  - vm_compute. reflexivity.
Defined.

(** [StopAndCapture] stops like [Stop] and hands out the actor's state as it
    was when it was called; it gives no state when the actor was not running. *)
Theorem capture_returns_the_state fuel cfg d now r a r' st res :
  reachable fuel cfg d now r -> StopAndCapture fuel a r = Some (r', (st, res)) ->
  match res with
  | StopStopped => exists l inst, lookup_actor a r = Some l /\ instance l r = Some inst /\
      st = as_value (ai_state inst) /\ shut_down a l r'
  | _ => st = PNil
  end.
Proof.
  intros Hr H. apply reachable_ok in Hr as [_ _ Hn _ _].
  apply (stop_cases fuel a (fun inst s => (match s with StopStopped => as_value (ai_state inst) | _ => PNil end, s))
    (PNil, StopNotFound)) in H as [?|[[? ?]|(l & inst & Hl & Hi & E & H)]]; [by simplify_eq..| |done].
  simplify_eq. by exists l, inst.
Qed.

Lemma capture_returns_the_state_witness :
  let r := run_schedule 2 (two_actors ++ [DoWake 0; DoIter 0]) in
  exists r' st, StopAndCapture 2 "a" r = Some (r', (st, StopStopped)) /\ st = job 1 /\
  exists l inst, lookup_actor "a" r = Some l /\ instance l r = Some inst /\
    st = as_value (ai_state inst) /\ shut_down "a" l r'.
Proof.
  cbv zeta. eexists _, _. split; [vm_compute; reflexivity|]. split; [reflexivity|].
  apply (capture_returns_the_state 2 defaultConfig true 0 (run_schedule 2 (two_actors ++ [DoWake 0; DoIter 0]))
           "a" _ (job 1) StopStopped).
  - apply run_schedule_reachable. vm_compute. eexists. reflexivity.
  - vm_compute. reflexivity.
Defined.

(** ** Restarts and PIDs *)

(** What the PIDs of actors depend on is unchanged. *)
Record pids_kept (r r' : Runtime) : Prop := {
  pk_cfg : rt_cfg r' = rt_cfg r;
  pk_now : rt_now r' = rt_now r;
  pk_resolver : pp_resolver (rt_pids r') = pp_resolver (rt_pids r);
  pk_actorPID : pp_actorPID (rt_pids r') = pp_actorPID (rt_pids r)
}.

#[export] Instance pids_kept_preorder : PreOrder pids_kept.
Proof. split; [by split|]. intros a b c [? ? ? ?] [? ? ? ?]. split; congruence. Qed.

Lemma pids_kept_frame r r' : send_frame r r' -> pids_kept r r'.
Proof. intros F. split; [apply F|apply F|by rewrite (sf_pids _ _ F)..]. Qed.

Lemma current_pid_kept id pid r r' : pids_kept r r' -> current_pid id pid r -> current_pid id pid r'.
Proof. intros [E1 E2 E3 E4]. unfold current_pid, PIDForActor. by rewrite E2, E3, E4. Qed.

Lemma framed_hook id ph h : framed (runLifecycleHook id ph h).
Proof. unfold runLifecycleHook. pose proof frame_putHookOutcome. framed_tac. Qed.

Lemma terminate_pids fuel l id r r' u : terminate fuel l id r = Some (r', u) -> pids_kept r r'.
Proof.
  intros H. unfold terminate in H. rewrite !upd_bind in H. apply cleanup_frame, pids_kept_frame in H.
  etransitivity; [|exact H]. by split.
Qed.

(** The decision to restart bumps the PID; around that the PIDs are unchanged. *)
Lemma restart_bumps fuel l id m batch r r' u :
  supervise fuel l id m DecisionRestart batch r = Some (r', u) ->
  exists r1, pids_kept r r1 /\ pids_kept (bumpPID id r1) r'.
Proof.
  intros H. cbn [supervise] in H. rewrite !upd_bind, restarting_steps, gets_bind in H.
  set (r1 := update_instance l restarting r) in *. exists r1. split; [by split|].
  apply bind_inv in H as (r2 & e & Hh & H). apply framed_hook, pids_kept_frame in Hh. etransitivity; [exact Hh|].
  destruct e as [e|].
  - apply bind_inv in H as (r3 & u1 & Ht & H). apply terminate_pids in Ht. etransitivity; [exact Ht|].
    rewrite upd_bind, gets_bind in H. minv H. by destruct batch.
  - rewrite upd_bind, gets_bind in H. by minv H.
Qed.

Lemma bumpPID_now id r : rt_now (bumpPID id r) = rt_now r.
Proof. unfold bumpPID. destruct (PIDForActor id r); [|done]. by destruct (BumpGeneration _ _ _) as [res [p'|]]. Qed.

(** The start hook lets a restarted actor run. *)
Definition start_hook_ok (inst : actorInstance) (r : Runtime) : Prop :=
  match ai_startHook inst with Some h => h (rt_now r) (ai_id inst) = HookOk | None => True end.

Lemma restart_returns fuel l a m batch r :
  instance l r = Some a -> start_hook_ok a r ->
  is_Some (supervise fuel l (ai_id a) m DecisionRestart batch r).
Proof.
  intros Hi Hs. cbn [supervise]. rewrite !upd_bind, restarting_steps, gets_bind.
  set (r1 := update_instance l restarting r).
  assert (instance l (bumpPID (ai_id a) r1) = Some (restarting a)) as ->.
  { unfold instance. rewrite (proj1 (bumpPID_frame (ai_id a) r1)). fold (instance l r1). unfold r1.
    by rewrite instance_update_eq, Hi. }
  cbn [mbind option_bind]. unfold mbind, M_bind. unfold runLifecycleHook, start_hook_ok in *.
  change (ai_startHook (restarting a)) with (ai_startHook a).
  destruct (ai_startHook a) as [h|]; [|by eexists]. unfold mbind, M_bind, gets, total.
  rewrite bumpPID_now. change (rt_now r1) with (rt_now r). rewrite Hs. by eexists.
Qed.

(** C10: A supervised restart invalidates the PID the actor had.  When, in a
    reachable state, a message's handler fails, the policy decides to restart,
    and the actor's PID is current at the resolver, then processing the message
    leaves the actor with the PID of the next generation (modulo [2^64]), which
    the resolver has as current and reachable, and a send to the old PID is
    refused as stale and changes no actor.  Processing returns at least when the
    actor has no start hook or its start hook succeeds (a start hook may hang,
    and one that fails stops the actor and notifies its monitors). *)
Theorem restart_invalidates_pid fuel cfg d now r l msg inst r1 res err pid p :
  reachable fuel cfg d now r -> instance l r = Some inst ->
  run_handler fuel (ai_handler inst) (as_value (ai_state inst)) msg r = Some (r1, res) ->
  handlerError res = Some err ->
  cf_policy (rt_cfg r) (ai_id inst) err (ai_restarts inst) = DecisionRestart ->
  current_pid (ai_id inst) pid r1 -> 0 <= Generation pid < u64_modulus -> local_pid pid r ->
  (start_hook_ok inst r1 -> is_Some (processMessage fuel l msg r)) /\
  forall r' x, processMessage fuel l msg r = Some (r', x) ->
    PIDForActor (ai_id inst) r' = Some (next_pid pid) /\
    (exists e, Resolve (rt_now r') (next_pid pid) (pp_resolver (rt_pids r')) = Some e /\
       pre_CurrentGeneration e = Generation (next_pid pid) /\ pre_RouteState e = PIDRouteReachable) /\
    exists r2 ack, SendPID fuel pid p r' = Some (r2, ack) /\
      psa_Outcome ack = PIDRejectedStaleGeneration /\ rt_actors r2 = rt_actors r'.
Proof.
  intros Hr Hi Hrun He Hd Hp Hg Hl. apply reachable_ok, rok_actors, aok_heap in Hr as Hh.
  apply runs_run_handler in Hrun as H1. destruct (prims_instance _ _ _ _ H1 Hh Hi) as (i1 & Hi1 & Ho).
  pose proof Ho as (Eid & _)%own_part_eq. pose proof (prims_cfg _ _ H1) as Ec.
  assert (exists r3, processMessage fuel l msg r = supervise fuel l (ai_id inst) (msg_ID msg) DecisionRestart None r3 /\
    pids_kept r1 r3 /\ instance l r3 = Some (ai_set_lastDecision DecisionRestart i1)) as (r3 & Em & K3 & Hi3).
  { eexists. split.
    - unfold processMessage. rewrite gets_bind, Hi. cbv zeta. unfold mbind at 1, M_bind at 1. rewrite Hrun, He.
      rewrite gets_bind, !upd_bind, Ec, Hd. reflexivity.
    - split; [by split|]. rewrite instance_update_eq.
      match goal with |- _ <$> instance l ?q = _ => change (instance l q) with (instance l r1) end. by rewrite Hi1. }
  rewrite Em. split.
  - intros Hs. rewrite <- Eid. apply (restart_returns fuel l (ai_set_lastDecision DecisionRestart i1)); [exact Hi3|].
    unfold start_hook_ok in *. rewrite (pk_now _ _ K3). cbn.
    unfold own_part in Ho. injection Ho as -> _ _ _ _ -> _. exact Hs.
  - intros r' x H. apply restart_bumps in H as (r4 & K4 & K5).
    assert (current_pid (ai_id inst) pid r4) as Hp4.
    { eapply current_pid_kept; [|exact Hp]. etransitivity; [exact K3|exact K4]. }
    destruct (bumpPID_next _ _ _ Hp4) as (P1 & P2 & e & P3 & P4 & P5 & P6). destruct K5 as [C1 C2 C3 C4].
    split; [unfold PIDForActor in *; congruence|].
    assert (imr_byKey (pp_resolver (rt_pids r')) !! Key pid = Some e) as P3' by (by rewrite C3).
    split; [exists e; by split|].
    apply (stale_pid_refused fuel pid p r' e); [|done|congruence|rewrite P5; by apply u64_succ_changes].
    unfold local_pid in *. rewrite C1, P2, (pk_cfg _ _ K4), (pk_cfg _ _ K3). by rewrite Ec.
Qed.

Lemma restart_invalidates_pid_witness :
  let r := run_schedule 2 (take 3 restarted) in
  let failing := mkMessage 9 "a" "" (job (-1)) None "main.Job" "v1" 0 1 in
  exists r' x, processMessage 2 0 failing r = Some (r', x) /\
    PIDForActor "a" r = Some (mkPID "default" "a" 1) /\ PIDForActor "a" r' = Some (mkPID "default" "a" 2) /\
    exists r2 ack, SendPID 2 old_pid (job 1) r' = Some (r2, ack) /\
      psa_Outcome ack = PIDRejectedStaleGeneration /\ rt_actors r2 = rt_actors r'.
Proof.
  cbv zeta. set (failing := mkMessage 9 "a" "" (job (-1)) None "main.Job" "v1" 0 1).
  assert (exists inst r1, instance 0 (run_schedule 2 (take 3 restarted)) = Some inst /\ ai_id inst = "a"%string /\
    run_handler 2 (ai_handler inst) (as_value (ai_state inst)) failing (run_schedule 2 (take 3 restarted)) =
      Some (r1, HRErr "negative job") /\
    cf_policy (rt_cfg (run_schedule 2 (take 3 restarted))) (ai_id inst) "negative job" (ai_restarts inst) = DecisionRestart /\
    current_pid "a" old_pid r1 /\ ai_startHook inst = None) as (inst & r1 & H1 & H2 & H3 & H4 & H5 & H6).
  { eexists _, _. split; [vm_compute; reflexivity|]. split; [reflexivity|]. split; [vm_compute; reflexivity|].
    split; [vm_compute; reflexivity|]. split; [|reflexivity]. split; [vm_compute; reflexivity|].
    eexists. split; [vm_compute; reflexivity|]. split; reflexivity. }
  assert (reachable 2 defaultConfig true 0 (run_schedule 2 (take 3 restarted))) as Hr.
  { apply run_schedule_reachable. vm_compute. eexists. reflexivity. }
  assert (local_pid old_pid (run_schedule 2 (take 3 restarted))) as Hl.
  { split; [reflexivity|left; vm_compute; reflexivity]. }
  pose proof (restart_invalidates_pid 2 defaultConfig true 0 (run_schedule 2 (take 3 restarted)) 0 failing inst r1
    (HRErr "negative job") "negative job" old_pid (job 1) Hr H1 H3 eq_refl H4) as H.
  rewrite H2 in H. destruct (H H5) as [Ha Hb]; [vm_compute; split; [discriminate|reflexivity]|exact Hl|].
  destruct Ha as [[r' x] Hx]; [unfold start_hook_ok; rewrite H6; exact I|].
  destruct (Hb r' x Hx) as (P1 & _ & P2). exists r', x. split; [exact Hx|]. split; [vm_compute; reflexivity|]. split; [exact P1|exact P2].
Defined.

(** ** What stopping does not do *)

(** A job and a failing job are queued and the goroutine is draining. *)
Definition draining : list action :=
  [DoApi (ACreateActor "a" (job 0) (Some accumulator) []); DoStart 0;
   DoApi (ASend "a" (job 1)); DoApi (ASend "a" (job (-1))); DoWake 0].

(** A stopped actor can go on and come back.  [StopAndCapture] during the
    inner loop of the actor's goroutine reports the state [0] and the status
    stopped, but the next iteration still processes the queued job (the state
    becomes [1]), and the one after it, whose handler fails, restarts the actor:
    its status is running again, with its mailbox closed. *)
Example stopped_actor_is_revived :
  let r0 := run_schedule 2 draining in
  let r1 := run_schedule 2 (draining ++ [DoApi (AStopAndCapture "a")]) in
  let r2 := run_schedule 2 (draining ++ [DoApi (AStopAndCapture "a"); DoIter 0]) in
  let r3 := run_schedule 2 (draining ++ [DoApi (AStopAndCapture "a"); DoIter 0; DoIter 0]) in
  let state r := (fun i => as_value (ai_state i)) <$> instance 0 r in
  (snd <$> StopAndCapture 2 "a" r0 = Some (job 0, StopStopped)) /\
  (Status "a" r1 = ActorStopped /\ state r1 = Some (job 0)) /\
  (Status "a" r2 = ActorStopped /\ state r2 = Some (job 1)) /\
  (Status "a" r3 = ActorRunning /\ (mb_closed ∘ ai_mailbox) <$> instance 0 r3 = Some true).
Proof. vm_compute. repeat split. Qed.

(** Removing an actor forgets less than its identity.  [RemoveActor] leaves
    the type routes and the router configuration of the ID, so an actor created
    afterwards under the same ID inherits them: here it rejects a type that a
    fresh actor accepts. *)
Example removed_actor_leaves_routes :
  let other := PUser (mkUserValue "main.Other" None None 1) in
  let fresh := [DoApi (ACreateActor "a" (job 0) (Some accumulator) [])] in
  let reused := [DoApi (ACreateActor "a" (job 0) (Some accumulator) []);
    DoApi (ARegisterTypeRoute "a" "main.Job" "v1" "h"); DoApi (AStop "a"); DoApi (ARemoveActor "a");
    DoApi (ACreateActor "a" (job 0) (Some accumulator) [])] in
  send_verdict "a" other (run_schedule 2 fresh) = SubmitAccepted /\
  send_verdict "a" other (run_schedule 2 reused) = SubmitRejectedUnsupportedType.
Proof. vm_compute. split; reflexivity. Qed.
