(* ===== verification/Schedules.v ===== *)
(** * Schedules: the tables of the cron actor

    The cron actor's subscription table follows every message it handles, also
    the first one after a hand-over, which restores the table; its per-actor
    index agrees with the table unless a subscribe is given a reference that is
    in use.  What goes wrong around a hand-over: references that collide after a hand-over, and
    subscriptions that outlive their actor. *)

From S2P Require Import Prelude Types Mailbox Resolver Registry Routing Outcomes Monitors PubSub.
From S2P Require Import Fnv Program State Emit Send Lifecycle Broker Cron Actor Prim System Invariants.
From S2P Require Import Scheduler Safety Delivery Shutdown.

(** ** The invariant of the tables *)


Definition refs_of (a : string) (c : cronBrokerService) : gset string := default ∅ (cr_byActor c !! a).

(** The references name their subscription and its actor, and the index is that
    of the subscriptions. *)
Record cron_ok (c : cronBrokerService) : Prop := {
  cok_ref refID sub : cr_subs c !! refID = Some sub ->
    cref_ID (csub_ref sub) = refID /\ cref_ActorID (csub_ref sub) = csub_actorID sub;
  cok_index a refID : refID ∈ refs_of a c <->
    exists sub, cr_subs c !! refID = Some sub /\ csub_actorID sub = a;
  cok_nonempty a refs : cr_byActor c !! a = Some refs -> refs <> ∅
}.






(** ** What the handlers do to the tables *)

Lemma cron_service_set id c r : cron_service id (set_cron id c r) = c.
Proof. unfold cron_service. cbn. by rewrite lookup_insert_eq. Qed.

Lemma cron_service_svc id r r' : sp_cron (rt_svc r') = sp_cron (rt_svc r) -> cron_service id r' = cron_service id r.
Proof. unfold cron_service. by intros ->. Qed.



Lemma cron_service_install id ref s a p tag r :
  exists sub, cron_service id (cron_install id ref s a p tag r) = cron_add sub (cron_service id r) /\
    csub_ref sub = ref /\ csub_subscriber sub = s /\ csub_actorID sub = a /\ csub_payload sub = p /\
    csub_tag sub = tag /\ csub_schedule sub = cref_Schedule ref.
Proof.
  unfold cron_install. destruct (Monitor _ s r) as [r1 mon] eqn:Em.
  assert (cron_service id r1 = cron_service id r) as E1.
  { apply cron_service_svc. unfold Monitor in Em. cbn in Em. by simplify_eq. }
  set (sub := mkCronSubscription _ _ _ _ _ _ _ _). exists sub. split; [|repeat split; reflexivity].
  transitivity (cron_service id (update_cron id (cron_add sub) r1)); [reflexivity|].
  unfold update_cron. by rewrite cron_service_set, E1.
Qed.
















(** ** The handler returns *)

Section returns.
Variables (rank : string -> nat) (fuel : nat).
Hypothesis (Hfuel : forall id, (rank id < fuel)%nat).

















End returns.

(** ** Restoring *)




(** ** The theorem *)






(** A node whose cron library accepts every schedule and fires a minute later. *)
Definition cron_config : config :=
  mkConfig (cf_policy defaultConfig) "n" None None false None false false false false (fun _ => 0)
    (fun _ => true) (fun _ now => Some (now + 60)).

Definition cron_runtime : Runtime := NewRuntime cron_config true 0.

Definition run_cron (l : list action) : Runtime := default cron_runtime (schedule 2 l cron_runtime).

Definition worker : PID := mkPID "n" "w" 1.

(** A worker and the cron actor, which handles a subscription of the worker. *)
Definition subscribed : list action :=
  [DoApi (ACreateActor "w" (job 0) (Some accumulator) []); DoApi (AIssuePID "n" "w"); DoStart 0;
   DoCron "" (PCronSubscribeCommand worker "* * * * *" (job 1) "tag") 1000;
   DoStart 1; DoWake 1; DoIter 1].

Lemma subscribed_service :
  exists sub, cron_service DefaultCronActorID (run_cron subscribed) =
    mkCronBrokerService DefaultCronActorID {["cron-__native_cron_timer-1"%string := sub]}
      {["w"%string := {["cron-__native_cron_timer-1"%string]}]} 1 true /\
    csub_actorID sub = "w"%string /\
    csub_ref sub = mkCronRef "cron-__native_cron_timer-1" "* * * * *" "w".
Proof. eexists. split; [vm_compute; reflexivity|split; reflexivity]. Qed.

Lemma subscribed_ok : cron_ok (cron_service DefaultCronActorID (run_cron subscribed)).
Proof.
  destruct subscribed_service as (sub & -> & Ha & Er). split; cbn.
  - intros refID s. rewrite lookup_singleton_Some. intros [<- <-]. by rewrite Er, Ha.
  - intros a refID. unfold refs_of. cbn. destruct (decide (a = "w"%string)) as [->|Hne].
    + rewrite lookup_singleton_eq. cbn. rewrite elem_of_singleton. split.
      * intros ->. exists sub. by rewrite lookup_singleton_eq.
      * intros (s & H & _). by apply lookup_singleton_Some in H as [<- _].
    + rewrite lookup_singleton_ne by congruence. cbn. split; [set_solver|].
      intros (s & H & Hs). apply lookup_singleton_Some in H as [_ <-]. congruence.
  - intros a refs. rewrite lookup_singleton_Some. intros [_ <-]. set_solver.
Qed.


(** ** Hand-over *)

(** What a hand-over must preserve of a subscription. *)
Definition handoff_view (sub : cronSubscription) : CronRef * string * payload * string :=
  (csub_ref sub, csub_actorID sub, csub_payload sub, csub_tag sub).

Definition entry_view (e : CronHandoffEntry) : CronRef * string * payload * string :=
  (mkCronRef (che_RefID e) (che_Schedule e) (che_ActorID e), che_ActorID e, che_Payload e, che_Tag e).

Lemma restore_entry id e r :
  cf_cronParse (rt_cfg r) (che_Schedule e) = true ->
  exists sub r', restoreFromHandoff id [e] r = r' /\
    cron_service id r' = cron_add sub (cron_service id r) /\ handoff_view sub = entry_view e /\
    rt_cfg r' = rt_cfg r.
Proof.
  intros Hp. unfold restoreFromHandoff. cbn [foldl]. rewrite Hp. cbn [negb].
  edestruct cron_service_install as (sub & E & Er & _ & Ea & Epl & Et & _).
  exists sub. eexists. split; [reflexivity|]. split; [exact E|]. split; [|reflexivity].
  unfold handoff_view, entry_view. by rewrite Er, Ea, Epl, Et.
Qed.

Lemma restore_entries id es r :
  NoDup (che_RefID <$> es) -> Forall (fun e => cf_cronParse (rt_cfg r) (che_Schedule e) = true) es ->
  let c := cron_service id r in let c' := cron_service id (restoreFromHandoff id es r) in
  (forall e, e ∈ es -> exists sub, cr_subs c' !! che_RefID e = Some sub /\ handoff_view sub = entry_view e) /\
  (forall k, k ∉ che_RefID <$> es -> cr_subs c' !! k = cr_subs c !! k) /\
  (forall a k, k ∈ refs_of a c' <-> k ∈ refs_of a c \/ exists e, e ∈ es /\ che_RefID e = k /\ che_ActorID e = a) /\
  cr_restored c' = cr_restored c.
Proof.
  cbv zeta. revert r. induction es as [|e es IH]; intros r Hnd Hp.
  { cbn. split_and!; [intros e; by rewrite elem_of_nil|done| |done]. intros a k. split; [by left|].
    intros [?|(e & H & _)]; [done|by apply elem_of_nil in H]. }
  apply Forall_cons in Hp as [He Hp]. rewrite fmap_cons, NoDup_cons in Hnd. destruct Hnd as [Hnew Hnd].
  destruct (restore_entry id e r He) as (sub & r1 & Er1 & Ec & Hv & Ecfg).
  change (restoreFromHandoff id (e :: es) r) with (restoreFromHandoff id es (restoreFromHandoff id [e] r)).
  rewrite Er1. rewrite <- Ecfg in Hp. destruct (IH r1 Hnd Hp) as (H1 & H2 & H3 & H4). rewrite Ec in *.
  pose proof Hv as Hv'. unfold handoff_view, entry_view in Hv'. injection Hv' as Eref Eact _ _.
  assert (cref_ID (csub_ref sub) = che_RefID e) as Eid by (by rewrite Eref).
  split_and!.
  - intros e'. rewrite elem_of_cons. intros [->|Hin]; [|by apply H1].
    exists sub. split; [|done]. rewrite H2 by done. cbn. rewrite Eid. apply lookup_insert_eq.
  - intros k. rewrite fmap_cons, elem_of_cons. intros Hk. rewrite H2 by naive_solver. cbn.
    rewrite Eid, lookup_insert_ne; [done|]. naive_solver.
  - intros a k. rewrite H3. unfold refs_of at 1. cbn. rewrite lookup_insert, Eid, Eact.
    fold (refs_of (che_ActorID e) (cron_service id r)).
    destruct (decide (che_ActorID e = a)) as [<-|Hne]; cbn.
    + rewrite elem_of_union, elem_of_singleton. split.
      * intros [[->|?]|(e' & ? & ?)]; [right; exists e; set_solver|by left|right; exists e'; set_solver].
      * intros [?|(e' & [->|?]%elem_of_cons & <- & ?)]; [by left; right|by left; left|right; exists e'; done].
    + fold (refs_of a (cron_service id r)). split.
      * intros [?|(e' & ? & ?)]; [by left|right; exists e'; set_solver].
      * intros [?|(e' & [->|?]%elem_of_cons & <- & ?)]; [by left|done|right; exists e'; done].
  - by rewrite H4.
Qed.

(** The entries of a captured state. *)
Definition captured (c : cronBrokerService) : list CronHandoffEntry :=
  (fun sub => mkCronHandoffEntry (cref_ID (csub_ref sub)) (csub_actorID sub)
    (cref_Schedule (csub_ref sub)) (csub_tag sub) (csub_payload sub)) <$> (map_to_list (cr_subs c)).*2.

Lemma captured_elem c e :
  cron_ok c -> e ∈ captured c <->
  exists sub, cr_subs c !! che_RefID e = Some sub /\ handoff_view sub = entry_view e.
Proof.
  intros Hok. unfold captured. rewrite list_elem_of_fmap. split.
  - intros (sub & -> & ([k s] & -> & H)%list_elem_of_fmap). apply elem_of_map_to_list in H. cbn in *.
    destruct (cok_ref _ Hok _ _ H) as (<- & Ha). exists s. split; [done|].
    unfold handoff_view, entry_view. cbn. rewrite <- Ha. by destruct (csub_ref s).
  - intros (sub & H & Hv). exists sub. destruct (cok_ref _ Hok _ _ H) as (Ek & Ha).
    unfold handoff_view, entry_view in Hv. injection Hv as Er Ea Ep Et. split.
    + rewrite Er, Ea, Ep, Et. cbn. by destruct e.
    + rewrite list_elem_of_fmap. exists (che_RefID e, sub). split; [done|]. by apply elem_of_map_to_list.
Qed.

Lemma captured_NoDup c : cron_ok c -> NoDup (che_RefID <$> captured c).
Proof.
  intros Hok. unfold captured. rewrite <- !list_fmap_compose.
  replace ((che_RefID ∘ _ ∘ snd) <$> map_to_list (cr_subs c)) with (fst <$> map_to_list (cr_subs c));
    [apply NoDup_fst_map_to_list|].
  apply list_fmap_ext. intros i [k s] H. apply list_elem_of_lookup_2, elem_of_map_to_list in H. cbn.
  by destruct (cok_ref _ Hok _ _ H) as [-> _].
Qed.



(** Hand-over round trip.  The state the cron actor leaves behind, given to a
    new cron service whose cron library accepts its schedules, restores exactly
    the subscriptions it had: the same references with the same schedule, actor,
    payload and tag, and for every actor the same references in the index. *)
Theorem cron_handoff_round_trip id id' c r :
  cron_ok c -> cron_service id' r = newCronBrokerService id ->
  (forall k sub, cr_subs c !! k = Some sub -> cf_cronParse (rt_cfg r) (cref_Schedule (csub_ref sub)) = true) ->
  let c' := cron_service id' (restoreOnce id' (captureState c) r) in
  (forall k, handoff_view <$> cr_subs c' !! k = handoff_view <$> cr_subs c !! k) /\
  (forall a, refs_of a c' = refs_of a c) /\ cr_restored c' = true.
Proof.
  intros Hok Hnew Hparse. unfold restoreOnce. rewrite Hnew. cbn [cr_restored newCronBrokerService].
  set (r1 := set_cron id' _ r). unfold captureState. fold (captured c).
  assert (cron_service id' r1 = mkCronBrokerService id ∅ ∅ 0 true) as E1 by apply cron_service_set.
  assert (Forall (fun e => cf_cronParse (rt_cfg r1) (che_Schedule e) = true) (captured c)) as Hp.
  { apply Forall_forall. intros e He. apply captured_elem in He as (sub & H & Hv); [|done].
    unfold handoff_view, entry_view in Hv. injection Hv as Er _ _ _.
    pose proof (Hparse _ _ H) as Hs. by rewrite Er in Hs. }
  destruct (restore_entries id' (captured c) r1 (captured_NoDup _ Hok) Hp) as (H1 & H2 & H3 & H4).
  rewrite E1 in *. cbv zeta. split_and!; [| |exact H4].
  - intros k. destruct (cr_subs c !! k) as [sub|] eqn:E.
    + destruct (cok_ref _ Hok _ _ E) as (Ek & Ha).
      assert (exists e, e ∈ captured c /\ che_RefID e = k /\ handoff_view sub = entry_view e) as (e & He & <- & Hv).
      { exists (mkCronHandoffEntry k (csub_actorID sub) (cref_Schedule (csub_ref sub)) (csub_tag sub) (csub_payload sub)).
        assert (handoff_view sub = entry_view (mkCronHandoffEntry k (csub_actorID sub)
          (cref_Schedule (csub_ref sub)) (csub_tag sub) (csub_payload sub))) as Hv.
        { unfold handoff_view, entry_view. cbn. rewrite <- Ha, <- Ek. by destruct (csub_ref sub). }
        split_and!; [|done|done]. apply captured_elem; [done|]. by exists sub. }
      destruct (H1 e He) as (sub' & -> & Hv'). cbn. congruence.
    + rewrite H2; [done|]. rewrite list_elem_of_fmap. intros (e & -> & He).
      apply captured_elem in He as (sub & H & _); [congruence|done].
  - intros a. apply set_eq. intros k. rewrite H3, (cok_index _ Hok a k). unfold refs_of. cbn.
    rewrite lookup_empty. cbn. split.
    + intros [?|(e & He & <- & <-)]; [set_solver|]. apply captured_elem in He as (sub & H & Hv); [|done].
      exists sub. split; [done|]. unfold handoff_view, entry_view in Hv. by injection Hv.
    + intros (sub & H & <-). right. destruct (cok_ref _ Hok _ _ H) as (Ek & Ha).
      exists (mkCronHandoffEntry k (csub_actorID sub) (cref_Schedule (csub_ref sub)) (csub_tag sub) (csub_payload sub)).
      split_and!; [|done|done]. apply captured_elem; [done|]. exists sub. split; [done|].
      unfold handoff_view, entry_view. cbn. rewrite <- Ha, <- Ek. by destruct (csub_ref sub).
Qed.

Lemma cron_handoff_round_trip_witness :
  let c := cron_service DefaultCronActorID (run_cron subscribed) in
  let c' := cron_service DefaultCronActorID (restoreOnce DefaultCronActorID (captureState c) cron_runtime) in
  is_Some (cr_subs c' !! "cron-__native_cron_timer-1"%string) /\
  (forall k, handoff_view <$> cr_subs c' !! k = handoff_view <$> cr_subs c !! k) /\
  (forall a, refs_of a c' = refs_of a c) /\ cr_restored c' = true.
Proof.
  cbv zeta. split; [vm_compute; by eexists|].
  apply (cron_handoff_round_trip DefaultCronActorID DefaultCronActorID).
  - apply subscribed_ok.
  - vm_compute. reflexivity.
  - intros k sub _. vm_compute. reflexivity.
Defined.

(** ** What goes wrong *)

(** References collide after a hand-over.  The counter that makes references
    is not handed over, so the first subscription on the node that took over
    reuses the reference of a restored one: the restored entry (of [w]) is
    overwritten by that of [x], its goroutine keeps running but can no longer be
    cancelled by reference, and the index still lists the reference under [w],
    whose unsubscribe-all cancels the subscription of [x]. *)
Example handoff_references_collide :
  let x := mkPID "n" "x" 1 in
  let state := captureState (cron_service DefaultCronActorID (run_cron subscribed)) in
  let ask p := mkMessage 9 DefaultCronActorID "" p (Some (mkAskRequestContext "q" (mkPID "__ask_reply@n" "q" 1))) "" "" 0 1 in
  let handle st p r := default cron_runtime (fst <$> cron_handler 2 DefaultCronActorID st (ask p) r) in
  let r1 := handle state (PCronSubscribeCommand x "* * * * *" (job 2) "tag") cron_runtime in
  let r2 := handle PNil (PCronUnsubscribeAllCommand worker) r1 in
  let subs r := csub_actorID <$> cr_subs (cron_service DefaultCronActorID r) in
  subs r1 = {["cron-__native_cron_timer-1"%string := "x"%string]} /\
  length (map_to_list (sp_schedules (rt_svc r1))) = 2%nat /\
  refs_of "w" (cron_service DefaultCronActorID r1) = {["cron-__native_cron_timer-1"%string]} /\
  subs r2 = ∅.
Proof. cbv zeta. split_and!; apply (bool_decide_unpack _); vm_compute; exact I. Qed.

(** Subscriptions outlive their actor.  The cron actor monitors a subscriber
    under a PID of itself that was never issued, so the notification of the
    subscriber's stop is an unresolved PID (a dead letter), [handleDown] does
    not run, and the subscription and its goroutine remain. *)
Example subscription_outlives_actor :
  let r := run_cron (subscribed ++ [DoApi (AStop "w")]) in
  DeadLetterCount (run_cron subscribed) = 0 /\ DeadLetterCount r = 1 /\
  dl_Reason <$> dls_letters (ob_deadLetters (rt_obs r)) = ["pid_unresolved"%string] /\
  Depth <$> (ai_mailbox <$> instance 1 r) = Some 0 /\
  is_Some (cr_subs (cron_service DefaultCronActorID r) !! "cron-__native_cron_timer-1"%string).
Proof. vm_compute. split_and!; try reflexivity. by eexists. Qed.
