(* ===== verification/Publish.v ===== *)
(** * Publications in the running system

    A publication handled by a broker actor reaches exactly the subscribers of
    the topic: the fan-out goroutine it starts has their PIDs as targets, sends
    to each of them once, in order, and ends. *)

From S2P Require Import Prelude Types Mailbox Resolver Registry Routing Outcomes Monitors PubSub.
From S2P Require Import Fnv Program State Emit Send Lifecycle Broker Cron Actor Prim System Invariants.
From S2P Require Import Scheduler Safety Delivery Shutdown.

(** ** The targets *)

(** The fan-out goroutine a publication starts, if it starts one. *)
Definition fan_out (id topic : string) (p : payload) (publisher : string) (targets : list PID)
    : publishTask :=
  mkPublishTask id topic p publisher targets (Z.of_nat (length targets)) 0.

Lemma handlePublish_task id topic segs p pub remote r :
  parsePublishTopic topic = inl segs ->
  let targets := trie_match segs (ps_trie (broker_service id r)) in
  let r' := broker_handlePublish id topic p pub remote r in
  sp_publishes (rt_svc r') =
    (if decide (targets = []) then sp_publishes (rt_svc r)
     else <[sp_nextTask (rt_svc r) := fan_out id topic p pub targets]> (sp_publishes (rt_svc r))) /\
  rt_actors r' = rt_actors r.
Proof.
  intros Hp targets. unfold broker_handlePublish. rewrite Hp. fold targets. unfold dispatchPublish.
  destruct (Nat.eqb_spec (length targets) 0) as [E|E].
  - apply length_zero_iff_nil in E. rewrite E, decide_True by done. by destruct (_ && _).
  - rewrite decide_False by (intros E'; by rewrite E' in E). by destruct (_ && _).
Qed.

(** ** The fan-out goroutine *)

(** All its steps, [n] of them, without interleaving. *)
Fixpoint run_publish (fuel n : nat) (task : Z) (r : Runtime) : option Runtime :=
  match n with
  | O => Some r
  | S n =>
      t ← sp_publishes (rt_svc r) !! task;
      '(r, _) ← publish_step fuel task t r;
      run_publish fuel n task r
  end.

Lemma ranked_svc rank x r : ranked rank r -> ranked rank (set_svc x r).
Proof. done. Qed.

(** One send of a fan-out. *)
Lemma publish_step_send rank fuel task t pid rest r :
  ranked rank r -> small_routers r -> (forall id, rank id < fuel)%nat -> pt_pending t = pid :: rest ->
  exists r1 missed, publish_step fuel task t r = Some (r1, tt) /\ 0 <= missed <= 1 /\
    sp_publishes (rt_svc r1) !! task =
      Some (mkPublishTask (pt_brokerID t) (pt_topic t) (pt_payload t) (pt_publisher t) rest (pt_total t)
              (pt_unreachable t + missed)) /\
    ranked rank r1 /\ small_routers r1.
Proof.
  intros Hr Hs Hf Hp. unfold publish_step. rewrite Hp, gets_bind.
  edestruct (SendPID_total rank fuel pid) as (r1 & ack & E); [exact Hr|exact Hs|exact Hf|].
  unfold mbind, M_bind. rewrite E. pose proof (framed_SendPID _ _ _ _ _ _ E) as F.
  eexists _, (if decide (psa_Outcome ack = PIDDelivered) then 0 else 1). split; [reflexivity|].
  split; [case_decide; lia|]. split.
  - cbn. rewrite lookup_insert_eq. do 2 f_equal. case_decide; lia.
  - split; [by eapply (ranked_frame rank r r1)|by eapply (small_routers_frame r r1)].
Qed.

Lemma run_publish_reported rank fuel task t r :
  ranked rank r -> small_routers r -> (forall id, rank id < fuel)%nat ->
  sp_publishes (rt_svc r) !! task = Some t ->
  exists r' missed, run_publish fuel (S (length (pt_pending t))) task r = Some r' /\
    0 <= missed <= Z.of_nat (length (pt_pending t)) /\
    sp_publishes (rt_svc r') !! task = None /\
    exists at_, last (os_broker (ob_outcomes (rt_obs r'))) =
      Some (mkBrokerOutcome (pt_brokerID t) BrokerOperationPublish (pt_topic t) zeroPID (pt_total t)
        (classifyPublishResult (pt_unreachable t + missed) (pt_total t)).1
        (classifyPublishResult (pt_unreachable t + missed) (pt_total t)).2 at_).
Proof.
  destruct t as [b topic pl pub pend tot un]. cbn [pt_pending pt_brokerID pt_topic pt_unreachable pt_total].
  revert r un. induction pend as [|pid rest IH]; intros r un Hr Hs Hf Ht.
  - cbn [length run_publish]. rewrite Ht. cbn [mbind option_bind].
    unfold publish_step. cbn [pt_pending pt_unreachable pt_total pt_brokerID pt_topic].
    destruct (classifyPublishResult un tot) as [result reason] eqn:Ec.
    eexists _, 0. rewrite upd_bind. split; [reflexivity|]. split; [lia|]. split; [cbn; apply lookup_delete_eq|].
    rewrite Z.add_0_r, Ec. eexists. cbn. by rewrite last_snoc.
  - destruct (publish_step_send rank fuel task (mkPublishTask b topic pl pub (pid :: rest) tot un) pid rest r)
      as (r1 & m1 & E & Hm & Ht1 & Hr1 & Hs1); [done..|]. cbn in Ht1.
    destruct (IH r1 (un + m1) Hr1 Hs1 Hf Ht1) as (r' & m2 & E2 & Hm2 & Hd & Hl).
    exists r', (m1 + m2). split_and!; [| |cbn [length]; lia|done|by rewrite Z.add_assoc].
    + change (run_publish fuel (S (length (pid :: rest))) task r) with
        (t ← sp_publishes (rt_svc r) !! task; '(r, _) ← publish_step fuel task t r;
         run_publish fuel (S (length rest)) task r).
      rewrite Ht. cbn [mbind option_bind]. rewrite E. exact E2.
    + lia.
Qed.

(** A publication reaches exactly its subscribers.  When a broker handles a
    publication in a reachable state, and the topic is valid, the fan-out it
    starts has as targets, each subscriber once, exactly the subscribers with an
    active subscription whose pattern matches the topic and does not end in [+]
    (no fan-out when there are none); the broker itself changes no actor. *)
Theorem publication_targets_subscribers fuel cfg d now r id topic segs p pub remote :
  reachable fuel cfg d now r -> parsePublishTopic topic = inl segs ->
  let r' := broker_handlePublish id topic p pub remote r in
  exists targets,
    sp_publishes (rt_svc r') =
      (if decide (targets = []) then sp_publishes (rt_svc r)
       else <[sp_nextTask (rt_svc r) := fan_out id topic p pub targets]> (sp_publishes (rt_svc r))) /\
    NoDup (Key <$> targets) /\
    (forall k, k ∈ Key <$> targets <->
      exists raw pat, parseTopicPattern raw = inl pat /\
        subscribed (ps_byPattern (broker_service id r)) raw k /\
        ends_in_plus pat = false /\ matches (tp_segments pat) segs = true) /\
    rt_actors r' = rt_actors r.
Proof.
  intros Hr Hp. apply reachable_ok in Hr as [_ _ _ Hb _].
  destruct (handlePublish_task id topic segs p pub remote r Hp) as [E1 E2].
  eexists. split; [exact E1|]. assert (broker_ok (broker_service id r)) as Hok.
  { unfold broker_service. destruct (sp_brokers (rt_svc r) !! id) eqn:E; cbn; [by eapply Hb|].
    apply newPubSubBrokerService_ok. }
  destruct (broker_ok_targets _ segs Hok). done.
Qed.

(** Every publication is reported.  When routers form no cycle, the fan-out
    goroutine of a publication ends after one step per target and a last one:
    it is gone, and the broker's history ends with the outcome that its count
    of unreached targets deserves. *)
Theorem publication_is_reported rank fuel task t r :
  ranked rank r -> small_routers r -> (forall id, rank id < fuel)%nat ->
  sp_publishes (rt_svc r) !! task = Some t ->
  exists r' missed, run_publish fuel (S (length (pt_pending t))) task r = Some r' /\
    0 <= missed <= Z.of_nat (length (pt_pending t)) /\
    sp_publishes (rt_svc r') !! task = None /\
    exists at_, last (os_broker (ob_outcomes (rt_obs r'))) =
      Some (mkBrokerOutcome (pt_brokerID t) BrokerOperationPublish (pt_topic t) zeroPID (pt_total t)
        (classifyPublishResult (pt_unreachable t + missed) (pt_total t)).1
        (classifyPublishResult (pt_unreachable t + missed) (pt_total t)).2 at_).
Proof. apply run_publish_reported. Qed.

(** ** A scenario *)

(** [a] subscribes to [news.+.eu] at the default broker. *)
Definition newsroom : list action :=
  [DoApi (ACreateActor "a" (job 0) (Some accumulator) []); DoStart 0; DoApi (AIssuePID "n" "a");
   DoBrokerSubscribe "" (mkPID "n" "a" 1) "news.+.eu" 1000; DoStart 1; DoWake 1; DoIter 1].

Definition published : list action :=
  newsroom ++ [DoApi (ABrokerPublish "" "news.sport.eu" (job 5) "me"); DoIter 1].

Lemma publication_targets_subscribers_witness :
  let r := run_schedule 2 newsroom in
  let r' := broker_handlePublish DefaultBrokerActorID "news.sport.eu" (job 5) "me" false r in
  exists targets,
    sp_publishes (rt_svc r') =
      (if decide (targets = []) then sp_publishes (rt_svc r)
       else <[sp_nextTask (rt_svc r) := fan_out DefaultBrokerActorID "news.sport.eu" (job 5) "me" targets]>
              (sp_publishes (rt_svc r))) /\
    NoDup (Key <$> targets) /\
    (forall k, k ∈ Key <$> targets <->
      exists raw pat, parseTopicPattern raw = inl pat /\
        subscribed (ps_byPattern (broker_service DefaultBrokerActorID r)) raw k /\
        ends_in_plus pat = false /\ matches (tp_segments pat) ["news"; "sport"; "eu"]%string = true) /\
    rt_actors r' = rt_actors r.
Proof.
  apply (publication_targets_subscribers 2 defaultConfig true 0 (run_schedule 2 newsroom)).
  - apply run_schedule_reachable. vm_compute. eexists. reflexivity.
  - reflexivity.
Defined.

Lemma publication_is_reported_witness :
  exists t, sp_publishes (rt_svc (run_schedule 2 published)) !! 0 = Some t /\
    pt_pending t = [mkPID "n" "a" 1] /\
  exists r' missed, run_publish 2 (S (length (pt_pending t))) 0 (run_schedule 2 published) = Some r' /\
    0 <= missed <= Z.of_nat (length (pt_pending t)) /\
    sp_publishes (rt_svc r') !! 0 = None /\
    exists at_, last (os_broker (ob_outcomes (rt_obs r'))) =
      Some (mkBrokerOutcome (pt_brokerID t) BrokerOperationPublish (pt_topic t) zeroPID (pt_total t)
        (classifyPublishResult (pt_unreachable t + missed) (pt_total t)).1
        (classifyPublishResult (pt_unreachable t + missed) (pt_total t)).2 at_).
Proof.
  eexists. split; [vm_compute; reflexivity|]. split; [reflexivity|].
  apply (publication_is_reported (fun _ => 0%nat)).
  - apply no_routers_ranked. vm_compute. reflexivity.
  - apply no_routers_ranked. vm_compute. reflexivity.
  - intros id. lia.
  - vm_compute. reflexivity.
Defined.
