(* ===== verification/Refs.v ===== *)
(** * Runtime options and actor references ([runtime.go], [actor_ref.go])

    [NewRuntime] applies its options to a fresh runtime; the cluster layer sets
    some of the same fields later.  An [ActorRef] is a runtime and an actor ID;
    its methods are operations of the runtime on that ID.  Functions handed to
    the runtime of which the model keeps only whether they are set are [bool]s. *)

From S2P Require Import Prelude Types Mailbox Resolver Registry Routing Outcomes Monitors PubSub.
From S2P Require Import Fnv Program State Emit Send Lifecycle Broker Prim.

(** ** Options *)

Definition RuntimeOption : Type := Runtime -> Runtime.

Definition WithSupervisor (p : SupervisorPolicy) : RuntimeOption := fun r =>
  let c := rt_cfg r in
  set_cfg (mkConfig p (cf_nodeID c) (cf_remoteSend c) (cf_remoteAsk c) (cf_clusterRegister c) (cf_clusterLookup c)
    (cf_clusterUnregister c) (cf_pubsubBroadcast c) (cf_pubsubOnSubscribe c) (cf_pubsubOnUnsubscribe c) (cf_rand c)
    (cf_cronParse c) (cf_cronNext c)) r.

Definition WithDeadLetterHandler (h : bool) : RuntimeOption := fun r =>
  let o := rt_obs r in
  set_obs (mkObsPart (ob_events o) (ob_eventSeq o) (ob_outcomes o) (dls_setHandler h (ob_deadLetters o))) r.

Definition WithNodeID (id : string) : RuntimeOption := fun r =>
  let c := rt_cfg r in
  set_cfg (mkConfig (cf_policy c) id (cf_remoteSend c) (cf_remoteAsk c) (cf_clusterRegister c) (cf_clusterLookup c)
    (cf_clusterUnregister c) (cf_pubsubBroadcast c) (cf_pubsubOnSubscribe c) (cf_pubsubOnUnsubscribe c) (cf_rand c)
    (cf_cronParse c) (cf_cronNext c)) r.

Abbreviation RemoteSenderFunc := (string -> PID -> payload -> Z -> PIDSendAck * option string) (only parsing).
Abbreviation RemoteAskSenderFunc := (string -> PID -> payload -> Z -> string -> PID -> PIDSendAck * option string)
  (only parsing).

Definition SetRemoteSend (fn : option RemoteSenderFunc) : RuntimeOption := fun r =>
  let c := rt_cfg r in
  set_cfg (mkConfig (cf_policy c) (cf_nodeID c) fn (cf_remoteAsk c) (cf_clusterRegister c) (cf_clusterLookup c)
    (cf_clusterUnregister c) (cf_pubsubBroadcast c) (cf_pubsubOnSubscribe c) (cf_pubsubOnUnsubscribe c) (cf_rand c)
    (cf_cronParse c) (cf_cronNext c)) r.
Definition WithRemoteSend (fn : option RemoteSenderFunc) : RuntimeOption := SetRemoteSend fn.

Definition SetRemoteAskSend (fn : option RemoteAskSenderFunc) : RuntimeOption := fun r =>
  let c := rt_cfg r in
  set_cfg (mkConfig (cf_policy c) (cf_nodeID c) (cf_remoteSend c) fn (cf_clusterRegister c) (cf_clusterLookup c)
    (cf_clusterUnregister c) (cf_pubsubBroadcast c) (cf_pubsubOnSubscribe c) (cf_pubsubOnUnsubscribe c) (cf_rand c)
    (cf_cronParse c) (cf_cronNext c)) r.
Definition WithRemoteAskSend (fn : option RemoteAskSenderFunc) : RuntimeOption := SetRemoteAskSend fn.

Definition set_pubsub (broadcast onSub onUnsub : bool) : RuntimeOption := fun r =>
  let c := rt_cfg r in
  set_cfg (mkConfig (cf_policy c) (cf_nodeID c) (cf_remoteSend c) (cf_remoteAsk c) (cf_clusterRegister c)
    (cf_clusterLookup c) (cf_clusterUnregister c) broadcast onSub onUnsub (cf_rand c) (cf_cronParse c) (cf_cronNext c)) r.

Definition WithPubSubBroadcast (fn : bool) : RuntimeOption := fun r =>
  set_pubsub fn (cf_pubsubOnSubscribe (rt_cfg r)) (cf_pubsubOnUnsubscribe (rt_cfg r)) r.
Definition WithPubSubOnSubscribe (fn : bool) : RuntimeOption := fun r =>
  set_pubsub (cf_pubsubBroadcast (rt_cfg r)) fn (cf_pubsubOnUnsubscribe (rt_cfg r)) r.
Definition WithPubSubOnUnsubscribe (fn : bool) : RuntimeOption := fun r =>
  set_pubsub (cf_pubsubBroadcast (rt_cfg r)) (cf_pubsubOnSubscribe (rt_cfg r)) fn r.

Definition SetClusterRegistry (register : bool) (lookup : option (string -> option PID)) (unregister : bool) :
    RuntimeOption := fun r =>
  let c := rt_cfg r in
  set_cfg (mkConfig (cf_policy c) (cf_nodeID c) (cf_remoteSend c) (cf_remoteAsk c) register lookup unregister
    (cf_pubsubBroadcast c) (cf_pubsubOnSubscribe c) (cf_pubsubOnUnsubscribe c) (cf_rand c) (cf_cronParse c)
    (cf_cronNext c)) r.
Definition WithClusterRegistry (register : bool) (lookup : option (string -> option PID)) (unregister : bool) :
    RuntimeOption := SetClusterRegistry register lookup unregister.

(** [NewRuntime(opts...)]. *)
Definition NewRuntimeWith (opts : list RuntimeOption) (now : Z) : Runtime :=
  foldl (fun r opt => opt r) (NewRuntime defaultConfig false now) opts.

(** [NodeID]. *)
Definition NodeID_of (r : Runtime) : string := cf_nodeID (rt_cfg r).

(** ** What the options amount to *)

(** The options as data. *)
Inductive optionValue :=
  | OptSupervisor (p : SupervisorPolicy)
  | OptDeadLetterHandler (h : bool)
  | OptNodeID (id : string)
  | OptRemoteSend (fn : option RemoteSenderFunc)
  | OptRemoteAskSend (fn : option RemoteAskSenderFunc)
  | OptPubSubBroadcast (fn : bool)
  | OptPubSubOnSubscribe (fn : bool)
  | OptPubSubOnUnsubscribe (fn : bool)
  | OptClusterRegistry (register : bool) (lookup : option (string -> option PID)) (unregister : bool).

Definition option_of (o : optionValue) : RuntimeOption :=
  match o with
  | OptSupervisor p => WithSupervisor p
  | OptDeadLetterHandler h => WithDeadLetterHandler h
  | OptNodeID id => WithNodeID id
  | OptRemoteSend fn => WithRemoteSend fn
  | OptRemoteAskSend fn => WithRemoteAskSend fn
  | OptPubSubBroadcast fn => WithPubSubBroadcast fn
  | OptPubSubOnSubscribe fn => WithPubSubOnSubscribe fn
  | OptPubSubOnUnsubscribe fn => WithPubSubOnUnsubscribe fn
  | OptClusterRegistry a b c => WithClusterRegistry a b c
  end.

(** The value of the last option of a kind. *)
Definition last_of {A} (f : optionValue -> option A) (d : A) (opts : list optionValue) : A :=
  default d (last (omap f opts)).

Lemma last_of_snoc {A} (f : optionValue -> option A) d opts o :
  last_of f d (opts ++ [o]) = default (last_of f d opts) (f o).
Proof.
  unfold last_of. rewrite omap_app. cbn. destruct (f o); cbn; [by rewrite last_snoc|by rewrite app_nil_r].
Qed.

(** The configuration that a list of options describes. *)
Definition config_of (opts : list optionValue) : config :=
  let registry o := match o with OptClusterRegistry a b c => Some (a, b, c) | _ => None end in
  let '(register, lookup, unregister) := last_of registry (false, None, false) opts in
  mkConfig (last_of (fun o => match o with OptSupervisor p => Some p | _ => None end) (cf_policy defaultConfig) opts)
    (last_of (fun o => match o with OptNodeID id => Some id | _ => None end) ""%string opts)
    (last_of (fun o => match o with OptRemoteSend fn => Some fn | _ => None end) None opts)
    (last_of (fun o => match o with OptRemoteAskSend fn => Some fn | _ => None end) None opts)
    register lookup unregister
    (last_of (fun o => match o with OptPubSubBroadcast fn => Some fn | _ => None end) false opts)
    (last_of (fun o => match o with OptPubSubOnSubscribe fn => Some fn | _ => None end) false opts)
    (last_of (fun o => match o with OptPubSubOnUnsubscribe fn => Some fn | _ => None end) false opts)
    (cf_rand defaultConfig) (cf_cronParse defaultConfig) (cf_cronNext defaultConfig).

Definition handler_of (opts : list optionValue) : bool :=
  last_of (fun o => match o with OptDeadLetterHandler h => Some h | _ => None end) false opts.

(** A runtime made with options is the runtime with the configuration that
    they describe: of several options of one kind the last counts, and options
    of different kinds do not interfere. *)
Theorem options_describe_runtime (opts : list optionValue) (now : Z) :
  NewRuntimeWith (option_of <$> opts) now = NewRuntime (config_of opts) (handler_of opts) now.
Proof.
  unfold NewRuntimeWith. induction opts as [|o opts IH] using rev_ind; [reflexivity|].
  rewrite fmap_app, foldl_app, IH. cbn [fmap list_fmap foldl].
  unfold config_of, handler_of. rewrite !last_of_snoc.
  destruct (last_of (fun o => match o with OptClusterRegistry a b c => Some (a, b, c) | _ => None end) _ opts) as [[a b] c] eqn:E.
  destruct o; cbn -[last_of]; reflexivity.
Qed.

(** ** Actor references *)

(** [ActorRef]; the runtime it belongs to is the one its methods are called in. *)
Record ActorRef := mkActorRef { ref_actorID : string }.

(** [Runtime.ActorRef]. *)
Definition Runtime_ActorRef (actorID : string) (r : Runtime) : ActorRef + string :=
  match lookup_actor actorID r with None => inr ErrActorNotFound | Some _ => inl (mkActorRef actorID) end.

Definition LifecycleOutcomes (actorID : string) (r : Runtime) : list LifecycleHookOutcome :=
  lifecycleByActor actorID (ob_outcomes (rt_obs r)).
Definition GuardrailOutcomes (actorID : string) (r : Runtime) : list GuardrailOutcome :=
  guardrailByActor actorID (ob_outcomes (rt_obs r)).
Definition AskOutcomes (actorID : string) (r : Runtime) : list AskOutcome := askByActor actorID (ob_outcomes (rt_obs r)).
Definition RoutingOutcomes (routerID : string) (r : Runtime) : list RoutingOutcome :=
  routingByRouter routerID (ob_outcomes (rt_obs r)).
Definition BatchOutcomes (actorID : string) (r : Runtime) : list BatchOutcome := batchByActor actorID (ob_outcomes (rt_obs r)).
Definition BrokerOutcomes (brokerID : string) (r : Runtime) : list BrokerOutcome :=
  brokerByID brokerID (ob_outcomes (rt_obs r)).
Definition BrokerPublishedCount (brokerID : string) (r : Runtime) : Z :=
  brokerPublishedCount brokerID (ob_outcomes (rt_obs r)).
Definition Outcome (messageID : Z) (r : Runtime) : option ProcessingOutcome :=
  outcome_get messageID (ob_outcomes (rt_obs r)).
Definition PIDInteractionPolicy (r : Runtime) : PIDInteractionPolicyMode := pp_policy (rt_pids r).

Section ref.
Variables (fuel : nat) (a : ActorRef).

Definition ref_ID : string := ref_actorID a.
Definition ref_Send (p : payload) : M SubmitAck := Send fuel (ref_actorID a) p.
Definition ref_Stop : M StopResult := Stop fuel (ref_actorID a).
Definition ref_Status (r : Runtime) : ActorStatus := Status (ref_actorID a) r.
Definition ref_SetState (_ : payload) : option string := Some ErrStateMutationForbidden.
Definition ref_PID (namespace : string) (r : Runtime) : Runtime * (PID + string) := IssuePID namespace (ref_actorID a) r.
Definition ref_SendPID (pid : PID) (p : payload) : M PIDSendAck := SendPID fuel pid p.
Definition ref_RegisterTypeRoute (typeName schemaVersion handlerKey : string) (r : Runtime) : Runtime * option string :=
  RegisterTypeRoute (ref_actorID a) typeName schemaVersion handlerKey r.
Definition ref_RegisterFallbackRoute (handlerKey : string) (r : Runtime) : Runtime * option string :=
  RegisterFallbackRoute (ref_actorID a) handlerKey r.
Definition ref_RegisterName (name : string) (r : Runtime) := RegisterName (ref_actorID a) name "default" r.
Definition ref_LifecycleOutcomes (r : Runtime) : list LifecycleHookOutcome := LifecycleOutcomes (ref_actorID a) r.
Definition ref_CrossSendActorID (targetActorID : string) (p : payload) : M SubmitAck :=
  CrossActorSendByActorID fuel (ref_actorID a) targetActorID p.
Definition ref_CrossSendPID (pid : PID) (p : payload) : M PIDSendAck := CrossActorSendPID fuel (ref_actorID a) pid p.
Definition ref_GuardrailOutcomes (r : Runtime) : list GuardrailOutcome := GuardrailOutcomes (ref_actorID a) r.
Definition ref_AskBegin (p : payload) (timeout : Z) : M (pendingAsk + string) := AskBegin fuel (ref_actorID a) p timeout.
Definition ref_AskOutcomes (r : Runtime) : list AskOutcome := AskOutcomes (ref_actorID a) r.
Definition ref_ConfigureRouter (strategy : RouterStrategy) (workers : list string) (r : Runtime) : Runtime * option string :=
  ConfigureRouter (ref_actorID a) strategy workers r.
Definition ref_Route (p : payload) : M SubmitAck := Route fuel (ref_actorID a) p.
Definition ref_RoutingOutcomes (r : Runtime) : list RoutingOutcome := RoutingOutcomes (ref_actorID a) r.
Definition ref_ConfigureBatching (maxBatchSize : Z) (rcv : option receiver) (r : Runtime) : Runtime * option string :=
  ConfigureBatching (ref_actorID a) maxBatchSize rcv r.
Definition ref_DisableBatching (r : Runtime) : Runtime * option string := DisableBatching (ref_actorID a) r.
Definition ref_BatchOutcomes (r : Runtime) : list BatchOutcome := BatchOutcomes (ref_actorID a) r.
Definition ref_BrokerOutcomes (r : Runtime) : list BrokerOutcome := BrokerOutcomes (ref_actorID a) r.
Definition ref_BrokerPublishedCount (r : Runtime) : Z := BrokerPublishedCount (ref_actorID a) r.
End ref.

(** ** The interaction policy *)

Lemma select_app {A} (p : A -> bool) l l' : select p (l ++ l') = select p l ++ select p l'.
Proof. induction l as [|x l IH]; cbn; [done|]. destruct (p x); cbn; by rewrite IH. Qed.

(** Between the state and the state after an operation that changed at most the
    message counter and what is observable. *)
Definition untouched (r r' : Runtime) : Prop :=
  rt_actors r' = rt_actors r /\ rt_ask r' = rt_ask r /\ rt_pids r' = rt_pids r /\ rt_routes r' = rt_routes r /\
  rt_svc r' = rt_svc r /\ rt_cfg r' = rt_cfg r /\ rt_now r' = rt_now r /\ rt_ext r' = rt_ext r.

(** Under the PID-only policy a reference cannot reach another actor by its
    ID: the message is refused, no actor, name, route or service changes, and the
    decision is in the reference's guardrail outcomes.  A message to its own actor
    goes through, and so does one by PID, both noted as accepted. *)
Theorem pid_only_policy_guards_references (fuel : nat) (a : ActorRef) (target : string) (p : payload) (r : Runtime) :
  PIDInteractionPolicy r = PIDInteractionPolicyPIDOnly -> ref_ID a <> ""%string ->
  let note outcome code := mkGuardrailOutcome (ref_ID a) PIDInteractionPolicyPIDOnly
    (GatewayMode (pp_resolver (rt_pids r))) outcome code (rt_now r) in
  let noted := emitGuardrail (ref_ID a) (GatewayMode (pp_resolver (rt_pids r))) GuardrailPolicyAccept "" r in
  (target <> ref_ID a ->
    exists r' msgID, ref_CrossSendActorID fuel a target p r = Some (r', mkSubmitAck SubmitRejectedFound msgID) /\
      untouched r r' /\
      ref_GuardrailOutcomes a r' = ref_GuardrailOutcomes a r ++ [note GuardrailPolicyRejectNonPID ErrNonPIDCrossActor]) /\
  ref_CrossSendActorID fuel a (ref_ID a) p r = ref_Send fuel a p noted /\
  (forall pid, ref_CrossSendPID fuel a pid p r = sendPIDWithSender fuel (ref_ID a) pid p noted) /\
  ref_GuardrailOutcomes a noted = ref_GuardrailOutcomes a r ++ [note GuardrailPolicyAccept ""%string].
Proof.
  intros Hp Ha note noted. unfold PIDInteractionPolicy in Hp.
  unfold ref_CrossSendActorID, ref_CrossSendPID, ref_Send, CrossActorSendByActorID, CrossActorSendPID, ref_ID in *.
  assert (bool_decide (ref_actorID a = ""%string) = false) as Ea by (by apply bool_decide_eq_false).
  split_and!.
  - intros Ht. rewrite gets_bind. unfold id. rewrite Hp, bool_decide_true by done. cbn [andb]. rewrite Ea.
    rewrite bool_decide_false by congruence. cbn [andb negb]. eexists _, _. split; [reflexivity|]. split; [by split_and!|].
    unfold ref_GuardrailOutcomes, GuardrailOutcomes, guardrailByActor. cbn -[select]. rewrite select_app. f_equal. cbn.
    rewrite bool_decide_true by done. unfold note. by rewrite Hp.
  - rewrite gets_bind. unfold id. rewrite Hp, bool_decide_true by done. cbn [andb]. rewrite Ea.
    rewrite bool_decide_true by done. done.
  - intros pid. rewrite gets_bind. unfold id at 1 2 3. rewrite Hp, bool_decide_true by done. by unfold upd.
  - unfold noted, ref_GuardrailOutcomes, GuardrailOutcomes, guardrailByActor. cbn -[select]. rewrite select_app. f_equal. cbn.
    rewrite bool_decide_true by done. unfold note. by rewrite Hp.
Qed.

Definition example_ref : ActorRef := mkActorRef "a".
Definition example_runtime : Runtime :=
  SetPIDInteractionPolicy PIDInteractionPolicyPIDOnly
    (NewRuntimeWith (option_of <$> [OptNodeID "n1"; OptDeadLetterHandler true]) 5).

Lemma pid_only_policy_guards_references_witness :
  exists r' msgID, ref_CrossSendActorID 2 example_ref "b" PNil example_runtime = Some (r', mkSubmitAck SubmitRejectedFound msgID) /\
    untouched example_runtime r' /\ length (ref_GuardrailOutcomes example_ref r') = 1%nat.
Proof.
  destruct (pid_only_policy_guards_references 2 example_ref "b" PNil example_runtime) as [H _];
    [reflexivity|discriminate|].
  destruct H as (r' & msgID & H1 & H2 & H3); [discriminate|]. exists r', msgID. split; [exact H1|].
  split; [exact H2|]. rewrite H3. reflexivity.
Defined.

(** Without the policy an ID is enough, and outside of the cross-actor operations
    the policy is never asked. *)
Example plain_send_bypasses_policy :
  match CreateActor "b" PNil (Some (HUser (fun _ _ => Return (HROk PNil)))) [] example_runtime with
  | (r, None) => option_map snd (Send 2 "b" (PDownMessage (mkDownMessage 0 zeroPID "")) r) = Some (mkSubmitAck SubmitAccepted 1)
  | _ => False
  end.
Proof. vm_compute. reflexivity. Qed.
