(* ===== verification/GoSort.v ===== *)
(** * Sorting and searching ([sort.Slice], [sort.SliceStable], [sort.Search])

    [sort_by] orders a slice by an integer key with a stable merge sort; the
    results are stated so that they hold for every sorting function where the
    keys are distinct.  [sort_slice] is [sort.Slice] on a slice filled from a
    map: neither the iteration nor the sort fixes the order of equal keys, so it
    takes a number that chooses among all sorted arrangements.
    [search] is the binary search of the [sort] package. *)

From S2P Require Import Prelude.

Section sort_by.
Context {A : Type} (key : A -> Z).
Implicit Types l : list A.

Definition key_le (a b : A) : Prop := key a <= key b.

#[export] Instance key_le_dec : RelDecision key_le.
Proof. intros a b. unfold key_le. apply _. Defined.

#[export] Instance key_le_trans : Transitive key_le.
Proof. intros a b c. unfold key_le. lia. Qed.

#[export] Instance key_le_total : Total key_le.
Proof. intros a b. unfold key_le. lia. Qed.

Definition sort_by (l : list A) : list A := merge_sort key_le l.

(** The elements of [l] have distinct keys. *)
Definition keys_distinct (l : list A) : Prop :=
  forall a b, a ∈ l -> b ∈ l -> key a = key b -> a = b.

Lemma sort_by_perm l : sort_by l ≡ₚ l.
Proof. apply merge_sort_Permutation. Qed.

Lemma sort_by_sorted l : StronglySorted key_le (sort_by l).
Proof. apply StronglySorted_merge_sort; apply _. Qed.

Lemma elem_of_sort_by a l : a ∈ sort_by l <-> a ∈ l.
Proof. by rewrite sort_by_perm. Qed.

Lemma length_sort_by l : length (sort_by l) = length l.
Proof. apply Permutation_length, sort_by_perm. Qed.

Lemma keys_distinct_sub l1 l2 : (forall a, a ∈ l1 -> a ∈ l2) -> keys_distinct l2 -> keys_distinct l1.
Proof. intros Hs H a b Ha Hb. apply H; auto. Qed.

(** A check for concrete lists. *)
Lemma keys_distinct_NoDup l : NoDup (key <$> l) -> keys_distinct l.
Proof.
  intros Hn a b Ha Hb E. apply list_elem_of_lookup in Ha as [i Hi], Hb as [j Hj].
  assert (i = j) as ->.
  { eapply (NoDup_lookup (key <$> l) i j (key a)); [done|rewrite list_lookup_fmap..].
    - by rewrite Hi.
    - by rewrite Hj, E. }
  congruence.
Qed.

(** A sorted arrangement of elements with distinct keys is the result. *)
Lemma sort_by_unique l l' :
  keys_distinct l -> l' ≡ₚ l -> StronglySorted key_le l' -> l' = sort_by l.
Proof.
  intros Hd Hp Hs. apply (StronglySorted_unique_strong key_le).
  - intros a b Ha Hb Hab Hba. apply Hd; [by rewrite <- Hp|by rewrite <- (sort_by_perm l)|].
    unfold key_le in *. lia.
  - done.
  - apply sort_by_sorted.
  - by rewrite sort_by_perm.
Qed.

(** The order in which the elements were given does not matter. *)
Lemma sort_by_perm_eq l l' : keys_distinct l -> l' ≡ₚ l -> sort_by l' = sort_by l.
Proof.
  intros Hd Hp. apply sort_by_unique; [done| |apply sort_by_sorted]. by rewrite sort_by_perm.
Qed.

Lemma StronglySorted_filter (P : A -> Prop) `{forall x, Decision (P x)} l :
  StronglySorted key_le l -> StronglySorted key_le (filter P l).
Proof.
  induction 1 as [|x l Hl IH Hx]; [constructor|]. rewrite filter_cons. destruct (decide _); [|done].
  constructor; [done|]. rewrite Forall_forall in Hx |- *. intros y Hy.
  apply list_elem_of_filter in Hy as [_ Hy]. by apply Hx.
Qed.

(** Sorting commutes with selecting elements. *)
Lemma filter_sort_by (P : A -> Prop) `{forall x, Decision (P x)} l :
  keys_distinct l -> filter P (sort_by l) = sort_by (filter P l).
Proof.
  intros Hd. apply sort_by_unique.
  - eapply keys_distinct_sub; [|exact Hd]. intros a Ha. by apply list_elem_of_filter in Ha as [_ Ha].
  - by rewrite sort_by_perm.
  - apply StronglySorted_filter, sort_by_sorted.
Qed.

(** The first element has the least key. *)
Lemma sort_by_head l a l' : sort_by l = a :: l' -> forall b, b ∈ l -> key a <= key b.
Proof.
  intros E b Hb. pose proof (sort_by_sorted l) as Hs. rewrite E in Hs.
  apply StronglySorted_inv in Hs as [_ Hs]. rewrite <- (sort_by_perm l), E in Hb.
  apply elem_of_cons in Hb as [->|Hb]; [lia|]. rewrite Forall_forall in Hs. by apply Hs.
Qed.

(** ** Any sorted arrangement *)

(** [l] with [x] inserted at position [n]. *)
Definition insert_at (n : nat) (x : A) (l : list A) : list A := take n l ++ x :: drop n l.

(** The [o]-th order of the elements: each choice of positions is one number. *)
Fixpoint arrange (o : nat) (l : list A) : list A :=
  match l with
  | [] => []
  | x :: l => insert_at (o mod S (length l)) x (arrange (o / S (length l)) l)
  end.

Lemma insert_at_perm n x l : insert_at n x l ≡ₚ x :: l.
Proof. unfold insert_at. rewrite <- Permutation_middle. by rewrite take_drop. Qed.

Lemma arrange_perm o l : arrange o l ≡ₚ l.
Proof. revert o. induction l as [|x l IH]; intros o; cbn [arrange]; [done|]. by rewrite insert_at_perm, IH. Qed.

(** Every order is the result of some choice. *)
Lemma arrange_any l l' : l' ≡ₚ l -> exists o, arrange o l = l'.
Proof.
  revert l'. induction l as [|x l IH]; intros l' Hp; [exists 0%nat; symmetry; by apply Permutation_nil_r|].
  assert (x ∈ l') as Hx by (rewrite Hp; left). apply list_elem_of_split in Hx as (l1 & l2 & ->).
  rewrite <- Permutation_middle in Hp. apply Permutation_cons_inv in Hp. destruct (IH _ Hp) as [o Ho].
  assert (length l = length (l1 ++ l2)) as El by (by apply Permutation_length).
  exists (length l1 + o * S (length l))%nat. cbn [arrange].
  rewrite Nat.Div0.mod_add, Nat.mod_small by (rewrite El, length_app; lia).
  rewrite Nat.div_add, Nat.div_small by (rewrite ?El, ?length_app; lia). cbn [Nat.add]. rewrite Ho. unfold insert_at.
  by rewrite take_app_length, drop_app_length.
Qed.

Fixpoint insert_sorted (x : A) (l : list A) : list A :=
  match l with [] => [x] | y :: l' => if key x <=? key y then x :: l else y :: insert_sorted x l' end.

Fixpoint insertion_sort (l : list A) : list A :=
  match l with [] => [] | x :: l => insert_sorted x (insertion_sort l) end.

Lemma insert_sorted_perm x l : insert_sorted x l ≡ₚ x :: l.
Proof.
  induction l as [|y l IH]; [done|]. cbn. destruct (_ <=? _); [done|]. rewrite IH. apply Permutation_swap.
Qed.

Lemma insertion_sort_perm l : insertion_sort l ≡ₚ l.
Proof. induction l as [|x l IH]; [done|]. cbn. by rewrite insert_sorted_perm, IH. Qed.

Lemma insert_sorted_sorted x l : StronglySorted key_le l -> StronglySorted key_le (insert_sorted x l).
Proof.
  induction 1 as [|y l Hl IH Hy]; [repeat constructor|]. cbn. destruct (key x <=? key y) eqn:E.
  - apply Z.leb_le in E. constructor; [by constructor|]. constructor; [done|]. eapply Forall_impl; [exact Hy|].
    intros z. unfold key_le. lia.
  - apply Z.leb_gt in E. constructor; [done|]. rewrite insert_sorted_perm. constructor; [unfold key_le; lia|done].
Qed.

Lemma insertion_sort_sorted l : StronglySorted key_le (insertion_sort l).
Proof. induction l as [|x l IH]; [constructor|]. cbn. by apply insert_sorted_sorted. Qed.

(** A sorted list stays as it is. *)
Lemma insertion_sort_id l : StronglySorted key_le l -> insertion_sort l = l.
Proof.
  induction 1 as [|x l Hl IH Hx]; [done|]. cbn. rewrite IH. destruct l as [|y l]; [done|]. cbn.
  apply Forall_cons in Hx as [Hx _]. by rewrite (proj2 (Z.leb_le _ _)).
Qed.

Definition sort_slice (o : nat) (l : list A) : list A := insertion_sort (arrange o l).

Lemma sort_slice_perm o l : sort_slice o l ≡ₚ l.
Proof. unfold sort_slice. by rewrite insertion_sort_perm, arrange_perm. Qed.

Lemma sort_slice_sorted o l : StronglySorted key_le (sort_slice o l).
Proof. apply insertion_sort_sorted. Qed.

(** Every sorted arrangement is a possible result. *)
Lemma sort_slice_any l l' : l' ≡ₚ l -> StronglySorted key_le l' -> exists o, sort_slice o l = l'.
Proof.
  intros Hp Hs. destruct (arrange_any l l' Hp) as [o Ho]. exists o. unfold sort_slice. rewrite Ho. by apply insertion_sort_id.
Qed.

(** With distinct keys there is one. *)
Lemma sort_slice_distinct o l : keys_distinct l -> sort_slice o l = sort_by l.
Proof. intros Hd. apply sort_by_unique; [done|apply sort_slice_perm|apply sort_slice_sorted]. Qed.

Lemma sorted_head a l : StronglySorted key_le (a :: l) -> forall b, b ∈ a :: l -> key a <= key b.
Proof.
  intros [_ Hs]%StronglySorted_inv b [->|Hb]%elem_of_cons; [lia|]. rewrite Forall_forall in Hs. by apply Hs.
Qed.
End sort_by.

(** ** Binary search *)

Section search.
Variable f : nat -> bool.

(** The loop of [sort.Search] on the interval from [i] to [j]. *)
Fixpoint search_loop (fuel i j : nat) : nat :=
  match fuel with
  | O => i
  | S fuel =>
      if (i <? j)%nat then
        let h := ((i + j) / 2)%nat in
        if negb (f h) then search_loop fuel (S h) j else search_loop fuel i h
      else i
  end.

(** [sort.Search(n, f)]; [n] rounds are enough since each one shortens the
    interval. *)
Definition search (n : nat) : nat := search_loop n 0 n.

Lemma search_loop_spec fuel i j :
  (forall a b, (a <= b)%nat -> f a = true -> f b = true) ->
  (i <= j)%nat -> (j - i <= fuel)%nat ->
  let r := search_loop fuel i j in
  (i <= r <= j)%nat /\ (forall k, (i <= k < r)%nat -> f k = false) /\
  (forall k, (r <= k < j)%nat -> f k = true).
Proof.
  intros Hmono. revert i j. induction fuel as [|fuel IH]; intros i j Hij Hf; cbn [search_loop].
  { split_and!; [lia..|intros; lia]. }
  destruct (i <? j)%nat eqn:E; [|apply Nat.ltb_ge in E; split_and!; [lia..|intros; lia]].
  apply Nat.ltb_lt in E. set (h := ((i + j) / 2)%nat).
  assert (i <= h < j)%nat as Hh.
  { unfold h. pose proof (Nat.div_mod (i + j) 2 ltac:(lia)).
    pose proof (Nat.mod_upper_bound (i + j) 2 ltac:(lia)). lia. }
  destruct (f h) eqn:Eh; cbn [negb].
  - destruct (IH i h ltac:(lia) ltac:(lia)) as (H1 & H2 & H3). split_and!; [lia..|exact H2|].
    intros k Hk. destruct (decide (k < h)%nat); [apply H3; lia|]. apply (Hmono h); [lia|done].
  - destruct (IH (S h) j ltac:(lia) ltac:(lia)) as (H1 & H2 & H3). split_and!; [lia..| |exact H3].
    intros k Hk. destruct (decide (h < k)%nat); [apply H2; lia|].
    destruct (f k) eqn:Ek; [|done]. rewrite <- Eh. symmetry. apply (Hmono k); [lia|done].
Qed.

(** For a monotone predicate the result is its first index, or [n]. *)
Lemma search_spec n :
  (forall a b, (a <= b)%nat -> f a = true -> f b = true) ->
  (search n <= n)%nat /\ (forall k, (k < search n)%nat -> f k = false) /\
  (forall k, (search n <= k < n)%nat -> f k = true).
Proof.
  intros Hmono. destruct (search_loop_spec n 0 n Hmono ltac:(lia) ltac:(lia)) as (H1 & H2 & H3).
  unfold search. split_and!; [lia|intros; apply H2; lia|exact H3].
Qed.
End search.
