(* ===== verification/Nodes.v ===== *)
(** * Cluster members: metadata, events, matchers and rankers
      ([cluster/node.go], [cluster/provider.go], [cluster/matcher.go],
       [tagsEqual] of [cluster/cluster.go] and [pkg/providerutil/poller.go])

    A matcher is a predicate on a node's metadata, a ranker scores it; both
    are built from tags, some of them numeric. *)

From S2P Require Import Prelude.

(** [NodeID] is a string type. *)
Abbreviation NodeID := string (only parsing).

(** [NodeMeta]; a missing tag map reads like an empty one. *)
Record NodeMeta := mkNodeMeta {
  nm_ID : NodeID;
  nm_Addr : string;
  nm_Tags : gmap string string;
  nm_JoinedAt : Z
}.

#[export] Instance NodeMeta_eq_dec : EqDecision NodeMeta.
Proof. solve_decision. Defined.

Definition zeroNodeMeta : NodeMeta := mkNodeMeta "" "" ∅ 0.

(** The set of the IDs of some members. *)
Definition node_ids (members : list NodeMeta) : gset NodeID := list_to_set (nm_ID <$> members).

Lemma elem_of_node_ids id members : id ∈ node_ids members <-> exists m, m ∈ members /\ nm_ID m = id.
Proof.
  unfold node_ids. rewrite elem_of_list_to_set, list_elem_of_fmap. split; intros (m & ? & ?); eauto.
Qed.

Inductive MemberEventType := MemberJoin | MemberLeave | MemberFailed | MemberUpdated.

#[export] Instance MemberEventType_eq_dec : EqDecision MemberEventType.
Proof. solve_decision. Defined.

Definition MemberEventType_string (t : MemberEventType) : string :=
  match t with
  | MemberJoin => "join" | MemberLeave => "leave" | MemberFailed => "failed" | MemberUpdated => "updated"
  end.

Record MemberEvent := mkMemberEvent { me_Type : MemberEventType; me_Member : NodeMeta }.

#[export] Instance MemberEvent_eq_dec : EqDecision MemberEvent.
Proof. solve_decision. Defined.

(** ** Machine integers and their decimal form *)

(** [int] and [int64] wrap around. *)
Definition i64 (z : Z) : Z := (z + 2 ^ 63) mod 2 ^ 64 - 2 ^ 63.

Lemma i64_small z : - 2 ^ 63 <= z < 2 ^ 63 -> i64 z = z.
Proof. intros Hz. unfold i64. rewrite Z.mod_small; lia. Qed.

Lemma i64_range z : - 2 ^ 63 <= i64 z < 2 ^ 63.
Proof. unfold i64. pose proof (Z.mod_pos_bound (z + 2 ^ 63) (2 ^ 64) ltac:(lia)). lia. Qed.

Definition digitOf (c : ascii) : option Z :=
  let n := Z.of_nat (nat_of_ascii c) in
  if (48 <=? n) && (n <=? 57) then Some (n - 48) else None.

Fixpoint digitsOf (acc : Z) (s : string) : option Z :=
  match s with
  | EmptyString => Some acc
  | String c s' => d ← digitOf c; digitsOf (acc * 10 + d) s'
  end.

(** [strconv.Atoi]: an optional sign and at least one digit, in range. *)
Definition Atoi (s : string) : option Z :=
  let unsigned s := match s with EmptyString => None | _ => digitsOf 0 s end in
  v ← match s with
      | String "+" s' => unsigned s'
      | String "-" s' => Z.opp <$> unsigned s'
      | _ => unsigned s
      end;
  if (- 2 ^ 63 <=? v) && (v <? 2 ^ 63) then Some v else None.

Lemma Atoi_range s v : Atoi s = Some v -> - 2 ^ 63 <= v < 2 ^ 63.
Proof.
  unfold Atoi. intros H. apply bind_Some in H as (w & _ & H). destruct (_ && _) eqn:E; [|done].
  injection H as <-. bprop. lia.
Qed.

(** ** Matchers *)

Definition NodeMatcher := NodeMeta -> bool.

(** [meta.Tags[key]]. *)
Definition tag (key : string) (meta : NodeMeta) : string := lookup_default "" key (nm_Tags meta).

Fixpoint MatchAll (matchers : list NodeMatcher) (meta : NodeMeta) : bool :=
  match matchers with
  | [] => true
  | m :: ms => if negb (m meta) then false else MatchAll ms meta
  end.

Fixpoint MatchAny (matchers : list NodeMatcher) (meta : NodeMeta) : bool :=
  match matchers with
  | [] => false
  | m :: ms => if m meta then true else MatchAny ms meta
  end.

Definition Not (matcher : NodeMatcher) : NodeMatcher := fun meta => negb (matcher meta).

Definition TagEquals (key value : string) : NodeMatcher := fun meta => bool_decide (tag key meta = value).

Definition TagExists (key : string) : NodeMatcher := fun meta => bool_decide (is_Some (nm_Tags meta !! key)).

Definition TagNotExists (key : string) : NodeMatcher := Not (TagExists key).

Definition TagIn (key : string) (values : list string) : NodeMatcher :=
  let set : gset string := list_to_set values in
  fun meta => bool_decide (tag key meta ∈ set).

Definition TagGTE (key : string) (threshold : Z) : NodeMatcher := fun meta =>
  match Atoi (tag key meta) with None => false | Some v => threshold <=? v end.

Definition TagLTE (key : string) (threshold : Z) : NodeMatcher := fun meta =>
  match Atoi (tag key meta) with None => false | Some v => v <=? threshold end.

Definition MatchAllNodes : NodeMatcher := fun _ => true.

(** [FilterNodes]; a [nil] matcher keeps every node. *)
Definition FilterNodes (nodes : list NodeMeta) (matcher : option NodeMatcher) : list NodeMeta :=
  match matcher with
  | None => nodes
  | Some m => filter (fun n => m n = true) nodes
  end.

Lemma MatchAll_spec ms meta : MatchAll ms meta = true <-> Forall (fun m : NodeMatcher => m meta = true) ms.
Proof.
  induction ms as [|m ms IH]; cbn; [by rewrite Forall_nil|]. rewrite Forall_cons.
  destruct (m meta); cbn; [rewrite IH|]; split; try done; by intros [? ?].
Qed.

Lemma MatchAny_spec ms meta : MatchAny ms meta = true <-> Exists (fun m : NodeMatcher => m meta = true) ms.
Proof.
  induction ms as [|m ms IH]; cbn; [by rewrite Exists_nil|]. rewrite Exists_cons.
  destruct (m meta); cbn; [split; auto|]. rewrite IH. split; auto. by intros [?|?].
Qed.

(** ** Rankers *)

Definition NodeRanker := NodeMeta -> Z.

Inductive RankDirection := Highest | Lowest.

#[export] Instance RankDirection_eq_dec : EqDecision RankDirection.
Proof. solve_decision. Defined.

Definition RankByTag (key : string) (direction : RankDirection) : NodeRanker := fun meta =>
  match Atoi (tag key meta) with
  | None => 0
  | Some v => if decide (direction = Lowest) then i64 (- v) else v
  end.

(** ** Comparing tags *)

Definition tagsEqual (a b : gmap string string) : bool :=
  bool_decide (size a = size b) &&
  forallb (fun '(k, v) => bool_decide (lookup_default "" k b = v)) (map_to_list a).

Lemma tagsEqual_refl a : tagsEqual a a = true.
Proof.
  unfold tagsEqual. apply andb_true_iff. split; [by apply bool_decide_eq_true|].
  apply forallb_forall. intros [k v] H. apply list_elem_of_In, elem_of_map_to_list in H.
  apply bool_decide_eq_true. unfold lookup_default. by rewrite H.
Qed.

(** Where no tag has the empty value, the comparison decides equality. *)
Lemma tagsEqual_eq a b :
  (forall k, a !! k <> Some ""%string) -> tagsEqual a b = true -> a = b.
Proof.
  intros Ha H. unfold tagsEqual in H. apply andb_true_iff in H as [Hs H]. bprop.
  rewrite forallb_forall in H.
  assert (a ⊆ b) as Hsub.
  { apply map_subseteq_spec. intros k v Hk.
    specialize (H (k, v) ltac:(by apply list_elem_of_In, elem_of_map_to_list)). cbn in H. bprop.
    unfold lookup_default in H. destruct (b !! k); cbn in H; subst; [done|]. by destruct (Ha k). }
  apply map_subseteq_size_eq; [done|lia].
Qed.

(** With an empty value it does not: different tags compare equal. *)
Example tagsEqual_confuses :
  tagsEqual {["zone" := ""]} {["rack" := "7"]} = true /\
  ({["zone" := ""]} : gmap string string) <> {["rack" := "7"]}.
Proof.
  split; [reflexivity|]. intros H. apply (f_equal (lookup "zone"%string)) in H. vm_compute in H. done.
Qed.
