(* ===== verification/Metrics.v ===== *)
(** * Metrics ([src/src/internal/metrics])

    The runtime reports what it does to a [Hooks] implementation: one that
    discards everything, and one that keeps counters and latency samples.  The
    percentile of the samples picks an index with a multiplication of floating
    point numbers, which is modelled with its rounding. *)

From S2P Require Import Prelude Nodes GoSort.

(** ** Hooks *)

(** The calls of the interface. *)
Inductive observation :=
  | MailboxDepth (actorID : string) (depth : Z)
  | EnqueueLatency (actorID : string) (d : Z)
  | LocalSendLatency (actorID : string) (d : Z)
  | ProcessingLatency (actorID : string) (d : Z)
  | LocalRouting (actorID outcome : string)
  | PanicIntercept (actorID : string)
  | MailboxPreservedDepth (actorID : string) (depth : Z)
  | Restart (actorID : string)
  | PIDLookupLatency (pidKey : string) (d : Z)
  | RegistryLookupLatency (name : string) (d : Z)
  | RegistryOperation (result : string)
  | LifecycleHookObserved (phase result : string)
  | GuardrailDecision (scope result : string)
  | AskObserved (outcome : string)
  | RouterObserved (strategy outcome : string)
  | BatchObserved (result : string)
  | PubSubObserved (operation result : string) (matchedCount : Z)
  | RemoteSendLatency (targetNode : string) (d : Z)
  | RemoteSendOutcome (targetNode outcome : string)
  | ClusterMemberObserved (eventType : string)
  | CodecLatency (operation : string) (d : Z).

Class Hooks (H : Type) := observe : observation -> H -> H.

Inductive NopHooks := mkNopHooks.

#[export] Instance NopHooks_hooks : Hooks NopHooks := fun _ h => h.

(** ** The in-memory implementation *)

Record RuntimeMetrics := mkRuntimeMetrics {
  pidLookup : list Z;
  localSendNs : list Z;
  localSent : Z;
  localByResult : gmap string Z;
  lifecycleBy : gmap string Z;
  guardrailBy : gmap string Z;
  askBy : gmap string Z;
  routerBy : gmap string Z;
  batchBy : gmap string Z;
  pubsubBy : gmap string Z
}.

Definition NewRuntimeMetrics : RuntimeMetrics := mkRuntimeMetrics [] [] 0 ∅ ∅ ∅ ∅ ∅ ∅ ∅.

(** [m[k]++] on [int64] counters. *)
Definition incr (k : string) (m : gmap string Z) : gmap string Z := <[k := i64 (lookup_default 0 k m + 1)]> m.

Definition ObserveLocalSendLatency (_ : string) (d : Z) (m : RuntimeMetrics) : RuntimeMetrics :=
  mkRuntimeMetrics (pidLookup m) (localSendNs m ++ [d]) (i64 (localSent m + 1)) (localByResult m) (lifecycleBy m)
    (guardrailBy m) (askBy m) (routerBy m) (batchBy m) (pubsubBy m).

Definition ObserveLocalRouting (_ outcome : string) (m : RuntimeMetrics) : RuntimeMetrics :=
  mkRuntimeMetrics (pidLookup m) (localSendNs m) (localSent m) (incr outcome (localByResult m)) (lifecycleBy m)
    (guardrailBy m) (askBy m) (routerBy m) (batchBy m) (pubsubBy m).

Definition ObservePIDLookupLatency (_ : string) (d : Z) (m : RuntimeMetrics) : RuntimeMetrics :=
  mkRuntimeMetrics (pidLookup m ++ [d]) (localSendNs m) (localSent m) (localByResult m) (lifecycleBy m)
    (guardrailBy m) (askBy m) (routerBy m) (batchBy m) (pubsubBy m).

Definition ObserveLifecycleHook (phase result : string) (m : RuntimeMetrics) : RuntimeMetrics :=
  mkRuntimeMetrics (pidLookup m) (localSendNs m) (localSent m) (localByResult m)
    (incr (phase +:+ ":" +:+ result) (lifecycleBy m)) (guardrailBy m) (askBy m) (routerBy m) (batchBy m) (pubsubBy m).

Definition ObserveGuardrailDecision (scope result : string) (m : RuntimeMetrics) : RuntimeMetrics :=
  mkRuntimeMetrics (pidLookup m) (localSendNs m) (localSent m) (localByResult m) (lifecycleBy m)
    (incr (scope +:+ ":" +:+ result) (guardrailBy m)) (askBy m) (routerBy m) (batchBy m) (pubsubBy m).

Definition ObserveAskOutcome (outcome : string) (m : RuntimeMetrics) : RuntimeMetrics :=
  mkRuntimeMetrics (pidLookup m) (localSendNs m) (localSent m) (localByResult m) (lifecycleBy m)
    (guardrailBy m) (incr outcome (askBy m)) (routerBy m) (batchBy m) (pubsubBy m).

Definition ObserveRouterOutcome (strategy outcome : string) (m : RuntimeMetrics) : RuntimeMetrics :=
  mkRuntimeMetrics (pidLookup m) (localSendNs m) (localSent m) (localByResult m) (lifecycleBy m)
    (guardrailBy m) (askBy m) (incr (strategy +:+ ":" +:+ outcome) (routerBy m)) (batchBy m) (pubsubBy m).

Definition ObserveBatchOutcome (result : string) (m : RuntimeMetrics) : RuntimeMetrics :=
  mkRuntimeMetrics (pidLookup m) (localSendNs m) (localSent m) (localByResult m) (lifecycleBy m)
    (guardrailBy m) (askBy m) (routerBy m) (incr result (batchBy m)) (pubsubBy m).

Definition ObservePubSubOutcome (operation result : string) (_ : Z) (m : RuntimeMetrics) : RuntimeMetrics :=
  mkRuntimeMetrics (pidLookup m) (localSendNs m) (localSent m) (localByResult m) (lifecycleBy m)
    (guardrailBy m) (askBy m) (routerBy m) (batchBy m) (incr (operation +:+ ":" +:+ result) (pubsubBy m)).

(** A call on a [RuntimeMetrics]; [None] where the type has no such method. *)
Definition observe_metrics (o : observation) (m : RuntimeMetrics) : option RuntimeMetrics :=
  match o with
  | LocalSendLatency a d => Some (ObserveLocalSendLatency a d m)
  | LocalRouting a outcome => Some (ObserveLocalRouting a outcome m)
  | PIDLookupLatency k d => Some (ObservePIDLookupLatency k d m)
  | LifecycleHookObserved phase result => Some (ObserveLifecycleHook phase result m)
  | GuardrailDecision scope result => Some (ObserveGuardrailDecision scope result m)
  | AskObserved outcome => Some (ObserveAskOutcome outcome m)
  | RouterObserved strategy outcome => Some (ObserveRouterOutcome strategy outcome m)
  | BatchObserved result => Some (ObserveBatchOutcome result m)
  | PubSubObserved operation result n => Some (ObservePubSubOutcome operation result n m)
  | RemoteSendLatency _ _ | RemoteSendOutcome _ _ | ClusterMemberObserved _ | CodecLatency _ _ => None
  | _ => Some m
  end.

(** ** Percentiles *)

(** The product of [float64(k)] and the constant 0.95, whose 53-bit significand
    is [M095], rounded to 53 bits (ties to even), in units of [2^-53]. *)
Definition M095 : Z := 0x1E666666666666.

Definition round53 (p : Z) : Z :=
  let e := Z.max 0 (Z.log2 p - 52) in
  let q := p / 2 ^ e in
  let r := p mod 2 ^ e in
  (if (2 ^ e <? 2 * r) || ((2 * r =? 2 ^ e) && Z.odd q) then q + 1 else q) * 2 ^ e.

(** [int(float64(k) * 0.95)], for [k] below [2^53]. *)
Definition p95_index (k : Z) : Z := round53 (k * M095) / 2 ^ 53.

(** [None] is an index out of range. *)
Definition p95 (samples : list Z) : option Z :=
  match samples with
  | [] => Some 0
  | _ => sort_by (fun x => x) samples !! Z.to_nat (p95_index (Z.of_nat (length samples) - 1))
  end.

Definition PIDLookupP95 (m : RuntimeMetrics) : option Z := p95 (pidLookup m).
Definition LocalSendP95 (m : RuntimeMetrics) : option Z := p95 (localSendNs m).

(** ** The index *)

Lemma round53_spec p :
  0 < p -> exists E q r, 0 < E /\ p = E * q + r /\ 0 <= r < E /\ (E = 1 /\ p < 2 ^ 53 \/ exists e, 1 <= e /\ E = 2 ^ e /\ E * 2 ^ 52 <= p < E * 2 ^ 53) /\
    (round53 p = q * E \/ round53 p = (q + 1) * E) /\ 2 * Z.abs (round53 p - p) <= E /\ (E < 2 * r -> round53 p = (q + 1) * E).
Proof.
  intros Hp. unfold round53. set (e := Z.max 0 (Z.log2 p - 52)). assert (0 <= e) as He by (subst e; lia).
  assert (0 < 2 ^ e) as HE by (by apply Z.pow_pos_nonneg). pose proof (Z.div_mod p (2 ^ e) ltac:(lia)) as Hd.
  pose proof (Z.mod_pos_bound p (2 ^ e) HE) as Hr. set (q := p / 2 ^ e) in *. set (r := p mod 2 ^ e) in *.
  exists (2 ^ e), q, r. split; [done|]. split; [done|]. split; [done|]. split.
  { pose proof (Z.log2_spec p Hp) as [L1 L2]. destruct (decide (Z.log2 p <= 52)) as [Hl|Hl].
    - left. replace e with 0 by (subst e; lia). split; [done|]. eapply Z.lt_le_trans; [exact L2|]. apply Z.pow_le_mono_r; lia.
    - right. exists e. rewrite <- !Z.pow_add_r by lia. replace (e + 52) with (Z.log2 p) by (subst e; lia).
      replace (e + 53) with (Z.succ (Z.log2 p)) by (subst e; lia). split; [subst e; lia|]. by split. }
  destruct (2 ^ e <? 2 * r) eqn:E1; [apply Z.ltb_lt in E1; cbn [orb]; split_and!; [by right|lia|done]|].
  apply Z.ltb_ge in E1. destruct (2 * r =? 2 ^ e) eqn:E2; cbn [orb andb].
  - apply Z.eqb_eq in E2. destruct (Z.odd q); split_and!; [by right|lia|done|by left|lia|lia].
  - apply Z.eqb_neq in E2. split_and!; [by left|lia|lia].
Qed.

(** The rounding never moves the index off the exact value. *)
Lemma p95_index_exact k : 0 <= k < 2 ^ 48 -> p95_index k = 19 * k / 20.
Proof.
  intros Hk. unfold p95_index. destruct (decide (k = 0)) as [->|Hk0]; [reflexivity|].
  assert (20 * M095 = 19 * 2 ^ 53 - 8) as HM by reflexivity.
  destruct (round53_spec (k * M095)) as (E & q & r & HE & Hp & Hr & Hsize & Hv & Habs & Hup); [unfold M095; lia|].
  set (V := round53 (k * M095)) in *. set (P := k * M095) in *. assert (20 * P = 19 * k * 2 ^ 53 - 8 * k) as HP by (subst P; lia).
  pose proof (Z.div_mod (19 * k) 20 ltac:(lia)) as Hs. pose proof (Z.mod_pos_bound (19 * k) 20 ltac:(lia)) as Hsb.
  set (N := 19 * k / 20) in *. set (s := (19 * k) mod 20) in *. change (2 ^ 53) with 9007199254740992 in *.
  change (2 ^ 52) with 4503599627370496 in *. change (2 ^ 48) with 281474976710656 in *.
  assert (10 * E <= 19 * k + 10) as HEk by (destruct Hsize as [[-> _]|(e & _ & _ & Hsize & _)]; lia).
  symmetry. apply (Z.div_unique_pos V 9007199254740992 N (V - 9007199254740992 * N)); [|lia].
  split; [|lia]. destruct (decide (s = 0)) as [Es|Es]; [|lia].
  assert (1 <= N) as HN by lia. destruct Hsize as [[-> Hsize]|(e & He & -> & Hs1 & Hs2)]; [lia|].
  assert (19 * k <= 20 * 2 ^ e) as Hke by lia.
  assert (e <= 53) as He53. { apply Z.lt_succ_r. apply (Z.pow_lt_mono_r_iff 2); [lia|lia|]. change (2 ^ Z.succ 53) with 18014398509481984. lia. }
  assert (9007199254740992 = 2 ^ e * 2 ^ (53 - e)) as HF.
  { rewrite <- Z.pow_add_r by lia. replace (e + (53 - e)) with 53 by lia. reflexivity. }
  set (F := 2 ^ (53 - e)) in *. set (E := 2 ^ e) in *.
  assert (20 * E * (N * F - q) = 20 * r + 8 * k) as Hd.
  { assert (20 * P = 20 * N * (E * F) - 8 * k) as HP' by (rewrite <- HF; lia). lia. }
  set (D := N * F - q) in *. assert (D = 1) as HT.
  { destruct (Z.lt_trichotomy D 1) as [HD|[HD|HD]]; [|done|].
    - assert (E * D <= 0) by (apply Z.mul_nonneg_nonpos; lia). lia.
    - assert (E * 2 <= E * D) by (apply Z.mul_le_mono_nonneg_l; lia). lia. }
  assert (E < 2 * r) as Hr2 by (rewrite HT in Hd; lia). rewrite (Hup Hr2). replace (q + 1) with (N * F) by (subst D; lia). rewrite HF. lia.
Qed.

Lemma sorted_take_le (s : list Z) i v : StronglySorted (key_le (fun x : Z => x)) s -> s !! i = Some v -> Forall (fun x => x <= v) (take (S i) s).
Proof.
  intros Hs. revert i. induction Hs as [|x s Hs IH Hx]; intros [|i] Hi; cbn in *; [done|done| |].
  - injection Hi as ->. constructor; [lia|]. by rewrite take_0.
  - constructor; [|by apply IH]. rewrite Forall_forall in Hx. apply (Hx v). by eapply list_elem_of_lookup_2.
Qed.

Lemma sorted_drop_ge (s : list Z) i v : StronglySorted (key_le (fun x : Z => x)) s -> s !! i = Some v -> Forall (fun x => v <= x) (drop i s).
Proof.
  intros Hs. revert i. induction Hs as [|x s Hs IH Hx]; intros [|i] Hi; cbn in *; [done|done| |by apply IH].
  injection Hi as ->. constructor; [lia|]. eapply Forall_impl; [exact Hx|done].
Qed.

(** The percentile exists and is a sample, does not depend on the order of the
    samples, has more than 95 % of the others below or at it, and at least 5 % of
    the samples above or at it. *)
Theorem p95_bounds_samples (l : list Z) :
  l <> [] -> Z.of_nat (length l) <= 2 ^ 48 ->
  exists v, p95 l = Some v /\ v ∈ l /\ (forall l', l' ≡ₚ l -> p95 l' = Some v) /\
    19 * (Z.of_nat (length l) - 1) < 20 * Z.of_nat (length (filter (fun x => x <= v) l)) /\
    Z.of_nat (length l) + 19 <= 20 * Z.of_nat (length (filter (fun x => v <= x) l)).
Proof.
  intros Hl Hn. set (n := Z.of_nat (length l)) in *. set (s := sort_by (fun x => x) l).
  assert (1 <= n) as Hn1 by (subst n; destruct l; [done|cbn; lia]).
  pose proof (p95_index_exact (n - 1) ltac:(lia)) as Hidx.
  pose proof (Z.div_mod (19 * (n - 1)) 20 ltac:(lia)) as Hd. pose proof (Z.mod_pos_bound (19 * (n - 1)) 20 ltac:(lia)) as Hm.
  set (i := Z.to_nat (p95_index (n - 1))). assert (Z.of_nat i = 19 * (n - 1) / 20) as Hi by (subst i; rewrite Hidx; lia).
  assert (s ≡ₚ l) as Hperm by apply sort_by_perm. assert (length s = length l) as Hlen by (by rewrite Hperm).
  destruct (lookup_lt_is_Some_2 s i) as [v Hv]; [lia|]. pose proof (sort_by_sorted (fun x : Z => x) l) as Hs. fold s in Hs.
  exists v. split; [|split; [|split; [|split]]].
  - unfold p95. destruct l; [done|exact Hv].
  - rewrite <- Hperm. by eapply list_elem_of_lookup_2.
  - intros l' Hl'. unfold p95. destruct l' as [|x l']; [by apply Permutation_nil_l in Hl'|].
    rewrite (Permutation_length Hl'). fold n i. rewrite (sort_by_perm_eq (fun x => x) l); [exact Hv|by intros a b _ _|done].
  - rewrite <- Hperm. rewrite <- (take_drop (S i) s), filter_app, length_app.
    rewrite (filter_all _ (take (S i) s)) by (apply Forall_forall; by apply sorted_take_le). rewrite length_take. lia.
  - rewrite <- Hperm. rewrite <- (take_drop i s), filter_app, length_app.
    rewrite (filter_all _ (drop i s)) by (apply Forall_forall; by apply sorted_drop_ge). rewrite length_drop. lia.
Qed.

Example p95_of_twenty_one : p95 (seqZ 100 21) = Some 119.
Proof. vm_compute. reflexivity. Qed.

(** ** Histories *)

Definition run_metrics (os : list observation) : RuntimeMetrics :=
  foldl (fun m o => default m (observe_metrics o m)) NewRuntimeMetrics os.

(** The number of observations that count towards a key. *)
Definition counted (f : observation -> option string) (k : string) (os : list observation) : Z :=
  Z.of_nat (length (filter (fun o => f o = Some k) os)).

Lemma i64_succ z : i64 (i64 z + 1) = i64 (z + 1).
Proof.
  unfold i64. f_equal. replace ((z + 2 ^ 63) mod 2 ^ 64 - 2 ^ 63 + 1 + 2 ^ 63) with ((z + 2 ^ 63) mod 2 ^ 64 + 1) by lia.
  rewrite Z.add_mod_idemp_l by lia. f_equal. lia.
Qed.

Lemma counter_counts (field : RuntimeMetrics -> gmap string Z) (f : observation -> option string) :
  field NewRuntimeMetrics = ∅ ->
  (forall o m, field (default m (observe_metrics o m)) = match f o with Some k => incr k (field m) | None => field m end) ->
  forall os k, lookup_default 0 k (field (run_metrics os)) = i64 (counted f k os).
Proof.
  intros H0 Hf os k. unfold run_metrics. induction os as [|o os IH] using rev_ind.
  { cbn. rewrite H0. by unfold lookup_default; rewrite lookup_empty. }
  rewrite foldl_app. cbn [foldl]. rewrite Hf. unfold counted in *. rewrite filter_app, length_app, Nat2Z.inj_add. cbn.
  destruct (f o) as [k'|] eqn:E.
  - unfold incr, lookup_default. destruct (decide (k' = k)) as [->|Hne].
    + rewrite lookup_insert_eq, decide_True by done. unfold lookup_default in IH. cbn. rewrite IH. by rewrite i64_succ.
    + rewrite lookup_insert_ne, decide_False by congruence. unfold lookup_default in IH. rewrite IH. cbn. by rewrite Z.add_0_r.
  - rewrite decide_False by done. cbn. by rewrite Z.add_0_r.
Qed.

(** The metrics are a function of the history: the samples are those observed,
    in order, and every counter is the number of its observations, as an
    [int64]. *)
Theorem metrics_record_history (os : list observation) (k : string) :
  let m := run_metrics os in
  localSendNs m = omap (fun o => match o with LocalSendLatency _ d => Some d | _ => None end) os /\
  pidLookup m = omap (fun o => match o with PIDLookupLatency _ d => Some d | _ => None end) os /\
  localSent m = i64 (Z.of_nat (length (localSendNs m))) /\
  lookup_default 0 k (localByResult m) = i64 (counted (fun o => match o with LocalRouting _ r => Some r | _ => None end) k os) /\
  lookup_default 0 k (askBy m) = i64 (counted (fun o => match o with AskObserved r => Some r | _ => None end) k os) /\
  lookup_default 0 k (batchBy m) = i64 (counted (fun o => match o with BatchObserved r => Some r | _ => None end) k os) /\
  lookup_default 0 k (lifecycleBy m) =
    i64 (counted (fun o => match o with LifecycleHookObserved p r => Some (p +:+ ":" +:+ r) | _ => None end) k os) /\
  lookup_default 0 k (guardrailBy m) =
    i64 (counted (fun o => match o with GuardrailDecision p r => Some (p +:+ ":" +:+ r) | _ => None end) k os) /\
  lookup_default 0 k (routerBy m) =
    i64 (counted (fun o => match o with RouterObserved p r => Some (p +:+ ":" +:+ r) | _ => None end) k os) /\
  lookup_default 0 k (pubsubBy m) =
    i64 (counted (fun o => match o with PubSubObserved p r _ => Some (p +:+ ":" +:+ r) | _ => None end) k os).
Proof.
  cbv zeta. split; [|split; [|split]].
  1-3: unfold run_metrics; induction os as [|o os IH] using rev_ind; [reflexivity|]; rewrite foldl_app, ?omap_app; cbn [foldl];
    destruct o; cbn -[i64]; rewrite ?IH, ?app_nil_r; try done.
  1: by rewrite length_app, Nat2Z.inj_add, i64_succ.
  split_and!; apply counter_counts; try reflexivity; by intros [].
Qed.

(** [RuntimeMetrics] lacks four methods of the interface it is said to
    implement. *)
Lemma metrics_are_not_hooks m : observe_metrics (RemoteSendLatency "n" 0) m = None /\
  observe_metrics (RemoteSendOutcome "n" "ok") m = None /\ observe_metrics (ClusterMemberObserved "join") m = None /\
  observe_metrics (CodecLatency "encode" 0) m = None.
Proof. done. Qed.
