(* ===== verification/Topology.v ===== *)
(** * Cluster topologies ([cluster/topology.go], [topology_full.go],
      [topology_ring.go])

    A topology says which nodes to connect to, what the next hop towards a
    node is, and which nodes are responsible for a key.  [Topology] is the
    interface, [TopologyLaws] what the cluster relies on: following next hops
    over connections reaches the target.  The full mesh and the consistent
    hash ring implement it.

    The code fills the slices of a ring from a map and sorts them by hash with an
    unstable sort, so it leaves the order of nodes with equal hashes open.
    [buildRingOrdered] is the ring for any choice among these orders;
    [buildRingFromNodeSet], which the operations below use, takes one order of
    equal hashes, the same on every node.  With distinct positions that is every
    ring ([ring_of_any_order] in [Placement.v]); the theorems on routing in
    [Ring.v], [Relay.v] and [Spread.v] do not assume distinct positions, so for
    positions that coincide they speak of nodes that break the tie alike.  [int(math.Log2(float64(n)))]
    is [Z.log2 n], which it equals for every [n] below [2^47]. *)

From S2P Require Import Prelude Fnv GoSort Nodes.

Class Topology (T : Type) := {
  ShouldConnect : T -> NodeID -> list NodeMeta -> list NodeID;
  Route : T -> NodeID -> NodeID -> list NodeMeta -> option NodeID;
  Responsible : T -> string -> list NodeMeta -> Z -> list NodeID
}.

(** The nodes a node knows: itself and the members. *)
Definition known (self : NodeID) (members : list NodeMeta) : gset NodeID :=
  {[self]} ∪ node_ids members.

Lemma elem_of_known x self members : x ∈ known self members <-> x = self \/ x ∈ node_ids members.
Proof. unfold known. by rewrite elem_of_union, elem_of_singleton. Qed.

(** A topology in a proper configuration ([topo_ok]) gives for every target a
    next hop that is connected and closer to it; the distance depends on the
    set of nodes only, so that nodes which know the same members agree. *)
Class TopologyLaws (T : Type) `{Topology T} := {
  topo_ok : T -> Prop;
  topo_dist : T -> gset NodeID -> NodeID -> NodeID -> nat;
  topo_dist_0 t S a b : topo_ok t -> a ∈ S -> b ∈ S -> topo_dist t S a b = 0%nat <-> a = b;
  topo_route t self target members :
    topo_ok t -> ""%string ∉ known self members -> target ∈ node_ids members -> target <> self ->
    exists hop, Route t self target members = Some hop /\ hop ∈ known self members /\
      hop ∈ ShouldConnect t self members /\
      (topo_dist t (known self members) hop target <
       topo_dist t (known self members) self target)%nat;
  topo_route_unknown t self target members :
    target ∉ known self members -> Route t self target members = None;
  topo_connect t self members id :
    topo_ok t -> id ∈ ShouldConnect t self members -> id ∈ node_ids members /\ id <> self
}.

(** ** The full mesh *)

Inductive FullMeshTopology := FullMesh.

(** The position of a node for a key: the hash of both. *)
Definition hashPair (key : string) (id : NodeID) : Z := fnv64a (key +:+ String "000" id).

Definition FullMesh_ShouldConnect (_ : FullMeshTopology) (self : NodeID) (members : list NodeMeta) :
    list NodeID :=
  nm_ID <$> filter (fun m => nm_ID m <> self) members.

Definition FullMesh_Route (_ : FullMeshTopology) (self target : NodeID) (members : list NodeMeta) :
    option NodeID :=
  if existsb (fun m => bool_decide (nm_ID m = target)) members then Some target else None.

Definition FullMesh_Responsible (_ : FullMeshTopology) (key : string) (members : list NodeMeta)
    (replication : Z) : list NodeID :=
  let replication := if replication <=? 0 then 1 else replication in
  let candidates := sort_by (hashPair key) (nm_ID <$> members) in
  let replication :=
    if Z.of_nat (length candidates) <? replication then Z.of_nat (length candidates) else replication in
  take (Z.to_nat replication) candidates.

#[export] Instance FullMesh_topology : Topology FullMeshTopology := {
  ShouldConnect := FullMesh_ShouldConnect;
  Route := FullMesh_Route;
  Responsible := FullMesh_Responsible
}.

(** Distance one between different nodes. *)
#[export, refine] Instance FullMesh_laws : TopologyLaws FullMeshTopology := {
  topo_ok _ := True;
  topo_dist _ _ a b := if decide (a = b) then 0%nat else 1%nat
}.
Proof.
  - intros t S a b _ _ _. cbn. destruct (decide _); split; (done || lia).
  - intros t self target members _ _ Ht Hne. exists target.
    apply elem_of_node_ids in Ht as (m & Hm & <-). split_and!.
    + cbn. unfold FullMesh_Route. rewrite (proj2 (existsb_exists _ _)); [done|].
      exists m. split; [by apply list_elem_of_In|]. by apply bool_decide_eq_true.
    + apply elem_of_known. right. apply elem_of_node_ids. eauto.
    + cbn. unfold FullMesh_ShouldConnect. apply list_elem_of_fmap. exists m. split; [done|].
      by apply list_elem_of_filter.
    + cbn. rewrite decide_True by done. rewrite decide_False by congruence. lia.
  - intros t self target members Ht. cbn. unfold FullMesh_Route.
    destruct (existsb _ _) eqn:E; [|done]. exfalso. apply existsb_exists in E as (m & Hm & E). bprop.
    apply Ht, elem_of_known. right. apply elem_of_node_ids. exists m.
    split; [by apply list_elem_of_In|done].
  - intros t self members id _ H. cbn in H. unfold FullMesh_ShouldConnect in H.
    apply list_elem_of_fmap in H as (m & -> & Hm). apply list_elem_of_filter in Hm as [? ?].
    split; [|done]. apply elem_of_node_ids. eauto.
Defined.

(** ** The ring *)

Record RingTopology := mkRingTopology { Fanout : Z; VNodes : Z }.

Definition NewRingTopology (fanout vnodes : Z) : RingTopology :=
  mkRingTopology (if fanout <? 1 then 1 else fanout) (if vnodes <? 1 then 1 else vnodes).

(** [byte(x)] of an unsigned integer. *)
Definition byteAscii (x : Z) : ascii := ascii_of_nat (Z.to_nat (Z.land x 255)).

(** The eight bytes of an integer, most significant first. *)
Definition be64 (x : Z) : string :=
  String (byteAscii (Z.shiftr x 56)) (String (byteAscii (Z.shiftr x 48))
  (String (byteAscii (Z.shiftr x 40)) (String (byteAscii (Z.shiftr x 32))
  (String (byteAscii (Z.shiftr x 24)) (String (byteAscii (Z.shiftr x 16))
  (String (byteAscii (Z.shiftr x 8)) (String (byteAscii x) EmptyString))))))).

Definition hashVNode (id : NodeID) (vnode : Z) : Z :=
  fnv64a (be64 (Z.lxor (fnv64a id) (u64 (u64 vnode * 11400714819323198485)))).

Record vnodePos := mkVnodePos { vp_hash : Z; vp_node : NodeID }.

#[export] Instance vnodePos_eq_dec : EqDecision vnodePos.
Proof. solve_decision. Defined.

Record ring := mkRing {
  rg_nodes : list NodeID;
  rg_positions : list vnodePos;
  rg_nodeIndex : gmap NodeID Z
}.

Definition indexOf (rg : ring) (id : NodeID) : Z := default (-1) (rg_nodeIndex rg !! id).

(** The positions of one node. *)
Definition vnodes_of (r : RingTopology) (id : NodeID) : list vnodePos :=
  (fun v => mkVnodePos (hashVNode id v) id) <$> seqZ 0 (VNodes r).

(** The nodes in the order of their primary position. *)
Definition ring_order (allNodes : gset NodeID) : list NodeID :=
  sort_by (fun id => hashVNode id 0) (elements allNodes).

Definition index_nodes (nodes : list NodeID) : gmap NodeID Z :=
  foldl (fun m '(i, id) => <[id := Z.of_nat i]> m) ∅ (imap pair nodes).

Definition buildRingFromNodeSet (r : RingTopology) (allNodes : gset NodeID) : ring :=
  let positions := sort_by vp_hash (elements allNodes ≫= vnodes_of r) in
  let nodes := ring_order allNodes in
  mkRing nodes positions (index_nodes nodes).

(** The ring with the arrangements [o1] and [o2] of equal hashes. *)
Definition buildRingOrdered (r : RingTopology) (o1 o2 : nat) (allNodes : gset NodeID) : ring :=
  let positions := sort_slice vp_hash o1 (elements allNodes ≫= vnodes_of r) in
  let nodes := sort_slice (fun id => hashVNode id 0) o2 (elements allNodes) in
  mkRing nodes positions (index_nodes nodes).

Definition buildRingFromMembers (r : RingTopology) (members : list NodeMeta) : ring :=
  buildRingFromNodeSet r (node_ids members).

Definition buildRing (r : RingTopology) (self : NodeID) (members : list NodeMeta) : option ring :=
  let allNodes := known self members in
  if decide (size allNodes < 2)%nat then None else Some (buildRingFromNodeSet r allNodes).

(** [rg.nodes[i]]; the indices are always in range ([node_at_rem]). *)
Definition node_at (rg : ring) (i : Z) : NodeID := default ""%string (rg_nodes rg !! Z.to_nat i).

Definition ringDistance (a b n : Z) : Z :=
  let d := b - a in if d <? 0 then d + n else d.

Definition ring_size (rg : ring) : Z := Z.of_nat (length (rg_nodes rg)).

Definition numFingers (n : Z) : Z := let k := Z.log2 n in if k <? 1 then 1 else k.

(** One round of the loop of [buildFingers]. *)
Definition finger_step (rg : ring) (selfIdx : Z) (acc : gset NodeID * list NodeID) (i : Z) :
    gset NodeID * list NodeID :=
  let '(seen, fingers) := acc in
  let idx := Z.rem (selfIdx + Z.shiftl 1 i) (ring_size rg) in
  let node := node_at rg idx in
  if bool_decide (node <> node_at rg selfIdx) && bool_decide (node ∉ seen)
  then ({[node]} ∪ seen, fingers ++ [node]) else (seen, fingers).

Definition buildFingers (rg : ring) (selfIdx : Z) : list NodeID :=
  if ring_size rg <=? 2 then []
  else (foldl (finger_step rg selfIdx) (∅, []) (seqZ 0 (numFingers (ring_size rg)))).2.

(** The two neighbours at distance [i]. *)
Definition neighborUp (rg : ring) (selfIdx i : Z) : NodeID :=
  node_at rg (Z.rem (selfIdx + i) (ring_size rg)).

Definition neighborDown (rg : ring) (selfIdx i : Z) : NodeID :=
  node_at rg (Z.rem (selfIdx - i + ring_size rg) (ring_size rg)).

Definition neighbors (r : RingTopology) (rg : ring) (selfIdx : Z) : list NodeID :=
  seqZ 1 (Fanout r) ≫= (fun i => [neighborUp rg selfIdx i; neighborDown rg selfIdx i]).

Fixpoint dedupNodes_loop (seen : gset NodeID) (nodes : list NodeID) : list NodeID :=
  match nodes with
  | [] => []
  | n :: nodes =>
      if decide (n ∈ seen) then dedupNodes_loop seen nodes
      else n :: dedupNodes_loop ({[n]} ∪ seen) nodes
  end.

Definition dedupNodes (nodes : list NodeID) : list NodeID := dedupNodes_loop ∅ nodes.

Definition Ring_ShouldConnect (r : RingTopology) (self : NodeID) (members : list NodeMeta) :
    list NodeID :=
  match buildRing r self members with
  | None => []
  | Some rg =>
      if ring_size rg <=? 2 * Fanout r + 1 then
        dedupNodes (filter (fun n => n <> self) (rg_nodes rg))
      else
        let selfIdx := indexOf rg self in
        if selfIdx <? 0 then []
        else
          let targets : gset NodeID :=
            (list_to_set (neighbors r rg selfIdx) ∪ list_to_set (buildFingers rg selfIdx)) ∖ {[self]} in
          elements targets
  end.

(** [if dist < bestDist { bestDist = dist; bestHop = f }]. *)
Definition better (rg : ring) (targetIdx : Z) (best : NodeID * Z) (node : NodeID) : NodeID * Z :=
  let d := ringDistance (indexOf rg node) targetIdx (ring_size rg) in
  if d <? best.2 then (node, d) else best.

Definition Ring_Route (r : RingTopology) (self target : NodeID) (members : list NodeMeta) :
    option NodeID :=
  match buildRing r self members with
  | None => None
  | Some rg =>
      let targetIdx := indexOf rg target in
      if targetIdx <? 0 then None
      else
        let selfIdx := indexOf rg self in
        if selfIdx <? 0 then None
        else
          let n := ring_size rg in
          if ringDistance selfIdx targetIdx n <=? Fanout r then Some target
          else
            let fingers := filter (fun f => 0 <= indexOf rg f) (buildFingers rg selfIdx) in
            let best := foldl (better rg targetIdx) (""%string, n) fingers in
            let best := foldl (better rg targetIdx) best (neighbors r rg selfIdx) in
            if bool_decide (best.1 = ""%string) then None else Some best.1
  end.

(** The walk of [Responsible]: distinct nodes clockwise from a position. *)
Fixpoint walk_clockwise (seen : gset NodeID) (replication : nat) (ps : list vnodePos) : list NodeID :=
  match ps, replication with
  | p :: ps, S k =>
      if decide (vp_node p ∈ seen) then walk_clockwise seen replication ps
      else vp_node p :: walk_clockwise ({[vp_node p]} ∪ seen) k ps
  | _, _ => []
  end.

(** The positions from index [idx] on, once around. *)
Definition rotate_at (idx : nat) (ps : list vnodePos) : list vnodePos := drop idx ps ++ take idx ps.

Definition Ring_Responsible (r : RingTopology) (key : string) (members : list NodeMeta)
    (replication : Z) : list NodeID :=
  let replication := if replication <=? 0 then 1 else replication in
  if decide (members = []) then []
  else
    let ps := rg_positions (buildRingFromMembers r members) in
    let keyHash := fnv64a key in
    let idx := search (fun i => match ps !! i with Some p => keyHash <=? vp_hash p | None => true end)
                 (length ps) in
    let idx := if (length ps <=? idx)%nat then 0%nat else idx in
    walk_clockwise ∅ (Z.to_nat replication) (rotate_at idx ps).

#[export] Instance Ring_topology : Topology RingTopology := {
  ShouldConnect := Ring_ShouldConnect;
  Route := Ring_Route;
  Responsible := Ring_Responsible
}.

(** ** Following next hops *)

Section path.
Context {T : Type} `{Topology T}.
Variable t : T.
(** The members each node knows. *)
Variable view : NodeID -> list NodeMeta.

(** The hops from [self] until [target] is reached; [None] when a node has no
    next hop or the fuel does not suffice. *)
Fixpoint route_path (fuel : nat) (self target : NodeID) : option (list NodeID) :=
  if decide (self = target) then Some []
  else match fuel with
  | O => None
  | S fuel => hop ← Route t self target (view self); cons hop <$> route_path fuel hop target
  end.

(** All nodes of [S] know exactly the nodes of [S]. *)
Definition converged (S : gset NodeID) : Prop := forall a, a ∈ S -> known a (view a) = S.
End path.
