(* ===== verification/Ring.v ===== *)
(** * The consistent hash ring: routing

    Nodes in the order of their positions, distances around the ring, and the
    next hop of [Ring_Route]: it is connected, closer to the target, and the
    path it starts reaches the target within about [log2 n] hops. *)

From S2P Require Import Prelude Fnv GoSort Nodes Topology.

(** ** Nodes and indices *)

Lemma elem_of_ring_order S x : x ∈ ring_order S <-> x ∈ S.
Proof. unfold ring_order. by rewrite elem_of_sort_by, elem_of_elements. Qed.

Lemma NoDup_ring_order S : NoDup (ring_order S).
Proof. unfold ring_order. rewrite sort_by_perm. apply NoDup_elements. Qed.

Lemma length_ring_order S : length (ring_order S) = size S.
Proof. unfold ring_order. rewrite length_sort_by. done. Qed.

Lemma index_fold_notin l (m : gmap NodeID Z) k x :
  x ∉ l -> foldl (fun m '(i, id) => <[id := Z.of_nat i]> m) m (imap (fun i id => ((k + i)%nat, id)) l) !! x
    = m !! x.
Proof.
  revert m k. induction l as [|y l IH]; intros m k Hx; [done|]. cbn.
  apply not_elem_of_cons in Hx as [Hy Hx].
  rewrite (imap_ext _ (fun i id => ((S k + i)%nat, id))).
  - rewrite IH by done. by apply lookup_insert_ne.
  - intros. cbn. f_equal. lia.
Qed.

Lemma index_fold_in l (m : gmap NodeID Z) k x i :
  NoDup l -> l !! i = Some x ->
  foldl (fun m '(i, id) => <[id := Z.of_nat i]> m) m (imap (fun i id => ((k + i)%nat, id)) l) !! x
    = Some (Z.of_nat (k + i)).
Proof.
  revert m k i. induction l as [|y l IH]; intros m k i Hd Hi; [done|].
  apply NoDup_cons in Hd as [Hy Hd]. cbn.
  rewrite (imap_ext _ (fun i id => ((S k + i)%nat, id))) by (intros; cbn; f_equal; lia).
  destruct i as [|i]; cbn in Hi.
  - simplify_eq. rewrite index_fold_notin by done. by rewrite lookup_insert_eq, Nat.add_0_r.
  - rewrite (IH _ _ i) by done. by rewrite Nat.add_succ_r.
Qed.

Lemma index_nodes_in l x i : NoDup l -> l !! i = Some x -> index_nodes l !! x = Some (Z.of_nat i).
Proof.
  intros Hd Hi. unfold index_nodes. rewrite (imap_ext _ (fun i id => ((0 + i)%nat, id))) by done.
  by rewrite (index_fold_in _ _ _ _ i).
Qed.

Lemma index_nodes_notin l x : x ∉ l -> index_nodes l !! x = None.
Proof.
  intros Hx. unfold index_nodes. rewrite (imap_ext _ (fun i id => ((0 + i)%nat, id))) by done.
  by rewrite index_fold_notin, lookup_empty.
Qed.

(** What the construction of a ring guarantees. *)
Record ring_ok (rg : ring) : Prop := {
  ro_nodup : NoDup (rg_nodes rg);
  ro_index : rg_nodeIndex rg = index_nodes (rg_nodes rg)
}.

Lemma buildRing_ok r S : ring_ok (buildRingFromNodeSet r S).
Proof. split; [apply NoDup_ring_order|done]. Qed.

Section geometry.
Variable rg : ring.
Hypothesis Hok : ring_ok rg.
Abbreviation n := (ring_size rg).

Lemma indexOf_notin x : x ∉ rg_nodes rg -> indexOf rg x = -1.
Proof. intros Hx. unfold indexOf. by rewrite (ro_index _ Hok), index_nodes_notin. Qed.

Lemma indexOf_at i x : rg_nodes rg !! i = Some x -> indexOf rg x = Z.of_nat i.
Proof.
  intros Hi. unfold indexOf. rewrite (ro_index _ Hok), (index_nodes_in _ _ i) by (done || apply Hok). done.
Qed.

Lemma indexOf_in x : x ∈ rg_nodes rg -> 0 <= indexOf rg x < n /\ node_at rg (indexOf rg x) = x.
Proof.
  intros [i Hi]%list_elem_of_lookup. rewrite (indexOf_at i) by done. split.
  - apply lookup_lt_Some in Hi. unfold ring_size. lia.
  - unfold node_at. by rewrite Nat2Z.id, Hi.
Qed.

Lemma indexOf_nonneg x : 0 <= indexOf rg x <-> x ∈ rg_nodes rg.
Proof.
  destruct (decide (x ∈ rg_nodes rg)) as [Hx|Hx].
  - pose proof (indexOf_in _ Hx). tauto.
  - rewrite indexOf_notin by done. split; [lia|done].
Qed.

Lemma node_at_in i : 0 <= i < n -> node_at rg i ∈ rg_nodes rg /\ indexOf rg (node_at rg i) = i.
Proof.
  intros Hi. unfold ring_size in Hi.
  destruct (lookup_lt_is_Some_2 (rg_nodes rg) (Z.to_nat i)) as [x Hx]; [lia|].
  unfold node_at. rewrite Hx. cbn. split; [by eapply list_elem_of_lookup_2|].
  rewrite (indexOf_at (Z.to_nat i)) by done. lia.
Qed.

(** The remainders the code indexes with are in range. *)
Lemma node_at_rem i : 0 <= i -> 0 < n ->
  node_at rg (Z.rem i n) ∈ rg_nodes rg /\ indexOf rg (node_at rg (Z.rem i n)) = i mod n.
Proof.
  intros Hi Hn. rewrite Z.rem_mod_nonneg by lia. apply node_at_in, Z.mod_pos_bound. lia.
Qed.

Lemma ringDistance_mod a b : 0 <= a < n -> 0 <= b < n -> ringDistance a b n = (b - a) mod n.
Proof.
  intros Ha Hb. unfold ringDistance. cbn zeta. destruct (b - a <? 0) eqn:E.
  - apply Z.ltb_lt in E. rewrite <- (Z.mod_add (b - a) 1 n) by lia. rewrite Z.mod_small; lia.
  - apply Z.ltb_ge in E. rewrite Z.mod_small; lia.
Qed.

(** The distance between two nodes. *)
Definition dist (a b : NodeID) : Z := ringDistance (indexOf rg a) (indexOf rg b) n.

Lemma dist_range a b : a ∈ rg_nodes rg -> b ∈ rg_nodes rg -> 0 <= dist a b < n.
Proof.
  intros Ha Hb. apply indexOf_in in Ha as [Ha _]. apply indexOf_in in Hb as [Hb _].
  unfold dist. rewrite ringDistance_mod by done. apply Z.mod_pos_bound. lia.
Qed.

Lemma dist_0 a b : a ∈ rg_nodes rg -> b ∈ rg_nodes rg -> dist a b = 0 <-> a = b.
Proof.
  intros Ha Hb. pose proof (indexOf_in _ Ha) as [Hi Ea]. pose proof (indexOf_in _ Hb) as [Hj Eb].
  unfold dist, ringDistance. cbn zeta. destruct (_ <? 0) eqn:E; bprop; [apply Z.ltb_lt in E|apply Z.ltb_ge in E].
  - split; [lia|intros ->; lia].
  - split; [|intros ->; lia]. intros H. rewrite <- Ea, <- Eb. f_equal. lia.
Qed.

(** Going [j] nodes up brings a target at distance at least [j] closer by [j]. *)
Lemma dist_jump a b j :
  a ∈ rg_nodes rg -> b ∈ rg_nodes rg -> 0 <= j <= dist a b ->
  dist (node_at rg (Z.rem (indexOf rg a + j) n)) b = dist a b - j.
Proof.
  intros Ha Hb Hj. pose proof (dist_range a b Ha Hb) as Hd.
  pose proof (indexOf_in _ Ha) as [Hi _]. pose proof (indexOf_in _ Hb) as [Hk _].
  destruct (node_at_rem (indexOf rg a + j)) as [_ E]; [lia..|].
  assert (dist a b = (indexOf rg b - indexOf rg a) mod n) as Ed by (by apply ringDistance_mod).
  rewrite Ed in *. unfold dist. rewrite E, ringDistance_mod by (done || apply Z.mod_pos_bound; lia).
  rewrite Zminus_mod_idemp_r. replace (_ - (_ + j)) with (indexOf rg b - indexOf rg a - j) by lia.
  rewrite <- Zminus_mod_idemp_l. apply Z.mod_small. lia.
Qed.

(** The node at its distance is the target. *)
Lemma dist_node a b :
  a ∈ rg_nodes rg -> b ∈ rg_nodes rg -> node_at rg (Z.rem (indexOf rg a + dist a b) n) = b.
Proof.
  intros Ha Hb. pose proof (dist_range a b Ha Hb) as Hd. pose proof (indexOf_in _ Ha) as [Hi _].
  destruct (node_at_rem (indexOf rg a + dist a b)) as [Hin _]; [lia..|].
  apply (dist_0 _ _ Hin Hb). rewrite dist_jump by (done || lia). lia.
Qed.

(** ** Fingers *)

Definition finger (self : NodeID) (i : Z) : NodeID :=
  node_at rg (Z.rem (indexOf rg self + Z.shiftl 1 i) n).

Lemma finger_step_elem selfIdx acc i x :
  (forall y, y ∈ acc.1 <-> y ∈ acc.2) ->
  let acc' := finger_step rg selfIdx acc i in
  (forall y, y ∈ acc'.1 <-> y ∈ acc'.2) /\
  (x ∈ acc'.2 <-> x ∈ acc.2 \/
    x = node_at rg (Z.rem (selfIdx + Z.shiftl 1 i) n) /\ x <> node_at rg selfIdx).
Proof.
  intros Hs. destruct acc as [seen fingers]. cbn in *. unfold finger_step.
  set (node := node_at rg _). destruct (_ && _) eqn:E; bprop; cbn.
  - split; [intros y; rewrite elem_of_union, elem_of_singleton, Hs, elem_of_app, list_elem_of_singleton; tauto|].
    rewrite elem_of_app, list_elem_of_singleton. split; [intros [?| ->]; auto|intros [?|[-> _]]; auto].
  - split; [done|]. split; [auto|]. intros [?|[-> Hne]]; [done|].
    apply andb_false_iff in E as [E|E]; bprop; [done|]. apply Hs. by destruct (decide (node ∈ seen)).
Qed.

Lemma fingers_fold_elem selfIdx is_ acc x :
  (forall y, y ∈ acc.1 <-> y ∈ acc.2) ->
  x ∈ (foldl (finger_step rg selfIdx) acc is_).2 <->
  x ∈ acc.2 \/ exists i, i ∈ is_ /\ x = node_at rg (Z.rem (selfIdx + Z.shiftl 1 i) n) /\
    x <> node_at rg selfIdx.
Proof.
  revert acc. induction is_ as [|i is_ IH]; intros acc Hs; cbn [foldl].
  - split; [auto|]. intros [?|(i & Hi & _)]; [done|]. by apply not_elem_of_nil in Hi.
  - destruct (finger_step_elem selfIdx acc i x Hs) as [Hs' Hx]. rewrite IH by done. rewrite Hx. split.
    + intros [[?|[??]]|(j & Hj & ?)]; [auto|right; exists i|right; exists j]; split; try done; [left|by right].
    + intros [?|(j & Hj & ?)]; [auto|]. apply elem_of_cons in Hj as [->|Hj]; [auto|]. right. by exists j.
Qed.

(** The fingers of a node are the nodes [1], [2], [4], ... up the ring. *)
Lemma elem_of_buildFingers self x :
  self ∈ rg_nodes rg ->
  x ∈ buildFingers rg (indexOf rg self) <->
  2 < n /\ exists i, 0 <= i < numFingers n /\ x = finger self i /\ x <> self.
Proof.
  intros Hself. unfold buildFingers. destruct (n <=? 2) eqn:E; [apply Z.leb_le in E|apply Z.leb_gt in E].
  { split; [intros H; by apply not_elem_of_nil in H|lia]. }
  rewrite fingers_fold_elem by (intros y; cbn; set_solver).
  rewrite (proj2 (indexOf_in _ Hself)). cbn. split.
  - intros [H|(i & Hi & ?)]; [by apply not_elem_of_nil in H|]. apply elem_of_seqZ in Hi.
    split; [done|]. exists i. split; [lia|done].
  - intros [_ (i & Hi & ?)]. right. exists i. split; [|done]. apply elem_of_seqZ. lia.
Qed.

Lemma finger_in self i :
  self ∈ rg_nodes rg -> 0 <= i -> finger self i ∈ rg_nodes rg.
Proof.
  intros Hself Hi. pose proof (indexOf_in _ Hself) as [Hs _]. unfold finger.
  apply node_at_rem; [|lia]. rewrite Z.shiftl_1_l. pose proof (Z.pow_nonneg 2 i). lia.
Qed.

(** ** The best candidate *)

Lemma better_spec target x best :
  let b := better rg (indexOf rg target) best x in
  (b = best /\ best.2 <= dist x target) \/ (b = (x, dist x target) /\ dist x target < best.2).
Proof.
  unfold better, dist. cbn. destruct (_ <? _) eqn:E; [apply Z.ltb_lt in E|apply Z.ltb_ge in E]; auto.
Qed.

Lemma best_spec target l best :
  let b := foldl (better rg (indexOf rg target)) best l in
  b.2 <= best.2 /\ (forall x, x ∈ l -> b.2 <= dist x target) /\
  (b = best \/ (b.1 ∈ l /\ b.2 = dist b.1 target)).
Proof.
  revert best. induction l as [|x l IH]; intros best; cbn [foldl].
  { split_and!; [lia|intros x Hx; by apply not_elem_of_nil in Hx|auto]. }
  destruct (IH (better rg (indexOf rg target) best x)) as (H1 & H2 & H3).
  destruct (better_spec target x best) as [[E1 E2]|[E1 E2]]; rewrite E1 in H1, H2, H3 |- *; cbn in H1, H3.
  - split_and!; [done| |].
    + intros y [->|Hy]%elem_of_cons; [lia|auto].
    + destruct H3 as [?|[??]]; [auto|]. right. split; [by right|done].
  - split_and!; [lia| |].
    + intros y [->|Hy]%elem_of_cons; [lia|auto].
    + destruct H3 as [->|[??]]; right; cbn; split; try done; [left|by right].
Qed.
End geometry.

(** ** The next hop *)

Section next_hop.
Variables (r : RingTopology) (self target : NodeID) (members : list NodeMeta).
Hypothesis HF : 1 <= Fanout r.
Abbreviation rg := (buildRingFromNodeSet r (known self members)).

Lemma elem_of_ring x : x ∈ rg_nodes rg <-> x ∈ known self members.
Proof. apply elem_of_ring_order. Qed.

Lemma ring_ok_rg : ring_ok rg.
Proof. apply buildRing_ok. Qed.

Lemma self_in_ring : self ∈ rg_nodes rg.
Proof. apply elem_of_ring, elem_of_known. auto. Qed.

Lemma ring_size_known : ring_size rg = Z.of_nat (size (known self members)).
Proof. unfold ring_size. cbn. by rewrite length_ring_order. Qed.

Lemma elem_of_neighbors x :
  x ∈ neighbors r rg (indexOf rg self) <->
  exists i, 1 <= i <= Fanout r /\
    (x = neighborUp rg (indexOf rg self) i \/ x = neighborDown rg (indexOf rg self) i).
Proof.
  unfold neighbors. rewrite list_elem_of_bind. split.
  - intros (i & Hx & Hi). apply elem_of_seqZ in Hi. exists i. split; [lia|].
    apply elem_of_cons in Hx as [?|?%list_elem_of_singleton]; auto.
  - intros (i & Hi & Hx). exists i. split; [|apply elem_of_seqZ; lia].
    rewrite elem_of_cons, list_elem_of_singleton. tauto.
Qed.

Lemma neighbors_in x :
  Fanout r <= ring_size rg -> x ∈ neighbors r rg (indexOf rg self) -> x ∈ rg_nodes rg.
Proof.
  intros Hn (i & Hi & Hx)%elem_of_neighbors.
  pose proof (indexOf_in _ ring_ok_rg _ self_in_ring) as [Hs _].
  destruct Hx as [-> | ->]; apply node_at_rem; try apply ring_ok_rg; lia.
Qed.

Lemma elem_of_dedupNodes_loop seen l x : x ∈ dedupNodes_loop seen l <-> x ∈ l /\ x ∉ seen.
Proof.
  revert seen. induction l as [|y l IH]; intros seen; cbn [dedupNodes_loop]; [set_solver|].
  destruct (decide _) as [Hy|Hy]; [|rewrite elem_of_cons]; rewrite IH, elem_of_cons.
  - split; [tauto|]. intros [[->|?] ?]; done.
  - rewrite not_elem_of_union, not_elem_of_singleton. split.
    + intros [->|[? [? ?]]]; auto.
    + intros [[->|?] ?]; [auto|]. destruct (decide (x = y)); auto.
Qed.

Lemma elem_of_dedupNodes l x : x ∈ dedupNodes l <-> x ∈ l.
Proof. unfold dedupNodes. rewrite elem_of_dedupNodes_loop. set_solver. Qed.

(** The nodes to connect to, in a large ring and in a small one. *)
Lemma elem_of_Ring_ShouldConnect x :
  (2 <= size (known self members))%nat ->
  x ∈ Ring_ShouldConnect r self members <->
  x <> self /\
  if decide (ring_size rg <= 2 * Fanout r + 1) then x ∈ rg_nodes rg
  else x ∈ neighbors r rg (indexOf rg self) \/ x ∈ buildFingers rg (indexOf rg self).
Proof.
  intros Hn. unfold Ring_ShouldConnect, buildRing. rewrite decide_False by lia. cbv zeta.
  destruct (decide _) as [Hs|Hs].
  - rewrite (proj2 (Z.leb_le _ _)) by done. by rewrite elem_of_dedupNodes, list_elem_of_filter.
  - rewrite (proj2 (Z.leb_gt _ _)) by lia.
    pose proof (indexOf_in _ ring_ok_rg _ self_in_ring) as [Hi _].
    rewrite (proj2 (Z.ltb_ge _ _)) by lia. rewrite elem_of_elements. set_solver.
Qed.

Hypothesis Hempty : ""%string ∉ known self members.
Hypothesis Htarget : target ∈ rg_nodes rg.
Hypothesis Hne : target <> self.

Lemma known_two : (2 <= size (known self members))%nat.
Proof.
  assert ({[self; target]} ⊆ known self members) as Hs.
  { apply elem_of_ring in Htarget. rewrite elem_of_known in Htarget. intros x. rewrite elem_of_known. set_solver. }
  apply subseteq_size in Hs. rewrite size_union, !size_singleton in Hs by set_solver. done.
Qed.

Abbreviation D := (dist rg self target).

Lemma dist_positive : 0 < D < ring_size rg.
Proof.
  pose proof (dist_range _ ring_ok_rg _ _ self_in_ring Htarget).
  pose proof (dist_0 _ ring_ok_rg _ _ self_in_ring Htarget) as E.
  destruct (decide (D = 0)) as [E0|E0]; [apply E in E0; congruence|lia].
Qed.

(** What the next hop is: the target itself within the fanout, otherwise a
    connected node no farther from the target than any finger, and closer to it
    than [self]. *)
Lemma Ring_Route_hop :
  exists hop, Ring_Route r self target members = Some hop /\ hop ∈ rg_nodes rg /\
    hop ∈ Ring_ShouldConnect r self members /\ dist rg hop target < D /\
    (forall i, 0 <= i < numFingers (ring_size rg) -> 2 < ring_size rg -> 2 ^ i <= D ->
       dist rg hop target <= D - 2 ^ i).
Proof.
  pose proof ring_ok_rg as Hok. pose proof self_in_ring as Hself. pose proof known_two as H2.
  pose proof dist_positive as HD.
  pose proof (indexOf_in _ Hok _ Hself) as [Hsi _]. pose proof (indexOf_in _ Hok _ Htarget) as [Hti _].
  unfold Ring_Route, buildRing. rewrite decide_False by lia. cbv zeta.
  rewrite !(proj2 (Z.ltb_ge _ _)) by lia.
  change (ringDistance (indexOf rg self) (indexOf rg target) (ring_size rg)) with D.
  destruct (D <=? Fanout r) eqn:E; [apply Z.leb_le in E|apply Z.leb_gt in E].
  { exists target. pose proof (proj2 (dist_0 _ Hok _ _ Htarget Htarget) eq_refl) as E0.
    split_and!; [done|done| |lia|intros; lia].
    apply elem_of_Ring_ShouldConnect; [done|]. split; [done|]. destruct (decide _); [done|]. left.
    apply elem_of_neighbors. exists D. split; [lia|]. left. unfold neighborUp.
    by rewrite (dist_node _ Hok). }
  set (fingers := filter _ _). set (near := neighbors r rg (indexOf rg self)).
  pose proof (best_spec rg target fingers (""%string, ring_size rg)) as (A1 & A2 & A3).
  set (b1 := foldl _ _ fingers) in *.
  pose proof (best_spec rg target near b1) as (B1 & B2 & B3). set (b2 := foldl _ _ near) in *.
  cbn in A1, A3.
  assert (forall i, 0 <= i < numFingers (ring_size rg) -> 2 ^ i <= D -> b2.2 <= D - 2 ^ i) as Hfin.
  { intros i Hi Hp. assert (0 < 2 ^ i) by (apply Z.pow_pos_nonneg; lia).
    pose proof (dist_jump _ Hok self target (2 ^ i) Hself Htarget ltac:(lia)) as Ej.
    transitivity b1.2; [done|]. rewrite <- Ej. rewrite <- (Z.shiftl_1_l i). apply A2. unfold fingers.
    pose proof (finger_in _ Hok self i Hself ltac:(lia)) as Hf.
    apply list_elem_of_filter. split; [by apply (indexOf_nonneg _ Hok)|].
    apply (elem_of_buildFingers _ Hok); [done|]. split; [lia|]. exists i. split_and!; [lia|lia|done|].
    intros Es. unfold finger in Es. rewrite Z.shiftl_1_l in Es. rewrite Es in Ej. lia. }
  assert (1 <= numFingers (ring_size rg)) as Hnf.
  { unfold numFingers. cbn zeta. destruct (_ <? 1) eqn:?; [lia|]. apply Z.ltb_ge. done. }
  pose proof (Hfin 0 ltac:(lia) ltac:(cbn; lia)) as H1. cbn in H1.
  assert (b2.2 = dist rg b2.1 target /\ (b2.1 ∈ fingers \/ b2.1 ∈ near)) as [Ed Hb].
  { destruct B3 as [Eb|[? ?]]; [|auto]. destruct A3 as [Ea|[? ?]]; rewrite ?Eb; [|auto].
    exfalso. rewrite Eb, Ea in H1. cbn in H1. lia. }
  assert (b2.1 ∈ rg_nodes rg) as Hin.
  { destruct Hb as [Hb|Hb]; [|by apply neighbors_in; [lia|]].
    apply list_elem_of_filter in Hb as [Hb _]. by apply (indexOf_nonneg _ Hok). }
  assert (b2.1 <> self) as Hns by (intros Es; rewrite Ed, Es in H1; lia).
  exists b2.1. rewrite bool_decide_false.
  2: { intros Es. apply Hempty. rewrite <- Es. by apply elem_of_ring. }
  split_and!; [done|done| |lia|intros; rewrite <- Ed; by apply Hfin].
  apply elem_of_Ring_ShouldConnect; [done|]. split; [done|]. destruct (decide _); [done|].
  destruct Hb as [Hb|Hb]; [|by left]. apply list_elem_of_filter in Hb as [_ Hb]. by right.
Qed.
End next_hop.

(** ** The laws of topologies *)

Lemma Ring_Route_unknown r self target members :
  target ∉ known self members -> Ring_Route r self target members = None.
Proof.
  intros Ht. unfold Ring_Route, buildRing. destruct (decide _); [done|]. cbv zeta.
  rewrite indexOf_notin by (apply buildRing_ok || by rewrite elem_of_ring). done.
Qed.

Lemma Ring_connect r self members id :
  1 <= Fanout r -> id ∈ Ring_ShouldConnect r self members -> id ∈ node_ids members /\ id <> self.
Proof.
  intros HF H. destruct (decide (size (known self members) < 2)%nat) as [Hs|Hs].
  { unfold Ring_ShouldConnect, buildRing in H. rewrite decide_True in H by done.
    by apply not_elem_of_nil in H. }
  apply elem_of_Ring_ShouldConnect in H as [Hne H]; [|done|lia]. split; [|done].
  assert (id ∈ rg_nodes (buildRingFromNodeSet r (known self members))) as Hin.
  { destruct (decide _); [done|]. destruct H as [H|H].
    - apply (neighbors_in r self members); [lia|done].
    - apply (elem_of_buildFingers _ (buildRing_ok _ _)) in H as (_ & i & Hi & -> & _);
        [|apply self_in_ring]. apply (finger_in _ (buildRing_ok _ _)); [apply self_in_ring|lia]. }
  apply elem_of_ring, elem_of_known in Hin as [?|?]; done.
Qed.

#[export, refine] Instance Ring_laws : TopologyLaws RingTopology := {
  topo_ok r := 1 <= Fanout r;
  topo_dist r S a b := Z.to_nat (dist (buildRingFromNodeSet r S) a b)
}.
Proof.
  - intros r S a b _ Ha Hb. rewrite <- (dist_0 _ (buildRing_ok r S)) by (by apply elem_of_ring_order).
    pose proof (dist_range _ (buildRing_ok r S) a b).
    cbn in *. rewrite !elem_of_ring_order in *. specialize (H Ha Hb). lia.
  - intros r self target members HF He Ht Hne.
    assert (target ∈ rg_nodes (buildRingFromNodeSet r (known self members))) as Ht'.
    { apply elem_of_ring, elem_of_known. auto. }
    destruct (Ring_Route_hop r self target members HF He Ht' Hne) as (hop & E & Hin & Hc & Hd & _).
    exists hop. split_and!; [done|by apply elem_of_ring in Hin|done|].
    pose proof (dist_range _ (buildRing_ok r (known self members)) hop target Hin Ht'). lia.
  - intros r self target members. apply Ring_Route_unknown.
  - intros r self members id HF. by apply Ring_connect.
Defined.

(** ** Paths *)

Section paths.
Context {T : Type} `{TopologyLaws T}.
Variables (t : T) (view : NodeID -> list NodeMeta) (S : gset NodeID) (target : NodeID).
Hypothesis Hok : topo_ok t.
Hypothesis Hempty : ""%string ∉ S.
Hypothesis Htarget : target ∈ S.
Hypothesis Hview : converged view S.

(** A node of a converged cluster has a connected next hop closer to the target. *)
Lemma converged_hop self :
  self ∈ S -> self <> target ->
  exists hop, Route t self target (view self) = Some hop /\ hop ∈ S /\
    hop ∈ ShouldConnect t self (view self) /\
    (topo_dist t S hop target < topo_dist t S self target)%nat.
Proof.
  intros Hs Hne. pose proof (Hview self Hs) as E.
  destruct (topo_route t self target (view self)) as (hop & H1 & H2 & H3 & H4).
  - done.
  - by rewrite E.
  - rewrite <- E in Htarget. apply elem_of_known in Htarget as [?|?]; congruence.
  - congruence.
  - exists hop. rewrite E in H2, H4. done.
Qed.

(** Every hop of a path goes over a connection its sender maintains. *)
Fixpoint connected_path (self : NodeID) (path : list NodeID) : Prop :=
  match path with
  | [] => True
  | hop :: path => hop ∈ ShouldConnect t self (view self) /\ connected_path hop path
  end.

(** A path found with [fuel], from nodes of the cluster. *)
Definition good_path (self : NodeID) (fuel : nat) : Prop :=
  exists path, route_path t view fuel self target = Some path /\ (length path <= fuel)%nat /\
    last (self :: path) = Some target /\ connected_path self path.

Lemma good_path_here fuel : good_path target fuel.
Proof.
  exists []. unfold route_path. destruct fuel; rewrite decide_True by done; (split_and!; [done|cbn; lia|done|done]).
Qed.

Lemma good_path_hop self hop fuel :
  self <> target -> Route t self target (view self) = Some hop ->
  hop ∈ ShouldConnect t self (view self) -> good_path hop fuel -> good_path self (Datatypes.S fuel).
Proof.
  intros Hne Hr Hc (path & E & Hl & Hlast & Hcp). exists (hop :: path). cbn [route_path].
  rewrite decide_False by done. rewrite Hr. cbn. rewrite E. cbn.
  split_and!; [done|lia|exact Hlast|done|done].
Qed.

Lemma path_terminates_aux fuel self :
  self ∈ S -> (topo_dist t S self target <= fuel)%nat -> good_path self fuel.
Proof.
  revert self. induction fuel as [|fuel IH]; intros self Hs Hd.
  - assert (self = target) as -> by (apply (topo_dist_0 t S); (done || lia)). apply good_path_here.
  - destruct (decide (self = target)) as [->|Hne]; [apply good_path_here|].
    destruct (converged_hop self Hs Hne) as (hop & Hr & Hh & Hc & Hlt).
    eapply good_path_hop; [done..|]. apply IH; [done|lia].
Qed.
End paths.

(** ** Logarithmic paths on the ring *)

Section ring_paths.
Variables (r : RingTopology) (view : NodeID -> list NodeMeta) (S : gset NodeID) (target : NodeID).
Hypothesis HF : 1 <= Fanout r.
Hypothesis Hempty : ""%string ∉ S.
Hypothesis Htarget : target ∈ S.
Hypothesis Hview : converged view S.
Abbreviation rgS := (buildRingFromNodeSet r S).
Abbreviation D a := (dist rgS a target).

Lemma ring_hop self :
  self ∈ S -> self <> target ->
  exists hop, Route r self target (view self) = Some hop /\ hop ∈ S /\
    hop ∈ ShouldConnect r self (view self) /\ 0 <= D hop < D self /\ D self < ring_size rgS /\
    (forall i, 0 <= i < numFingers (ring_size rgS) -> 2 ^ i <= D self -> D hop <= D self - 2 ^ i).
Proof.
  intros Hs Hne. pose proof (Hview self Hs) as E.
  destruct (Ring_Route_hop r self target (view self)) as (hop & H1 & H2 & H3 & H4 & H5);
    rewrite ?E; try done; [by apply elem_of_ring_order|].
  rewrite E in H2, H4, H5. exists hop. split_and!; [done|by apply elem_of_ring_order in H2|done|..].
  - by apply dist_range; [apply buildRing_ok| |apply elem_of_ring_order].
  - done.
  - by apply dist_range; [apply buildRing_ok|apply elem_of_ring_order..].
  - intros i Hi Hp. pose proof (dist_range _ (buildRing_ok r S) self target) as Hd.
    cbn [rg_nodes] in Hd. specialize (Hd ltac:(by apply elem_of_ring_order) ltac:(by apply elem_of_ring_order)).
    destruct (decide (2 < ring_size rgS)) as [?|Hn]; [by apply H5|].
    assert (i = 0) as ->.
    { unfold numFingers in Hi. cbn zeta in Hi.
      assert (Z.log2 (ring_size rgS) <= Z.log2 2) as Hl by (apply Z.log2_le_mono; lia).
      change (Z.log2 2) with 1 in Hl. destruct (_ <? 1); lia. }
    cbn. lia.
Qed.

(** A target less than [2^j] away is reached within [j] hops, as long as the
    fingers reach that far. *)
Lemma ring_path_near j self :
  Z.of_nat j <= numFingers (ring_size rgS) -> self ∈ S -> D self < 2 ^ Z.of_nat j ->
  good_path r view target self j.
Proof.
  revert self. induction j as [|j IH]; intros self Hj Hs Hd.
  - assert (self = target) as ->; [|apply good_path_here].
    apply (dist_0 _ (buildRing_ok r S)); try (by apply elem_of_ring_order).
    pose proof (dist_range _ (buildRing_ok r S) self target) as Hr.
    specialize (Hr ltac:(by apply elem_of_ring_order) ltac:(by apply elem_of_ring_order)).
    cbn in Hd. lia.
  - destruct (decide (self = target)) as [->|Hne]; [apply good_path_here|].
    destruct (ring_hop self Hs Hne) as (hop & Hr & Hh & Hc & Hlt & _ & Hf).
    eapply good_path_hop; [done..|]. apply IH; [lia|done|].
    rewrite Nat2Z.inj_succ, Z.pow_succ_r in Hd by lia.
    destruct (decide (2 ^ Z.of_nat j <= D self)) as [Hp|Hp]; [|lia].
    specialize (Hf (Z.of_nat j) ltac:(lia) Hp). lia.
Qed.

(** One hop in the far half of the ring. *)
Lemma ring_path_far fuel c self :
  self ∈ S -> 0 <= c -> D self < (c + 1) * 2 ^ (numFingers (ring_size rgS) - 1) ->
  1 <= numFingers (ring_size rgS) -> 2 <= c ->
  (forall hop, hop ∈ S -> D hop < c * 2 ^ (numFingers (ring_size rgS) - 1) ->
     good_path r view target hop fuel) ->
  good_path r view target self (Datatypes.S fuel).
Proof.
  intros Hs Hc0 Hd Hn Hc IH.
  destruct (decide (self = target)) as [->|Hne]; [apply good_path_here|].
  destruct (ring_hop self Hs Hne) as (hop & Hr & Hh & Hco & Hlt & _ & Hf).
  eapply good_path_hop; [done..|]. apply IH; [done|].
  set (w := 2 ^ _) in *. assert (0 < w) by (apply Z.pow_pos_nonneg; lia).
  destruct (decide (w <= D self)) as [Hp|Hp]; [|nia].
  specialize (Hf (numFingers (ring_size rgS) - 1) ltac:(lia) Hp). fold w in Hf. nia.
Qed.

(** Every path takes at most [log2 n + 2] hops, [n] being the number of nodes. *)
Lemma ring_path_logarithmic self :
  self ∈ S -> good_path r view target self (Z.to_nat (Z.log2 (Z.of_nat (size S))) + 2).
Proof.
  intros Hs. assert (ring_size rgS = Z.of_nat (size S)) as En.
  { unfold ring_size. cbn. by rewrite length_ring_order. }
  assert (D self < ring_size rgS) as Hd.
  { apply dist_range; [apply buildRing_ok|by apply elem_of_ring_order..]. }
  destruct (decide (self = target)) as [->|Hne]; [apply good_path_here|].
  destruct (ring_hop self Hs Hne) as (h & _ & _ & _ & Hlt & _ & _).
  rewrite <- En. set (n := ring_size rgS) in *.
  assert (1 <= Z.log2 n) as Hl by (change 1 with (Z.log2 2); apply Z.log2_le_mono; lia).
  assert (numFingers n = Z.log2 n) as Hnf.
  { unfold numFingers. cbn zeta. by rewrite (proj2 (Z.ltb_ge _ _)). }
  destruct (Z.log2_spec n ltac:(lia)) as [_ Hn]. rewrite Z.pow_succ_r in Hn by lia.
  assert (2 ^ Z.log2 n = 2 * 2 ^ (Z.log2 n - 1)) as Hw.
  { rewrite <- Z.pow_succ_r by lia. f_equal. lia. }
  rewrite Nat.add_comm. change (2 + Z.to_nat (Z.log2 n))%nat with (Datatypes.S (Datatypes.S (Z.to_nat (Z.log2 n)))).
  apply (ring_path_far _ 3); fold n; rewrite ?Hnf; [done|lia|lia|lia|lia|]. intros h1 Hh1 Hd1.
  apply (ring_path_far _ 2); fold n; rewrite ?Hnf; [done|lia|lia|lia|lia|]. intros h2 Hh2 Hd2.
  apply ring_path_near; fold n; [|done|]; rewrite Z2Nat.id; lia.
Qed.
End ring_paths.

(** C19: on a ring whose nodes know the same members, following next hops from any
    node reaches any other within [log2 n + 2] hops for [n] nodes, each hop over
    a connection that the topology tells its sender to maintain. *)
Theorem ring_routes_are_logarithmic (r : RingTopology) (view : NodeID -> list NodeMeta) (S : gset NodeID)
    (self target : NodeID) :
  1 <= Fanout r -> ""%string ∉ S -> converged view S -> self ∈ S -> target ∈ S ->
  exists path, route_path r view (Z.to_nat (Z.log2 (Z.of_nat (size S))) + 2) self target = Some path /\
    (length path <= Z.to_nat (Z.log2 (Z.of_nat (size S))) + 2)%nat /\
    last (self :: path) = Some target /\ connected_path r view self path.
Proof. intros. by apply ring_path_logarithmic. Qed.

Definition example_members : list NodeMeta :=
  (fun id => mkNodeMeta id "" ∅ 0) <$> ["a"; "b"; "c"; "d"; "e"]%string.

Lemma ring_routes_are_logarithmic_witness :
  exists path, route_path (NewRingTopology 1 1) (fun _ => example_members) 4 "a" "d" = Some path /\
    (length path <= 4)%nat /\ last ("a"%string :: path) = Some "d"%string /\
    connected_path (NewRingTopology 1 1) (fun _ => example_members) "a" path.
Proof.
  apply (ring_routes_are_logarithmic (NewRingTopology 1 1) (fun _ => example_members)
    (node_ids example_members) "a" "d").
  - vm_compute. discriminate.
  - apply (bool_decide_unpack _). vm_compute. exact I.
  - intros a Ha. unfold known. apply (subseteq_union_1_L {[a]} (node_ids example_members)).
    by apply singleton_subseteq_l.
  - apply (bool_decide_unpack _). vm_compute. exact I.
  - apply (bool_decide_unpack _). vm_compute. exact I.
Defined.
