(* ===== verification/Placement.v ===== *)
(** * Placement of keys on nodes ([Responsible] of both topologies)

    Both topologies order the nodes for each key, by position clockwise from
    the key's hash or by the hash of key and node together, and take the first
    ones.  The order of the remaining nodes does not change when a node leaves:
    this is what [PlacementLaws] states, and what bounds how much data moves. *)

From S2P Require Import Prelude Fnv GoSort Nodes Topology.

Class PlacementLaws (T : Type) `{Topology T} := {
  place_ok : T -> string -> gset NodeID -> Prop;
  place_order : T -> string -> gset NodeID -> list NodeID;
  place_ok_sub t key S S' : S' ⊆ S -> place_ok t key S -> place_ok t key S';
  place_order_perm t key S : place_ok t key S -> place_order t key S ≡ₚ elements S;
  place_order_remove t key S m :
    place_ok t key S -> place_order t key (S ∖ {[m]}) = filter (fun x => x <> m) (place_order t key S);
  responsible_order t key members k :
    place_ok t key (node_ids members) -> NoDup (nm_ID <$> members) ->
    Responsible t key members k = take (Z.to_nat (Z.max 1 k)) (place_order t key (node_ids members))
}.

(** ** Lists *)

Lemma elements_remove (S : gset NodeID) m :
  elements (S ∖ {[m]}) ≡ₚ filter (fun x => x <> m) (elements S).
Proof.
  apply NoDup_Permutation; [apply NoDup_elements|apply NoDup_filter, NoDup_elements|].
  intros x. rewrite list_elem_of_filter, !elem_of_elements. set_solver.
Qed.

Lemma filter_bind {A B} (P : A -> Prop) (Q : B -> Prop) `{forall x, Decision (P x)}
    `{forall x, Decision (Q x)} (f : A -> list B) l :
  (forall a b, b ∈ f a -> Q b <-> P a) -> filter Q (l ≫= f) = filter P l ≫= f.
Proof.
  intros Hf. induction l as [|a l IH]; [done|].
  change ((a :: l) ≫= f) with (f a ++ (l ≫= f)). rewrite filter_app, IH, filter_cons.
  destruct (decide (P a)) as [Ha|Ha].
  - rewrite filter_all; [done|]. intros b Hb. by apply (Hf a b).
  - destruct (filter Q (f a)) as [|b bs] eqn:E; [done|]. exfalso.
    assert (b ∈ filter Q (f a)) as Hb by (rewrite E; left).
    apply list_elem_of_filter in Hb as [Hq Hb]. by apply Ha, (Hf a b).
Qed.

Lemma filter_out {A} (P : A -> Prop) `{forall x, Decision (P x)} l :
  (forall x, x ∈ l -> ~ P x) -> filter P l = [].
Proof.
  intros Hl. destruct (filter P l) as [|x xs] eqn:E; [done|]. exfalso.
  assert (x ∈ filter P l) as Hx by (rewrite E; left). apply list_elem_of_filter in Hx as [? Hx].
  by apply (Hl x).
Qed.

(** Dropping one element from a prefix. *)
Lemma take_filter_ne (m : NodeID) k l :
  NoDup l -> take k (filter (fun x => x <> m) l) = take k (filter (fun x => x <> m) (take (S k) l)).
Proof.
  intros Hn. revert k. induction Hn as [|x l Hx Hn IH]; intros k; [done|].
  cbn [take]. rewrite !filter_cons. destruct (decide (x <> m)) as [Hm|Hm].
  - destruct k as [|k]; [done|]. cbn [take]. by rewrite (IH k).
  - apply dec_stable in Hm as ->.
    rewrite !filter_all; [by rewrite take_take, Nat.min_id|..].
    + intros y Hy ->. apply Hx. rewrite <- (take_drop k l). apply elem_of_app. by left.
    + intros y Hy ->. done.
Qed.

(** Taking from a list without [m] keeps the others taken before, and adds at most
    one element. *)
Lemma take_without (m : NodeID) k l :
  NoDup l -> exists new, (length new <= 1)%nat /\
    take k (filter (fun x => x <> m) l) = filter (fun x => x <> m) (take k l) ++ new.
Proof.
  intros Hn. rewrite (take_filter_ne m k l Hn).
  assert (forall l', NoDup l' -> (length l' <= S (length (filter (fun x => x <> m) l')))%nat) as Hlen.
  { intros l'. induction 1 as [|x l' Hx Hl IH]; [cbn; lia|]. rewrite filter_cons.
    destruct (decide (x <> m)) as [?|E]; [cbn [length]; lia|]. apply dec_stable in E as ->.
    rewrite filter_all; [cbn [length]; lia|]. intros y Hy ->. done. }
  destruct (decide (k < length l)%nat) as [Hk|Hk].
  - destruct (lookup_lt_is_Some_2 l k Hk) as [z Hz]. rewrite (take_S_r _ _ _ Hz), filter_app, take_app.
    assert (length (take k l) = k) as Ek by (rewrite length_take; lia).
    assert (length (filter (fun x => x <> m) (take k l)) <= k)%nat as Hf.
    { etransitivity; [apply length_filter|]. lia. }
    rewrite (take_ge (filter _ _)) by done. eexists. split; [|done].
    rewrite length_take, filter_cons, filter_nil. destruct (decide _); cbn; lia.
  - exists []. rewrite app_nil_r, !(take_ge l) by lia. split; [cbn; lia|]. apply take_ge.
    etransitivity; [apply length_filter|]. lia.
Qed.

Lemma dedup_seen seen seen' l :
  (forall x, x ∈ l -> x ∈ seen <-> x ∈ seen') -> dedupNodes_loop seen l = dedupNodes_loop seen' l.
Proof.
  revert seen seen'. induction l as [|x l IH]; intros seen seen' Hs; [done|]. cbn [dedupNodes_loop].
  pose proof (Hs x ltac:(left)) as Hx.
  destruct (decide (x ∈ seen)), (decide (x ∈ seen')); try tauto.
  - apply IH. intros y Hy. apply Hs. by right.
  - f_equal. apply IH. intros y Hy. rewrite !elem_of_union, (Hs y) by (by right). done.
Qed.

Lemma dedup_filter (m : NodeID) seen l :
  filter (fun x => x <> m) (dedupNodes_loop seen l) = dedupNodes_loop seen (filter (fun x => x <> m) l).
Proof.
  revert seen. induction l as [|x l IH]; intros seen; [done|]. cbn [dedupNodes_loop].
  rewrite filter_cons. destruct (decide (x <> m)) as [Hm|Hm].
  - cbn [dedupNodes_loop]. destruct (decide (x ∈ seen)); [apply IH|].
    rewrite filter_cons, decide_True by done. by rewrite IH.
  - destruct (decide (x ∈ seen)); [apply IH|].
    rewrite filter_cons, decide_False by done. rewrite IH. apply dedup_seen.
    intros y [Hy _]%list_elem_of_filter. apply dec_stable in Hm. subst. set_solver.
Qed.

Lemma NoDup_dedup seen l : NoDup (dedupNodes_loop seen l) /\ (forall x, x ∈ dedupNodes_loop seen l -> x ∉ seen).
Proof.
  revert seen. induction l as [|x l IH]; intros seen; cbn [dedupNodes_loop].
  { split; [constructor|]. intros x Hx. by apply not_elem_of_nil in Hx. }
  destruct (decide (x ∈ seen)); [apply IH|]. destruct (IH ({[x]} ∪ seen)) as [H1 H2]. split.
  - apply NoDup_cons. split; [|done]. intros Hx. apply H2 in Hx. set_solver.
  - intros y [->|Hy]%elem_of_cons; [done|]. apply H2 in Hy. set_solver.
Qed.

Lemma walk_is_dedup seen k ps : walk_clockwise seen k ps = take k (dedupNodes_loop seen (vp_node <$> ps)).
Proof.
  revert seen k. induction ps as [|p ps IH]; intros seen k; cbn; [by destruct k|].
  destruct k as [|k]; [done|]. destruct (decide _); [by rewrite IH|]. cbn. by rewrite IH.
Qed.

(** ** The order by the hash of key and node *)

Definition hash_order (key : string) (S : gset NodeID) : list NodeID :=
  sort_by (hashPair key) (elements S).

(** The nodes hash to different values under the key. *)
Definition hashes_distinct (key : string) (S : gset NodeID) : Prop :=
  keys_distinct (hashPair key) (elements S).

Lemma hashes_distinct_sub key S S' : S' ⊆ S -> hashes_distinct key S -> hashes_distinct key S'.
Proof. intros Hs. apply keys_distinct_sub. intros a. rewrite !elem_of_elements. set_solver. Qed.

Lemma hash_order_remove key S m :
  hashes_distinct key S -> hash_order key (S ∖ {[m]}) = filter (fun x => x <> m) (hash_order key S).
Proof.
  intros Hd. unfold hash_order. rewrite filter_sort_by by done. apply sort_by_perm_eq.
  - eapply keys_distinct_sub; [|exact Hd]. intros a [_ Ha]%list_elem_of_filter. done.
  - apply elements_remove.
Qed.

#[export, refine] Instance FullMesh_placement : PlacementLaws FullMeshTopology := {
  place_ok _ key S := hashes_distinct key S;
  place_order _ key S := hash_order key S
}.
Proof.
  - intros t key S S'. apply hashes_distinct_sub.
  - intros t key S _. apply sort_by_perm.
  - intros t key S m. apply hash_order_remove.
  - intros t key members k Hd Hn. cbn. unfold FullMesh_Responsible. cbn zeta.
    assert ((nm_ID <$> members) ≡ₚ elements (node_ids members)) as Hp.
    { unfold node_ids. symmetry. by apply elements_list_to_set. }
    rewrite (sort_by_perm_eq (hashPair key) (elements (node_ids members))) by done.
    change (sort_by _ _) with (hash_order key (node_ids members)).
    set (l := hash_order _ _). destruct (k <=? 0) eqn:Ek; [apply Z.leb_le in Ek|apply Z.leb_gt in Ek];
      destruct (_ <? _) eqn:E; (apply Z.ltb_lt in E || apply Z.ltb_ge in E).
    + rewrite !take_ge by lia. done.
    + by replace (Z.max 1 k) with 1 by lia.
    + rewrite !take_ge by lia. done.
    + by replace (Z.max 1 k) with k by lia.
Defined.

(** ** The order around the ring *)

Definition ring_positions (r : RingTopology) (S : gset NodeID) : list vnodePos :=
  sort_by vp_hash (elements S ≫= vnodes_of r).

(** Positions from a hash on, then those before it. *)
Definition clockwise (h : Z) (ps : list vnodePos) : list vnodePos :=
  filter (fun p => h <= vp_hash p) ps ++ filter (fun p => vp_hash p < h) ps.

Definition clockwise_order (r : RingTopology) (key : string) (S : gset NodeID) : list NodeID :=
  dedupNodes (vp_node <$> clockwise (fnv64a key) (ring_positions r S)).

(** Every node has a position and no two positions coincide. *)
Definition positions_distinct (r : RingTopology) (S : gset NodeID) : Prop :=
  1 <= VNodes r /\ keys_distinct vp_hash (elements S ≫= vnodes_of r).

(** Then the ring does not depend on the order in which a node lists the others
    and breaks ties. *)
Theorem ring_of_any_order r o1 o2 S : positions_distinct r S -> buildRingOrdered r o1 o2 S = buildRingFromNodeSet r S.
Proof.
  intros [Hv Hd]. unfold buildRingOrdered, buildRingFromNodeSet, ring_order. rewrite (sort_slice_distinct vp_hash o1 _ Hd).
  rewrite sort_slice_distinct; [done|]. intros a b Ha Hb E.
  assert (forall x, x ∈ elements S -> mkVnodePos (hashVNode x 0) x ∈ elements S ≫= vnodes_of r) as H.
  { intros x Hx. apply list_elem_of_bind. exists x. split; [|done]. unfold vnodes_of. apply list_elem_of_fmap.
    exists 0. split; [done|]. apply elem_of_seqZ. lia. }
  specialize (Hd _ _ (H a Ha) (H b Hb) E). congruence.
Qed.

Lemma ring_positions_remove r S m :
  positions_distinct r S ->
  ring_positions r (S ∖ {[m]}) = filter (fun p => vp_node p <> m) (ring_positions r S).
Proof.
  intros [_ Hd]. unfold ring_positions. rewrite filter_sort_by by done. apply sort_by_perm_eq.
  - eapply keys_distinct_sub; [|exact Hd]. intros a [_ Ha]%list_elem_of_filter. done.
  - rewrite (filter_bind (fun x => x <> m) (fun p => vp_node p <> m)).
    + by rewrite elements_remove.
    + intros a b Hb. unfold vnodes_of in Hb. apply list_elem_of_fmap in Hb as (v & -> & _). done.
Qed.

Lemma filter_fmap_node m (ps : list vnodePos) :
  vp_node <$> filter (fun p => vp_node p <> m) ps = filter (fun x => x <> m) (vp_node <$> ps).
Proof.
  induction ps as [|p ps IH]; [done|]. rewrite fmap_cons, !filter_cons.
  destruct (decide _); cbn; by rewrite IH.
Qed.

Lemma clockwise_filter h m ps :
  clockwise h (filter (fun p => vp_node p <> m) ps) = filter (fun p => vp_node p <> m) (clockwise h ps).
Proof. unfold clockwise. rewrite filter_app. f_equal; apply filter_comm. Qed.

Lemma clockwise_order_remove r key S m :
  positions_distinct r S ->
  clockwise_order r key (S ∖ {[m]}) = filter (fun x => x <> m) (clockwise_order r key S).
Proof.
  intros Hd. unfold clockwise_order, dedupNodes.
  by rewrite ring_positions_remove, clockwise_filter, filter_fmap_node, dedup_filter.
Qed.

Lemma elem_of_clockwise h p ps : p ∈ clockwise h ps <-> p ∈ ps.
Proof.
  unfold clockwise. rewrite elem_of_app, !list_elem_of_filter. split; [tauto|].
  intros Hp. destruct (decide (h <= vp_hash p)); [auto|]. right. split; [lia|done].
Qed.

Lemma elem_of_ring_positions r S p :
  p ∈ ring_positions r S <-> vp_node p ∈ S /\ p ∈ vnodes_of r (vp_node p).
Proof.
  unfold ring_positions. rewrite elem_of_sort_by, list_elem_of_bind. split.
  - intros (id & Hp & Hid). assert (vp_node p = id) as ->.
    { unfold vnodes_of in Hp. by apply list_elem_of_fmap in Hp as (v & -> & _). }
    by rewrite elem_of_elements in Hid.
  - intros [HS Hp]. exists (vp_node p). by rewrite elem_of_elements.
Qed.

Lemma clockwise_order_perm r key S : positions_distinct r S -> clockwise_order r key S ≡ₚ elements S.
Proof.
  intros [Hv _]. apply NoDup_Permutation; [apply NoDup_dedup|apply NoDup_elements|]. intros x.
  unfold clockwise_order. rewrite elem_of_elements.
  assert (forall l, x ∈ dedupNodes l <-> x ∈ l) as ->.
  { unfold dedupNodes. generalize (∅ : gset NodeID) (not_elem_of_empty (C:=gset NodeID) x).
    intros seen Hs l. revert seen Hs. induction l as [|y l IH]; intros seen Hs; [done|].
    cbn [dedupNodes_loop]. rewrite elem_of_cons. destruct (decide (y ∈ seen)) as [Hy|Hy].
    - rewrite IH by done. split; [auto|]. intros [->|?]; done.
    - rewrite elem_of_cons. destruct (decide (x = y)) as [->|Hne]; [tauto|].
      rewrite IH by set_solver. tauto. }
  rewrite list_elem_of_fmap. split.
  - intros (p & -> & Hp). by apply elem_of_clockwise, elem_of_ring_positions in Hp as [? _].
  - intros Hx. exists (mkVnodePos (hashVNode x 0) x). split; [done|].
    apply elem_of_clockwise, elem_of_ring_positions. split; [done|]. unfold vnodes_of.
    apply list_elem_of_fmap. exists 0. split; [done|]. apply elem_of_seqZ. lia.
Qed.

(** The binary search finds where the clockwise walk starts. *)
Lemma rotate_is_clockwise h ps :
  StronglySorted (key_le vp_hash) ps ->
  let idx := search (fun i => match ps !! i with Some p => h <=? vp_hash p | None => true end)
               (length ps) in
  rotate_at (if (length ps <=? idx)%nat then 0%nat else idx) ps = clockwise h ps.
Proof.
  intros Hs idx.
  destruct (search_spec (fun i => match ps !! i with Some p => h <=? vp_hash p | None => true end)
    (length ps)) as (Hle & Hlo & Hhi).
  { intros a b Hab Ha. destruct (ps !! b) as [q|] eqn:Eb; [|done]. destruct (ps !! a) as [p|] eqn:Ea.
    - apply Z.leb_le in Ha. apply Z.leb_le.
      destruct (decide (a = b)) as [->|Hne]; [by simplify_eq|].
      assert (key_le vp_hash p q) as Hk; [|unfold key_le in Hk; lia].
      rewrite <- (take_drop b ps) in Hs. eapply StronglySorted_app_1_elem_of; [exact Hs|..].
      + apply list_elem_of_lookup_2 with a. rewrite lookup_take_lt by lia. done.
      + apply list_elem_of_lookup_2 with 0%nat. rewrite lookup_drop, Nat.add_0_r. done.
    - apply lookup_ge_None in Ea. apply lookup_lt_Some in Eb. lia. }
  fold idx in Hle, Hlo, Hhi.
  assert (clockwise h ps = drop idx ps ++ take idx ps) as ->.
  { assert (forall p, p ∈ take idx ps -> vp_hash p < h) as Ht.
    { intros p [i Hi]%list_elem_of_lookup. apply lookup_take_Some in Hi as [Hi Hlt].
      specialize (Hlo i Hlt). rewrite Hi in Hlo. by apply Z.leb_gt in Hlo. }
    assert (forall p, p ∈ drop idx ps -> h <= vp_hash p) as Hd.
    { intros p [i Hi]%list_elem_of_lookup. rewrite lookup_drop in Hi.
      pose proof (lookup_lt_Some _ _ _ Hi). specialize (Hhi (idx + i)%nat ltac:(lia)).
      rewrite Hi in Hhi. by apply Z.leb_le in Hhi. }
    rewrite <- (take_drop idx ps) at 1. unfold clockwise. rewrite !filter_app.
    rewrite (filter_out (fun p => h <= vp_hash p) (take idx ps)) by (intros p Hp; specialize (Ht p Hp); lia).
    rewrite (filter_out (fun p => vp_hash p < h) (drop idx ps)) by (intros p Hp; specialize (Hd p Hp); lia).
    rewrite !filter_all by done. by rewrite app_nil_r. }
  unfold rotate_at. destruct (_ <=? _)%nat eqn:E; [|done]. apply Nat.leb_le in E.
  rewrite (drop_ge ps idx), (take_ge ps idx) by lia. cbn. by rewrite drop_0, app_nil_r.
Qed.

#[export, refine] Instance Ring_placement : PlacementLaws RingTopology := {
  place_ok r _ S := positions_distinct r S;
  place_order r key S := clockwise_order r key S
}.
Proof.
  - intros r _ S S' Hs [Hv Hd]. split; [done|]. eapply keys_distinct_sub; [|exact Hd]. intros p.
    rewrite !list_elem_of_bind. intros (x & ? & Hx). exists x. split; [done|].
    rewrite elem_of_elements in *. set_solver.
  - intros r key S. apply clockwise_order_perm.
  - intros r key S m. apply clockwise_order_remove.
  - intros r key members k Hd _. cbn. unfold Ring_Responsible. cbn zeta.
    assert ((if k <=? 0 then 1 else k) = Z.max 1 k) as ->.
    { destruct (k <=? 0) eqn:E; (apply Z.leb_le in E || apply Z.leb_gt in E); lia. }
    destruct (decide (members = [])) as [->|_].
    + unfold clockwise_order. change (ring_positions r (node_ids [])) with ([] : list vnodePos).
      cbn. by rewrite take_nil.
    + unfold buildRingFromMembers, buildRingFromNodeSet. cbn [rg_positions].
      rewrite rotate_is_clockwise by apply sort_by_sorted. apply walk_is_dedup.
Defined.

(** ** What placement guarantees *)

Section placement.
Context {T : Type} `{PlacementLaws T}.
Variables (t : T) (key : string).

(** The responsible nodes are distinct members, as many as asked for while
    there are enough of them. *)
Lemma responsible_members members k :
  place_ok t key (node_ids members) -> NoDup (nm_ID <$> members) ->
  let out := Responsible t key members k in
  NoDup out /\ (forall x, x ∈ out -> x ∈ node_ids members) /\
  length out = Nat.min (Z.to_nat (Z.max 1 k)) (length members).
Proof.
  intros Hok Hn out. unfold out. rewrite responsible_order by done.
  pose proof (place_order_perm t key _ Hok) as Hp. split_and!.
  - eapply sublist_NoDup; [|apply sublist_take]. rewrite Hp. apply NoDup_elements.
  - intros x Hx. apply elem_of_elements. rewrite <- Hp, <- (take_drop (Z.to_nat (Z.max 1 k))). apply elem_of_app. by left.
  - rewrite length_take, Hp. f_equal. unfold node_ids.
    rewrite (Permutation_length (elements_list_to_set _ Hn)). apply length_fmap.
Qed.

Lemma responsible_leave members members' m k :
  place_ok t key (node_ids members) -> NoDup (nm_ID <$> members) -> NoDup (nm_ID <$> members') ->
  node_ids members' = node_ids members ∖ {[m]} ->
  exists new, (length new <= 1)%nat /\
    Responsible t key members' k = filter (fun x => x <> m) (Responsible t key members k) ++ new.
Proof.
  intros Hok Hn Hn' E. assert (place_ok t key (node_ids members')) as Hok'.
  { eapply place_ok_sub; [|exact Hok]. set_solver. }
  rewrite !responsible_order by done. rewrite E, place_order_remove by done.
  apply take_without. rewrite place_order_perm by done. apply NoDup_elements.
Qed.
End placement.

(** C25: when a node leaves, the ring moves no more data than it has to: the nodes
    responsible for a key are the ones before without the departed node, in the
    same order, followed by at most one new node. *)
Theorem ring_rebalance_is_minimal (r : RingTopology) (key : string) (members members' : list NodeMeta)
    (m : NodeID) (k : Z) :
  positions_distinct r (node_ids members) -> NoDup (nm_ID <$> members) -> NoDup (nm_ID <$> members') ->
  node_ids members' = node_ids members ∖ {[m]} ->
  exists new, (length new <= 1)%nat /\
    Ring_Responsible r key members' k = filter (fun x => x <> m) (Ring_Responsible r key members k) ++ new.
Proof. exact (responsible_leave r key members members' m k). Qed.

Definition placed_nodes (ids : list NodeID) : list NodeMeta := (fun id => mkNodeMeta id "" ∅ 0) <$> ids.

Lemma ring_rebalance_is_minimal_witness :
  exists new, (length new <= 1)%nat /\
    Ring_Responsible (NewRingTopology 1 2) "user:7" (placed_nodes ["a"; "c"; "d"]) 2 =
    filter (fun x => x <> "b"%string)
      (Ring_Responsible (NewRingTopology 1 2) "user:7" (placed_nodes ["a"; "b"; "c"; "d"]) 2) ++ new.
Proof.
  apply (ring_rebalance_is_minimal (NewRingTopology 1 2) "user:7" (placed_nodes ["a"; "b"; "c"; "d"])).
  - split; [vm_compute; discriminate|]. apply keys_distinct_NoDup. apply (bool_decide_unpack _). vm_compute. exact I.
  - apply (bool_decide_unpack _). vm_compute. exact I.
  - apply (bool_decide_unpack _). vm_compute. exact I.
  - apply (bool_decide_unpack _). vm_compute. exact I.
Defined.
