(* ===== verification/Election.v ===== *)
(** * Leader election ([cluster/election.go], [cluster/election_ring.go])

    The leader of a scope is a member with the least hash of scope and identity,
    so nodes that know the same members agree without voting - unless two members
    have that hash.  The code lists the members of a map, in an order the Go
    runtime chooses anew each time, and sorts them by hash with an unstable sort
    and no tie-break.  An election therefore carries, for each scope, the choices
    that the next computations of its leader will make ([el_orders]); they are
    arbitrary, and other on other nodes.  A scope's state is created on first
    use; every change of its leader increments its term and is offered to its
    watchers, whose channels hold four events. *)

From S2P Require Import Prelude Fnv GoSort Nodes Topology Placement.

Record LeaderEvent := mkLeaderEvent {
  le_Scope : string;
  le_Leader : NodeID;
  le_PrevLeader : NodeID;
  le_Term : Z
}.

(** A watcher is the content of its channel. *)
Record electionScope := mkElectionScope {
  es_leader : NodeID;
  es_term : Z;
  es_watchers : list (list LeaderEvent)
}.

(** [el_orders]: for each scope the arrangements of the members that the next
    computations of its leader sort them into; zero after those. *)
Record RingElection := mkRingElection {
  el_localID : NodeID;
  el_members : gset NodeID;
  el_scopes : gmap string electionScope;
  el_orders : gmap string (list nat)
}.

Definition NewRingElection (orders : gmap string (list nat)) (localID : NodeID) : RingElection :=
  mkRingElection localID {[localID]} ∅ orders.

Definition set_scope (scope : string) (s : electionScope) (e : RingElection) : RingElection :=
  mkRingElection (el_localID e) (el_members e) (<[scope := s]> (el_scopes e)) (el_orders e).

(** The next choice for a scope, and the election once it was made. *)
Definition next_order (scope : string) (e : RingElection) : nat := hd 0%nat (default [] (el_orders e !! scope)).

Definition use_order (scope : string) (e : RingElection) : RingElection :=
  mkRingElection (el_localID e) (el_members e) (el_scopes e) (alter tail scope (el_orders e)).

(** [computeLeader]: the first of the candidates sorted by hash, in the [o]-th
    arrangement that sorting may give. *)
Definition computeLeader (o : nat) (scope : string) (members : gset NodeID) : NodeID :=
  if decide (size members = 0%nat) then ""%string
  else match sort_slice (hashPair scope) o (elements members) with id :: _ => id | [] => ""%string end.

(** [select { case ch <- ev: default: }] on a channel of capacity four. *)
Definition offer (ev : LeaderEvent) (ch : list LeaderEvent) : list LeaderEvent :=
  if (length ch <? 4)%nat then ch ++ [ev] else ch.

Definition notifyWatchersLocked (s : electionScope) (ev : LeaderEvent) : electionScope :=
  mkElectionScope (es_leader s) (es_term s) (offer ev <$> es_watchers s).

Definition ensureScopeLocked (scope : string) (e : RingElection) : RingElection * electionScope :=
  match el_scopes e !! scope with
  | Some s => (e, s)
  | None =>
      let s := mkElectionScope (computeLeader (next_order scope e) scope (el_members e)) 1 [] in
      (set_scope scope s (use_order scope e), s)
  end.

Definition Leader (scope : string) (e : RingElection) : RingElection * option NodeID :=
  let '(e, s) := ensureScopeLocked scope e in
  (e, if bool_decide (es_leader s = ""%string) then None else Some (es_leader s)).

Definition IsLeader (scope : string) (e : RingElection) : RingElection * bool :=
  let '(e, l) := Leader scope e in (e, bool_decide (l = Some (el_localID e))).

Definition Term (scope : string) (e : RingElection) : Z :=
  match el_scopes e !! scope with Some s => es_term s | None => 0 end.

(** [Watch]: the new channel is the last watcher of the scope. *)
Definition Watch (scope : string) (e : RingElection) : RingElection :=
  let '(e, s) := ensureScopeLocked scope e in
  let ch :=
    if bool_decide (es_leader s <> ""%string)
    then offer (mkLeaderEvent scope (es_leader s) "" (es_term s)) [] else [] in
  set_scope scope (mkElectionScope (es_leader s) (es_term s) (es_watchers s ++ [ch])) e.

(** Receiving the next event of a watcher. *)
Definition receive (scope : string) (w : nat) (e : RingElection) : RingElection * option LeaderEvent :=
  match el_scopes e !! scope with
  | None => (e, None)
  | Some s =>
      match es_watchers s !! w with
      | Some (ev :: ch) =>
          (set_scope scope (mkElectionScope (es_leader s) (es_term s) (<[w := ch]> (es_watchers s))) e,
           Some ev)
      | _ => (e, None)
      end
  end.

(** One scope when the members have become [members]. *)
Definition recompute (o : nat) (members : gset NodeID) (scope : string) (s : electionScope) : electionScope :=
  let newLeader := computeLeader o scope members in
  if bool_decide (newLeader <> es_leader s) then
    let term := u64_succ (es_term s) in
    notifyWatchersLocked (mkElectionScope newLeader term (es_watchers s))
      (mkLeaderEvent scope newLeader (es_leader s) term)
  else s.

Definition recomputeAll (members : gset NodeID) (e : RingElection) : RingElection :=
  mkRingElection (el_localID e) members
    (map_imap (fun scope s => Some (recompute (next_order scope e) members scope s)) (el_scopes e))
    (map_imap (fun scope os => Some (if decide (is_Some (el_scopes e !! scope)) then tail os else os)) (el_orders e)).

Definition membersAfter (ev : MemberEvent) (members : gset NodeID) : gset NodeID :=
  match me_Type ev with
  | MemberJoin | MemberUpdated => {[nm_ID (me_Member ev)]} ∪ members
  | MemberLeave | MemberFailed => members ∖ {[nm_ID (me_Member ev)]}
  end.

Definition OnMembershipChange (ev : MemberEvent) (e : RingElection) : RingElection :=
  recomputeAll (membersAfter ev (el_members e)) e.

Definition SetMembers (members : list NodeMeta) (e : RingElection) : RingElection :=
  recomputeAll ({[el_localID e]} ∪ node_ids members) e.

Definition memberCount (e : RingElection) : Z := Z.of_nat (size (el_members e)).

(** The choice [o] of the two queries below is the caller's. *)
Definition leaderExcluding (o : nat) (scope : string) (exclude : NodeID) (e : RingElection) : NodeID :=
  computeLeader o scope (el_members e ∖ {[exclude]}).

Definition LeaderAmong (o : nat) (scope : string) (matcher : option NodeMatcher) (allMembers : list NodeMeta) :
    option NodeID :=
  match FilterNodes allMembers matcher with
  | [] => None
  | candidates => Some (computeLeader o scope (node_ids candidates))
  end.

(** ** The computed leader *)

Lemma computeLeader_least o scope members :
  members <> ∅ ->
  computeLeader o scope members ∈ members /\
  forall b, b ∈ members -> hashPair scope (computeLeader o scope members) <= hashPair scope b.
Proof.
  intros Hne. unfold computeLeader.
  rewrite decide_False by (intros H; by apply Hne, leibniz_equiv, size_empty_iff).
  pose proof (sort_slice_perm (hashPair scope) o (elements members)) as Hp.
  pose proof (sort_slice_sorted (hashPair scope) o (elements members)) as Hs.
  destruct (sort_slice _ o _) as [|id l].
  - exfalso. apply Hne, leibniz_equiv, elements_empty_iff. by apply Permutation_nil_l in Hp as ->.
  - split; [apply elem_of_elements; rewrite <- Hp; left|].
    intros b Hb. eapply sorted_head; [exact Hs|]. rewrite Hp. by apply elem_of_elements.
Qed.

(** [id] may be the leader: a member with the least hash, or nobody's name when
    there is no member. *)
Definition elected (scope : string) (members : gset NodeID) (id : NodeID) : Prop :=
  (members = ∅ /\ id = ""%string) \/
  (id ∈ members /\ forall b, b ∈ members -> hashPair scope id <= hashPair scope b).

Lemma computeLeader_elected o scope members : elected scope members (computeLeader o scope members).
Proof.
  destruct (decide (members = ∅)) as [->|Hne]; [left|right; by apply computeLeader_least].
  split; [done|]. by unfold computeLeader; rewrite decide_True.
Qed.

(** Every member with the least hash is the leader for some choice. *)
Lemma elected_computed scope members id : elected scope members id -> exists o, computeLeader o scope members = id.
Proof.
  intros [[-> ->]|[Hin Hle]]; [by exists 0%nat|].
  apply elem_of_elements in Hin as Hin'. apply list_elem_of_split in Hin' as (l1 & l2 & E).
  destruct (sort_slice_any (hashPair scope) (elements members) (id :: insertion_sort (hashPair scope) (l1 ++ l2))) as [o Ho].
  - by rewrite insertion_sort_perm, E, Permutation_middle.
  - constructor; [apply insertion_sort_sorted|]. rewrite insertion_sort_perm. apply Forall_forall.
    intros b Hb. apply Hle, elem_of_elements. rewrite E, <- Permutation_middle. by right.
  - exists o. unfold computeLeader. rewrite Ho. rewrite decide_False; [done|].
    intros H%size_empty_iff%leibniz_equiv. set_solver.
Qed.

(** With distinct hashes there is one possible leader. *)
Lemma elected_unique scope members id id' :
  hashes_distinct scope members -> elected scope members id -> elected scope members id' -> id = id'.
Proof.
  intros Hd [[E ->]|[H1 H2]] [[E' ->]|[H1' H2']]; [done|set_solver..|].
  apply Hd; [by apply elem_of_elements..|]. specialize (H2 _ H1'). specialize (H2' _ H1). lia.
Qed.

Lemma computeLeader_unique o scope members id :
  hashes_distinct scope members -> elected scope members id -> computeLeader o scope members = id.
Proof. intros Hd H. eapply elected_unique; [exact Hd|apply computeLeader_elected|exact H]. Qed.

(** Nor does it for the leader among candidates with distinct hashes. *)
Lemma LeaderAmong_orders o o' scope matcher ms :
  hashes_distinct scope (node_ids (FilterNodes ms matcher)) ->
  LeaderAmong o scope matcher ms = LeaderAmong o' scope matcher ms.
Proof.
  intros Hd. unfold LeaderAmong. destruct (FilterNodes ms matcher) as [|m l]; [done|]. f_equal.
  apply computeLeader_unique; [done|apply computeLeader_elected].
Qed.

(** So the choice does not matter. *)
Lemma computeLeader_orders o o' scope members :
  hashes_distinct scope members -> computeLeader o scope members = computeLeader o' scope members.
Proof. intros Hd. apply computeLeader_unique; [done|apply computeLeader_elected]. Qed.

(** A node that is not the leader leaves without consequence. *)
Lemma elected_leave scope members id m :
  elected scope members id -> id <> m -> members <> ∅ -> elected scope (members ∖ {[m]}) id.
Proof. intros [[? _]|[H1 H2]] Hm Hne; [done|]. right. split; [set_solver|]. intros b Hb. apply H2. set_solver. Qed.

(** A node that joins takes over or changes nothing. *)
Lemma elected_join scope members id m :
  elected scope ({[m]} ∪ members) id -> id = m \/ elected scope members id.
Proof.
  intros [[E _]|[H1 H2]]; [set_solver|]. destruct (decide (id = m)) as [|Hm]; [by left|]. right. right.
  split; [set_solver|]. intros b Hb. apply H2. set_solver.
Qed.

(** ** Elections over time *)

Inductive el_op :=
  | ELeader (scope : string)
  | EWatch (scope : string)
  | EReceive (scope : string) (w : nat)
  | EMember (ev : MemberEvent)
  | ESetMembers (members : list NodeMeta).

Definition run_el (o : el_op) (e : RingElection) : RingElection :=
  match o with
  | ELeader scope => (Leader scope e).1
  | EWatch scope => Watch scope e
  | EReceive scope w => (receive scope w e).1
  | EMember ev => OnMembershipChange ev e
  | ESetMembers members => SetMembers members e
  end.

Definition run_els (os : list el_op) (e : RingElection) : RingElection := foldl (fun e o => run_el o e) e os.

(** The stored leader is a possible one, in every scope. *)
Record scope_ok (members : gset NodeID) (scope : string) (s : electionScope) : Prop := {
  so_leader : elected scope members (es_leader s);
  so_term : 0 <= es_term s < u64_modulus;
  so_watchers : Forall (fun ch => (length ch <= 4)%nat) (es_watchers s)
}.

Definition el_ok (e : RingElection) : Prop :=
  map_Forall (scope_ok (el_members e)) (el_scopes e).

Lemma el_ok_set scope s e : el_ok e -> scope_ok (el_members e) scope s -> el_ok (set_scope scope s e).
Proof. intros He Hs. by apply map_Forall_insert_2. Qed.

Lemma offer_bound ev ch : (length ch <= 4)%nat -> (length (offer ev ch) <= 4)%nat.
Proof.
  intros H. unfold offer. destruct (_ <? _)%nat eqn:E; [|done]. apply Nat.ltb_lt in E.
  rewrite length_app. cbn. lia.
Qed.

Lemma ensureScope_cases scope e :
  exists s, ensureScopeLocked scope e = ((ensureScopeLocked scope e).1, s) /\
    el_scopes (ensureScopeLocked scope e).1 !! scope = Some s /\
    (el_scopes e !! scope = Some s /\ (ensureScopeLocked scope e).1 = e \/
     el_scopes e !! scope = None /\
     s = mkElectionScope (computeLeader (next_order scope e) scope (el_members e)) 1 [] /\
     (ensureScopeLocked scope e).1 = set_scope scope s (use_order scope e)).
Proof.
  unfold ensureScopeLocked. destruct (el_scopes e !! scope) as [s|] eqn:E; cbn.
  - exists s. auto.
  - eexists. split; [done|]. split; [apply lookup_insert_eq|]. auto.
Qed.

Lemma ensureScope_ok scope e : el_ok e -> el_ok (ensureScopeLocked scope e).1.
Proof.
  intros He. destruct (ensureScope_cases scope e) as (s & _ & _ & [[_ ->]|(_ & -> & ->)]); [done|].
  apply el_ok_set; [exact He|]. split; [apply computeLeader_elected|done|constructor].
Qed.

Lemma ensureScope_members scope e : el_members (ensureScopeLocked scope e).1 = el_members e.
Proof. destruct (ensureScope_cases scope e) as (s & _ & _ & [[_ ->]|(_ & _ & ->)]); done. Qed.

Lemma Leader_fst scope e : (Leader scope e).1 = (ensureScopeLocked scope e).1.
Proof. unfold Leader. by destruct (ensureScopeLocked scope e). Qed.

Lemma IsLeader_members scope e : el_members (IsLeader scope e).1 = el_members e.
Proof.
  unfold IsLeader, Leader. rewrite <- (ensureScope_members scope e). by destruct (ensureScopeLocked scope e).
Qed.

Lemma recompute_ok o members members' scope s :
  scope_ok members scope s -> scope_ok members' scope (recompute o members' scope s).
Proof.
  intros [H1 H2 H3]. unfold recompute. cbn zeta. destruct (bool_decide _) eqn:E; bprop.
  - split; cbn; [apply computeLeader_elected|apply u64_range|]. apply Forall_fmap. eapply Forall_impl; [exact H3|].
    intros ch Hch. by apply offer_bound.
  - split; [|done..]. pose proof (computeLeader_elected o scope members').
    by destruct (decide (computeLeader o scope members' = es_leader s)) as [<-|].
Qed.

Lemma run_el_ok o e : el_ok e -> el_ok (run_el o e).
Proof.
  intros He. assert (forall m, el_ok (recomputeAll m e)) as Hre.
  { intros m scope s H. cbn in H. rewrite map_lookup_imap in H.
    apply bind_Some in H as (s0 & Hs0 & [= <-]).
    eapply recompute_ok. by apply He. }
  destruct o as [scope|scope|scope w|ev|ms]; cbn [run_el].
  - rewrite Leader_fst. by apply ensureScope_ok.
  - unfold Watch. destruct (ensureScope_cases scope e) as (s & E & Hs & _). rewrite E.
    pose proof (ensureScope_ok scope e He) as Hok. set (e1 := (ensureScopeLocked scope e).1) in *.
    pose proof (Hok _ _ Hs) as [H1 H2 H3]. apply el_ok_set; [done|]. split; cbn; [done..|].
    apply Forall_app. split; [done|]. apply Forall_singleton. destruct (bool_decide _); cbn; lia.
  - unfold receive. destruct (el_scopes e !! scope) as [s|] eqn:E; [|done].
    destruct (es_watchers s !! w) as [[|ev ch]|] eqn:Ew; try done.
    pose proof (He _ _ E) as [H1 H2 H3]. apply el_ok_set; [done|]. split; cbn; [done..|].
    apply Forall_insert; [done|]. eapply Forall_lookup_1 in H3; [|exact Ew]. cbn in H3. lia.
  - apply Hre.
  - apply Hre.
Qed.

Lemma run_els_ok os orders id : el_ok (run_els os (NewRingElection orders id)).
Proof.
  unfold run_els. assert (el_ok (NewRingElection orders id)) as H by apply map_Forall_empty. revert H.
  generalize (NewRingElection orders id). induction os as [|o os IH]; intros e He; [done|].
  cbn [foldl]. apply IH. by apply run_el_ok.
Qed.

(** The answer of [Leader] is a possible leader. *)
Lemma Leader_elected scope e :
  el_ok e -> exists l, elected scope (el_members e) l /\
    (Leader scope e).2 = if bool_decide (l = ""%string) then None else Some l.
Proof.
  intros He. unfold Leader. destruct (ensureScope_cases scope e) as (s & E & Hs & _). rewrite E. cbn.
  pose proof (ensureScope_ok scope e He _ _ Hs) as [Hl _ _]. rewrite ensureScope_members in Hl. by exists (es_leader s).
Qed.

(** With distinct hashes it is the computed one. *)
Lemma Leader_computed o scope e :
  el_ok e -> hashes_distinct scope (el_members e) ->
  (Leader scope e).2 =
    let l := computeLeader o scope (el_members e) in if bool_decide (l = ""%string) then None else Some l.
Proof.
  intros He Hd. destruct (Leader_elected scope e He) as (l & Hl & ->).
  by rewrite (computeLeader_unique o scope (el_members e) l Hd Hl).
Qed.

(** After a failure the leader is the computed one among the others. *)
Lemma failed_leads o scope failed ids e :
  el_ok e -> hashes_distinct scope ids -> el_members e = {[nm_ID failed]} ∪ ids -> el_localID e ∈ ids -> nm_ID failed ∉ ids -> ""%string ∉ ids ->
  (IsLeader scope (OnMembershipChange (mkMemberEvent MemberFailed failed) e)).2 =
    bool_decide (computeLeader o scope ids = el_localID e).
Proof.
  intros Hok Hd Hm Hl Hf He. set (e' := OnMembershipChange _ e).
  assert (el_ok e') as Hok' by (by apply (run_el_ok (EMember (mkMemberEvent MemberFailed failed)))).
  assert (el_members e' = ids) as Em.
  { unfold e'. cbn. rewrite Hm. apply set_eq. intros x. rewrite !elem_of_difference, elem_of_union, !elem_of_singleton.
    split; [intros [[?|?] ?]; done|]. intros Hx. split; [by right|]. intros ->. done. }
  unfold IsLeader. pose proof (Leader_computed o scope e' Hok') as HL. rewrite Em in HL. specialize (HL Hd).
  destruct (Leader scope e') as [e1 l] eqn:E1. cbn [snd] in HL. subst l. cbv zeta. cbn [snd].
  assert (el_localID e1 = el_localID e) as ->.
  { assert (e1 = (Leader scope e').1) as -> by (by rewrite E1). rewrite Leader_fst.
    by destruct (ensureScope_cases scope e') as (s & _ & _ & [[_ ->]|(_ & _ & ->)]). }
  assert (ids <> ∅) as Hne by set_solver. destruct (computeLeader_least o scope ids Hne) as [Hin _].
  rewrite (bool_decide_false (computeLeader o scope ids = ""%string)) by congruence.
  apply bool_decide_ext. split; [by intros [= ->]|by intros ->].
Qed.

(** How one operation changes a scope: not at all, or a new leader and the next
    term. *)
Lemma run_el_scope o scope s e :
  el_scopes e !! scope = Some s ->
  exists s', el_scopes (run_el o e) !! scope = Some s' /\
    (es_term s' = es_term s /\ es_leader s' = es_leader s \/
     es_term s' = u64_succ (es_term s) /\ es_leader s' <> es_leader s).
Proof.
  intros Hs. assert (forall m, exists s', el_scopes (recomputeAll m e) !! scope = Some s' /\
    (es_term s' = es_term s /\ es_leader s' = es_leader s \/
     es_term s' = u64_succ (es_term s) /\ es_leader s' <> es_leader s)) as Hre.
  { intros m. exists (recompute (next_order scope e) m scope s). split.
    - cbn. by rewrite map_lookup_imap, Hs.
    - unfold recompute. cbn zeta. destruct (bool_decide _) eqn:E; bprop; cbn; auto. }
  assert (forall sc, el_scopes (ensureScopeLocked sc e).1 !! scope = Some s) as Hen.
  { intros sc. destruct (ensureScope_cases sc e) as (s1 & _ & _ & [[_ ->]|(Hn & _ & ->)]); [done|].
    cbn. rewrite lookup_insert_ne by congruence. done. }
  destruct o as [sc|sc|sc w|ev|ms]; cbn [run_el]; [| | |apply Hre|apply Hre].
  - exists s. rewrite Leader_fst. auto.
  - unfold Watch. destruct (ensureScope_cases sc e) as (s1 & E & Hs1 & _). rewrite E. cbn.
    specialize (Hen sc). destruct (decide (sc = scope)) as [->|Hne].
    + rewrite lookup_insert_eq. eexists. split; [done|]. cbn. left. by simplify_eq.
    + rewrite lookup_insert_ne by done. exists s. auto.
  - unfold receive. destruct (el_scopes e !! sc) as [s1|] eqn:E; [|by exists s; auto].
    destruct (es_watchers s1 !! w) as [[|ev ch]|]; try (by exists s; auto). cbn.
    destruct (decide (sc = scope)) as [->|Hne].
    + rewrite lookup_insert_eq. eexists. split; [done|]. cbn. left. by simplify_eq.
    + rewrite lookup_insert_ne by done. exists s. auto.
Qed.

Lemma run_els_scope os scope s e :
  0 <= es_term s < u64_modulus -> el_scopes e !! scope = Some s ->
  exists s' n, el_scopes (run_els os e) !! scope = Some s' /\ 0 <= n <= Z.of_nat (length os) /\
    es_term s' = u64 (es_term s + n) /\ (n = 0 -> es_leader s' = es_leader s).
Proof.
  unfold run_els. revert s e. induction os as [|o os IH]; intros s e Ht Hs; cbn [foldl].
  { exists s, 0. rewrite Z.add_0_r, u64_small by lia. split_and!; [done|lia|cbn; lia|done|done]. }
  destruct (run_el_scope o scope s e Hs) as (s1 & Hs1 & H1).
  assert (0 <= es_term s1 < u64_modulus) as Ht1.
  { destruct H1 as [[-> _]|[-> _]]; [done|apply u64_range]. }
  destruct (IH s1 _ Ht1 Hs1) as (s' & n & Hs' & Hn & Et & El).
  destruct H1 as [[E1 E2]|[E1 E2]].
  - exists s', n. rewrite E1 in Et. split_and!; [done|lia|cbn [length]; lia|done|].
    intros Hz. rewrite El by done. done.
  - exists s', (n + 1). split_and!; [done|lia|cbn [length]; lia| |lia].
    rewrite Et, E1. unfold u64_succ, u64. rewrite Zplus_mod_idemp_l. f_equal. lia.
Qed.

(** ** Theorems *)

(** C24: two nodes that know the same members agree on the leader of every scope
    under which these have distinct hashes: the member with the least hash,
    whatever operations led to their states and in whatever order each of them
    lists its members and breaks ties whenever it computes a leader. *)
Theorem leaders_agree scope orders1 orders2 id1 id2 os1 os2 :
  let e1 := run_els os1 (NewRingElection orders1 id1) in
  let e2 := run_els os2 (NewRingElection orders2 id2) in
  el_members e1 = el_members e2 -> hashes_distinct scope (el_members e1) ->
  el_members e1 <> ∅ -> ""%string ∉ el_members e1 ->
  exists l, (Leader scope e1).2 = Some l /\ (Leader scope e2).2 = Some l /\ l ∈ el_members e1 /\
    forall b, b ∈ el_members e1 -> hashPair scope l <= hashPair scope b.
Proof.
  intros e1 e2 E Hd Hne He. destruct (computeLeader_least 0 scope (el_members e1) Hne) as [H1 H2].
  exists (computeLeader 0 scope (el_members e1)).
  rewrite (Leader_computed 0), (Leader_computed 0); [|apply run_els_ok|by rewrite <- E|apply run_els_ok|done].
  cbv zeta. rewrite <- E. rewrite bool_decide_false by congruence. done.
Qed.

Definition member (id : NodeID) : NodeMeta := mkNodeMeta id (id +:+ ":9000") ∅ 0.

(** The two nodes list their members in opposite orders. *)
Lemma leaders_agree_witness :
  let e1 := run_els [EMember (mkMemberEvent MemberJoin (member "n2"))] (NewRingElection ∅ "n1") in
  let e2 := run_els [EWatch "s"; ESetMembers [member "n1"]] (NewRingElection {["singleton/x"%string := [1%nat]]} "n2") in
  exists l, (Leader "singleton/x" e1).2 = Some l /\ (Leader "singleton/x" e2).2 = Some l /\ l ∈ el_members e1 /\
    forall b, b ∈ el_members e1 -> hashPair "singleton/x" l <= hashPair "singleton/x" b.
Proof.
  apply (leaders_agree "singleton/x" ∅ {["singleton/x"%string := [1%nat]]} "n1" "n2"
    [EMember (mkMemberEvent MemberJoin (member "n2"))] [EWatch "s"; ESetMembers [member "n1"]]).
  - vm_compute. reflexivity.
  - apply keys_distinct_NoDup, (bool_decide_unpack _). vm_compute. exact I.
  - vm_compute. discriminate.
  - apply (bool_decide_unpack _). vm_compute. exact I.
Defined.

(** Without distinct hashes they need not agree.  When two members both have the
    least hash of a scope, two nodes that know the same members each may take
    another one for the leader, so that both or neither of the two lead. *)
Theorem ties_divide_leadership scope members a b :
  a ∈ members -> b ∈ members -> a <> ""%string -> b <> ""%string ->
  (forall x, x ∈ members -> hashPair scope a <= hashPair scope x /\ hashPair scope b <= hashPair scope x) ->
  exists orders1 orders2,
    let e orders id := recomputeAll members (NewRingElection orders id) in
    (IsLeader scope (e orders1 a)).2 = true /\ (IsLeader scope (e orders2 b)).2 = true.
Proof.
  intros Ha Hb Ha0 Hb0 Hle.
  assert (forall x, x ∈ members -> x <> ""%string -> (forall y, y ∈ members -> hashPair scope x <= hashPair scope y) ->
    exists orders, (IsLeader scope (recomputeAll members (NewRingElection orders x))).2 = true) as H.
  { intros x Hx Hx0 Hxl. destruct (elected_computed scope members x) as [o Ho]; [by right|].
    exists {[scope := [o]]}. set (e := recomputeAll members (NewRingElection {[scope := [o]]} x)).
    assert (next_order scope e = o) as En.
    { unfold next_order, e, recomputeAll. cbn [el_orders el_scopes NewRingElection].
      rewrite map_lookup_imap, lookup_singleton_eq. cbn [mbind option_bind].
      rewrite decide_False by (rewrite lookup_empty; by intros []). done. }
    assert (el_scopes e !! scope = None) as Es.
    { unfold e, recomputeAll. cbn [el_scopes NewRingElection]. by rewrite map_lookup_imap, lookup_empty. }
    unfold IsLeader, Leader, ensureScopeLocked. rewrite Es, En. change (el_members e) with members. cbn [es_leader snd].
    rewrite Ho, (bool_decide_false (x = ""%string)) by done. by apply bool_decide_eq_true. }
  destruct (H a Ha Ha0) as [o1 H1]; [intros y Hy; by apply Hle|].
  destruct (H b Hb Hb0) as [o2 H2]; [intros y Hy; by apply Hle|]. by exists o1, o2.
Qed.

(** Terms are fencing tokens: while a scope's term is unchanged its leader is
    unchanged, across any operations (fewer than [2^64]); a term grows by the
    number of changes of leadership. *)
Theorem terms_fence scope s orders id os os' :
  let e := run_els os (NewRingElection orders id) in
  let e' := run_els os' e in
  el_scopes e !! scope = Some s -> Z.of_nat (length os') < u64_modulus ->
  exists s' n, el_scopes e' !! scope = Some s' /\ 0 <= n <= Z.of_nat (length os') /\
    Term scope e' = u64 (Term scope e + n) /\
    (Term scope e' = Term scope e -> es_leader s' = es_leader s).
Proof.
  intros e e' Hs Hlen. pose proof (run_els_ok os orders id _ _ Hs) as [_ Ht _].
  destruct (run_els_scope os' scope s e Ht Hs) as (s' & n & Hs' & Hn & Et & El).
  exists s', n. unfold Term. fold e' in Hs'. rewrite Hs, Hs'. split_and!; [done|lia|lia|done|].
  intros E. apply El. rewrite Et in E. unfold u64 in E.
  destruct (decide (es_term s + n < u64_modulus)); [rewrite Z.mod_small in E; lia|].
  rewrite <- (Z.mod_add _ (-1) u64_modulus), Z.mod_small in E by lia. lia.
Qed.

Lemma terms_fence_witness :
  let e := run_els [EWatch "s"] (NewRingElection ∅ "n1") in
  let e' := run_els [EMember (mkMemberEvent MemberJoin (member "n2"))] e in
  exists s' n, el_scopes e' !! "s"%string = Some s' /\ 0 <= n <= 1 /\
    Term "s" e' = u64 (Term "s" e + n) /\ (Term "s" e' = Term "s" e -> es_leader s' = "n1"%string).
Proof.
  apply (terms_fence "s" (mkElectionScope "n1" 1 [[mkLeaderEvent "s" "n1" "" 1]]) ∅ "n1" [EWatch "s"]
    [EMember (mkMemberEvent MemberJoin (member "n2"))]); vm_compute; reflexivity.
Defined.

(** A membership change disturbs leadership as little as possible: when a
    node joins, the leader stays or the new node takes over; when a node that is
    not the leader leaves or fails, the leader stays. *)
Theorem leadership_is_stable scope orders id os m :
  let e := run_els os (NewRingElection orders id) in
  let after t := OnMembershipChange (mkMemberEvent t m) e in
  hashes_distinct scope ({[nm_ID m]} ∪ el_members e) -> ""%string ∉ {[nm_ID m]} ∪ el_members e ->
  ((Leader scope (after MemberJoin)).2 = (Leader scope e).2 \/
   (Leader scope (after MemberJoin)).2 = Some (nm_ID m)) /\
  ((Leader scope e).2 <> Some (nm_ID m) ->
   (Leader scope (after MemberLeave)).2 = (Leader scope e).2 /\
   (Leader scope (after MemberFailed)).2 = (Leader scope e).2).
Proof.
  intros e after Hd He.
  assert (forall t, el_ok (after t)) as Hok by (intros t; apply (run_el_ok (EMember _)), run_els_ok).
  pose proof (run_els_ok os orders id) as Hoke. fold e in Hoke.
  destruct (Leader_elected scope e Hoke) as (l & Hl & El).
  assert (forall S x y, S ⊆ {[nm_ID m]} ∪ el_members e -> elected scope S x -> elected scope S y -> x = y) as Hu.
  { intros S x y HS. apply elected_unique. by eapply hashes_distinct_sub. }
  split.
  - destruct (Leader_elected scope (after MemberJoin) (Hok _)) as (l' & Hl' & El').
    change (el_members (after MemberJoin)) with ({[nm_ID m]} ∪ el_members e) in Hl'. rewrite El, El'.
    destruct (elected_join _ _ _ _ Hl') as [->|Hj].
    + right. rewrite bool_decide_false; [done|set_solver].
    + left. by rewrite (Hu (el_members e) l l') by (done || set_solver).
  - intros Hne. assert (forall t, t = MemberLeave \/ t = MemberFailed -> (Leader scope (after t)).2 = (Leader scope e).2) as H.
    2: { split; apply H; auto. }
    intros t Ht. destruct (Leader_elected scope (after t) (Hok _)) as (l' & Hl' & El').
    assert (el_members (after t) = el_members e ∖ {[nm_ID m]}) as Em by (destruct Ht as [-> | ->]; done).
    rewrite Em in Hl'. rewrite El, El'. replace l' with l; [done|]. destruct (decide (el_members e = ∅)) as [E0|Hm].
    + rewrite E0 in *. apply (Hu ∅); [set_solver|done|]. by replace (∅ ∖ {[nm_ID m]}) with (∅ : gset NodeID) in Hl' by set_solver.
    + apply (Hu (el_members e ∖ {[nm_ID m]})); [set_solver| |done]. apply elected_leave; [done| |done].
      intros ->. rewrite bool_decide_false in El; [done|]. destruct Hl as [[? _]|[? _]]; set_solver.
Qed.

Lemma leadership_is_stable_witness :
  let e := run_els [EMember (mkMemberEvent MemberJoin (member "n2"))] (NewRingElection ∅ "n1") in
  let after t := OnMembershipChange (mkMemberEvent t (member "n3")) e in
  ((Leader "s" (after MemberJoin)).2 = (Leader "s" e).2 \/
   (Leader "s" (after MemberJoin)).2 = Some "n3"%string) /\
  ((Leader "s" e).2 <> Some "n3"%string ->
   (Leader "s" (after MemberLeave)).2 = (Leader "s" e).2 /\
   (Leader "s" (after MemberFailed)).2 = (Leader "s" e).2).
Proof.
  apply (leadership_is_stable "s" ∅ "n1" [EMember (mkMemberEvent MemberJoin (member "n2"))] (member "n3")).
  - apply keys_distinct_NoDup, (bool_decide_unpack _). vm_compute. exact I.
  - apply (bool_decide_unpack _). vm_compute. exact I.
Defined.
