(* ===== verification/Feed.v ===== *)
(** * Membership feeds: the event channel of a provider and its consumer
      ([emit] of [cluster/provider_fixed.go] and [pkg/providerutil/poller.go])

    A provider reports membership changes on a bounded channel; events that do
    not fit are dropped and counted.  A consumer that applies the events it
    receives has a view of the membership.  [feed_sync] says what a provider
    promises: without drops, the events still in the channel lead from the
    consumer's view to the provider's own members. *)

From S2P Require Import Prelude Nodes.

(** The channel and the counter next to it. *)
Record eventFeed := mkEventFeed {
  ef_ch : list MemberEvent;
  ef_cap : nat;
  ef_closed : bool;
  ef_dropped : Z
}.

Definition newFeed (cap : nat) : eventFeed := mkEventFeed [] cap false 0.

(** [emit]; [None] is the panic of a send on a closed channel. *)
Definition emit (ev : MemberEvent) (f : eventFeed) : option eventFeed :=
  if ef_closed f then None
  else if (length (ef_ch f) <? ef_cap f)%nat
  then Some (mkEventFeed (ef_ch f ++ [ev]) (ef_cap f) false (ef_dropped f))
  else Some (mkEventFeed (ef_ch f) (ef_cap f) false (u64_succ (ef_dropped f))).

Definition closeFeed (f : eventFeed) : eventFeed :=
  mkEventFeed (ef_ch f) (ef_cap f) true (ef_dropped f).

(** Receiving from the channel. *)
Definition recvFeed (f : eventFeed) : eventFeed * option MemberEvent :=
  match ef_ch f with
  | [] => (f, None)
  | ev :: ch => (mkEventFeed ch (ef_cap f) (ef_closed f) (ef_dropped f), Some ev)
  end.

(** ** The consumer's view *)

Abbreviation memberView := (gmap string NodeMeta).

Definition apply_event (v : memberView) (ev : MemberEvent) : memberView :=
  match me_Type ev with
  | MemberJoin | MemberUpdated => <[nm_ID (me_Member ev) := me_Member ev]> v
  | MemberLeave | MemberFailed => delete (nm_ID (me_Member ev)) v
  end.

Definition apply_events (v : memberView) (evs : list MemberEvent) : memberView := foldl apply_event v evs.

Lemma apply_events_app v evs evs' :
  apply_events v (evs ++ evs') = apply_events (apply_events v evs) evs'.
Proof. apply foldl_app. Qed.

(** The number of drops never goes back to zero, up to [2^64] of them. *)
Definition drops (n : nat) (f : eventFeed) : Prop := 0 <= ef_dropped f <= Z.of_nat n.

(** The pending events lead from [v] to [members]. *)
Definition feed_sync (v members : memberView) (f : eventFeed) : Prop :=
  ef_dropped f = 0 -> apply_events v (ef_ch f) = members.

Lemma emit_sync ev v members f f' :
  emit ev f = Some f' -> 0 <= ef_dropped f < u64_modulus - 1 -> feed_sync v members f ->
  feed_sync v (apply_event members ev) f'.
Proof.
  unfold emit, feed_sync. intros H Hd Hs. destruct (ef_closed f); [done|].
  destruct (_ <? _)%nat; injection H as <-; cbn.
  - intros E. rewrite apply_events_app, Hs by done. done.
  - rewrite u64_succ_small by lia. lia.
Qed.

Lemma recv_sync v members f :
  feed_sync v members f ->
  feed_sync (match (recvFeed f).2 with Some ev => apply_event v ev | None => v end) members (recvFeed f).1.
Proof. unfold recvFeed, feed_sync. destruct (ef_ch f) as [|ev ch] eqn:E; cbn; [by rewrite E|done]. Qed.

Lemma emit_dropped ev f f' n :
  emit ev f = Some f' -> Z.of_nat n < u64_modulus - 1 -> drops n f -> drops (S n) f'.
Proof.
  unfold emit, drops. intros H Hn Hd. destruct (ef_closed f); [done|].
  destruct (_ <? _)%nat; injection H as <-; cbn; [lia|]. rewrite u64_succ_small; lia.
Qed.

(** The view maps every member's ID to its metadata. *)
Definition view_ok (v : memberView) : Prop := map_Forall (fun id m => nm_ID m = id) v.

Lemma apply_event_ok v ev : view_ok v -> view_ok (apply_event v ev).
Proof.
  intros Hv. unfold apply_event. destruct (me_Type ev);
    [by apply map_Forall_insert_2|by apply map_Forall_delete|by apply map_Forall_delete|
     by apply map_Forall_insert_2].
Qed.

(** ** Tracked peers

    Both providers keep a state per peer and update one peer at a time, with at
    most one event.  [alive_of] is what a peer's state contributes to
    [Members]. *)

Class PeerState (P : Type) := { peer_meta : P -> NodeMeta; peer_alive : P -> bool }.

Definition alive_of {P} `{PeerState P} (p : P) : option NodeMeta :=
  if peer_alive p then Some (peer_meta p) else None.

Section tracking.
Context {P : Type} `{PeerState P}.
Implicit Types (ms : gmap string P) (f : eventFeed).

Definition members_view ms : memberView := omap alive_of ms.

(** Store a peer's new state and emit its event. *)
Definition update_peer (id : string) (res : P * option MemberEvent) (st : gmap string P * eventFeed) :
    option (gmap string P * eventFeed) :=
  f ← match res.2 with Some ev => emit ev st.2 | None => Some st.2 end;
  Some (<[id := res.1]> st.1, f).

(** The event, if any, is what makes the view follow the peer's state. *)
Definition faithful (id : string) (old : option P) (res : P * option MemberEvent) : Prop :=
  nm_ID (peer_meta res.1) = id /\
  match res.2 with
  | None => alive_of res.1 = (old ≫= alive_of)
  | Some ev => nm_ID (me_Member ev) = id /\ forall v, apply_event v ev !! id = alive_of res.1
  end.

Lemma apply_event_other v ev id : id <> nm_ID (me_Member ev) -> apply_event v ev !! id = v !! id.
Proof.
  intros Hne. unfold apply_event. destruct (me_Type ev);
    rewrite ?lookup_insert_ne, ?lookup_delete_ne by congruence; done.
Qed.

Lemma members_view_insert id p ms v ev :
  faithful id (ms !! id) (p, ev) -> v = members_view ms ->
  members_view (<[id := p]> ms) = match ev with Some ev => apply_event v ev | None => v end.
Proof.
  intros Hf ->. unfold members_view. apply map_eq. intros k. rewrite lookup_omap.
  destruct (decide (k = id)) as [->|Hne].
  - rewrite lookup_insert_eq. cbn. destruct Hf as [_ Hf]. cbn in Hf. destruct ev as [ev|].
    + destruct Hf as [_ Hf]. by rewrite Hf.
    + by rewrite Hf, lookup_omap.
  - rewrite lookup_insert_ne by done. rewrite <- lookup_omap. destruct ev as [ev|]; [|done].
    destruct Hf as [_ [Hid _]]. cbn in Hid. symmetry. apply apply_event_other. congruence.
Qed.

(** Peers are stored under their IDs. *)
Definition peers_ok ms : Prop := map_Forall (fun id p => nm_ID (peer_meta p) = id) ms.

(** What a provider maintains against a consumer's view [v], after at most [n]
    updates. *)
Definition tracked (v : memberView) (n : nat) (st : gmap string P * eventFeed) : Prop :=
  feed_sync v (members_view st.1) st.2 /\ drops n st.2 /\ peers_ok st.1.

(** A provider's [Members] lists its view. *)
Lemma listed_members ms m :
  peers_ok ms ->
  m ∈ omap (fun '(_, p) => alive_of p) (map_to_list ms) <-> members_view ms !! nm_ID m = Some m.
Proof.
  intros Hp. unfold members_view. rewrite lookup_omap, list_elem_of_omap. unfold alive_of. split.
  - intros ([id ps] & Hin & Hm). apply elem_of_map_to_list in Hin.
    destruct (peer_alive ps) eqn:E; [|done]. injection Hm as <-.
    pose proof (Hp _ _ Hin) as Eid. cbn in Eid. rewrite Eid, Hin. cbn. by rewrite E.
  - intros Hm. apply bind_Some in Hm as (ps & Hin & Hm). cbn in Hm. destruct (peer_alive ps) eqn:E; [|done].
    injection Hm as <-. exists (nm_ID (peer_meta ps), ps). rewrite elem_of_map_to_list, E. done.
Qed.

Lemma update_peer_tracked v n id res st st' :
  Z.of_nat n < u64_modulus - 1 ->
  faithful id (st.1 !! id) res -> update_peer id res st = Some st' ->
  tracked v n st -> tracked v (S n) st'.
Proof.
  intros Hn Hf Hu (Hs & Hd & Hp). destruct st as [ms f], res as [p ev]. cbn in *.
  unfold update_peer in Hu. cbn in Hu. destruct ev as [ev|].
  - apply bind_Some in Hu as (f' & He & [= <-]). split_and!; cbn [fst snd].
    + rewrite (members_view_insert id p ms (members_view ms) (Some ev)) by done.
      eapply emit_sync; [done|unfold drops in Hd; lia|done].
    + by eapply emit_dropped.
    + apply map_Forall_insert_2; [apply Hf|done].
  - injection Hu as <-. split_and!; cbn [fst snd].
    + by rewrite (members_view_insert id p ms (members_view ms) None).
    + unfold drops in *. lia.
    + apply map_Forall_insert_2; [apply Hf|done].
Qed.

(** A loop over distinct peers, each updated by its own state. *)
Section loop.
Context {X : Type} (node : string -> X -> option P -> P * option MemberEvent).

Fixpoint update_loop (l : list (string * X)) (st : gmap string P * eventFeed) :
    option (gmap string P * eventFeed) :=
  match l with
  | [] => Some st
  | (id, x) :: l => st ← update_peer id (node id x (st.1 !! id)) st; update_loop l st
  end.

Variable arg_ok : string -> X -> option P -> Prop.
Hypothesis Hnode : forall id x old,
  arg_ok id x old -> (forall p, old = Some p -> nm_ID (peer_meta p) = id) -> faithful id old (node id x old).

Lemma update_peer_lookup id res st st' k :
  update_peer id res st = Some st' -> st'.1 !! k = if decide (k = id) then Some res.1 else st.1 !! k.
Proof.
  unfold update_peer. intros Hu. apply bind_Some in Hu as (f & _ & [= <-]). cbn.
  destruct (decide (k = id)) as [->|]; [apply lookup_insert_eq|by apply lookup_insert_ne].
Qed.

Lemma update_loop_tracked v l n st st' :
  Z.of_nat (n + length l) < u64_modulus -> NoDup l.*1 ->
  (forall id x, (id, x) ∈ l -> arg_ok id x (st.1 !! id)) ->
  update_loop l st = Some st' -> tracked v n st -> tracked v (n + length l) st'.
Proof.
  revert n st. induction l as [|[id x] l IH]; intros n st Hn Hd Ha Hu Ht; cbn in *.
  - injection Hu as <-. by rewrite Nat.add_0_r.
  - apply NoDup_cons in Hd as [Hid Hd]. apply bind_Some in Hu as (st1 & H1 & Hu).
    rewrite Nat.add_succ_r. apply (IH (S n) st1); [lia|done| |done|].
    + intros k y Hy. rewrite (update_peer_lookup _ _ _ _ k H1), decide_False; [apply Ha; by right|].
      intros ->. apply Hid, list_elem_of_fmap. by exists (id, y).
    + eapply update_peer_tracked; [lia| |done|done]. apply Hnode; [apply Ha; left|].
      intros p Hp. destruct Ht as (_ & _ & Ht). by apply (Ht id p).
Qed.

Lemma update_loop_peers_ok l st st' :
  NoDup l.*1 -> (forall id x, (id, x) ∈ l -> arg_ok id x (st.1 !! id)) ->
  update_loop l st = Some st' -> peers_ok st.1 -> peers_ok st'.1.
Proof.
  revert st. induction l as [|[id x] l IH]; intros st Hd Ha Hu Hp; cbn in *; [by injection Hu as <-|].
  apply NoDup_cons in Hd as [Hid Hd]. apply bind_Some in Hu as (st1 & H1 & Hu). apply (IH st1); [done| |done|].
  - intros k y Hy. rewrite (update_peer_lookup _ _ _ _ k H1), decide_False; [apply Ha; by right|].
    intros ->. apply Hid, list_elem_of_fmap. by exists (id, y).
  - unfold update_peer in H1. apply bind_Some in H1 as (f & _ & [= <-]). cbn.
    apply map_Forall_insert_2; [|done]. apply Hnode; [apply Ha; left|]. intros p E. exact (Hp _ _ E).
Qed.

(** Every peer ends in the state its own update computes. *)
Lemma update_loop_lookup l st st' k :
  NoDup l.*1 -> update_loop l st = Some st' ->
  (k ∉ l.*1 -> st'.1 !! k = st.1 !! k) /\
  (forall x, (k, x) ∈ l -> st'.1 !! k = Some (node k x (st.1 !! k)).1).
Proof.
  revert st. induction l as [|[id x] l IH]; intros st Hn Hu; cbn in *.
  { injection Hu as <-. split; [done|]. intros y Hy. by apply not_elem_of_nil in Hy. }
  apply bind_Some in Hu as (st1 & H1 & Hu). apply NoDup_cons in Hn as [Hid Hn].
  destruct (IH st1 Hn Hu) as [I1 I2]. pose proof (update_peer_lookup _ _ _ _ k H1) as E. split.
  - intros Hk. rewrite not_elem_of_cons in Hk. destruct Hk as [Hk1 Hk2].
    rewrite I1 by done. by rewrite E, decide_False.
  - intros y Hy. apply elem_of_cons in Hy as [Hy|Hy].
    + injection Hy as -> ->. rewrite I1 by done. by rewrite E, decide_True.
    + assert (k ∈ l.*1) by (apply list_elem_of_fmap; by exists (k, y)).
      rewrite (I2 y) by done. rewrite E, decide_False; [done|]. intros ->. done.
Qed.

Lemma update_loop_feed_open l st : ef_closed st.2 = false -> is_Some (update_loop l st).
Proof.
  revert st. induction l as [|[id x] l IH]; intros [ms f] Hc; cbn in *; [by eexists|].
  unfold update_peer. cbn. destruct (node id x (ms !! id)) as [p [ev|]]; cbn; [|by apply IH].
  unfold emit. rewrite Hc. destruct (_ <? _)%nat; cbn; by apply IH.
Qed.

Lemma update_loop_closed l st st' : update_loop l st = Some st' -> ef_closed st'.2 = ef_closed st.2.
Proof.
  revert st. induction l as [|[id x] l IH]; intros [ms f] Hu; cbn in *; [by simplify_eq|].
  apply bind_Some in Hu as (st1 & H1 & Hu). rewrite (IH _ Hu). unfold update_peer in H1. cbn in H1.
  destruct (node id x (ms !! id)) as [p [ev|]]; cbn in H1; [|by simplify_eq].
  apply bind_Some in H1 as (f' & He & [= <-]). cbn. unfold emit in He.
  destruct (ef_closed f) eqn:E; [done|]. destruct (_ <? _)%nat; by simplify_eq/=.
Qed.
End loop.
End tracking.
