(* ===== verification/Seeds.v ===== *)
(** * The seed-list provider ([cluster/provider_fixed.go])

    [FixedProvider] probes a static list of seeds, declares a peer failed after a
    number of consecutive misses and reports changes on an event channel
    ([Feed.v]).  Probes are the environment's: their results are arguments of the
    operations that use them.  [None] is a panic (a send on the channel after
    [Stop] closed it). *)

From S2P Require Import Prelude Nodes Feed.

Definition ErrProviderAlreadyStarted : string := "provider_already_started".
Definition ErrProviderNotStarted : string := "provider_not_started".

(** ** The seed-list provider *)

Module FixedProvider.

Record FixedProviderConfig := mkFixedProviderConfig {
  Seeds : list NodeMeta;
  HeartbeatInterval : Z;
  FailureThreshold : Z
}.

Record fixedPeerState := mkFixedPeerState {
  meta : NodeMeta;
  alive : bool;
  consecutiveFails : Z;
  lastSeen : Z
}.

#[export] Instance fixedPeer_state : PeerState fixedPeerState := {
  peer_meta := meta;
  peer_alive := alive
}.

Record FixedProvider := mkFixedProvider {
  cfg : FixedProviderConfig;
  self : NodeMeta;
  feed : eventFeed;
  members : gmap string fixedPeerState;
  started : bool
}.

Definition NewFixedProvider (c : FixedProviderConfig) : FixedProvider :=
  let interval := if HeartbeatInterval c =? 0 then 5000000000 else HeartbeatInterval c in
  let threshold := if FailureThreshold c =? 0 then 3 else FailureThreshold c in
  mkFixedProvider (mkFixedProviderConfig (Seeds c) interval threshold) zeroNodeMeta (newFeed 1024) ∅ false.

(** [Start], up to the heartbeat goroutine, whose rounds are [probeAll]. *)
Definition Start (s : NodeMeta) (p : FixedProvider) : FixedProvider * option string :=
  if started p then (p, Some ErrProviderAlreadyStarted)
  else (mkFixedProvider (cfg p) s (feed p) (members p) true, None).

(** Closing a closed channel panics. *)
Definition Stop (p : FixedProvider) : option (FixedProvider * option string) :=
  if negb (started p) then Some (p, Some ErrProviderNotStarted)
  else if ef_closed (feed p) then None
  else Some (mkFixedProvider (cfg p) (self p) (closeFeed (feed p)) (members p) false, None).

Definition Members (p : FixedProvider) : list NodeMeta :=
  omap (fun '(_, ps) => if alive ps then Some (meta ps) else None) (map_to_list (members p)).

Definition DroppedEvents (p : FixedProvider) : Z := ef_dropped (feed p).

(** Store what became of one peer, emitting its event. *)
Definition update (id : string) (res : fixedPeerState * option MemberEvent) (p : FixedProvider) :
    option FixedProvider :=
  st ← update_peer id res (members p, feed p);
  Some (mkFixedProvider (cfg p) (self p) st.2 st.1 (started p)).

(** [handleProbeSuccess] on one peer. *)
Definition node_success (now : Z) (m : NodeMeta) (old : option fixedPeerState) :
    fixedPeerState * option MemberEvent :=
  match old with
  | None => (mkFixedPeerState m true 0 now, Some (mkMemberEvent MemberJoin m))
  | Some ps =>
      if negb (alive ps)
      then (mkFixedPeerState m true 0 now, Some (mkMemberEvent MemberJoin m))
      else (mkFixedPeerState (meta ps) true 0 now, None)
  end.

Definition handleProbeSuccess (now : Z) (m : NodeMeta) (p : FixedProvider) : option FixedProvider :=
  update (nm_ID m) (node_success now m (members p !! nm_ID m)) p.

(** [handleProbeFailure] on a peer that is alive. *)
Definition node_failure (threshold : Z) (ps : fixedPeerState) : fixedPeerState * option MemberEvent :=
  let fails := consecutiveFails ps + 1 in
  if threshold <=? fails
  then (mkFixedPeerState (meta ps) false fails (lastSeen ps),
        Some (mkMemberEvent MemberFailed (meta ps)))
  else (mkFixedPeerState (meta ps) (alive ps) fails (lastSeen ps), None).

Definition handleProbeFailure (id : string) (p : FixedProvider) : option FixedProvider :=
  match members p !! id with
  | None => Some p
  | Some ps =>
      if negb (alive ps) then Some p
      else update id (node_failure (FailureThreshold (cfg p)) ps) p
  end.

(** [probeSeed]: [Probe] is absent or says which addresses answer. *)
Definition probeSeed (now : Z) (Probe : option (string -> bool)) (seed : NodeMeta) (p : FixedProvider) :
    option FixedProvider :=
  match Probe with
  | None => handleProbeSuccess now seed p
  | Some probe =>
      if negb (probe (nm_Addr seed)) then handleProbeFailure (nm_ID seed) p
      else handleProbeSuccess now seed p
  end.

Fixpoint probe_loop (now : Z) (Probe : option (string -> bool)) (seeds : list NodeMeta) (p : FixedProvider) :
    option FixedProvider :=
  match seeds with
  | [] => Some p
  | seed :: seeds =>
      p ← (if bool_decide (nm_ID seed = nm_ID (self p)) then Some p else probeSeed now Probe seed p);
      probe_loop now Probe seeds p
  end.

(** [probeAll] while its context is not cancelled. *)
Definition probeAll (now : Z) (Probe : option (string -> bool)) (p : FixedProvider) : option FixedProvider :=
  probe_loop now Probe (Seeds (cfg p)) p.

Definition HasSeeds (p : FixedProvider) : bool := negb (bool_decide (Seeds (cfg p) = [])).

Definition AddSeed (m : NodeMeta) (p : FixedProvider) : FixedProvider :=
  if existsb (fun s => bool_decide (nm_ID s = nm_ID m)) (Seeds (cfg p)) then p
  else mkFixedProvider (mkFixedProviderConfig (Seeds (cfg p) ++ [m]) (HeartbeatInterval (cfg p))
         (FailureThreshold (cfg p))) (self p) (feed p) (members p) (started p).

Definition AddMember (now : Z) (m : NodeMeta) (p : FixedProvider) : option FixedProvider :=
  match members p !! nm_ID m with
  | Some _ => Some p
  | None => update (nm_ID m) (mkFixedPeerState m true 0 now, Some (mkMemberEvent MemberJoin m)) p
  end.

(** Taking an event from [Events()]. *)
Definition recv (p : FixedProvider) : FixedProvider * option MemberEvent :=
  let '(f, ev) := recvFeed (feed p) in (mkFixedProvider (cfg p) (self p) f (members p) (started p), ev).
End FixedProvider.
