(* ===== verification/Polling.v ===== *)
(** * The polling provider ([pkg/providerutil/poller.go],
      [pkg/providerutil/health.go])

    [Poller] compares successive results of a discovery function, declares a peer
    failed after a number of consecutive absences and reports changes on an event
    channel ([Feed.v]).  Discovery and probes are the environment's: their results
    are arguments.  [None] is a panic (a send on the channel after [Stop] closed
    it). *)

From S2P Require Import Prelude Nodes Feed Seeds.

Module Poller.

Record PollerConfig := mkPollerConfig { Interval : Z; FailureThreshold : Z; EventBufferSize : Z }.

Definition setDefaults (c : PollerConfig) : PollerConfig :=
  mkPollerConfig (if Interval c <=? 0 then 10000000000 else Interval c)
    (if FailureThreshold c <=? 0 then 3 else FailureThreshold c)
    (if EventBufferSize c <=? 0 then 1024 else EventBufferSize c).

Record peerState := mkPeerState { meta : NodeMeta; alive : bool; consecutiveMisses : Z }.

#[export] Instance peerState_state : PeerState peerState := {
  peer_meta := meta;
  peer_alive := alive
}.

Record Poller := mkPoller {
  cfg : PollerConfig;
  self : NodeMeta;
  feed : eventFeed;
  members : gmap string peerState;
  started : bool
}.

Definition NewPoller (c : PollerConfig) : Poller :=
  let c := setDefaults c in
  mkPoller c zeroNodeMeta (newFeed (Z.to_nat (EventBufferSize c))) ∅ false.

Definition Start (s : NodeMeta) (p : Poller) : Poller * option string :=
  if started p then (p, Some ErrProviderAlreadyStarted)
  else (mkPoller (cfg p) s (feed p) (members p) true, None).

Definition Stop (p : Poller) : option (Poller * option string) :=
  if negb (started p) then Some (p, Some ErrProviderNotStarted)
  else if ef_closed (feed p) then None
  else Some (mkPoller (cfg p) (self p) (closeFeed (feed p)) (members p) false, None).

Definition Members (p : Poller) : list NodeMeta :=
  omap (fun '(_, ps) => if alive ps then Some (meta ps) else None) (map_to_list (members p)).

(** The members found, by ID and without the node itself. *)
Definition seenOf (selfID : string) (current : list NodeMeta) : gmap string NodeMeta :=
  foldl (fun seen m => if bool_decide (nm_ID m = selfID) then seen else <[nm_ID m := m]> seen) ∅ current.

(** The first loop of [diffMembers] on a peer that was found. *)
Definition node_present (_ : string) (m : NodeMeta) (old : option peerState) :
    peerState * option MemberEvent :=
  match old with
  | None => (mkPeerState m true 0, Some (mkMemberEvent MemberJoin m))
  | Some ps =>
      if negb (alive ps) then (mkPeerState m true 0, Some (mkMemberEvent MemberJoin m))
      else if negb (tagsEqual (nm_Tags (meta ps)) (nm_Tags m))
      then (mkPeerState m true 0, Some (mkMemberEvent MemberUpdated m))
      else (mkPeerState (meta ps) true 0, None)
  end.

(** The second loop on a peer that is missing. *)
Definition node_missing (threshold : Z) (ps : peerState) : peerState * option MemberEvent :=
  if negb (alive ps) then (ps, None)
  else
    let misses := consecutiveMisses ps + 1 in
    if threshold <=? misses
    then (mkPeerState (meta ps) false misses, Some (mkMemberEvent MemberFailed (meta ps)))
    else (mkPeerState (meta ps) true misses, None).

(** The second loop on every known peer. *)
Definition node_second (threshold : Z) (seen : gmap string NodeMeta) (id : string) (_ : peerState)
    (old : option peerState) : peerState * option MemberEvent :=
  match old with
  | None => (mkPeerState zeroNodeMeta false 0, None)
  | Some ps => match seen !! id with Some _ => (ps, None) | None => node_missing threshold ps end
  end.

Definition diffMembers (current : list NodeMeta) (p : Poller) : option Poller :=
  let seen := seenOf (nm_ID (self p)) current in
  st ← update_loop node_present (map_to_list seen) (members p, feed p);
  st ← update_loop (node_second (FailureThreshold (cfg p)) seen) (map_to_list st.1) st;
  Some (mkPoller (cfg p) (self p) st.2 st.1 (started p)).

(** [poll]: [None] is a failed discovery. *)
Definition poll (discovered : option (list NodeMeta)) (p : Poller) : option Poller :=
  match discovered with None => Some p | Some current => diffMembers current p end.

Definition recv (p : Poller) : Poller * option MemberEvent :=
  let '(f, ev) := recvFeed (feed p) in (mkPoller (cfg p) (self p) f (members p) (started p), ev).

(** [WithProbe]: discovery restricted to the members that answer. *)
Definition WithProbe (discovered : option (list NodeMeta)) (probe : string -> bool) :
    option (list NodeMeta) :=
  members ← discovered; Some (filter (fun m => probe (nm_Addr m) = true) members).
End Poller.
