(* ===== verification/Detection.v ===== *)
(** * What providers guarantee

    A consumer that applies the events it receives has the provider's members,
    unless events were dropped; a polled node counts as alive exactly while its
    latest absences are fewer than the threshold. *)

From S2P Require Import Prelude Nodes Feed Seeds Polling.

(** ** The polling provider *)

Section poller.
Import Poller.

Lemma seenOf_fold self current acc id :
  id <> self ->
  is_Some (foldl (fun (seen : gmap string NodeMeta) m => if bool_decide (nm_ID m = self) then seen else <[nm_ID m := m]> seen)
    acc current !! id) <-> is_Some (acc !! id) \/ exists m, m ∈ current /\ nm_ID m = id.
Proof.
  intros Hid. revert acc. induction current as [|m current IH]; intros acc; cbn [foldl].
  { split; [auto|]. intros [?|(m & Hm & _)]; [done|]. by apply not_elem_of_nil in Hm. }
  rewrite IH. destruct (bool_decide (nm_ID m = self)) eqn:E; bprop.
  - split; [intros [?|(x & ? & ?)]; [auto|]; right; exists x; split; [by right|done]|].
    intros [?|(x & Hx & Ex)]; [auto|]. apply elem_of_cons in Hx as [->|Hx]; [congruence|]. eauto.
  - destruct (decide (nm_ID m = id)) as [<-|Hne].
    + rewrite lookup_insert_eq. split; [intros _; right; exists m; split; [left|done]|]. eauto.
    + rewrite lookup_insert_ne by done. split.
      * intros [?|(x & ? & ?)]; [auto|]. right. exists x. split; [by right|done].
      * intros [?|(x & Hx & Ex)]; [auto|]. apply elem_of_cons in Hx as [->|Hx]; [congruence|]. eauto.
Qed.

Definition found (id : string) (current : list NodeMeta) : bool :=
  existsb (fun m => bool_decide (nm_ID m = id)) current.

Lemma seenOf_found self current id :
  id <> self -> is_Some (seenOf self current !! id) <-> found id current = true.
Proof.
  intros Hid. unfold seenOf. rewrite seenOf_fold by done. rewrite lookup_empty. unfold found.
  rewrite existsb_exists. split.
  - intros [[? ?]|(m & ? & ?)]; [done|]. exists m. split; [by apply list_elem_of_In|by apply bool_decide_eq_true].
  - intros (m & Hm & E). bprop. right. exists m. split; [by apply list_elem_of_In|done].
Qed.

Lemma seenOf_ok self current : map_Forall (fun id m => nm_ID m = id) (seenOf self current).
Proof.
  unfold seenOf. assert (map_Forall (fun id m => nm_ID m = id) (∅ : gmap string NodeMeta)) as H
    by apply map_Forall_empty.
  revert H. generalize (∅ : gmap string NodeMeta). induction current as [|m current IH]; intros acc H;
    cbn [foldl]; [done|]. apply IH. destruct (bool_decide _); [done|]. by apply map_Forall_insert_2.
Qed.

Lemma node_present_faithful id m old :
  nm_ID m = id -> (forall p, old = Some p -> nm_ID (peer_meta p) = id) ->
  faithful id old (node_present id m old).
Proof.
  intros Hm Hold. unfold faithful, node_present.
  assert (forall t, t = MemberJoin \/ t = MemberUpdated ->
    forall v, apply_event v (mkMemberEvent t m) !! id = alive_of (mkPeerState m true 0)) as Ha.
  { intros t Ht v. unfold apply_event. destruct Ht as [-> | ->]; cbn; rewrite Hm; by apply lookup_insert_eq. }
  destruct old as [ps|]; [|split; [done|split; [done|intros; apply Ha; auto]]].
  specialize (Hold ps eq_refl). cbn in Hold.
  destruct (alive ps) eqn:Eal; cbn [negb]; [|split; [done|split; [done|intros; apply Ha; auto]]].
  destruct (tagsEqual _ _); cbn [negb]; [|split; [done|split; [done|intros; apply Ha; auto]]].
  split; [done|]. unfold alive_of. cbn. by rewrite Eal.
Qed.

Lemma node_second_faithful threshold seen id x old :
  is_Some old -> (forall p, old = Some p -> nm_ID (peer_meta p) = id) ->
  faithful id old (node_second threshold seen id x old).
Proof.
  intros [ps ->] Hold. specialize (Hold ps eq_refl). cbn in Hold. unfold faithful, node_second.
  destruct (seen !! id); cbn; [done|]. unfold node_missing. destruct (alive ps) eqn:Eal; cbn.
  - destruct (_ <=? _); cbn.
    + split_and!; [done|done|]. intros v. rewrite Hold. by apply lookup_delete_eq.
    + unfold alive_of. cbn. by rewrite Eal.
  - unfold alive_of. cbn. by rewrite Eal.
Qed.

Lemma NoDup_keys {A} (m : gmap string A) : NoDup (map_to_list m).*1.
Proof. apply NoDup_fst_map_to_list. Qed.

(** The number of peer updates of one poll. *)
Definition poll_cost (d : option (list NodeMeta)) (p : Poller) : nat :=
  match d with
  | None => 0
  | Some current =>
      let seen := seenOf (nm_ID (self p)) current in
      length (map_to_list seen) +
      match update_loop node_present (map_to_list seen) (members p, feed p) with
      | Some st => length (map_to_list st.1)
      | None => 0
      end
  end.

Lemma poll_tracked d p p' v n :
  poll d p = Some p' -> Z.of_nat (n + poll_cost d p) < u64_modulus ->
  tracked v n (members p, feed p) -> tracked v (n + poll_cost d p) (members p', feed p').
Proof.
  destruct d as [current|]; cbn [poll poll_cost]; [|intros [= <-]; by rewrite Nat.add_0_r].
  unfold diffMembers. set (seen := seenOf _ _). intros H Hn Ht.
  apply bind_Some in H as (st & H1 & H). apply bind_Some in H as (st2 & H2 & [= <-]). cbn.
  rewrite H1 in *. destruct st2 as [ms2 f2]. cbn [fst snd].
  rewrite Nat.add_assoc. eapply update_loop_tracked; [|lia|apply NoDup_keys| |exact H2|].
  - intros id x old. apply node_second_faithful.
  - intros id x Hx. apply elem_of_map_to_list in Hx. by eexists.
  - eapply update_loop_tracked; [|lia|apply NoDup_keys| |exact H1|done].
    + intros id x old Hx. apply node_present_faithful. exact Hx.
    + intros id x Hx. apply elem_of_map_to_list in Hx. by apply seenOf_ok in Hx.
Qed.

(** A poller that was not stopped polls without a panic. *)
Lemma poll_runs d p :
  ef_closed (feed p) = false -> peers_ok (members p) ->
  exists p', poll d p = Some p' /\ ef_closed (feed p') = false /\ peers_ok (members p').
Proof.
  intros Hc Hp. destruct d as [current|]; cbn [poll]; [|by exists p]. unfold diffMembers. set (seen := seenOf _ _).
  destruct (update_loop_feed_open node_present (map_to_list seen) (members p, feed p) Hc) as [st1 H1].
  pose proof (update_loop_closed _ _ _ _ H1) as C1. cbn [snd] in C1. rewrite Hc in C1.
  destruct (update_loop_feed_open (node_second (FailureThreshold (cfg p)) seen) (map_to_list st1.1) st1 C1) as [st2 H2].
  rewrite H1. cbn [mbind option_bind]. rewrite H2. cbn [mbind option_bind]. eexists. split; [done|]. cbn. split.
  { rewrite (update_loop_closed _ _ _ _ H2). exact C1. }
  eapply update_loop_peers_ok; [apply node_second_faithful|apply NoDup_keys| |exact H2|].
  { intros id x Hx. apply elem_of_map_to_list in Hx. by eexists. }
  eapply (update_loop_peers_ok node_present (fun id x _ => nm_ID x = id));
    [intros id x old Hx; by apply node_present_faithful|apply NoDup_keys| |exact H1|done].
  intros id x Hx. apply elem_of_map_to_list in Hx. by apply seenOf_ok in Hx.
Qed.

(** A poller, its consumer's view, and the updates so far. *)
Definition poller_run : Type := Poller * memberView * nat.

Inductive poller_op :=
  | PStart (s : NodeMeta)
  | PStop
  | PPoll (d : option (list NodeMeta))
  | PRecv.

Definition run_poller (o : poller_op) (st : poller_run) : option poller_run :=
  let '(p, v, n) := st in
  match o with
  | PStart s => Some ((Start s p).1, v, n)
  | PStop => r ← Stop p; Some (r.1, v, n)
  | PPoll d => p' ← poll d p; Some (p', v, (n + poll_cost d p)%nat)
  | PRecv => Some ((recv p).1, match (recv p).2 with Some ev => apply_event v ev | None => v end, n)
  end.

Fixpoint run_pollers (os : list poller_op) (st : poller_run) : option poller_run :=
  match os with [] => Some st | o :: os => st ← run_poller o st; run_pollers os st end.

Lemma run_poller_tracked o p v n p' v' n' :
  run_poller o (p, v, n) = Some (p', v', n') -> Z.of_nat n' < u64_modulus ->
  tracked v n (members p, feed p) -> (n <= n')%nat /\ tracked v' n' (members p', feed p').
Proof.
  intros H Hn' Ht. destruct o as [s| |d|]; cbn in H.
  - injection H as <- <- <-. split; [lia|]. unfold Start. by destruct (started p).
  - apply bind_Some in H as ([p1 e] & H1 & [= <- <- <-]). split; [lia|]. unfold Stop in H1.
    destruct (negb _); [by simplify_eq|]. by destruct (ef_closed _); simplify_eq/=.
  - apply bind_Some in H as (p1 & H1 & [= <- <- <-]). split; [lia|]. by eapply poll_tracked.
  - injection H as <- <- <-. split; [lia|]. destruct Ht as (Hs & Hd & Hp). unfold recv.
    pose proof (recv_sync _ _ _ Hs) as Hs'. cbn [fst snd] in Hs'. destruct (recvFeed (feed p)) as [f ev] eqn:E.
    split_and!; [exact Hs'| |done]. cbn. unfold recvFeed in E.
    destruct (ef_ch (feed p)); simplify_eq/=; done.
Qed.

Lemma run_pollers_mono os p v n p' v' n' :
  run_pollers os (p, v, n) = Some (p', v', n') -> Z.of_nat n' < u64_modulus ->
  tracked v n (members p, feed p) -> (n <= n')%nat /\ tracked v' n' (members p', feed p').
Proof.
  assert (forall os p v n p' v' n', run_pollers os (p, v, n) = Some (p', v', n') -> (n <= n')%nat) as Hm.
  { clear. induction os as [|o os IH]; intros p v n p' v' n' H; cbn in H; [by simplify_eq|].
    apply bind_Some in H as ([[p1 v1] n1] & H1 & H). transitivity n1; [|by eapply IH].
    destruct o; cbn in H1; repeat (apply bind_Some in H1 as (? & _ & H1)); simplify_eq; lia. }
  revert p v n. induction os as [|o os IH]; intros p v n H Hn Ht; cbn in H; [by simplify_eq|].
  apply bind_Some in H as ([[p1 v1] n1] & H1 & H).
  destruct (run_poller_tracked o p v n p1 v1 n1 H1) as [Hn1 Ht1]; [|done|].
  - specialize (Hm _ _ _ _ _ _ _ H). lia.
  - destruct (IH _ _ _ H Hn Ht1). split; [lia|done].
Qed.

(** Unless events were dropped, a consumer that applies the pending events of
    a poller to its view has exactly the poller's members, whatever was
    discovered and received before (over fewer than [2^64] peer updates). *)
Theorem poller_feed_is_faithful c os p v n :
  run_pollers os (NewPoller c, ∅, 0%nat) = Some (p, v, n) -> Z.of_nat n < u64_modulus ->
  ef_dropped (feed p) = 0 ->
  forall m, m ∈ Members p <-> apply_events v (ef_ch (feed p)) !! nm_ID m = Some m.
Proof.
  intros H Hn Hd m. destruct (run_pollers_mono _ _ _ _ _ _ _ H Hn) as [_ (Hs & _ & Hp)].
  - split_and!; [done|unfold drops; cbn; lia|apply map_Forall_empty].
  - specialize (Hs Hd). cbn [fst snd] in Hs. rewrite Hs. exact (listed_members (members p) m Hp).
Qed.

(** ** Failure detection *)

(** The number of absences at the end of a history of presence. *)
Definition trailing (hist : list bool) : nat := foldl (fun k b => if b : bool then 0%nat else S k) 0%nat hist.

(** Whether each successful poll found a node. *)
Definition history (id : string) (polls : list (option (list NodeMeta))) : list bool :=
  found id <$> omap (fun d => d) polls.

Fixpoint run_polls (polls : list (option (list NodeMeta))) (p : Poller) : option Poller :=
  match polls with [] => Some p | d :: polls => p ← poll d p; run_polls polls p end.

Lemma run_polls_runs polls p :
  ef_closed (feed p) = false -> peers_ok (members p) ->
  exists p', run_polls polls p = Some p' /\ peers_ok (members p').
Proof.
  revert p. induction polls as [|d polls IH]; intros p Hc Hp; cbn; [by exists p|].
  destruct (poll_runs d p Hc Hp) as (p1 & -> & Hc1 & Hp1). by apply IH.
Qed.

Definition tracks_history (threshold : Z) (hist : list bool) (ps : option peerState) : Prop :=
  match ps with
  | None => forall b, b ∈ hist -> b = false
  | Some ps =>
      true ∈ hist /\
      if alive ps then consecutiveMisses ps = Z.of_nat (trailing hist) /\ Z.of_nat (trailing hist) < threshold
      else threshold <= Z.of_nat (trailing hist)
  end.

(** What one diff does to a node. *)
Lemma diffMembers_lookup current p p' id :
  id <> nm_ID (self p) -> diffMembers current p = Some p' ->
  self p' = self p /\ cfg p' = cfg p /\
  match seenOf (nm_ID (self p)) current !! id with
  | Some m => members p' !! id = Some (node_present id m (members p !! id)).1
  | None => members p' !! id = (fun ps => (node_missing (FailureThreshold (cfg p)) ps).1) <$> members p !! id
  end.
Proof.
  intros Hid H. unfold diffMembers in H. set (seen := seenOf _ _) in *.
  apply bind_Some in H as (st & H1 & H). apply bind_Some in H as (st2 & H2 & [= <-]). cbn.
  split_and!; [done..|].
  destruct (update_loop_lookup node_present _ _ _ id (NoDup_keys _) H1) as [A1 A2].
  destruct (update_loop_lookup _ _ _ _ id (NoDup_keys _) H2) as [B1 B2]. cbn [fst] in A1, A2.
  assert (forall A (m : gmap string A) k, k ∉ (map_to_list m).*1 <-> m !! k = None) as Hkeys.
  { intros A m k. rewrite list_elem_of_fmap. split.
    - intros Hk. destruct (m !! k) as [x|] eqn:E; [|done]. exfalso. apply Hk. exists (k, x).
      by rewrite elem_of_map_to_list.
    - intros Hk ([k' x] & -> & Hx). apply elem_of_map_to_list in Hx. cbn in Hk. congruence. }
  assert (st.1 !! id = match seen !! id with Some m => Some (node_present id m (members p !! id)).1
    | None => members p !! id end) as E1.
  { destruct (seen !! id) as [m|] eqn:E; [apply A2; by apply elem_of_map_to_list|by apply A1, Hkeys]. }
  destruct (st.1 !! id) as [ps|] eqn:E2.
  - rewrite (B2 ps) by (by apply elem_of_map_to_list). unfold node_second.
    destruct (seen !! id); [by rewrite <- E1|]. by rewrite <- E1.
  - rewrite B1 by (by apply Hkeys). destruct (seen !! id); [done|]. by rewrite <- E1.
Qed.

Lemma trailing_snoc hist b : trailing (hist ++ [b]) = if b : bool then 0%nat else S (trailing hist).
Proof. unfold trailing. by rewrite foldl_app. Qed.

Lemma diffMembers_tracks current p p' id hist :
  id <> nm_ID (self p) -> 1 <= FailureThreshold (cfg p) -> diffMembers current p = Some p' ->
  tracks_history (FailureThreshold (cfg p)) hist (members p !! id) ->
  tracks_history (FailureThreshold (cfg p)) (hist ++ [found id current]) (members p' !! id).
Proof.
  intros Hid Ht H Hh. destruct (diffMembers_lookup _ _ _ _ Hid H) as (_ & _ & E).
  destruct (seenOf (nm_ID (self p)) current !! id) as [m|] eqn:Es.
  - rewrite (proj1 (seenOf_found _ _ _ Hid)) by eauto. rewrite E. cbn. split; [set_solver|].
    rewrite trailing_snoc. unfold node_present. destruct (members p !! id) as [ps|]; cbn; [|lia].
    destruct (alive ps); cbn; [|lia]. destruct (tagsEqual _ _); cbn; lia.
  - assert (found id current = false) as Ef.
    { destruct (found id current) eqn:Ef; [|done]. apply (seenOf_found (nm_ID (self p))) in Ef; [|done].
      rewrite Es in Ef. by destruct Ef. }
    rewrite Ef, E. destruct (members p !! id) as [ps|]; cbn in *.
    + destruct Hh as [Hin Hh]. split; [set_solver|]. rewrite trailing_snoc. unfold node_missing.
      destruct (alive ps) eqn:Ea; cbn; [|rewrite Ea; lia].
      destruct (FailureThreshold (cfg p) <=? consecutiveMisses ps + 1) eqn:El; cbn;
        (apply Z.leb_le in El || apply Z.leb_gt in El); lia.
    + intros b [Hb|Hb%list_elem_of_singleton]%elem_of_app; auto.
Qed.

Lemma run_polls_tracks polls p p' id hist :
  id <> nm_ID (self p) -> 1 <= FailureThreshold (cfg p) -> run_polls polls p = Some p' ->
  tracks_history (FailureThreshold (cfg p)) hist (members p !! id) ->
  tracks_history (FailureThreshold (cfg p)) (hist ++ history id polls) (members p' !! id).
Proof.
  revert p hist. induction polls as [|d polls IH]; intros p hist Hid Ht H Hh; cbn in H.
  { injection H as <-. by rewrite app_nil_r. }
  apply bind_Some in H as (p1 & H1 & H). destruct d as [current|].
  - destruct (diffMembers_lookup _ _ _ _ Hid H1) as (E1 & E2 & _).
    unfold history. cbn. rewrite (cons_middle (found id current)), app_assoc. rewrite <- E2.
    apply (IH p1); rewrite ?E1, ?E2; try done. by apply diffMembers_tracks.
  - injection H1 as <-. by apply (IH p).
Qed.

Lemma polls_detect c s polls p id :
  id <> nm_ID s -> run_polls polls (Start s (NewPoller c)).1 = Some p ->
  (is_Some (members p !! id) <-> true ∈ history id polls) /\
  forall ps, members p !! id = Some ps ->
    alive ps = true <-> Z.of_nat (trailing (history id polls)) < FailureThreshold (setDefaults c).
Proof.
  intros Hid H.
  assert (1 <= FailureThreshold (setDefaults c)) as Ht.
  { cbn. destruct (_ <=? 0) eqn:E; [lia|]. apply Z.leb_gt in E. lia. }
  pose proof (run_polls_tracks polls (Start s (NewPoller c)).1 p id [] Hid Ht H) as Hh. cbn [app] in Hh.
  change (members (Start s (NewPoller c)).1) with (∅ : gmap string peerState) in Hh.
  rewrite lookup_empty in Hh. specialize (Hh ltac:(intros b Hb; by apply not_elem_of_nil in Hb)).
  change (FailureThreshold (cfg (Start s (NewPoller c)).1)) with (FailureThreshold (setDefaults c)) in Hh.
  destruct (members p !! id) as [ps|]; unfold tracks_history in Hh.
  - destruct Hh as [Hin Hh]. split; [by split; [|eauto]|]. intros ps' [= <-].
    destruct (alive ps); [tauto|]. split; [done|lia].
  - split; [|done]. split; [by intros []|]. intros Hin. by apply Hh in Hin.
Qed.

(** Failure detection by polling: a node is known once a successful poll has
    found it, and counts as alive exactly while the successful polls since it
    was last found are fewer than the threshold; failed polls do not count. *)
Theorem poller_detects_failures c s polls p id :
  id <> nm_ID s -> run_polls polls (Start s (NewPoller c)).1 = Some p ->
  (is_Some (members p !! id) <-> true ∈ history id polls) /\
  forall ps, members p !! id = Some ps ->
    alive ps = true <-> Z.of_nat (trailing (history id polls)) < FailureThreshold (setDefaults c).
Proof. apply polls_detect. Qed.

Definition example_node : NodeMeta := mkNodeMeta "n2" "10.0.0.2:9000" ∅ 0.

Definition example_polls : list (option (list NodeMeta)) :=
  [Some [example_node]; None; Some []; Some []].

Lemma poller_detects_failures_witness :
  exists p, run_polls example_polls (Start (mkNodeMeta "n1" "" ∅ 0) (NewPoller (mkPollerConfig 0 2 0))).1
    = Some p /\
  (is_Some (members p !! "n2"%string) <-> true ∈ history "n2" example_polls) /\
  forall ps, members p !! "n2"%string = Some ps ->
    alive ps = true <-> Z.of_nat (trailing (history "n2" example_polls)) <
      FailureThreshold (setDefaults (mkPollerConfig 0 2 0)).
Proof.
  eexists. split; [vm_compute; reflexivity|].
  apply (poller_detects_failures (mkPollerConfig 0 2 0) (mkNodeMeta "n1" "" ∅ 0) example_polls).
  - discriminate.
  - vm_compute. reflexivity.
Defined.

Lemma poller_feed_is_faithful_witness :
  exists p v n, run_pollers [PPoll (Some [example_node]); PRecv; PPoll (Some [])]
    (NewPoller (mkPollerConfig 0 1 4), ∅, 0%nat) = Some (p, v, n) /\
  forall m, m ∈ Members p <-> apply_events v (ef_ch (feed p)) !! nm_ID m = Some m.
Proof.
  eexists _, _, _. split; [vm_compute; reflexivity|].
  eapply (poller_feed_is_faithful (mkPollerConfig 0 1 4)
    [PPoll (Some [example_node]); PRecv; PPoll (Some [])]).
  - vm_compute. reflexivity.
  - vm_compute. reflexivity.
  - vm_compute. reflexivity.
Defined.
End poller.

(** ** The seed-list provider *)

Section fixed.
Import FixedProvider.

Definition fixed_run : Type := FixedProvider * memberView * nat.

Inductive fixed_op :=
  | FStart (s : NodeMeta)
  | FStop
  | FSuccess (now : Z) (m : NodeMeta)
  | FFailure (id : string)
  | FAddSeed (m : NodeMeta)
  | FAddMember (now : Z) (m : NodeMeta)
  | FRecv.

(** The operations under the provider's lock; each updates at most one peer. *)
Definition run_fixed (o : fixed_op) (st : fixed_run) : option fixed_run :=
  let '(p, v, n) := st in
  match o with
  | FStart s => Some ((Start s p).1, v, n)
  | FStop => r ← Stop p; Some (r.1, v, n)
  | FSuccess now m => p' ← handleProbeSuccess now m p; Some (p', v, S n)
  | FFailure id => p' ← handleProbeFailure id p; Some (p', v, S n)
  | FAddSeed m => Some (AddSeed m p, v, n)
  | FAddMember now m => p' ← AddMember now m p; Some (p', v, S n)
  | FRecv => Some ((recv p).1, match (recv p).2 with Some ev => apply_event v ev | None => v end, n)
  end.

Fixpoint run_fixeds (os : list fixed_op) (st : fixed_run) : option fixed_run :=
  match os with [] => Some st | o :: os => st ← run_fixed o st; run_fixeds os st end.

Lemma join_faithful now m old :
  (forall ps, old = Some ps -> alive ps = false) ->
  faithful (nm_ID m) old (mkFixedPeerState m true 0 now, Some (mkMemberEvent MemberJoin m)).
Proof. intros _. split; [done|]. split; [done|]. intros v. unfold apply_event. cbn. by rewrite lookup_insert_eq. Qed.

Lemma node_success_faithful now m old :
  (forall p, old = Some p -> nm_ID (peer_meta p) = nm_ID m) ->
  faithful (nm_ID m) old (node_success now m old).
Proof.
  intros Hold. unfold node_success. destruct old as [ps|]; [|by apply join_faithful].
  destruct (alive ps) eqn:E; cbn [negb]; [|apply join_faithful; by intros ? [= <-]].
  split; [exact (Hold ps eq_refl)|]. unfold alive_of. cbn. by rewrite E.
Qed.

Lemma node_failure_faithful threshold id ps :
  nm_ID (meta ps) = id -> faithful id (Some ps) (node_failure threshold ps).
Proof.
  intros Hid. unfold node_failure. cbn zeta. destruct (_ <=? _).
  - split; [done|]. split; [done|]. intros v. unfold apply_event. cbn. rewrite Hid. apply lookup_delete_eq.
  - split; [done|]. done.
Qed.

Lemma update_tracked v n id res p p' :
  Z.of_nat n < u64_modulus - 1 -> faithful id (members p !! id) res -> update id res p = Some p' ->
  tracked v n (members p, feed p) -> tracked v (S n) (members p', feed p').
Proof.
  intros Hn Hf H Ht. unfold update in H. apply bind_Some in H as ([ms f] & H & [= <-]). cbn.
  eapply (update_peer_tracked v n id res (members p, feed p)); [done|exact Hf|exact H|done].
Qed.

Lemma tracked_S {P} `{PeerState P} v n (st : gmap string P * eventFeed) : tracked v n st -> tracked v (S n) st.
Proof. intros (? & Hd & ?). split_and!; [done| |done]. unfold drops in *. lia. Qed.

Lemma run_fixed_tracked o p v n p' v' n' :
  run_fixed o (p, v, n) = Some (p', v', n') -> Z.of_nat n' < u64_modulus ->
  tracked v n (members p, feed p) -> (n <= n')%nat /\ tracked v' n' (members p', feed p').
Proof.
  intros H Hn' Ht. pose proof Ht as (Hs & Hd & Hp). destruct o as [s| |now m|id|m|now m|]; cbn in H.
  - injection H as <- <- <-. split; [lia|]. unfold Start. by destruct (started p).
  - apply bind_Some in H as ([p1 e] & H1 & [= <- <- <-]). split; [lia|]. unfold Stop in H1.
    destruct (negb _); [by simplify_eq|]. by destruct (ef_closed _); simplify_eq/=.
  - apply bind_Some in H as (p1 & H1 & [= <- <- <-]). split; [lia|].
    eapply update_tracked; [lia|apply node_success_faithful|exact H1|done]. intros q Hq. by apply (Hp _ _ Hq).
  - apply bind_Some in H as (p1 & H1 & [= <- <- <-]). split; [lia|]. unfold handleProbeFailure in H1.
    destruct (members p !! id) as [ps|] eqn:E; [|injection H1 as <-; by apply tracked_S].
    destruct (negb (alive ps)); [injection H1 as <-; by apply tracked_S|].
    eapply update_tracked; [lia| |exact H1|done]. rewrite E. apply node_failure_faithful. by apply (Hp _ _ E).
  - injection H as <- <- <-. split; [lia|]. unfold AddSeed. by destruct (existsb _ _).
  - apply bind_Some in H as (p1 & H1 & [= <- <- <-]). split; [lia|]. unfold AddMember in H1.
    destruct (members p !! nm_ID m) as [ps|] eqn:E; [injection H1 as <-; by apply tracked_S|].
    eapply update_tracked; [lia|apply join_faithful|exact H1|done]. by rewrite E.
  - injection H as <- <- <-. split; [lia|]. unfold recv.
    pose proof (recv_sync _ _ _ Hs) as Hs'. cbn [fst snd] in Hs'. destruct (recvFeed (feed p)) as [f ev] eqn:E.
    split_and!; [exact Hs'| |done]. cbn. unfold recvFeed in E. destruct (ef_ch (feed p)); simplify_eq/=; done.
Qed.
Lemma run_fixeds_tracked os p v n p' v' n' :
  run_fixeds os (p, v, n) = Some (p', v', n') -> Z.of_nat n' < u64_modulus ->
  tracked v n (members p, feed p) -> tracked v' n' (members p', feed p').
Proof.
  assert (forall os p v n p' v' n', run_fixeds os (p, v, n) = Some (p', v', n') -> (n <= n')%nat) as Hm.
  { clear. induction os as [|o os IH]; intros p v n p' v' n' H; cbn in H; [by simplify_eq|].
    apply bind_Some in H as ([[p1 v1] n1] & H1 & H). transitivity n1; [|by eapply IH].
    destruct o; cbn in H1; repeat (apply bind_Some in H1 as (? & _ & H1)); simplify_eq; lia. }
  revert p v n. induction os as [|o os IH]; intros p v n H Hn Ht; cbn in H; [by simplify_eq|].
  apply bind_Some in H as ([[p1 v1] n1] & H1 & H).
  destruct (run_fixed_tracked o p v n p1 v1 n1 H1) as [Hn1 Ht1]; [|done|].
  - specialize (Hm _ _ _ _ _ _ _ H). lia.
  - by eapply IH.
Qed.

(** Unless events were dropped, a consumer that applies the pending events of
    a seed-list provider to its view has exactly the provider's members, in
    whatever order probes succeeded and failed and members were added (over fewer
    than [2^64] peer updates). *)
Theorem fixed_feed_is_faithful c os p v n :
  run_fixeds os (NewFixedProvider c, ∅, 0%nat) = Some (p, v, n) -> Z.of_nat n < u64_modulus ->
  ef_dropped (feed p) = 0 ->
  forall m, m ∈ Members p <-> apply_events v (ef_ch (feed p)) !! nm_ID m = Some m.
Proof.
  intros H Hn Hd m. destruct (run_fixeds_tracked _ _ _ _ _ _ _ H Hn) as (Hs & _ & Hp).
  - split_and!; [done|unfold drops; cbn; lia|apply map_Forall_empty].
  - specialize (Hs Hd). cbn [fst snd] in Hs. rewrite Hs. exact (listed_members (members p) m Hp).
Qed.

Definition seed_node : NodeMeta := mkNodeMeta "n3" "10.0.0.3:9000" ∅ 0.

Lemma fixed_feed_is_faithful_witness :
  exists p v n, run_fixeds [FSuccess 5 seed_node; FRecv; FFailure "n3"; FFailure "n3"; FFailure "n3"]
    (NewFixedProvider (mkFixedProviderConfig [] 0 0), ∅, 0%nat) = Some (p, v, n) /\
  forall m, m ∈ Members p <-> apply_events v (ef_ch (feed p)) !! nm_ID m = Some m.
Proof.
  eexists _, _, _. split; [vm_compute; reflexivity|].
  eapply (fixed_feed_is_faithful (mkFixedProviderConfig [] 0 0)
    [FSuccess 5 seed_node; FRecv; FFailure "n3"; FFailure "n3"; FFailure "n3"]).
  - vm_compute. reflexivity.
  - vm_compute. reflexivity.
  - vm_compute. reflexivity.
Defined.
End fixed.
