(* ===== verification/Cluster.v ===== *)
(** * A node's connections to the cluster ([cluster/cluster.go],
      [cluster/transport.go], [cluster/envelope.go])

    A cluster node keeps the peers it knows, one connection per node, and the
    nodes it is dialling.  Every critical section of the code is one operation
    here, so that the interleavings of its goroutines are the sequences of
    operations.  The transport is the environment's: the connections it hands
    out and the errors it returns are arguments. *)

From S2P Require Import Prelude GoSort Nodes Topology Ring Feed.

(** ** Envelopes *)

Record RemotePID := mkRemotePID {
  rp_Node : NodeID;
  rp_Namespace : string;
  rp_ActorID : string;
  rp_Generation : Z
}.

(** [Payload] is the encoded message. *)
Record Envelope := mkEnvelope {
  en_SenderNode : NodeID;
  en_SenderActorID : string;
  en_TargetNode : NodeID;
  en_TargetActorID : string;
  en_Namespace : string;
  en_Generation : Z;
  en_TypeName : string;
  en_SchemaVersion : string;
  en_MessageID : Z;
  en_Payload : string;
  en_IsAsk : bool;
  en_AskRequestID : string;
  en_AskReplyTo : option RemotePID;
  en_SentAtUnixNano : Z
}.

(** Stamping an envelope. *)
Definition sent_at (at_ : Z) (env : Envelope) : Envelope :=
  mkEnvelope (en_SenderNode env) (en_SenderActorID env) (en_TargetNode env) (en_TargetActorID env)
    (en_Namespace env) (en_Generation env) (en_TypeName env) (en_SchemaVersion env)
    (en_MessageID env) (en_Payload env) (en_IsAsk env) (en_AskRequestID env) (en_AskReplyTo env) at_.

(** ** The transport's errors and connections *)

Definition ErrTransportClosed : string := "transport_closed".
Definition ErrConnectionClosed : string := "connection_closed".
Definition ErrNodeUnreachable : string := "node_unreachable".
Definition ErrDialFailed : string := "dial_failed".
Definition ErrHandshakeFailed : string := "handshake_failed".
Definition ErrSendFailed : string := "send_failed".
Definition ErrEnvelopeTooLarge : string := "envelope_too_large".

(** A connection: its identity and [RemoteNodeID]. *)
Abbreviation Connection := (Z * NodeID)%type.

Definition RemoteNodeID (conn : Connection) : NodeID := conn.2.

(** ** Topologies a node is configured with *)

Inductive TopologyImpl := TopologyFullMesh (t : FullMeshTopology) | TopologyRing (r : RingTopology).

#[export] Instance Impl_topology : Topology TopologyImpl := {
  ShouldConnect t := match t with TopologyFullMesh t => ShouldConnect t | TopologyRing r => ShouldConnect r end;
  Route t := match t with TopologyFullMesh t => Route t | TopologyRing r => Route r end;
  Responsible t := match t with TopologyFullMesh t => Responsible t | TopologyRing r => Responsible r end
}.

#[export, refine] Instance Impl_laws : TopologyLaws TopologyImpl := {
  topo_ok t := match t with TopologyFullMesh t => topo_ok t | TopologyRing r => topo_ok r end;
  topo_dist t := match t with TopologyFullMesh t => topo_dist t | TopologyRing r => topo_dist r end
}.
Proof.
  - intros [t|r] S a b; [apply (topo_dist_0 t)|apply (topo_dist_0 r)].
  - intros [t|r] self target members; [apply (topo_route t)|apply (topo_route r)].
  - intros [t|r] self target members; [apply (topo_route_unknown t)|apply (topo_route_unknown r)].
  - intros [t|r] self members id; [apply (topo_connect t)|apply (topo_connect r)].
Defined.

(** ** The node *)

(** [ClusterConfig]; provider and transport are there or not, authentication and
    the codec are the environment's. *)
Record ClusterConfig := mkClusterConfig {
  cc_Self : NodeMeta;
  cc_Provider : bool;
  cc_Transport : bool;
  cc_Topology : option TopologyImpl;
  cc_SendTimeout : Z
}.

(** [Cluster].  [cl_dials] are the goroutines running [dialPeer], [cl_closed]
    the connections the node has closed. *)
Record Cluster := mkCluster {
  cl_Self : NodeMeta;
  cl_Topology : TopologyImpl;
  cl_SendTimeout : Z;
  cl_conns : gmap NodeID Connection;
  cl_peers : gmap NodeID NodeMeta;
  cl_dialing : gset NodeID;
  cl_dials : list NodeMeta;
  cl_closed : gset Connection;
  cl_started : bool
}.

Definition set_conns x c := mkCluster (cl_Self c) (cl_Topology c) (cl_SendTimeout c) x (cl_peers c)
  (cl_dialing c) (cl_dials c) (cl_closed c) (cl_started c).
Definition set_peers x c := mkCluster (cl_Self c) (cl_Topology c) (cl_SendTimeout c) (cl_conns c) x
  (cl_dialing c) (cl_dials c) (cl_closed c) (cl_started c).
Definition set_dials d x c := mkCluster (cl_Self c) (cl_Topology c) (cl_SendTimeout c) (cl_conns c) (cl_peers c)
  d x (cl_closed c) (cl_started c).
Definition set_closed x c := mkCluster (cl_Self c) (cl_Topology c) (cl_SendTimeout c) (cl_conns c) (cl_peers c)
  (cl_dialing c) (cl_dials c) x (cl_started c).
Definition set_tags x c := mkCluster
  (mkNodeMeta (nm_ID (cl_Self c)) (nm_Addr (cl_Self c)) x (nm_JoinedAt (cl_Self c)))
  (cl_Topology c) (cl_SendTimeout c) (cl_conns c) (cl_peers c)
  (cl_dialing c) (cl_dials c) (cl_closed c) (cl_started c).
Definition set_started x c := mkCluster (cl_Self c) (cl_Topology c) (cl_SendTimeout c) (cl_conns c) (cl_peers c)
  (cl_dialing c) (cl_dials c) (cl_closed c) x.

Definition NewCluster (cfg : ClusterConfig) : Cluster + string :=
  if bool_decide (nm_ID (cc_Self cfg) = ""%string) then inr "cluster: Self.ID is required"%string
  else if bool_decide (nm_Addr (cc_Self cfg) = ""%string) then inr "cluster: Self.Addr is required"%string
  else if negb (cc_Provider cfg) then inr "cluster: Provider is required"%string
  else if negb (cc_Transport cfg) then inr "cluster: Transport is required"%string
  else inl (mkCluster (cc_Self cfg) (default (TopologyFullMesh FullMesh) (cc_Topology cfg))
              (if cc_SendTimeout cfg <=? 0 then 5000000000 else cc_SendTimeout cfg)
              ∅ ∅ ∅ [] ∅ false).

Definition LocalNodeID (c : Cluster) : NodeID := nm_ID (cl_Self c).

(** Closing a connection. *)
Definition close_conn (conn : Connection) (c : Cluster) : Cluster := set_closed ({[conn]} ∪ cl_closed c) c.

(** [Start]: the transport listens and the provider starts, or one of them fails
    (its error is an argument); the node counts as started in any case. *)
Definition Start (listenErr providerErr : option string) (c : Cluster) : Cluster * option string :=
  if cl_started c then (c, Some "cluster: already started"%string)
  else
    let c := set_started true c in
    match listenErr with
    | Some e => (c, Some ("cluster: transport listen: " +:+ e))
    | None =>
        match providerErr with
        | Some e => (c, Some ("cluster: provider start: " +:+ e))
        | None => (c, None)
        end
    end.

(** [Stop], up to the subsystems, the provider and the transport it stops. *)
Definition Stop (c : Cluster) : Cluster :=
  if negb (cl_started c) then c
  else
    let c := set_started false c in
    set_closed (list_to_set (snd <$> map_to_list (cl_conns c)) ∪ cl_closed c) c.

Definition Members (c : Cluster) : list NodeMeta := snd <$> map_to_list (cl_peers c).

Definition memberListLocked (c : Cluster) : list NodeMeta := cl_Self c :: Members c.

Definition IsConnected (target : NodeID) (c : Cluster) : bool := bool_decide (is_Some (cl_conns c !! target)).

(** [Self]: a copy of the metadata, with its tags. *)
Definition Self (c : Cluster) : NodeMeta := cl_Self c.

Definition UpdateTags (tags : gmap string string) (c : Cluster) : Cluster :=
  set_tags (tags ∪ nm_Tags (cl_Self c)) c.

Definition RemoveTag (key : string) (c : Cluster) : Cluster :=
  set_tags (delete key (nm_Tags (cl_Self c))) c.

(** [UpdatePeerMeta]: whether anything changed, and the callback's event. *)
Definition UpdatePeerMeta (meta : NodeMeta) (c : Cluster) : Cluster * bool * option MemberEvent :=
  match cl_peers c !! nm_ID meta with
  | None => (c, false, None)
  | Some existing =>
      if tagsEqual (nm_Tags existing) (nm_Tags meta) then (c, false, None)
      else (set_peers (<[nm_ID meta := meta]> (cl_peers c)) c, true, Some (mkMemberEvent MemberUpdated meta))
  end.

(** ** Connections *)

Definition OnConnectionEstablished (remote : NodeID) (conn : Connection) (c : Cluster) : Cluster :=
  match cl_conns c !! remote with
  | Some _ => c
  | None => set_conns (<[remote := conn]> (cl_conns c)) c
  end.

Definition OnConnectionLost (remote : NodeID) (err : string) (c : Cluster) : Cluster := c.

Definition removeConnection (nodeID : NodeID) (c : Cluster) : Cluster :=
  match cl_conns c !! nodeID with
  | Some conn => set_conns (delete nodeID (cl_conns c)) (close_conn conn c)
  | None => c
  end.

(** The dialling loop of [reconcileConnectionsLocked]. *)
Definition dial_desired (c : Cluster) (id : NodeID) : Cluster :=
  if negb (bool_decide (is_Some (cl_conns c !! id))) && negb (bool_decide (id ∈ cl_dialing c)) then
    match cl_peers c !! id with
    | Some meta => set_dials ({[id]} ∪ cl_dialing c) (cl_dials c ++ [meta]) c
    | None => c
    end
  else c.

(** The closing loop: connections to nodes outside [desired]. *)
Definition close_undesired (desired : list NodeID) (c : Cluster) : Cluster :=
  let out := filter (fun '(id, _) => id ∉ desired) (cl_conns c) in
  set_conns (filter (fun '(id, _) => id ∈ desired) (cl_conns c))
    (set_closed (list_to_set (snd <$> map_to_list out) ∪ cl_closed c) c).

Definition reconcileConnectionsLocked (c : Cluster) : Cluster :=
  let desired := ShouldConnect (cl_Topology c) (nm_ID (cl_Self c)) (memberListLocked c) in
  close_undesired desired (foldl dial_desired c desired).

(** [handleMemberEvent]; its callback gets the event. *)
Definition handleMemberEvent (ev : MemberEvent) (c : Cluster) : Cluster :=
  let id := nm_ID (me_Member ev) in
  let c :=
    match me_Type ev with
    | MemberJoin | MemberUpdated => set_peers (<[id := me_Member ev]> (cl_peers c)) c
    | MemberLeave | MemberFailed => removeConnection id (set_peers (delete id (cl_peers c)) c)
    end in
  reconcileConnectionsLocked c.

(** [dialPeer] once the dial has returned a connection or an error. *)
Definition dialPeer (meta : NodeMeta) (dialed : Connection + string) (c : Cluster) : Cluster :=
  let c := set_dials (cl_dialing c ∖ {[nm_ID meta]}) (filter (fun m => nm_ID m <> nm_ID meta) (cl_dials c)) c in
  match dialed with
  | inr _ => c
  | inl conn =>
      match cl_conns c !! nm_ID meta with
      | Some _ => close_conn conn c
      | None => set_conns (<[nm_ID meta := conn]> (cl_conns c)) c
      end
  end.

(** [ensureConnection] after its dial: the connection there is, or the new one. *)
Definition storeDialed (target : NodeID) (conn : Connection) (c : Cluster) : Cluster * Connection :=
  match cl_conns c !! target with
  | Some existing => (close_conn conn c, existing)
  | None => (set_conns (<[target := conn]> (cl_conns c)) c, conn)
  end.

(** [ensureConnection]; [dialed] is what dialling an address returns. *)
Definition ensureConnection (dialed : string -> Connection + string) (target : NodeID) (c : Cluster) :
    Cluster * (Connection + string) :=
  match cl_peers c !! target with
  | None => (c, inr ("unknown node " +:+ target))
  | Some meta =>
      match dialed (nm_Addr meta) with
      | inr e => (c, inr e)
      | inl conn => let '(c, conn) := storeDialed target conn c in (c, inl conn)
      end
  end.

(** ** Sending *)

(** What became of an envelope: transmitted on a connection, or an error. *)
Inductive sendOutcome := Sent (conn : Connection) (env : Envelope) | SendError (err : string).

(** Transmit on the connection kept for [key]. *)
Definition send_on (key : NodeID) (conn : Connection) (env : Envelope) (sendErr : Connection -> option string)
    (c : Cluster) : Cluster * sendOutcome :=
  match sendErr conn with
  | Some e => (removeConnection key c, SendError (ErrSendFailed +:+ ": " +:+ e))
  | None => (c, Sent conn env)
  end.

Definition SendRemote (now : Z) (dialed : string -> Connection + string) (sendErr : Connection -> option string)
    (target : NodeID) (env : Envelope) (c : Cluster) : Cluster * sendOutcome :=
  let env := if en_SentAtUnixNano env =? 0 then sent_at now env else env in
  match cl_conns c !! target with
  | Some conn => send_on target conn env sendErr c
  | None =>
      match Route (cl_Topology c) (nm_ID (cl_Self c)) target (memberListLocked c) with
      | None => (c, SendError (ErrNodeUnreachable +:+ ": no route to " +:+ target))
      | Some nextHop =>
          if bool_decide (nextHop = target) then
            match ensureConnection dialed target c with
            | (c, inr e) => (c, SendError (ErrNodeUnreachable +:+ ": " +:+ e))
            | (c, inl conn) => send_on target conn env sendErr c
            end
          else
            match cl_conns c !! nextHop with
            | Some hopConn => send_on nextHop hopConn env sendErr c
            | None =>
                match ensureConnection dialed nextHop c with
                | (c, inr e) => (c, SendError (ErrNodeUnreachable +:+ ": no connection to next hop " +:+ nextHop))
                | (c, inl hopConn) => send_on nextHop hopConn env sendErr c
                end
            end
      end
  end.
