(* ===== verification/Links.v ===== *)
(** * What a node guarantees about its connections

    Whatever order events, dials, inbound connections, failures, starts and
    stops come in, every connection the node dialled is kept for one node or
    closed, an inbound one is so too unless it came when its peer had a
    connection, and after a membership event the connections are those the
    topology asks for. *)

From S2P Require Import Prelude GoSort Nodes Topology Ring Feed Seeds Polling Detection Cluster.

(** ** Critical sections in any order *)

Inductive cluster_op :=
  | OEvent (ev : MemberEvent)
  | ODialed (meta : NodeMeta) (dialed : Connection + string)
  | OStore (target : NodeID) (conn : Connection)
  | ORemove (id : NodeID)
  | OInbound (remote : NodeID) (conn : Connection)
  | OUpdatePeer (meta : NodeMeta)
  | OUpdateTags (tags : gmap string string)
  | ORemoveTag (key : string)
  | OStart (listenErr providerErr : option string)
  | OStop.

Definition run_op (c : Cluster) (o : cluster_op) : Cluster :=
  match o with
  | OEvent ev => handleMemberEvent ev c
  | ODialed meta dialed => dialPeer meta dialed c
  | OStore target conn => (storeDialed target conn c).1
  | ORemove id => removeConnection id c
  | OInbound remote conn => OnConnectionEstablished remote conn c
  | OUpdatePeer meta => (UpdatePeerMeta meta c).1.1
  | OUpdateTags tags => UpdateTags tags c
  | ORemoveTag key => RemoveTag key c
  | OStart listenErr providerErr => (Start listenErr providerErr c).1
  | OStop => Stop c
  end.

(** The connections an operation brings: dialled by the node, or inbound. *)
Definition dialed_by (o : cluster_op) : list Connection :=
  match o with ODialed _ (inl conn) | OStore _ conn => [conn] | _ => [] end.

Definition brought_by (o : cluster_op) : list Connection :=
  match o with OInbound _ conn => [conn] | _ => dialed_by o end.

(** An inbound connection is declined when its peer has a connection; the node
    then neither stores nor closes it (the transport goes on serving it). *)
Definition declined_by (c : Cluster) (o : cluster_op) : list Connection :=
  match o with
  | OInbound remote conn => if bool_decide (is_Some (cl_conns c !! remote)) then [conn] else []
  | _ => []
  end.

Definition taken_by (c : Cluster) (o : cluster_op) : list Connection :=
  match o with
  | OInbound remote conn => if bool_decide (is_Some (cl_conns c !! remote)) then [] else [conn]
  | _ => dialed_by o
  end.

Fixpoint declined (c : Cluster) (os : list cluster_op) : list Connection :=
  match os with [] => [] | o :: os => declined_by c o ++ declined (run_op c o) os end.

Fixpoint taken (c : Cluster) (os : list cluster_op) : list Connection :=
  match os with [] => [] | o :: os => taken_by c o ++ taken (run_op c o) os end.

Definition is_stop (o : cluster_op) : bool := match o with OStop => true | _ => false end.

(** [D]: taken so far; [X]: declined so far; [st]: whether the node was stopped. *)
Record links_ok (st : bool) (D X : gset Connection) (c : Cluster) : Prop := mkLinks {
  lk_open id conn : cl_conns c !! id = Some conn -> conn ∈ D /\ (st = false -> conn ∉ cl_closed c);
  lk_inj id id' conn : cl_conns c !! id = Some conn -> cl_conns c !! id' = Some conn -> id = id';
  lk_closed : cl_closed c ⊆ D;
  lk_taken conn : conn ∈ D -> conn ∈ cl_closed c \/ exists id, cl_conns c !! id = Some conn;
  lk_disjoint : D ## X;
  lk_dials : NoDup (nm_ID <$> cl_dials c) /\ cl_dialing c = node_ids (cl_dials c)
}.

Lemma remove_links st D X id c : links_ok st D X c -> links_ok st D X (removeConnection id c).
Proof.
  intros [Ho Hi Hc Hd Hx Hg]. unfold removeConnection. destruct (cl_conns c !! id) as [conn|] eqn:E; [|done].
  split; cbn; [| | | |done|done].
  - intros k x Hk. apply lookup_delete_Some in Hk as [Hne Hk]. destruct (Ho _ _ Hk) as [? Ho'].
    split; [done|]. intros Hst. rewrite not_elem_of_union, not_elem_of_singleton. split; [|by apply Ho'].
    intros ->. by apply Hne, (Hi _ _ conn).
  - intros k k' x Hk Hk'. apply lookup_delete_Some in Hk as [_ Hk], Hk' as [_ Hk']. by eapply Hi.
  - destruct (Ho _ _ E). set_solver.
  - intros x Hx'. destruct (decide (x = conn)) as [->|Hne]; [set_solver|].
    destruct (Hd x Hx') as [?|[k Hk]]; [set_solver|]. right. exists k. rewrite lookup_delete_ne; [done|].
    intros ->. congruence.
Qed.

Lemma dial_links st D X desired c :
  (map_Forall (fun id m => nm_ID m = id) (cl_peers c)) ->
  links_ok st D X c -> links_ok st D X (foldl dial_desired c desired) /\
  cl_conns (foldl dial_desired c desired) = cl_conns c /\ cl_peers (foldl dial_desired c desired) = cl_peers c.
Proof.
  revert c. induction desired as [|id desired IH]; intros c Hp Hl; [done|]. cbn [foldl].
  assert (links_ok st D X (dial_desired c id) /\ cl_conns (dial_desired c id) = cl_conns c /\
    cl_peers (dial_desired c id) = cl_peers c) as (H1 & H2 & H3).
  { unfold dial_desired. destruct (_ && _) eqn:E; [|done]. destruct (cl_peers c !! id) as [m|] eqn:Em; [|done].
    split; [|done]. destruct Hl as [Ho Hi Hc Hd Hx [Hn Hs]]. split; [done..|]. cbn.
    apply Hp in Em. bprop. rewrite Hs in *. split.
    - rewrite fmap_app. apply NoDup_app. split; [done|]. split; [|apply NoDup_singleton].
      intros x Hxx Hx'. apply list_elem_of_singleton in Hx' as ->. apply list_elem_of_fmap in Hxx as (y & Hy & Hin).
      apply H0. apply elem_of_node_ids. exists y. by rewrite <- Hy.
    - unfold node_ids. rewrite fmap_app, list_to_set_app_L. cbn. rewrite Em. set_solver. }
  destruct (IH (dial_desired c id)) as (I1 & I2 & I3); [by rewrite H3|done|].
  split; [done|]. by rewrite I2, I3.
Qed.

Lemma close_links st D X desired c : links_ok st D X c -> links_ok st D X (close_undesired desired c).
Proof.
  intros [Ho Hi Hc Hd Hx Hg]. unfold close_undesired.
  set (gone := list_to_set _ : gset Connection).
  assert (forall conn, conn ∈ gone <-> exists id, cl_conns c !! id = Some conn /\ id ∉ desired) as Eg.
  { intros conn. unfold gone. rewrite elem_of_list_to_set, list_elem_of_fmap. split.
    - intros ([id x] & -> & Hx'). apply elem_of_map_to_list, map_lookup_filter_Some in Hx'. by exists id.
    - intros (id & Hid & Hn). exists (id, conn). split; [done|]. by apply elem_of_map_to_list, map_lookup_filter_Some. }
  split; cbn; [| | | |done|done].
  - intros k x Hk. apply map_lookup_filter_Some in Hk as [Hk Hin]. destruct (Ho _ _ Hk) as [? Ho'].
    split; [done|]. intros Hst. rewrite not_elem_of_union. split; [|by apply Ho']. rewrite Eg. intros (id & Hid & Hn).
    apply Hn. by rewrite (Hi _ _ _ Hid Hk).
  - intros k k' x Hk Hk'. apply map_lookup_filter_Some in Hk as [Hk _], Hk' as [Hk' _]. by eapply Hi.
  - intros x Hx'. apply elem_of_union in Hx' as [Hx'|Hx']; [|by apply Hc].
    apply Eg in Hx' as (id & Hid & _). by eapply Ho.
  - intros x Hx'. rewrite elem_of_union, Eg. destruct (Hd x Hx') as [?|[id Hid]]; [auto|].
    destruct (decide (id ∈ desired)); [|eauto]. right. exists id. by apply map_lookup_filter_Some.
Qed.

(** Peers are known under their IDs. *)
Definition peers_named (c : Cluster) : Prop := map_Forall (fun id m => nm_ID m = id) (cl_peers c).

Lemma handle_links st D X ev c :
  peers_named c -> links_ok st D X c ->
  peers_named (handleMemberEvent ev c) /\ links_ok st D X (handleMemberEvent ev c) /\
  cl_peers (handleMemberEvent ev c) = apply_event (cl_peers c) ev.
Proof.
  intros Hp Hl. unfold handleMemberEvent, reconcileConnectionsLocked, apply_event.
  set (c1 := match me_Type ev with MemberJoin | MemberUpdated => _ | MemberLeave | MemberFailed => _ end).
  assert (links_ok st D X c1 /\ peers_named c1 /\
    cl_peers c1 = apply_event (cl_peers c) ev) as (H1 & H2 & H3).
  { unfold c1, apply_event, peers_named. destruct (me_Type ev).
    1,4: split_and!; [by destruct Hl|by apply map_Forall_insert_2|done].
    all: split; [apply remove_links; by destruct Hl|].
    all: match goal with |- map_Forall _ (cl_peers (removeConnection ?id ?c)) /\ _ =>
           assert (cl_peers (removeConnection id c) = cl_peers c) as ->
             by (unfold removeConnection; by destruct (_ !! _)) end.
    all: split; [by apply map_Forall_delete|done]. }
  destruct (dial_links st D X (ShouldConnect (cl_Topology c1) (nm_ID (cl_Self c1)) (memberListLocked c1)) c1 H2 H1)
    as (I1 & I2 & I3).
  assert (forall desired x, cl_peers (close_undesired desired x) = cl_peers x) as E by done.
  split_and!; [unfold peers_named; by rewrite E, I3|by apply close_links|by rewrite E, I3].
Qed.

(** A new connection is stored or closed at once. *)
Lemma insert_links st D X id conn c :
  conn ∉ D -> conn ∉ X -> cl_conns c !! id = None -> links_ok st D X c ->
  links_ok st ({[conn]} ∪ D) X (set_conns (<[id := conn]> (cl_conns c)) c).
Proof.
  intros Hf Hfx E [Ho Hi Hc Hd Hx Hg]. split; cbn; [| |set_solver| |set_solver|done].
  - intros k x Hk. apply lookup_insert_Some in Hk as [[_ <-]|[_ Hk]]; [set_solver|].
    destruct (Ho _ _ Hk). split; [set_solver|done].
  - intros k k' x Hk Hk'. apply lookup_insert_Some in Hk as [[<- <-]|[Hn Hk]];
      apply lookup_insert_Some in Hk' as [[<- E']|[Hn' Hk']]; [done|..|by eapply Hi].
    + by destruct (Ho _ _ Hk').
    + subst x. by destruct (Ho _ _ Hk).
  - intros x Hx'. apply elem_of_union in Hx' as [Hx'|Hx'].
    + apply elem_of_singleton in Hx' as ->. right. exists id. by rewrite lookup_insert_eq.
    + destruct (Hd x Hx') as [?|[k Hk]]; [by left|]. right. exists k. rewrite lookup_insert_ne; [done|congruence].
Qed.

Lemma close_new_links st D X conn c :
  conn ∉ D -> conn ∉ X -> links_ok st D X c -> links_ok st ({[conn]} ∪ D) X (close_conn conn c).
Proof.
  intros Hf Hfx [Ho Hi Hc Hd Hx Hg]. split; cbn; [|done|set_solver| |set_solver|done].
  - intros k x Hk. destruct (Ho _ _ Hk) as [Hin Ho']. split; [set_solver|]. intros Hst. specialize (Ho' Hst). set_solver.
  - intros x Hx'. apply elem_of_union in Hx' as [Hx'|Hx']; [set_solver|].
    destruct (Hd x Hx') as [?|Hk]; [set_solver|by right].
Qed.

Lemma decline_links st D X conn c : conn ∉ D -> links_ok st D X c -> links_ok st D ({[conn]} ∪ X) c.
Proof. intros Hf [Ho Hi Hc Hd Hx Hg]. split; [done..|set_solver|done]. Qed.

(** Stopping closes what the table holds, and keeps it there. *)
Lemma stop_links st D X c : links_ok st D X c -> links_ok true D X (Stop c).
Proof.
  intros Hl. unfold Stop. destruct (negb (cl_started c)).
  { destruct Hl as [Ho Hi Hc Hd Hx Hg]. split; try done. intros id conn Hk. by destruct (Ho _ _ Hk). }
  destruct Hl as [Ho Hi Hc Hd Hx Hg]. split; cbn; [|done| | |done|done].
  - intros id conn Hk. split; [|done]. by eapply Ho.
  - intros x. rewrite elem_of_union, elem_of_list_to_set, list_elem_of_fmap. intros [([k y] & -> & Hk)|Hin]; [|by apply Hc].
    apply elem_of_map_to_list in Hk. by eapply Ho.
  - intros x Hx'. destruct (Hd x Hx') as [?|?]; [left; set_solver|by right].
Qed.

Lemma stop_closes c id conn : cl_started c = true -> cl_conns c !! id = Some conn -> conn ∈ cl_closed (Stop c).
Proof.
  intros Hs Hk. unfold Stop. rewrite Hs. cbn. apply elem_of_union_l, elem_of_list_to_set, list_elem_of_fmap.
  exists (id, conn). split; [done|]. by apply elem_of_map_to_list.
Qed.

Lemma end_dial_links st D X m c :
  links_ok st D X c ->
  links_ok st D X (set_dials (cl_dialing c ∖ {[nm_ID m]}) (filter (fun x => nm_ID x <> nm_ID m) (cl_dials c)) c).
Proof.
  intros [Ho Hi Hc Hd Hx [Hn Hs]]. split; [done..|]. cbn. split.
  - clear Hs. induction (cl_dials c) as [|x l IH]; [constructor|]. cbn in Hn. apply NoDup_cons in Hn as [Hxx Hn].
    rewrite filter_cons. destruct (decide _); [|by apply IH]. cbn. apply NoDup_cons. split; [|by apply IH].
    intros (y & Hy & Hin)%list_elem_of_fmap. apply list_elem_of_filter in Hin as [_ Hin].
    apply Hxx, list_elem_of_fmap. by exists y.
  - rewrite Hs. apply set_eq. intros x.
    change (x ∈ node_ids (cl_dials c) ∖ {[nm_ID m]} <-> x ∈ node_ids (filter (fun x => nm_ID x <> nm_ID m) (cl_dials c))).
    rewrite elem_of_difference, elem_of_singleton, !elem_of_node_ids. split.
    + intros [(y & Hy & <-) Hne]. exists y. by rewrite list_elem_of_filter.
    + intros (y & [Hne Hy]%list_elem_of_filter & <-). eauto.
Qed.

Lemma run_op_links st D X o c :
  (forall conn, conn ∈ brought_by o -> conn ∉ D /\ conn ∉ X) -> peers_named c -> links_ok st D X c ->
  peers_named (run_op c o) /\
  links_ok (st || is_stop o) (list_to_set (taken_by c o) ∪ D) (list_to_set (declined_by c o) ∪ X) (run_op c o).
Proof.
  intros Hf Hp Hl. destruct o as [ev|m [conn|e]|id conn|id|id conn|m|tags|key|le pe|]; cbn in *;
    rewrite ?orb_false_r, ?orb_true_r, ?(left_id_L ∅ (∪)), ?(right_id_L ∅ (∪)).
  - destruct (handle_links st D X ev c Hp Hl) as (? & ? & _). done.
  - destruct (Hf conn) as [Hn Hnx]; [left|]. unfold dialPeer. cbn.
    apply (end_dial_links st D X m) in Hl. destruct (cl_conns c !! nm_ID m) eqn:E.
    + split; [done|]. by apply (close_new_links st D X conn _ Hn) in Hl.
    + split; [done|]. by apply (insert_links st D X (nm_ID m) conn _ Hn) in Hl.
  - split; [done|]. by apply end_dial_links.
  - destruct (Hf conn) as [Hn Hnx]; [left|]. unfold storeDialed.
    destruct (cl_conns c !! id) eqn:E; cbn; (split; [done|]).
    + by apply close_new_links.
    + by apply insert_links.
  - split; [|by apply remove_links]. unfold peers_named, removeConnection. by destruct (_ !! id).
  - destruct (Hf conn) as [Hn Hnx]; [left|]. unfold OnConnectionEstablished.
    destruct (cl_conns c !! id) eqn:E; (split; [done|]);
      [rewrite bool_decide_eq_true_2 by done|rewrite bool_decide_eq_false_2 by (by intros [])]; cbn;
      rewrite ?(left_id_L ∅ (∪)), ?(right_id_L ∅ (∪)).
    + by apply decline_links.
    + by apply insert_links.
  - unfold UpdatePeerMeta. destruct (cl_peers c !! nm_ID m) eqn:E; [|done].
    destruct (tagsEqual _ _); [done|]. cbn. split; [|by destruct Hl]. by apply map_Forall_insert_2.
  - split; [done|]. by destruct Hl.
  - split; [done|]. by destruct Hl.
  - unfold Start. destruct (cl_started c); [done|]. destruct le; [|destruct pe]; (split; [done|by destruct Hl]).
  - split; [unfold Stop; by destruct (negb _)|]. by eapply stop_links.
Qed.

(** A connection an operation brings is taken or declined. *)
Lemma brought_split c o conn : conn ∈ brought_by o <-> conn ∈ taken_by c o \/ conn ∈ declined_by c o.
Proof.
  assert (conn ∉ []) as Hn by apply not_elem_of_nil.
  destruct o; cbn; try tauto. destruct (bool_decide _); tauto.
Qed.

Lemma brought_splits os c conn : conn ∈ os ≫= brought_by <-> conn ∈ taken c os \/ conn ∈ declined c os.
Proof.
  revert c. induction os as [|o os IH]; intros c; [cbn; assert (conn ∉ []) by apply not_elem_of_nil; tauto|].
  change ((o :: os) ≫= brought_by) with (brought_by o ++ (os ≫= brought_by)). cbn [taken declined].
  rewrite !elem_of_app, (IH (run_op c o)), (brought_split c). tauto.
Qed.

Lemma dialed_taken os c conn : conn ∈ os ≫= dialed_by -> conn ∈ taken c os.
Proof.
  revert c. induction os as [|o os IH]; intros c; [done|].
  change ((o :: os) ≫= dialed_by) with (dialed_by o ++ (os ≫= dialed_by)). cbn [taken]. rewrite !elem_of_app.
  intros [H|H]; [left|right; by apply IH]. destruct o; try done. by apply not_elem_of_nil in H.
Qed.

Lemma run_ops_links st D X os c :
  NoDup (os ≫= brought_by) -> (forall conn, conn ∈ os ≫= brought_by -> conn ∉ D /\ conn ∉ X) ->
  peers_named c -> links_ok st D X c ->
  links_ok (st || existsb is_stop os) (list_to_set (taken c os) ∪ D) (list_to_set (declined c os) ∪ X) (foldl run_op c os).
Proof.
  revert st D X c. induction os as [|o os IH]; intros st D X c Hn Hf Hp Hl.
  { cbn. rewrite orb_false_r, !(left_id_L ∅ (∪)). done. }
  change ((o :: os) ≫= brought_by) with (brought_by o ++ (os ≫= brought_by)) in *.
  apply NoDup_app in Hn as (H1 & H2 & H3). cbn [foldl taken declined existsb].
  destruct (run_op_links st D X o c) as [Ip Il]; [|done..|].
  { intros x Hx. apply Hf, elem_of_app. by left. }
  rewrite !list_to_set_app_L, orb_assoc.
  assert (forall conn, conn ∈ os ≫= brought_by -> conn ∉ list_to_set (taken_by c o) ∪ D /\ conn ∉ list_to_set (declined_by c o) ∪ X) as Hf'.
  { intros x Hx. assert (x ∉ brought_by o) as Hb by (intros Hx'; by apply (H2 x)).
    rewrite (brought_split c) in Hb. destruct (Hf x) as [? ?]; [apply elem_of_app; by right|]. set_solver. }
  specialize (IH _ _ _ _ H3 Hf' Ip Il).
  rewrite (union_comm_L (list_to_set (taken_by c o))), (union_comm_L (list_to_set (declined_by c o))), <- !(assoc_L (∪)).
  exact IH.
Qed.

(** C22: in every interleaving of a node's critical sections (membership events,
    dials that return, connections made on demand, inbound connections, failed
    sends, metadata updates, starts and stops): every connection the node dialled
    is in its table or has been closed; so is every inbound one, unless it was
    declined because its peer had a connection when it came, and a declined
    connection is neither stored nor closed by the node; no connection is kept for
    two peers; until the node is stopped none it keeps is closed; stopping a
    started node closes every connection in its table (they stay in the table);
    and at most one dial per peer is in progress. *)
Theorem connections_are_accounted_for (cfg : ClusterConfig) (c0 c : Cluster) (os : list cluster_op) :
  NewCluster cfg = inl c0 -> NoDup (os ≫= brought_by) -> foldl run_op c0 os = c ->
  let kept conn := exists id, cl_conns c !! id = Some conn in
  (forall conn, conn ∈ os ≫= dialed_by -> conn ∈ cl_closed c \/ kept conn) /\
  (forall conn, conn ∈ os ≫= brought_by -> conn ∈ cl_closed c \/ kept conn \/ conn ∈ declined c0 os) /\
  (forall conn, conn ∈ declined c0 os -> (conn ∉ cl_closed c) /\ (kept conn -> False)) /\
  (forall id id' conn, cl_conns c !! id = Some conn -> cl_conns c !! id' = Some conn -> id = id') /\
  (OStop ∉ os -> forall id conn, cl_conns c !! id = Some conn -> conn ∉ cl_closed c) /\
  (cl_started c = true -> cl_conns (Stop c) = cl_conns c /\
     forall conn, conn ∈ os ≫= brought_by -> conn ∈ cl_closed (Stop c) \/ conn ∈ declined c0 os) /\
  NoDup (nm_ID <$> cl_dials c) /\ cl_dialing c = node_ids (cl_dials c).
Proof.
  intros H0 Hn <-. cbv zeta. set (c := foldl run_op c0 os).
  assert (links_ok (existsb is_stop os) (list_to_set (taken c0 os)) (list_to_set (declined c0 os)) c) as [Ho Hi Hc Hd Hx Hg].
  { pose proof (run_ops_links false ∅ ∅ os c0 Hn) as H. rewrite !(right_id_L ∅ (∪)) in H. apply H.
    - set_solver.
    - unfold NewCluster in H0. repeat (destruct (_ : bool); [done|]). injection H0 as <-. apply map_Forall_empty.
    - unfold NewCluster in H0. repeat (destruct (_ : bool); [done|]). injection H0 as <-. cbn.
      split; cbn; [done|done|done|set_solver|set_solver|]. split; [constructor|done]. }
  assert (forall conn, conn ∈ taken c0 os -> conn ∈ cl_closed c \/ exists id, cl_conns c !! id = Some conn) as Ht.
  { intros conn H. by apply Hd, elem_of_list_to_set. }
  split_and!; [| | |done| | |apply Hg|apply Hg].
  - intros conn H. by apply Ht, dialed_taken.
  - intros conn H. rewrite (brought_splits os c0) in H. destruct H as [H|H]; [destruct (Ht conn H)|]; auto.
  - intros conn H. rewrite <- (elem_of_list_to_set (C := gset Connection)) in H. split.
    + intros Hc'. apply Hc in Hc'. set_solver.
    + intros [id Hid]. destruct (Ho _ _ Hid). set_solver.
  - intros Hs id conn Hid. apply (Ho _ _ Hid). apply not_true_iff_false. intros (x & Hin & Ex)%existsb_exists.
    apply list_elem_of_In in Hin. by destruct x.
  - intros Hs. split; [unfold Stop; by rewrite Hs|]. intros conn H. rewrite (brought_splits os c0) in H.
    destruct H as [H|H]; [left|by right]. destruct (Ht conn H) as [Hcl|[id Hid]]; [|by eapply stop_closes].
    unfold Stop. rewrite Hs. cbn. by apply elem_of_union_r.
Qed.

Definition node_meta (id : NodeID) : NodeMeta := mkNodeMeta id (id +:+ ":9000") ∅ 0.

Definition example_cfg (topo : option TopologyImpl) (id : NodeID) : ClusterConfig :=
  mkClusterConfig (node_meta id) true true topo 0.

(** [b] connects, fails, comes back, is dialled, and connects a second time, which
    is declined. *)
Definition example_ops : list cluster_op :=
  [OStart None None; OEvent (mkMemberEvent MemberJoin (node_meta "b")); OInbound "b" (1, "b"%string);
   ODialed (node_meta "b") (inl (2, "b"%string)); OEvent (mkMemberEvent MemberFailed (node_meta "b"));
   OEvent (mkMemberEvent MemberJoin (node_meta "b")); ODialed (node_meta "b") (inl (3, "b"%string));
   OInbound "b" (4, "b"%string)].

Definition example_start : Cluster :=
  match NewCluster (example_cfg None "a") with inl c => c | inr _ => mkCluster (node_meta "a") (TopologyFullMesh FullMesh) 0 ∅ ∅ ∅ [] ∅ false end.

Lemma connections_are_accounted_for_witness :
  exists c0 c, NewCluster (example_cfg None "a") = inl c0 /\ foldl run_op c0 example_ops = c /\
  cl_conns c !! "b"%string = Some (3, "b"%string) /\ declined c0 example_ops = [(4, "b"%string)] /\
  (forall conn, conn ∈ example_ops ≫= dialed_by -> conn ∈ cl_closed c \/ exists id, cl_conns c !! id = Some conn) /\
  forall conn, conn ∈ example_ops ≫= brought_by -> conn ∈ cl_closed (Stop c) \/ conn ∈ declined c0 example_ops.
Proof.
  exists example_start, (foldl run_op example_start example_ops).
  split; [reflexivity|]. split; [reflexivity|]. split; [vm_compute; reflexivity|]. split; [vm_compute; reflexivity|].
  destruct (connections_are_accounted_for (example_cfg None "a") example_start (foldl run_op example_start example_ops)
    example_ops eq_refl) as (H1 & _ & _ & _ & _ & H2 & _).
  - apply (bool_decide_unpack _). vm_compute. exact I.
  - reflexivity.
  - split; [exact H1|]. apply H2. vm_compute. reflexivity.
Defined.

(** ** Connections follow the topology *)

Lemma dial_desired_spec desired c :
  cl_conns (foldl dial_desired c desired) = cl_conns c /\ cl_peers (foldl dial_desired c desired) = cl_peers c /\
  cl_Self (foldl dial_desired c desired) = cl_Self c /\
  cl_Topology (foldl dial_desired c desired) = cl_Topology c /\
  cl_dialing c ⊆ cl_dialing (foldl dial_desired c desired) /\
  (forall id, id ∈ desired -> is_Some (cl_peers c !! id) ->
     is_Some (cl_conns c !! id) \/ id ∈ cl_dialing (foldl dial_desired c desired)).
Proof.
  revert c. induction desired as [|x desired IH]; intros c; cbn [foldl].
  { split_and!; [done..|]. intros id Hid. by apply not_elem_of_nil in Hid. }
  destruct (IH (dial_desired c x)) as (H1 & H2 & H3 & H4 & H5 & H6).
  assert (cl_conns (dial_desired c x) = cl_conns c /\ cl_peers (dial_desired c x) = cl_peers c /\
    cl_Self (dial_desired c x) = cl_Self c /\ cl_Topology (dial_desired c x) = cl_Topology c /\
    cl_dialing c ⊆ cl_dialing (dial_desired c x) /\
    (is_Some (cl_peers c !! x) -> is_Some (cl_conns c !! x) \/ x ∈ cl_dialing (dial_desired c x)))
    as (E1 & E2 & E3 & E4 & E5 & E6).
  { unfold dial_desired. destruct (_ && _) eqn:E.
    - destruct (cl_peers c !! x) eqn:Ex; split_and!; try done; cbn; try (by intros []); set_solver.
    - split_and!; [done..|]. intros _. apply andb_false_iff in E as [E|E]; bprop; auto. }
  rewrite H1, H2, H3, H4, E1, E2, E3, E4. split_and!; [done..| |].
  - by etransitivity.
  - intros id Hid Hp. apply elem_of_cons in Hid as [->|Hid].
    + destruct (E6 Hp); [by left|]. right. by apply H5.
    + destruct (H6 id Hid) as [?|?]; rewrite ?E1, ?E2 in *; auto.
Qed.

Lemma removeConnection_other id c :
  cl_peers (removeConnection id c) = cl_peers c /\ cl_Self (removeConnection id c) = cl_Self c /\
  cl_Topology (removeConnection id c) = cl_Topology c.
Proof. unfold removeConnection. by destruct (_ !! id). Qed.

(** The node with the event's member recorded or gone. *)
Definition record_event (ev : MemberEvent) (c : Cluster) : Cluster :=
  match me_Type ev with
  | MemberJoin | MemberUpdated => set_peers (<[nm_ID (me_Member ev) := me_Member ev]> (cl_peers c)) c
  | MemberLeave | MemberFailed =>
      removeConnection (nm_ID (me_Member ev)) (set_peers (delete (nm_ID (me_Member ev)) (cl_peers c)) c)
  end.

Lemma record_event_spec ev c :
  cl_peers (record_event ev c) = apply_event (cl_peers c) ev /\ cl_Self (record_event ev c) = cl_Self c /\
  cl_Topology (record_event ev c) = cl_Topology c.
Proof.
  unfold record_event, apply_event. destruct (me_Type ev); [done| | |done];
    exact (removeConnection_other _ (set_peers (delete (nm_ID (me_Member ev)) (cl_peers c)) c)).
Qed.

Lemma handleMemberEvent_spec ev c :
  handleMemberEvent ev c = reconcileConnectionsLocked (record_event ev c).
Proof. done. Qed.

Lemma handleMemberEvent_frame ev c :
  cl_peers (handleMemberEvent ev c) = apply_event (cl_peers c) ev /\
  cl_Self (handleMemberEvent ev c) = cl_Self c /\ cl_Topology (handleMemberEvent ev c) = cl_Topology c.
Proof.
  rewrite handleMemberEvent_spec. unfold reconcileConnectionsLocked. cbn zeta.
  set (desired := ShouldConnect _ _ _). destruct (record_event_spec ev c) as (E1 & E2 & E3).
  destruct (dial_desired_spec desired (record_event ev c)) as (_ & H2 & H3 & H4 & _ & _).
  split_and!; [by rewrite <- E1|by rewrite <- E2|by rewrite <- E3].
Qed.

Lemma apply_event_named ev c : peers_named c -> map_Forall (fun id m => nm_ID m = id) (apply_event (cl_peers c) ev).
Proof. apply apply_event_ok. Qed.

(** After a membership event the peers are those the event leaves, every
    connection is to a node the topology asks for, and every node it asks for is
    connected or being dialled. *)
Theorem events_reconcile_connections (ev : MemberEvent) (c : Cluster) :
  topo_ok (cl_Topology c) -> peers_named c ->
  let c' := handleMemberEvent ev c in
  let desired := ShouldConnect (cl_Topology c) (LocalNodeID c) (memberListLocked c') in
  cl_peers c' = apply_event (cl_peers c) ev /\
  (forall id, IsConnected id c' = true -> id ∈ desired) /\
  (forall id, id ∈ desired -> IsConnected id c' = true \/ id ∈ cl_dialing c').
Proof.
  intros Hok Hn c' desired. destruct (handleMemberEvent_frame ev c) as (Hp & Hs & Ht). fold c' in Hp, Hs, Ht.
  set (c1 := record_event ev c). destruct (record_event_spec ev c) as (E1 & E2 & E3). fold c1 in E1, E2, E3.
  assert (memberListLocked c' = memberListLocked c1) as Em.
  { unfold memberListLocked, Members. by rewrite Hp, Hs, E1, E2. }
  assert (c' = close_undesired desired (foldl dial_desired c1 desired)) as Ec.
  { unfold desired, LocalNodeID. rewrite Em. unfold c'. rewrite handleMemberEvent_spec.
    unfold reconcileConnectionsLocked. cbn zeta. fold c1. by rewrite E2, E3. }
  destruct (dial_desired_spec desired c1) as (D1 & D2 & D3 & D4 & D5 & D6). split_and!; [done|..].
  - intros id Hid. unfold IsConnected in Hid. bprop. destruct Hid as [conn Hid]. rewrite Ec in Hid. cbn in Hid.
    by apply map_lookup_filter_Some in Hid as [_ ?].
  - intros id Hid. destruct (D6 id Hid) as [[conn Hc]|Hd].
    + pose proof Hid as Hid'. unfold desired in Hid'. apply topo_connect in Hid' as [Hin Hne]; [|done].
      apply elem_of_node_ids in Hin as (m & Hm & <-). unfold memberListLocked in Hm.
      apply elem_of_cons in Hm as [->|Hm]; [unfold LocalNodeID in Hne; by rewrite Hs in Hne|].
      apply list_elem_of_fmap in Hm as ([k x] & -> & Hm). apply elem_of_map_to_list in Hm. cbn.
      rewrite E1, <- Hp. pose proof (apply_event_named ev c Hn) as Hn'. rewrite <- Hp in Hn'.
      rewrite (Hn' _ _ Hm). by eexists.
    + left. unfold IsConnected. apply bool_decide_eq_true. rewrite Ec. exists conn.
      apply map_lookup_filter_Some. split; [by rewrite D1|done].
    + right. rewrite Ec. exact Hd.
Qed.

Lemma events_reconcile_connections_witness :
  exists c, NewCluster (example_cfg (Some (TopologyRing (NewRingTopology 1 1))) "a") = inl c /\
  let c' := handleMemberEvent (mkMemberEvent MemberJoin (node_meta "b")) c in
  cl_peers c' !! "b"%string = Some (node_meta "b") /\ "b"%string ∈ cl_dialing c' /\
  forall id, IsConnected id c' = true ->
    id ∈ ShouldConnect (cl_Topology c) (LocalNodeID c) (memberListLocked c').
Proof.
  eexists. split; [vm_compute; reflexivity|]. cbn zeta. split; [vm_compute; reflexivity|].
  split; [apply (bool_decide_unpack _); vm_compute; exact I|].
  apply events_reconcile_connections.
  - vm_compute. discriminate.
  - by vm_compute.
Defined.

(** ** A node that follows its provider *)

(** A poller with its consumer: a received event is handled by the node. *)
Definition run_node (o : poller_op) (st : Poller.Poller * Cluster * nat) :
    option (Poller.Poller * Cluster * nat) :=
  let '(p, c, n) := st in
  match o with
  | PRecv => Some ((Poller.recv p).1, match (Poller.recv p).2 with Some ev => handleMemberEvent ev c | None => c end, n)
  | _ => st' ← run_poller o (p, ∅, n); Some (st'.1.1, c, st'.2)
  end.

Fixpoint run_nodes (os : list poller_op) (st : Poller.Poller * Cluster * nat) :
    option (Poller.Poller * Cluster * nat) :=
  match os with [] => Some st | o :: os => st ← run_node o st; run_nodes os st end.

(** The node's peers are the consumer's view. *)
Lemma run_nodes_view os p c n p' c' n' :
  run_nodes os (p, c, n) = Some (p', c', n') ->
  run_pollers os (p, cl_peers c, n) = Some (p', cl_peers c', n').
Proof.
  revert p c n. induction os as [|o os IH]; intros p c n H; cbn in *; [by simplify_eq|].
  apply bind_Some in H as ([[p1 c1] n1] & H1 & H). apply IH in H. rewrite <- H. clear H.
  destruct o as [s| |d|]; cbn [run_node run_poller] in *.
  - cbn in *. by simplify_eq.
  - apply bind_Some in H1 as ([[p2 v2] n2] & H1 & H2). apply bind_Some in H1 as (r & H1 & H3).
    rewrite H1. cbn. by simplify_eq/=.
  - apply bind_Some in H1 as ([[p2 v2] n2] & H1 & H2). apply bind_Some in H1 as (r & H1 & H3).
    rewrite H1. cbn. by simplify_eq/=.
  - injection H1 as <- <- <-. destruct (Poller.recv p).2 as [ev|]; [|done].
    by rewrite (proj1 (handleMemberEvent_frame ev c)).
Qed.

#[local] Existing Instance Poller.peerState_state.

(** When every event was handled and none dropped, the consumer's view is the
    provider's. *)
Lemma settled_view os p0 p v n :
  Poller.members p0 = ∅ -> Poller.feed p0 = newFeed (ef_cap (Poller.feed p0)) ->
  run_pollers os (p0, ∅, 0%nat) = Some (p, v, n) -> Z.of_nat n < u64_modulus ->
  ef_dropped (Poller.feed p) = 0 -> ef_ch (Poller.feed p) = [] ->
  v = members_view (Poller.members p) /\ peers_ok (Poller.members p).
Proof.
  intros Hm Hf H Hn Hd Hch. destruct (run_pollers_mono _ _ _ _ _ _ _ H Hn) as [_ (Hs & _ & Hp)].
  - rewrite Hm, Hf. split_and!; [done|unfold drops; cbn; lia|apply map_Forall_empty].
  - specialize (Hs Hd). cbn [fst snd] in Hs. rewrite Hch in Hs. cbn in Hs. by split.
Qed.

Lemma members_of_view c p :
  cl_peers c = members_view (Poller.members p) -> peers_ok (Poller.members p) ->
  forall m, m ∈ Members c <-> m ∈ Poller.Members p.
Proof.
  intros Hs Hp m. rewrite (listed_members (Poller.members p) m Hp : m ∈ Poller.Members p <-> _), <- Hs.
  unfold Members. rewrite list_elem_of_fmap.
  assert (map_Forall (fun id m => nm_ID m = id) (cl_peers c)) as Hnamed.
  { rewrite Hs. intros id x Hx. unfold members_view in Hx. rewrite lookup_omap in Hx.
    apply bind_Some in Hx as (ps & Hps & Hx). apply Hp in Hps. unfold alive_of in Hx.
    destruct (peer_alive ps); [|done]. by injection Hx as <-. }
  split.
  - intros ([k x] & -> & Hx). apply elem_of_map_to_list in Hx. cbn. by rewrite (Hnamed _ _ Hx).
  - intros Hx. exists (nm_ID m, m). by rewrite elem_of_map_to_list.
Qed.

(** A node that has handled every event its polling provider emitted has
    exactly the provider's members as peers, whatever was discovered in between,
    unless the provider dropped events (over fewer than [2^64] peer updates). *)
Theorem node_follows_provider (pc : Poller.PollerConfig) (cfg : ClusterConfig) (os : list poller_op)
    (c0 c : Cluster) (p : Poller.Poller) (n : nat) :
  NewCluster cfg = inl c0 -> run_nodes os (Poller.NewPoller pc, c0, 0%nat) = Some (p, c, n) ->
  Z.of_nat n < u64_modulus -> ef_dropped (Poller.feed p) = 0 -> ef_ch (Poller.feed p) = [] ->
  forall m, m ∈ Members c <-> m ∈ Poller.Members p.
Proof.
  intros H0 H Hn Hd Hch m. apply run_nodes_view in H.
  assert (cl_peers c0 = ∅) as E0.
  { unfold NewCluster in H0. repeat (destruct (_ : bool); [done|]). by injection H0 as <-. }
  rewrite E0 in H. destruct (settled_view os (Poller.NewPoller pc) p (cl_peers c) n) as [Hs Hp]; [done..|].
  by apply members_of_view.
Qed.

Lemma node_follows_provider_witness :
  exists c0 p c n, NewCluster (example_cfg None "a") = inl c0 /\
  run_nodes [PStart (node_meta "a"); PPoll (Some [node_meta "a"; node_meta "b"]); PRecv]
    (Poller.NewPoller (Poller.mkPollerConfig 0 0 0), c0, 0%nat) = Some (p, c, n) /\
  forall m, m ∈ Members c <-> m ∈ Poller.Members p.
Proof.
  eexists _, _, _, _. split; [vm_compute; reflexivity|]. split; [vm_compute; reflexivity|].
  eapply (node_follows_provider (Poller.mkPollerConfig 0 0 0) (example_cfg None "a")
    [PStart (node_meta "a"); PPoll (Some [node_meta "a"; node_meta "b"]); PRecv]).
  - vm_compute. reflexivity.
  - vm_compute. reflexivity.
  - vm_compute. reflexivity.
  - vm_compute. reflexivity.
  - vm_compute. reflexivity.
Defined.
