(* ===== verification/Remote.v ===== *)
(** * Messages between nodes ([cluster/remote_send.go],
      [cluster/inbound_handler.go])

    A message for an actor of another node is encoded in an envelope and sent
    with [SendRemote]; a node that receives an envelope for another node sends
    it on, and hands one for itself to a system handler or to its runtime.  The
    codec and the system handlers are parameters. *)

From S2P Require Import Prelude Types Resolver Routing State Emit Send.
From S2P Require Import GoSort Nodes Topology Ring Feed Cluster.

(** [Codec]: the encoded bytes or an error. *)
Record Codec := mkCodec {
  cd_Encode : payload -> string + string;
  cd_Decode : string -> payload + string
}.

(** [s[n:]]. *)
Fixpoint dropString (n : nat) (s : string) : string :=
  match n, s with
  | O, _ => s
  | S n, String _ s => dropString n s
  | S _, EmptyString => EmptyString
  end.

(** [nodeIDFromNamespace]. *)
Definition nodeIDFromNamespace (ns : string) : NodeID :=
  if hasPrefix ns "__ask_reply@" then dropString 12 ns else ns.

Lemma nodeID_of_reply node : nodeIDFromNamespace ("__ask_reply@" +:+ node) = node.
Proof. reflexivity. Qed.

(** ** Sending *)

(** The acknowledgement, the error, and what went out on a connection. *)
Record sendReport := mkSendReport {
  sr_ack : PIDSendAck;
  sr_err : option string;
  sr_wire : option (Connection * Envelope)
}.

Section sender.
Variables (codec : Codec) (now : Z).
Variables (dialed : string -> Connection + string) (sendErr : Connection -> option string).

(** Encode, build the envelope and send it: the common part of [Send] and
    [SendAsk], up to the metrics. *)
Definition sendEnvelope (mk : string -> Envelope) (pid : PID) (p : payload) (msgID : Z) (c : Cluster) :
    Cluster * sendReport :=
  match cd_Encode codec p with
  | inr e =>
      (c, mkSendReport (mkPIDSendAck PIDRejectedNotFound msgID) (Some ("encode payload: " +:+ e)) None)
  | inl encoded =>
      match SendRemote now dialed sendErr (nodeIDFromNamespace (Namespace pid)) (mk encoded) c with
      | (c, SendError e) => (c, mkSendReport (mkPIDSendAck PIDUnresolved msgID) (Some e) None)
      | (c, Sent conn env) => (c, mkSendReport (mkPIDSendAck PIDDelivered msgID) None (Some (conn, env)))
      end
  end.

Definition RemoteSender_Send (senderActorID : string) (pid : PID) (p : payload) (msgID : Z) (c : Cluster) :
    Cluster * sendReport :=
  sendEnvelope (fun encoded =>
    mkEnvelope (LocalNodeID c) senderActorID (nodeIDFromNamespace (Namespace pid)) (ActorID pid)
      (Namespace pid) (Generation pid) (messageTypeName p) "" msgID encoded false "" None now)
    pid p msgID c.

Definition RemoteSender_SendAsk (senderActorID : string) (pid : PID) (p : payload) (msgID : Z)
    (askRequestID : string) (replyTo : PID) (c : Cluster) : Cluster * sendReport :=
  sendEnvelope (fun encoded =>
    mkEnvelope (LocalNodeID c) senderActorID (nodeIDFromNamespace (Namespace pid)) (ActorID pid)
      (Namespace pid) (Generation pid) (messageTypeName p) "" msgID encoded true askRequestID
      (Some (mkRemotePID (Namespace replyTo) (Namespace replyTo) (ActorID replyTo) (Generation replyTo))) now)
    pid p msgID c.
End sender.

(** ** Receiving *)

(** [RuntimeBridge]; an operation that does not terminate has no result. *)
Class RuntimeBridge (B : Type) := {
  bridge_DeliverLocal : string -> payload -> option AskRequestContext -> B -> option (B * SubmitAck);
  bridge_DeliverPID : PID -> payload -> B -> option (B * PIDSendAck);
  bridge_NodeID : B -> string
}.

(** The runtime, with fuel for chains of routers. *)
Definition Runtime_bridge (fuel : nat) : RuntimeBridge Runtime := {|
  bridge_DeliverLocal := DeliverLocal fuel;
  bridge_DeliverPID := DeliverPID fuel;
  bridge_NodeID r := cf_nodeID (rt_cfg r)
|}.

(** [InboundDispatcher]: whether it has a cluster, and its handlers by type. *)
Record InboundDispatcher (H : Type) := mkInboundDispatcher {
  id_cluster : bool;
  id_handlers : gmap string H
}.
Arguments mkInboundDispatcher {H} _ _.
Arguments id_cluster {H} _.
Arguments id_handlers {H} _.

Definition NewInboundDispatcher {H} : InboundDispatcher H := mkInboundDispatcher false ∅.

Definition SetCluster {H} (d : InboundDispatcher H) : InboundDispatcher H :=
  mkInboundDispatcher true (id_handlers d).

Definition RegisterHandler {H} (typeName : string) (handler : H) (d : InboundDispatcher H) : InboundDispatcher H :=
  mkInboundDispatcher (id_cluster d) (<[typeName := handler]> (id_handlers d)).

(** What [Dispatch] did with an envelope. *)
Inductive dispatched (H : Type) :=
  | Forwarded (o : sendOutcome)
  | Handled (h : H) (from : NodeID)
  | Undecodable (err : string)
  | DeliveredLocal (ack : SubmitAck)
  | DeliveredPID (ack : PIDSendAck).
Arguments Forwarded {H} _.
Arguments Handled {H} _ _.
Arguments Undecodable {H} _.
Arguments DeliveredLocal {H} _.
Arguments DeliveredPID {H} _.

Section dispatch.
Context {H B : Type} `{RuntimeBridge B}.
Variables (codec : Codec) (now : Z).
Variables (dialed : string -> Connection + string) (sendErr : Connection -> option string).

(** An envelope for the node itself. *)
Definition dispatch_here (from : NodeID) (env : Envelope) (d : InboundDispatcher H) (b : B) :
    option (B * dispatched H) :=
  match id_handlers d !! en_TypeName env with
  | Some handler => Some (b, Handled handler from)
  | None =>
      match cd_Decode codec (en_Payload env) with
      | inr e =>
          Some (b, Undecodable ("dispatch: decode payload (type=" +:+ en_TypeName env +:+ ", from=" +:+ from
                                  +:+ "): " +:+ e))
      | inl p =>
          let deliver askCtx :=
            '(b, ack) ← bridge_DeliverLocal (en_TargetActorID env) p askCtx b; Some (b, DeliveredLocal ack) in
          match (if en_IsAsk env then en_AskReplyTo env else None) with
          | Some r =>
              deliver (Some (mkAskRequestContext (en_AskRequestID env)
                (mkPID (rp_Namespace r) (rp_ActorID r) (rp_Generation r))))
          | None =>
              if isAskReplyLocal (en_Namespace env) (bridge_NodeID b)
              then '(b, ack) ← bridge_DeliverPID
                     (mkPID (en_Namespace env) (en_TargetActorID env) (en_Generation env)) p b;
                   Some (b, DeliveredPID ack)
              else deliver None
          end
      end
  end.

(** Whether an envelope goes on to another node. *)
Definition forwards (env : Envelope) (d : InboundDispatcher H) (b : B) : bool :=
  id_cluster d && negb (bool_decide (en_TargetNode env = ""%string))
    && negb (bool_decide (en_TargetNode env = bridge_NodeID b)).

Definition Dispatch (from : NodeID) (env : Envelope) (d : InboundDispatcher H) (c : Cluster) (b : B) :
    option (Cluster * B * dispatched H) :=
  if forwards env d b then
    let '(c, o) := SendRemote now dialed sendErr (en_TargetNode env) env c in Some (c, b, Forwarded o)
  else
    '(b, o) ← dispatch_here from env d b; Some (c, b, o).
End dispatch.
