(* ===== verification/Relay.v ===== *)
(** * Messages reach their node

    In a cluster whose nodes know the same members and hold the connections
    their topology asks for, an envelope is sent on from node to node, never
    farther from its target, until the target's dispatcher has it. *)

From S2P Require Import Prelude Types Resolver Routing State Emit Send.
From S2P Require Import Program Prim System Invariants Scheduler Safety Asks.
From S2P Require Import GoSort Nodes Topology Ring Feed Cluster Remote.

(** ** A network of nodes *)

Record node (H : Type) := mkNode {
  nd_cluster : Cluster;
  nd_runtime : Runtime;
  nd_dispatcher : InboundDispatcher H
}.
Arguments mkNode {H} _ _ _.
Arguments nd_cluster {H} _.
Arguments nd_runtime {H} _.
Arguments nd_dispatcher {H} _.

Section network.
Context {H : Type}.
Variables (codec : Codec) (now : Z) (router_fuel : nat).
Variables (dialed : string -> Connection + string).
#[local] Instance bridge : RuntimeBridge Runtime := Runtime_bridge router_fuel.
Abbreviation network := (gmap NodeID (node H)).

(** The transport hands an envelope to the node at the other end of the
    connection, whose dispatcher may send it on: what the last dispatcher did,
    after at most [fuel] further hops. *)
Fixpoint deliver (fuel : nat) (from at_ : NodeID) (env : Envelope) (w : network) :
    option (network * NodeID * dispatched H) :=
  nd ← w !! at_;
  '(c, b, o) ← Dispatch codec now dialed (fun _ => None) from env (nd_dispatcher nd) (nd_cluster nd) (nd_runtime nd);
  let w := <[at_ := mkNode c b (nd_dispatcher nd)]> w in
  match o, fuel with
  | Forwarded (Sent conn env), S fuel => deliver fuel at_ (RemoteNodeID conn) env w
  | Forwarded (Sent _ _), O => None
  | _, _ => Some (w, at_, o)
  end.

(** All nodes of [S] know exactly the nodes of [S], hold the connections their
    topology asks for, and every connection leads to the node it is kept for. *)
Definition settled (t : TopologyImpl) (S : gset NodeID) (a : NodeID) (nd : node H) : Prop :=
  LocalNodeID (nd_cluster nd) = a /\ cf_nodeID (rt_cfg (nd_runtime nd)) = a /\
  id_cluster (nd_dispatcher nd) = true /\ cl_Topology (nd_cluster nd) = t /\
  known a (memberListLocked (nd_cluster nd)) = S /\
  (forall id conn, cl_conns (nd_cluster nd) !! id = Some conn -> RemoteNodeID conn = id /\ id ∈ S) /\
  (forall hop, hop ∈ ShouldConnect t a (memberListLocked (nd_cluster nd)) ->
     is_Some (cl_conns (nd_cluster nd) !! hop)).

Definition settled_network (t : TopologyImpl) (S : gset NodeID) (w : network) : Prop :=
  forall a, a ∈ S -> exists nd, w !! a = Some nd /\ settled t S a nd.

Section settled.
Variables (t : TopologyImpl) (S : gset NodeID).
Hypothesis Hok : topo_ok t.
Hypothesis Hempty : ""%string ∉ S.
Variable target : NodeID.
Hypothesis Htarget : target ∈ S.

(** Sending to another node goes out on one of the node's connections, the direct
    one if there is one, to a node that is closer, and changes nothing at the
    sender. *)
Lemma settled_hop a nd env :
  settled t S a nd -> a <> target -> en_SentAtUnixNano env <> 0 ->
  exists conn, SendRemote now dialed (fun _ => None) target env (nd_cluster nd) = (nd_cluster nd, Sent conn env) /\
    RemoteNodeID conn ∈ S /\ (topo_dist t S (RemoteNodeID conn) target < topo_dist t S a target)%nat /\
    cl_conns (nd_cluster nd) !! RemoteNodeID conn = Some conn /\
    (is_Some (cl_conns (nd_cluster nd) !! target) -> RemoteNodeID conn = target).
Proof.
  intros (E1 & E2 & E3 & E4 & E5 & E6 & E7) Hne Hs. unfold SendRemote.
  rewrite (proj2 (Z.eqb_neq _ _) Hs). unfold send_on.
  assert (a ∈ S) as Ha by (rewrite <- E5; apply elem_of_known; by left).
  destruct (cl_conns (nd_cluster nd) !! target) as [conn|] eqn:Ec.
  - exists conn. destruct (E6 _ _ Ec) as [-> _]. split_and!; [done|done| |done|done].
    assert (topo_dist t S target target = 0%nat) as -> by (by apply (topo_dist_0 t S)).
    destruct (decide (topo_dist t S a target = 0%nat)) as [E0|]; [|lia].
    by apply (topo_dist_0 t S) in E0.
  - unfold LocalNodeID in E1. rewrite E1, E4.
    destruct (topo_route t a target (memberListLocked (nd_cluster nd))) as (hop & R1 & R2 & R3 & R4);
      rewrite ?E5 in *; [done|done| |done|].
    { rewrite <- E5 in Htarget. apply elem_of_known in Htarget as [?|?]; congruence. }
    rewrite R1. destruct (E7 hop R3) as [conn Hc]. rewrite bool_decide_false by congruence. rewrite Hc.
    exists conn. destruct (E6 _ _ Hc) as [-> _]. split_and!; [done..|]. by intros [? ?].
Qed.

Lemma settled_send a nd env :
  settled t S a nd -> a <> target -> en_SentAtUnixNano env <> 0 ->
  exists conn, SendRemote now dialed (fun _ => None) target env (nd_cluster nd) = (nd_cluster nd, Sent conn env) /\
    RemoteNodeID conn ∈ S /\ (topo_dist t S (RemoteNodeID conn) target < topo_dist t S a target)%nat.
Proof. intros H1 H2 H3. destruct (settled_hop a nd env H1 H2 H3) as (conn & ? & ? & ? & _). by exists conn. Qed.

(** What the target's dispatcher does with an envelope, from some node. *)
Definition arrival (from : NodeID) (env : Envelope) (nd : node H) (w : network) :
    option (network * NodeID * dispatched H) :=
  '(b, o) ← dispatch_here codec from env (nd_dispatcher nd) (nd_runtime nd);
  Some (<[target := mkNode (nd_cluster nd) b (nd_dispatcher nd)]> w, target, o).

Lemma dispatch_here_local from env d b b' o :
  dispatch_here codec from env d b = Some (b', o : dispatched H) -> forall x, o <> Forwarded x.
Proof.
  unfold dispatch_here. destruct (id_handlers d !! _); [by intros [= <- <-]|].
  destruct (cd_Decode _ _) as [p|e]; [|by intros [= <- <-]].
  destruct (if en_IsAsk env then _ else _); [|destruct (isAskReplyLocal _ _)];
    intros H1; apply bind_Some in H1 as ([? ?] & _ & [= <- <-]); done.
Qed.

(** It is the one that handed the envelope in, or one no farther than where it was
    handed in. *)
Lemma deliver_origin fuel from a env w nd :
  settled_network t S w -> a ∈ S -> w !! target = Some nd ->
  en_TargetNode env = target -> en_SentAtUnixNano env <> 0 ->
  (topo_dist t S a target <= fuel)%nat ->
  exists from', deliver fuel from a env w = arrival from' env nd w /\ (a = target -> from' = from) /\
    (a <> target -> topo_dist t S from' target <= topo_dist t S a target)%nat.
Proof.
  intros Hw Ha Hnd Ht Hs. revert from a Ha. induction fuel as [|fuel IH]; intros from a Ha Hd.
  all: destruct (Hw a Ha) as (na & Hna & Hset); pose proof Hset as (E1 & E2 & E3 & E4 & _).
  all: destruct (decide (a = target)) as [->|Hne].
  1,3: exists from; split; [|by split]; cbn [deliver]; rewrite Hna; cbn [mbind option_bind]; assert (na = nd) as -> by congruence.
  1,2: unfold Dispatch, forwards, arrival; cbn [bridge bridge_NodeID Runtime_bridge];
    rewrite E2, Ht, (bool_decide_true (target = target)), andb_false_r by done.
  1,2: destruct (dispatch_here codec from env _ _) as [[b o]|] eqn:Eh; cbn; [|done];
    destruct o; try done; by destruct (dispatch_here_local _ _ _ _ _ _ Eh o).
  - exfalso. apply Hne, (topo_dist_0 t S); [done..|lia].
  - cbn [deliver]. rewrite Hna. cbn [mbind option_bind].
    destruct (settled_send a na env Hset Hne Hs) as (conn & Es & Hin & Hlt).
    assert (a <> ""%string) as Ha0 by congruence.
    unfold Dispatch, forwards. cbn [bridge bridge_NodeID Runtime_bridge].
    rewrite E2, E3, Ht, !bool_decide_false by congruence. cbn [andb negb]. rewrite Es. cbn.
    destruct (IH a (RemoteNodeID conn) Hin ltac:(lia)) as (from' & IHf & Hf1 & Hf2). exists from'. split.
    + rewrite <- IHf. f_equal. apply insert_id. rewrite Hna. by destruct na.
    + split; [done|]. intros _. destruct (decide (RemoteNodeID conn = target)) as [E|Hn]; [by rewrite (Hf1 E)|].
      specialize (Hf2 Hn). apply (Nat.le_trans _ _ _ Hf2), Nat.lt_le_incl, Hlt.
Qed.

Lemma deliver_settled fuel from a env w nd :
  settled_network t S w -> a ∈ S -> w !! target = Some nd ->
  en_TargetNode env = target -> en_SentAtUnixNano env <> 0 ->
  (topo_dist t S a target <= fuel)%nat ->
  exists from', deliver fuel from a env w = arrival from' env nd w.
Proof.
  intros H1 H2 H3 H4 H5 H6. destruct (deliver_origin fuel from a env w nd H1 H2 H3 H4 H5 H6) as (from' & E & _). by exists from'.
Qed.
End settled.
End network.

(** A reply that the runtime receives for a pending request ends the request. *)
Lemma deliverPID_reply fuel w p r :
  ask_ok r -> kp_wait (rt_ask r) !! pa_requestID w = Some w ->
  are_RequestID (reply_envelope (pa_requestID w) (rt_now r) p) = pa_requestID w ->
  exists r1 r2 ack, DeliverPID fuel (pa_replyTo w) p r = Some (r1, ack) /\ psa_Outcome ack = PIDDelivered /\
    AskEnd w WakeReply r1 = Some (r2, inl (mkAskResult (pa_requestID w)
      (are_Payload (reply_envelope (pa_requestID w) (rt_now r) p)))).
Proof.
  intros Hok Hw He. set (m := u64_succ (rt_msgSeq r)).
  destruct (reply_pending w p m (set_msgSeq m r) Hok Hw He) as (r1 & E1 & Hch & _).
  change (rt_now (set_msgSeq m r)) with (rt_now r) in *.
  exists (emitPID EventPIDDelivered (pa_replyTo w) m PIDDelivered "" r1). unfold AskEnd.
  assert (forall code, rt_ask (emitPID EventPIDDelivered (pa_replyTo w) m PIDDelivered code r1) = rt_ask r1) as Ea
    by done.
  rewrite Ea, Hch. eexists _, (mkPIDSendAck PIDDelivered m). split_and!; [|done|by rewrite He].
  unfold DeliverPID, SendPID, sendPIDWithSender. unfold mbind, M_bind, total, nextMsgID. fold m. by rewrite E1.
Qed.

(** ** Messages, asks and replies between nodes *)

Section messages.
Context {H : Type}.
Variables (codec : Codec) (now : Z) (router_fuel : nat) (dialed : string -> Connection + string).
Variables (t : TopologyImpl) (S : gset NodeID) (w : gmap NodeID (node H)).
Hypothesis Hok : topo_ok t.
Hypothesis Hempty : ""%string ∉ S.
Hypothesis Hw : settled_network t S w.
Hypothesis Hnow : now <> 0.

(** What one node sends arrives where it is addressed to. *)
Lemma sent_arrives mk pid p bytes msgID a target na nt fuel :
  w !! a = Some na -> w !! target = Some nt -> a ∈ S -> target ∈ S -> a <> target ->
  nodeIDFromNamespace (Namespace pid) = target ->
  cd_Encode codec p = inl bytes ->
  en_TargetNode (mk bytes) = target -> en_SentAtUnixNano (mk bytes) = now ->
  (topo_dist t S a target <= fuel)%nat ->
  exists conn from, sendEnvelope codec now dialed (fun _ => None) mk pid p msgID (nd_cluster na) =
    (nd_cluster na, mkSendReport (mkPIDSendAck PIDDelivered msgID) None (Some (conn, mk bytes))) /\
    deliver codec now router_fuel dialed fuel a (RemoteNodeID conn) (mk bytes) w =
      arrival codec router_fuel target from (mk bytes) nt w.
Proof.
  intros Ha Ht HaS HtS Hne Hns Henc Htn Hat Hfuel.
  destruct (Hw a HaS) as (na' & Ha' & Hset). assert (na' = na) as -> by congruence.
  destruct (settled_send now dialed t S Hok Hempty target HtS a na (mk bytes) Hset Hne ltac:(congruence))
    as (conn & Es & Hin & Hlt).
  destruct (deliver_settled codec now router_fuel dialed t S Hok Hempty target HtS fuel a (RemoteNodeID conn)
    (mk bytes) w nt Hw Hin Ht Htn ltac:(congruence) ltac:(lia)) as (from & Ed).
  exists conn, from. split; [|done]. unfold sendEnvelope. by rewrite Henc, Hns, Es.
Qed.

(** The reply address travels as a [RemotePID]. *)
Definition ask_context (ask : option (string * PID)) : option AskRequestContext :=
  '(rid, replyTo) ← ask; Some (mkAskRequestContext rid replyTo).

Definition send_message (sender : string) (pid : PID) (p : payload) (msgID : Z) (ask : option (string * PID))
    (c : Cluster) : Cluster * sendReport :=
  match ask with
  | None => RemoteSender_Send codec now dialed (fun _ => None) sender pid p msgID c
  | Some (rid, replyTo) =>
      RemoteSender_SendAsk codec now dialed (fun _ => None) sender pid p msgID rid replyTo c
  end.
End messages.

(** C20: messages arrive.  In a cluster whose nodes know the same members and hold
    the connections their topology asks for, a message or an ask for an actor of
    another node is acknowledged as delivered and, however many hops away the
    node is, handed to that actor at its runtime with the payload that was sent
    and the address for the reply, within as many hops as the topology's
    distance; no node's connections change. *)
Theorem remote_messages_arrive {H} (codec : Codec) (now : Z) (rf fuel : nat)
    (dialed : string -> Connection + string) (t : TopologyImpl) (S : gset NodeID) (w : gmap NodeID (node H))
    (a target : NodeID) (na nt : node H) (sender : string) (pid : PID) (p : payload) (bytes : string)
    (msgID : Z) (ask : option (string * PID)) :
  topo_ok t -> ""%string ∉ S -> settled_network t S w -> now <> 0 ->
  a ∈ S -> target ∈ S -> a <> target -> w !! a = Some na -> w !! target = Some nt ->
  Namespace pid = target -> isAskReplyNamespace target = false ->
  cd_Encode codec p = inl bytes -> cd_Decode codec bytes = inl p ->
  id_handlers (nd_dispatcher nt) !! messageTypeName p = None ->
  (topo_dist t S a target <= fuel)%nat ->
  exists conn env, send_message codec now dialed sender pid p msgID ask (nd_cluster na) =
    (nd_cluster na, mkSendReport (mkPIDSendAck PIDDelivered msgID) None (Some (conn, env))) /\
  deliver codec now rf dialed fuel a (RemoteNodeID conn) env w =
    '(b, ack) ← DeliverLocal rf (ActorID pid) p (ask_context ask) (nd_runtime nt);
    Some (<[target := mkNode (nd_cluster nt) b (nd_dispatcher nt)]> w, target, DeliveredLocal ack).
Proof.
  intros Hok Hempty Hw Hnow HaS HtS Hne Ha Ht Hns Hnr Henc Hdec Hh Hfuel.
  unfold isAskReplyNamespace in Hnr. apply orb_false_iff in Hnr as [Hn1 Hn2].
  assert (nodeIDFromNamespace (Namespace pid) = target) as Hid.
  { unfold nodeIDFromNamespace. by rewrite Hns, Hn2. }
  assert (isAskReplyLocal target (cf_nodeID (rt_cfg (nd_runtime nt))) = false) as Hloc.
  { unfold isAskReplyLocal. change askReplyNamespace with "__ask_reply"%string in Hn1. rewrite Hn1.
    destruct (_ && _) eqn:E; [|done]. bprop.
    match goal with H : target = _ |- _ => rewrite H, hasPrefix_app in Hn2; done end. }
  destruct ask as [[rid replyTo]|].
  - destruct (sent_arrives codec now rf dialed t S w Hok Hempty Hw Hnow
      (fun encoded => mkEnvelope (LocalNodeID (nd_cluster na)) sender (nodeIDFromNamespace (Namespace pid)) (ActorID pid)
        (Namespace pid) (Generation pid) (messageTypeName p) "" msgID encoded true rid
        (Some (mkRemotePID (Namespace replyTo) (Namespace replyTo) (ActorID replyTo) (Generation replyTo))) now)
      pid p bytes msgID a target na nt fuel) as (conn & from & E1 & E2); try done.
    exists conn. eexists. split; [exact E1|]. rewrite E2. unfold arrival, dispatch_here. cbn [en_TypeName en_Payload].
    rewrite Hh, Hdec. cbn. destruct replyTo as [ns aid gen]. by destruct (DeliverLocal _ _ _ _ _) as [[??]|].
  - destruct (sent_arrives codec now rf dialed t S w Hok Hempty Hw Hnow
      (fun encoded => mkEnvelope (LocalNodeID (nd_cluster na)) sender (nodeIDFromNamespace (Namespace pid)) (ActorID pid)
        (Namespace pid) (Generation pid) (messageTypeName p) "" msgID encoded false "" None now)
      pid p bytes msgID a target na nt fuel) as (conn & from & E1 & E2); try done.
    exists conn. eexists. split; [exact E1|]. rewrite E2. unfold arrival, dispatch_here. cbn [en_TypeName en_Payload].
    rewrite Hh, Hdec. cbn -[isAskReplyLocal]. rewrite Hns, Hloc. by destruct (DeliverLocal _ _ _ _ _) as [[??]|].
Qed.

(** C21: replies come back.  When a node answers an ask of an actor of another
    node, the reply it sends to the request's address arrives at the asking node
    however many hops away, is acknowledged there, and the waiting call returns
    the payload of the reply under its own request ID. *)
Theorem remote_replies_return {H} (codec : Codec) (now : Z) (rf fuel : nat)
    (dialed : string -> Connection + string) (t : TopologyImpl) (S : gset NodeID) (w : gmap NodeID (node H))
    (a b : NodeID) (na nb : node H) (sender : string) (ask : pendingAsk) (p : payload) (bytes : string)
    (msgID : Z) sf cfg d now0 :
  topo_ok t -> ""%string ∉ S -> settled_network t S w -> now <> 0 ->
  a ∈ S -> b ∈ S -> b <> a -> w !! a = Some na -> w !! b = Some nb ->
  reachable sf cfg d now0 (nd_runtime na) ->
  kp_wait (rt_ask (nd_runtime na)) !! pa_requestID ask = Some ask ->
  are_RequestID (reply_envelope (pa_requestID ask) (rt_now (nd_runtime na)) p) = pa_requestID ask ->
  cd_Encode codec p = inl bytes -> cd_Decode codec bytes = inl p ->
  id_handlers (nd_dispatcher na) !! messageTypeName p = None ->
  (topo_dist t S b a <= fuel)%nat ->
  exists conn env r1 ack, RemoteSender_Send codec now dialed (fun _ => None) sender (pa_replyTo ask) p msgID
      (nd_cluster nb) =
    (nd_cluster nb, mkSendReport (mkPIDSendAck PIDDelivered msgID) None (Some (conn, env))) /\
  deliver codec now rf dialed fuel b (RemoteNodeID conn) env w =
    Some (<[a := mkNode (nd_cluster na) r1 (nd_dispatcher na)]> w, a, DeliveredPID ack) /\
  psa_Outcome ack = PIDDelivered /\
  exists r2, AskEnd ask WakeReply r1 = Some (r2, inl (mkAskResult (pa_requestID ask)
    (are_Payload (reply_envelope (pa_requestID ask) (rt_now (nd_runtime na)) p)))).
Proof.
  intros Hok Hempty Hw Hnow Ha Hb Hne Hna Hnb Hr Hwait He Henc Hdec Hh Hfuel.
  destruct (Hw a Ha) as (na' & Hna' & Hset). assert (na' = na) as -> by congruence.
  destruct Hset as (_ & Enode & _). apply reachable_ok in Hr as [_ Hask _ _ _].
  destruct (kok_wait _ _ Hask _ _ Hwait) as (_ & Hcan & _).
  assert (Namespace (pa_replyTo ask) = "__ask_reply@" +:+ a) as Hns.
  { rewrite Hcan, Enode, bool_decide_false by congruence. done. }
  destruct (deliverPID_reply rf ask p (nd_runtime na) Hask Hwait He) as (r1 & r2 & ack & Ed & Eack & Eend).
  destruct (sent_arrives codec now rf dialed t S w Hok Hempty Hw Hnow
    (fun encoded => mkEnvelope (LocalNodeID (nd_cluster nb)) sender (nodeIDFromNamespace (Namespace (pa_replyTo ask)))
      (ActorID (pa_replyTo ask)) (Namespace (pa_replyTo ask)) (Generation (pa_replyTo ask))
      (messageTypeName p) "" msgID encoded false "" None now)
    (pa_replyTo ask) p bytes msgID b a nb na fuel) as (conn & from & E1 & E2); try done.
  { by rewrite Hns. }
  { cbn -[nodeIDFromNamespace]. by rewrite Hns. }
  exists conn. eexists _, r1, ack. split; [exact E1|]. rewrite E2. split_and!; [|done|by exists r2].
  unfold arrival, dispatch_here. cbn [en_TypeName en_Payload]. rewrite Hh, Hdec.
  assert (isAskReplyLocal (Namespace (pa_replyTo ask)) (cf_nodeID (rt_cfg (nd_runtime na))) = true) as El.
  { unfold isAskReplyLocal. rewrite Hns, Enode, (bool_decide_false (a = ""%string)) by congruence. cbn [negb andb].
    rewrite (bool_decide_true (("__ask_reply@" +:+ a) = ("__ask_reply@" +:+ a))) by done. by destruct (bool_decide _). }
  cbn -[isAskReplyLocal]. rewrite El.
  assert (mkPID (Namespace (pa_replyTo ask)) (ActorID (pa_replyTo ask)) (Generation (pa_replyTo ask)) = pa_replyTo ask)
    as -> by (by destruct (pa_replyTo ask)).
  by rewrite Ed.
Qed.

(** ** A ring of five nodes *)

Definition ring_ids : list NodeID := ["a"; "b"; "c"; "d"; "e"]%string.

Definition example_ring : TopologyImpl := TopologyRing (NewRingTopology 1 1).

Definition ring_cluster (id : NodeID) : Cluster :=
  let meta x := mkNodeMeta x (x +:+ ":9000") ∅ 0 in
  let peers := list_to_map ((fun x => (x, meta x)) <$> filter (fun x => x <> id) ring_ids) in
  let c := mkCluster (meta id) example_ring 5000000000 ∅ peers ∅ [] ∅ true in
  let desired := ShouldConnect example_ring id (memberListLocked c) in
  set_conns (list_to_map ((fun x => (x, (0, x))) <$> desired)) c.

(** A runtime of the node [id], at which [a] is an actor and a caller waits for
    an answer to its ask. *)
Definition node_cfg (id : NodeID) : config :=
  mkConfig (cf_policy defaultConfig) id None None false None false false false false (fun _ => 0) (fun _ => false)
    (fun _ _ => None).

Definition node_runtime (id : NodeID) : Runtime :=
  default (NewRuntime (node_cfg id) true 0) (schedule 2 asking (NewRuntime (node_cfg id) true 0)).

(** Jobs as decimal numbers. *)
Definition example_codec : Codec :=
  mkCodec (fun p => match p with PUser v => inl (itoa (uv_Content v)) | _ => inr "not a job"%string end)
    (fun s => match Atoi s with Some n => inl (job n) | None => inr "not a number"%string end).

Definition ring_node (id : NodeID) : node unit :=
  mkNode (ring_cluster id) (node_runtime id) (mkInboundDispatcher true ∅).

Definition ring_network : gmap NodeID (node unit) :=
  list_to_map ((fun id => (id, ring_node id)) <$> ring_ids).

Lemma ring_network_lookup a : a ∈ ring_ids -> ring_network !! a = Some (ring_node a).
Proof.
  intros Ha. unfold ring_network. apply elem_of_list_to_map_1.
  - rewrite <- list_fmap_compose. apply (bool_decide_unpack _). vm_compute. exact I.
  - apply list_elem_of_fmap. by exists a.
Qed.

(** What is to be computed for each node. *)
Definition ring_check (a : NodeID) : bool :=
  let c := ring_cluster a in
  bool_decide (cf_nodeID (rt_cfg (node_runtime a)) = a) &&
  bool_decide (known a (memberListLocked c) = list_to_set ring_ids) &&
  bool_decide (map_Forall (fun id conn => RemoteNodeID conn = id /\ id ∈ (list_to_set ring_ids : gset NodeID))
    (cl_conns c)) &&
  forallb (fun hop => bool_decide (is_Some (cl_conns c !! hop))) (ShouldConnect example_ring a (memberListLocked c)).

Lemma ring_network_settled : settled_network example_ring (list_to_set ring_ids) ring_network.
Proof.
  intros a Ha. rewrite elem_of_list_to_set in Ha. exists (ring_node a). split; [by apply ring_network_lookup|].
  assert (forallb ring_check ring_ids = true) as Hc by (vm_compute; reflexivity).
  rewrite forallb_forall in Hc. specialize (Hc a ltac:(by apply list_elem_of_In)). unfold ring_check in Hc. bprop.
  split_and!; [reflexivity|assumption|reflexivity|reflexivity|assumption|assumption|].
  intros hop Hhop. rewrite forallb_forall in H0.
  specialize (H0 hop ltac:(by apply list_elem_of_In)). by bprop.
Qed.

Lemma remote_messages_arrive_witness :
  exists conn env w ack, send_message example_codec 9 (fun _ => inr ErrDialFailed) "client" (mkPID "d" "a" 1) (job 7) 5
      (Some ("ask-1"%string, mkPID "__ask_reply@a" "ask-1" 1)) (ring_cluster "a") =
    (ring_cluster "a", mkSendReport (mkPIDSendAck PIDDelivered 5) None (Some (conn, env))) /\
  deliver example_codec 9 2 (fun _ => inr ErrDialFailed) 5 "a" (RemoteNodeID conn) env ring_network =
    Some (w, "d"%string, DeliveredLocal ack) /\ sa_Result ack = SubmitAccepted.
Proof.
  destruct (remote_messages_arrive example_codec 9 2 5 (fun _ => inr ErrDialFailed) example_ring (list_to_set ring_ids)
    ring_network "a" "d" (ring_node "a") (ring_node "d") "client" (mkPID "d" "a" 1) (job 7) "7" 5
    (Some ("ask-1"%string, mkPID "__ask_reply@a" "ask-1" 1))) as (conn & env & E1 & E2).
  - vm_compute. discriminate.
  - apply (bool_decide_unpack _). vm_compute. exact I.
  - apply ring_network_settled.
  - discriminate.
  - apply (bool_decide_unpack _). vm_compute. exact I.
  - apply (bool_decide_unpack _). vm_compute. exact I.
  - discriminate.
  - vm_compute. reflexivity.
  - vm_compute. reflexivity.
  - reflexivity.
  - reflexivity.
  - vm_compute. reflexivity.
  - vm_compute. reflexivity.
  - reflexivity.
  - apply Nat.leb_le. vm_compute. reflexivity.
  - exists conn, env. eexists _, _. split; [exact E1|]. rewrite E2. split; [vm_compute; reflexivity|reflexivity].
Defined.

Lemma node_runtime_reachable id :
  is_Some (schedule 2 asking (NewRuntime (node_cfg id) true 0)) -> reachable 2 (node_cfg id) true 0 (node_runtime id).
Proof. intros [r H]. unfold node_runtime. rewrite H. by eapply schedule_reachable. Qed.

Definition ring_ask : pendingAsk := mkPendingAsk "ask-1" "a" (mkPID "__ask_reply@a" "ask-1" 1).

Lemma remote_replies_return_witness :
  exists conn env r1 ack, RemoteSender_Send example_codec 9 (fun _ => inr ErrDialFailed) (fun _ => None) "worker"
      (pa_replyTo ring_ask) (job 7) 6 (ring_cluster "d") =
    (ring_cluster "d", mkSendReport (mkPIDSendAck PIDDelivered 6) None (Some (conn, env))) /\
  deliver example_codec 9 2 (fun _ => inr ErrDialFailed) 5 "d" (RemoteNodeID conn) env ring_network =
    Some (<["a"%string := mkNode (ring_cluster "a") r1 (mkInboundDispatcher true ∅)]> ring_network, "a"%string,
      DeliveredPID ack) /\
  psa_Outcome ack = PIDDelivered /\
  exists r2, AskEnd ring_ask WakeReply r1 = Some (r2, inl (mkAskResult "ask-1" (job 7))).
Proof.
  apply (remote_replies_return example_codec 9 2 5 (fun _ => inr ErrDialFailed) example_ring (list_to_set ring_ids)
    ring_network "a" "d" (ring_node "a") (ring_node "d") "worker" ring_ask (job 7) "7" 6 2 (node_cfg "a") true 0).
  - vm_compute. discriminate.
  - apply (bool_decide_unpack _). vm_compute. exact I.
  - apply ring_network_settled.
  - discriminate.
  - apply (bool_decide_unpack _). vm_compute. exact I.
  - apply (bool_decide_unpack _). vm_compute. exact I.
  - discriminate.
  - apply ring_network_lookup. vm_compute. left.
  - apply ring_network_lookup. vm_compute. do 3 right. left.
  - apply node_runtime_reachable. vm_compute. eexists. reflexivity.
  - vm_compute. reflexivity.
  - reflexivity.
  - reflexivity.
  - vm_compute. reflexivity.
  - reflexivity.
  - apply Nat.leb_le. vm_compute. reflexivity.
Defined.
