(* ===== verification/Daemons.v ===== *)
(** * Daemon sets ([cluster/daemonset.go], [cluster/daemonset_replicated.go],
      [cluster/cron_daemon.go])

    A daemon is an actor that runs on every node its placement matches.  The
    manager of a node creates and stops the local instances and sends to the
    instances of other nodes.  The state of a replicated daemon is made by the
    CRDT library: what its factory returned is an argument. *)

From S2P Require Import Prelude Types Mailbox Resolver Registry Routing Program State Emit Send Lifecycle Cron.
From S2P Require Import Prim System Invariants Scheduler Safety Asks.
From S2P Require Import GoSort Nodes Topology Ring Feed Cluster Remote Relay.

Record DaemonSpec := mkDaemonSpec {
  ds_Name : string;
  ds_InitialState : payload;
  ds_Handler : option handler;
  ds_Options : list actorOption;
  ds_Placement : option NodeMatcher
}.

(** [dst_replicated]: what the factory of a replicated daemon returns (state and
    handler); [dst_closer]: whether there is CRDT state to close. *)
Record daemonState := mkDaemonState {
  dst_spec : DaemonSpec;
  dst_running : bool;
  dst_replicated : option (payload * handler);
  dst_closer : bool
}.

(** [DaemonSetManager].  [dm_closed] are the daemons whose CRDT state has been
    closed, [dm_types] the envelope types registered with the dispatcher. *)
Record DaemonSetManager := mkDaemonSetManager {
  dm_cluster : option Cluster;
  dm_codec : option Codec;
  dm_daemons : gmap string daemonState;
  dm_started : bool;
  dm_types : gset string;
  dm_closed : list string
}.

Definition NewDaemonSetManager (cluster : option Cluster) (codec : option Codec) : DaemonSetManager :=
  mkDaemonSetManager cluster codec ∅ false ∅ [].

Definition set_daemon (name : string) (d : daemonState) (dm : DaemonSetManager) : DaemonSetManager :=
  mkDaemonSetManager (dm_cluster dm) (dm_codec dm) (<[name := d]> (dm_daemons dm)) (dm_started dm)
    (dm_types dm) (dm_closed dm).

Definition set_dm_started (b : bool) (dm : DaemonSetManager) : DaemonSetManager :=
  mkDaemonSetManager (dm_cluster dm) (dm_codec dm) (dm_daemons dm) b (dm_types dm) (dm_closed dm).

Definition close_crdt (name : string) (dm : DaemonSetManager) : DaemonSetManager :=
  mkDaemonSetManager (dm_cluster dm) (dm_codec dm) (dm_daemons dm) (dm_started dm)
    (dm_types dm) (dm_closed dm ++ [name]).

Definition register_type (t : string) (dm : DaemonSetManager) : DaemonSetManager :=
  mkDaemonSetManager (dm_cluster dm) (dm_codec dm) (dm_daemons dm) (dm_started dm)
    ({[t]} ∪ dm_types dm) (dm_closed dm).

(** The daemon's flags after it was started or stopped. *)
Definition ran (running closer : bool) (d : daemonState) : daemonState :=
  mkDaemonState (dst_spec d) running (dst_replicated d) closer.

Section manager.
(** Fuel for the routers that notifications of a stopped actor go through. *)
Variable fuel : nat.

(** [shouldRunLocally]: without a cluster the node has no metadata but its ID. *)
Definition shouldRunLocally (spec : DaemonSpec) (dm : DaemonSetManager) (nodeID : NodeID) : bool :=
  match ds_Placement spec with
  | None => true
  | Some placement =>
      match dm_cluster dm with
      | None => placement (mkNodeMeta nodeID "" ∅ 0)
      | Some c => placement (Self c)
      end
  end.

(** [CreateActor] and, when it succeeds, [RegisterName]. *)
Definition createDaemon (spec : DaemonSpec) (state : payload) (h : option handler) (r : Runtime) : Runtime * bool :=
  match CreateActor (ds_Name spec) state h (ds_Options spec) r with
  | (r, Some _) => (r, false)
  | (r, None) => ((RegisterName (ds_Name spec) (ds_Name spec) (cf_nodeID (rt_cfg r)) r).1, true)
  end.

Definition startReplicatedDaemon (d : daemonState) (state : payload) (h : handler) (dm : DaemonSetManager)
    (r : Runtime) : DaemonSetManager * Runtime :=
  let name := ds_Name (dst_spec d) in
  let dm := match dm_cluster dm with Some _ => register_type ("__crdt_" +:+ name) dm | None => dm end in
  match createDaemon (dst_spec d) state (Some h) r with
  | (r, true) => (set_daemon name (ran true true d) dm, r)
  | (r, false) => (close_crdt name dm, r)
  end.

(** The stopping half of [reconcileDaemon]; [Stop] may not terminate. *)
Definition stopDaemon (name : string) (d : daemonState) (dm : DaemonSetManager) (r : Runtime) :
    option (DaemonSetManager * Runtime) :=
  '(r, _) ← Lifecycle.Stop fuel name r;
  let dm := if dst_closer d then close_crdt name dm else dm in
  Some (set_daemon name (ran false false d) dm, r).

Definition reconcileDaemon (name : string) (dm : DaemonSetManager) (r : Runtime) :
    option (DaemonSetManager * Runtime) :=
  match dm_daemons dm !! name with
  | None => Some (dm, r)
  | Some d =>
      let shouldRun := shouldRunLocally (dst_spec d) dm (cf_nodeID (rt_cfg r)) in
      if shouldRun && negb (dst_running d) then
        match dst_replicated d with
        | Some (state, h) => Some (startReplicatedDaemon d state h dm r)
        | None =>
            let spec := dst_spec d in
            let '(r, ok) := createDaemon spec (ds_InitialState spec) (ds_Handler spec) r in
            Some (if ok then set_daemon name (ran true (dst_closer d) d) dm else dm, r)
        end
      else if negb shouldRun && dst_running d then
        stopDaemon name d dm (UnregisterName name r).1
      else Some (dm, r)
  end.

Fixpoint reconcile_all (names : list string) (dm : DaemonSetManager) (r : Runtime) :
    option (DaemonSetManager * Runtime) :=
  match names with
  | [] => Some (dm, r)
  | name :: names => '(dm, r) ← reconcileDaemon name dm r; reconcile_all names dm r
  end.

Definition daemon_names (dm : DaemonSetManager) : list string := fst <$> map_to_list (dm_daemons dm).

(** [Register] and [RegisterReplicated]. *)
Definition registerDaemon (spec : DaemonSpec) (replicated : option (payload * handler))
    (dm : DaemonSetManager) (r : Runtime) : option (DaemonSetManager * Runtime) :=
  let dm := set_daemon (ds_Name spec) (mkDaemonState spec false replicated false) dm in
  if dm_started dm then reconcileDaemon (ds_Name spec) dm r else Some (dm, r).

Definition Register (spec : DaemonSpec) := registerDaemon spec None.

Definition RegisterReplicated (name : string) (placement : option NodeMatcher) (created : payload * handler) :=
  registerDaemon (mkDaemonSpec name PNil None [] placement) (Some created).

Definition RegisterCronDaemon (cronID : string) (placement : option NodeMatcher) (dm : DaemonSetManager)
    (r : Runtime) : option (DaemonSetManager * Runtime) :=
  let cronID := if bool_decide (cronID = ""%string) then DefaultCronActorID else cronID in
  let '(r, h) := CronHandler cronID r in
  Register (mkDaemonSpec cronID PNil (Some h) [WithMailboxCapacity 65536] placement) dm r.

Definition Start (dm : DaemonSetManager) (r : Runtime) : option (DaemonSetManager * Runtime) :=
  reconcile_all (daemon_names dm) (set_dm_started true dm) r.

Definition Reconcile (dm : DaemonSetManager) (r : Runtime) : option (DaemonSetManager * Runtime) :=
  if negb (dm_started dm) then Some (dm, r) else reconcile_all (daemon_names dm) dm r.

Fixpoint stop_all (names : list string) (dm : DaemonSetManager) (r : Runtime) :
    option (DaemonSetManager * Runtime) :=
  match names with
  | [] => Some (dm, r)
  | name :: names =>
      '(dm, r) ← (match dm_daemons dm !! name with
                  | Some d => if dst_running d then stopDaemon name d dm r else Some (dm, r)
                  | None => Some (dm, r)
                  end);
      stop_all names dm r
  end.

Definition StopAll (dm : DaemonSetManager) (r : Runtime) : option (DaemonSetManager * Runtime) :=
  stop_all (daemon_names dm) (set_dm_started false dm) r.

Definition Running (dm : DaemonSetManager) : list string :=
  omap (fun '(name, d) => if dst_running d then Some name else None) (map_to_list (dm_daemons dm)).

(** ** Messages to daemons *)

Definition pidOutcomeFromSubmit (res : SubmitResult) : PIDDeliveryOutcome :=
  match res with SubmitAccepted => PIDDelivered | _ => PIDRejectedNotFound end.

Section messages.
Variables (now : Z) (dialed : string -> Connection + string) (sendErr : Connection -> option string).

(** [SendTo]: what the node's cluster transmitted, if anything. *)
Definition SendTo (name : string) (nodeID : NodeID) (p : payload) (dm : DaemonSetManager) (r : Runtime) :
    option (DaemonSetManager * Runtime * PIDSendAck * option (Connection * Envelope)) :=
  let no_cluster := match dm_cluster dm with None => true | Some _ => false end in
  if bool_decide (nodeID = cf_nodeID (rt_cfg r)) || (no_cluster && bool_decide (nodeID = ""%string)) then
    '(r, ack) ← Send fuel name p r;
    Some (dm, r, mkPIDSendAck (pidOutcomeFromSubmit (sa_Result ack)) (sa_MessageID ack), None)
  else
    match dm_cluster dm, dm_codec dm with
    | Some c, Some codec =>
        match cd_Encode codec p with
        | inr _ => Some (dm, r, mkPIDSendAck PIDRejectedNotFound 0, None)
        | inl encoded =>
            let env := mkEnvelope (LocalNodeID c) "" nodeID name "" 0 (messageTypeName p) "" 0 encoded
                         false "" None now in
            let '(c, o) := SendRemote now dialed sendErr nodeID env c in
            let dm := mkDaemonSetManager (Some c) (dm_codec dm) (dm_daemons dm) (dm_started dm) (dm_types dm)
                        (dm_closed dm) in
            match o with
            | SendError _ => Some (dm, r, mkPIDSendAck PIDUnresolved 0, None)
            | Sent conn env => Some (dm, r, mkPIDSendAck PIDDelivered 0, Some (conn, env))
            end
        end
    | _, _ => Some (dm, r, mkPIDSendAck PIDRejectedNotFound 0, None)
    end.

(** [AskTo] up to its [select]. *)
Definition AskTo (name : string) (nodeID : NodeID) (p : payload) (timeout : Z) (dm : DaemonSetManager) :
    M (pendingAsk + string) :=
  fun r =>
  let no_cluster := match dm_cluster dm with None => true | Some _ => false end in
  if bool_decide (nodeID = cf_nodeID (rt_cfg r)) || (no_cluster && bool_decide (nodeID = ""%string))
  then AskBegin fuel name p timeout r
  else AskPIDBegin fuel (mkPID nodeID name 1) p timeout r.

(** [matchingNodes]. *)
Definition matchingNodes (name : string) (dm : DaemonSetManager) (r : Runtime) : list NodeID :=
  match dm_daemons dm !! name with
  | None => []
  | Some d =>
      (if shouldRunLocally (dst_spec d) dm (cf_nodeID (rt_cfg r)) then [cf_nodeID (rt_cfg r)] else []) ++
      match dm_cluster dm with
      | None => []
      | Some c => nm_ID <$> FilterNodes (Members c) (ds_Placement (dst_spec d))
      end
  end.

Fixpoint broadcast_loop (name : string) (nodes : list NodeID) (p : payload) (dm : DaemonSetManager) (r : Runtime) :
    option (DaemonSetManager * Runtime * list (PIDSendAck * option (Connection * Envelope))) :=
  match nodes with
  | [] => Some (dm, r, [])
  | nodeID :: nodes =>
      '(dm, r, ack, sent) ← SendTo name nodeID p dm r;
      '(dm, r, acks) ← broadcast_loop name nodes p dm r;
      Some (dm, r, (ack, sent) :: acks)
  end.

Definition Broadcast (name : string) (p : payload) (dm : DaemonSetManager) (r : Runtime) :=
  broadcast_loop name (matchingNodes name dm r) p dm r.
End messages.
End manager.

(** [daemonTopology.Peers], before the peers' IDs are hashed. *)
Definition daemon_peers (placement : option NodeMatcher) (c : Cluster) : list NodeID :=
  nm_ID <$> FilterNodes (Members c) placement.

(** ** Starting daemons *)

(** Every daemon is registered under its own name. *)
Definition daemons_named (dm : DaemonSetManager) : Prop :=
  map_Forall (fun name d => ds_Name (dst_spec d) = name) (dm_daemons dm).

Lemma IssuePID_actors ns id r : rt_actors (IssuePID ns id r).1 = rt_actors r /\ rt_cfg (IssuePID ns id r).1 = rt_cfg r.
Proof. unfold IssuePID. repeat (dmatch; simplify_eq/=); done. Qed.

Lemma RegisterName_actors a n ns r :
  rt_actors (RegisterName a n ns r).1 = rt_actors r /\ rt_cfg (RegisterName a n ns r).1 = rt_cfg r.
Proof.
  unfold RegisterName. destruct (lookup_actor a r); [|done]. cbv zeta.
  set (nsp := if bool_decide (ns = ""%string) then _ else ns).
  assert (rt_actors (pidInNamespace nsp a r).1 = rt_actors r /\ rt_cfg (pidInNamespace nsp a r).1 = rt_cfg r)
    as [E1 E2].
  { unfold pidInNamespace. pose proof (IssuePID_actors nsp a r).
    destruct (PIDForActor a r) as [pid|]; [destruct (bool_decide (Namespace pid = nsp))|]; try exact H; by split. }
  destruct (pidInNamespace nsp a r) as [r1 [p|e]]; cbn [fst] in *; [|done].
  destruct (nr_register _ _ _ _ _) as [names [e|e]]; cbn [fst]; [|done].
  by destruct (cf_clusterRegister _).
Qed.

Lemma createDaemon_new spec st h r :
  ds_Name spec <> ""%string -> lookup_actor (ds_Name spec) r = None ->
  exists r', createDaemon spec st (Some h) r = (r', true) /\ rt_cfg r' = rt_cfg r /\
    Status (ds_Name spec) r' = ActorStarting /\ is_Some (lookup_actor (ds_Name spec) r') /\
    forall y, y <> ds_Name spec -> lookup_actor y r' = lookup_actor y r.
Proof.
  intros Hne Hl. unfold createDaemon, CreateActor. rewrite bool_decide_false by done. cbn zeta.
  unfold lookup_actor, registry_get in Hl. unfold registry_put. rewrite Hl.
  set (r1 := set_actors _ r).
  destruct (RegisterName_actors (ds_Name spec) (ds_Name spec) (cf_nodeID (rt_cfg r1)) r1) as [E1 E2].
  eexists. split; [reflexivity|]. split; [by rewrite E2|].
  assert (forall y, lookup_actor y (RegisterName (ds_Name spec) (ds_Name spec) (cf_nodeID (rt_cfg r1)) r1).1 =
    lookup_actor y r1) as El by (intros y; unfold lookup_actor; by rewrite E1).
  split_and!.
  - unfold Status, actor_of. rewrite El. unfold instance. rewrite E1. unfold lookup_actor, registry_get. cbn.
    rewrite lookup_insert_eq. cbn. by rewrite lookup_insert_eq.
  - rewrite El. unfold lookup_actor, registry_get. cbn. rewrite lookup_insert_eq. by eexists.
  - intros y Hy. rewrite El. unfold lookup_actor, registry_get. cbn. by rewrite lookup_insert_ne.
Qed.

(** An actor of that name, stopped or not, prevents the creation. *)
Lemma createDaemon_present spec st h r :
  is_Some (lookup_actor (ds_Name spec) r) -> createDaemon spec st h r = (r, false).
Proof.
  intros [l Hl]. unfold createDaemon, CreateActor. destruct (bool_decide _); [done|]. destruct h as [h|]; [|done].
  unfold lookup_actor, registry_get in Hl. cbn zeta. unfold registry_put. by rewrite Hl.
Qed.

(** A daemon that can run: named, and with a handler of its own or its factory's. *)
Definition runnable (d : daemonState) : Prop :=
  ds_Name (dst_spec d) <> ""%string /\ (is_Some (ds_Handler (dst_spec d)) \/ is_Some (dst_replicated d)).

(** What one daemon becomes on a node where it has no actor yet. *)
Lemma reconcile_fresh fuel name d dm r :
  dm_daemons dm !! name = Some d -> ds_Name (dst_spec d) = name -> runnable d ->
  dst_running d = false -> lookup_actor name r = None ->
  exists dm' r' d', reconcileDaemon fuel name dm r = Some (dm', r') /\
    dm_daemons dm' = <[name := d']> (dm_daemons dm) /\ dst_spec d' = dst_spec d /\
    dm_cluster dm' = dm_cluster dm /\ rt_cfg r' = rt_cfg r /\
    dst_running d' = shouldRunLocally (dst_spec d) dm (cf_nodeID (rt_cfg r)) /\
    (dst_running d' = true -> Status name r' = ActorStarting) /\
    (forall y, y <> name -> lookup_actor y r' = lookup_actor y r) .
Proof.
  intros Hd Hn [Hne Hrun] Hr Hl. unfold reconcileDaemon. rewrite Hd, Hr. cbn [negb andb].
  rewrite !andb_true_r, andb_false_r. destruct (shouldRunLocally _ _ _) eqn:Es.
  - assert (exists h st, match dst_replicated d with
        | Some (state, h) => Some (startReplicatedDaemon d state h dm r)
        | None => let '(r, ok) := createDaemon (dst_spec d) (ds_InitialState (dst_spec d)) (ds_Handler (dst_spec d)) r in
            Some (if ok then set_daemon name (ran true (dst_closer d) d) dm else dm, r)
        end = (let '(r1, ok) := createDaemon (dst_spec d) st (Some h) r in
          Some (if ok then set_daemon name (ran true (bool_decide (is_Some (dst_replicated d)) || dst_closer d) d)
            (match dst_replicated d, dm_cluster dm with
             | Some _, Some _ => register_type ("__crdt_" +:+ name) dm | _, _ => dm end) else
            (match dst_replicated d with Some _ => close_crdt name (match dm_cluster dm with
               | Some _ => register_type ("__crdt_" +:+ name) dm | None => dm end) | None => dm end), r1)))
      as (h & st & ->).
    { destruct (dst_replicated d) as [[state h]|].
      - exists h, state. unfold startReplicatedDaemon. rewrite Hn. by destruct (createDaemon _ _ _ _) as [? []].
      - destruct Hrun as [[h Hh]|[? ?]]; [|done]. exists h, (ds_InitialState (dst_spec d)). rewrite Hh.
        by destruct (createDaemon _ _ _ _) as [? []]. }
    rewrite <- Hn in Hl. destruct (createDaemon_new _ st h r Hne Hl) as (r' & -> & Hc & Hs & _ & Ho).
    rewrite Hn in *. eexists _, r', (ran true (bool_decide (is_Some (dst_replicated d)) || dst_closer d) d).
    split; [reflexivity|]. split_and!; try done.
    + by destruct (dst_replicated d), (dm_cluster dm).
    + destruct (dst_replicated d); [|done]. destruct (dm_cluster dm) eqn:E; cbn; by rewrite ?E.
  - cbn [negb andb]. exists dm, r, d. split; [done|]. rewrite insert_id by done. split_and!; try done. congruence.
Qed.

(** The loop over fresh daemons. *)
Lemma reconcile_all_fresh fuel names dm r :
  NoDup names -> daemons_named dm ->
  (forall name, name ∈ names -> exists d, dm_daemons dm !! name = Some d /\ runnable d /\ dst_running d = false /\
     lookup_actor name r = None) ->
  exists dm' r', reconcile_all fuel names dm r = Some (dm', r') /\ dm_cluster dm' = dm_cluster dm /\
    rt_cfg r' = rt_cfg r /\
    (forall name, name ∉ names -> dm_daemons dm' !! name = dm_daemons dm !! name) /\
    (forall name d, name ∈ names -> dm_daemons dm !! name = Some d -> exists d', dm_daemons dm' !! name = Some d' /\
       dst_spec d' = dst_spec d /\ dst_running d' = shouldRunLocally (dst_spec d) dm (cf_nodeID (rt_cfg r)) /\
       (dst_running d' = true -> is_Some (lookup_actor name r'))) /\
    (forall y, y ∉ names -> lookup_actor y r' = lookup_actor y r).
Proof.
  revert dm r. induction names as [|x names IH]; intros dm r Hnd Hnm Hf; cbn [reconcile_all].
  { exists dm, r. split_and!; try done. intros ? ? H. by apply not_elem_of_nil in H. }
  apply NoDup_cons in Hnd as [Hx Hnd]. destruct (Hf x ltac:(left)) as (d & Hd & Hrun & Hr & Hl).
  destruct (reconcile_fresh fuel x d dm r Hd (Hnm _ _ Hd) Hrun Hr Hl)
    as (dm1 & r1 & d1 & -> & Hds & Hsp & Hc & Hcfg & Hrd & Hst & Hoth). cbn.
  destruct (IH dm1 r1 Hnd) as (dm' & r' & -> & Hc' & Hcfg' & Hout & Hin & Hoth').
  { intros name d2 H2. rewrite Hds in H2. apply lookup_insert_Some in H2 as [[<- <-]|[_ H2]]; [|by apply Hnm].
    rewrite Hsp. by apply Hnm. }
  { intros name Hname. destruct (Hf name ltac:(by right)) as (d2 & H2 & ? & ? & ?). exists d2.
    assert (name <> x) by (intros ->; done). rewrite Hds, lookup_insert_ne, Hoth by congruence. done. }
  exists dm', r'. split_and!; [done|congruence|congruence|..].
  - intros name Hname. rewrite not_elem_of_cons in Hname. destruct Hname as [N1 N2].
    rewrite Hout, Hds, lookup_insert_ne by congruence. done.
  - intros name d2 Hname H2. apply elem_of_cons in Hname as [->|Hname].
    + rewrite Hout, Hds, lookup_insert_eq by done. exists d1. assert (d2 = d) as -> by congruence.
      split_and!; [done|done|done|]. intros Hrun'. rewrite Hoth' by done. specialize (Hst Hrun').
      unfold Status, actor_of in Hst. destruct (lookup_actor x r1); [by eexists|done].
    + assert (name <> x) by (intros ->; done). destruct (Hin name d2 Hname) as (d' & E1 & E2 & E3 & E4).
      { by rewrite Hds, lookup_insert_ne by congruence. }
      exists d'. split_and!; [done|done| |done]. rewrite E3. unfold shouldRunLocally. by rewrite Hc, Hcfg.
  - intros y Hy. rewrite not_elem_of_cons in Hy. destruct Hy. rewrite Hoth', Hoth by done. done.
Qed.

(** When the manager starts on a node that has no actors of these names, a
    daemon runs exactly when its placement accepts the node, with an actor of its
    name. *)
Theorem start_runs_matching_daemons (fuel : nat) (dm : DaemonSetManager) (r : Runtime) :
  daemons_named dm ->
  map_Forall (fun name d => runnable d /\ dst_running d = false /\ lookup_actor name r = None) (dm_daemons dm) ->
  exists dm' r', Start fuel dm r = Some (dm', r') /\
    (forall name, is_Some (dm_daemons dm' !! name) <-> is_Some (dm_daemons dm !! name)) /\
    (forall name, name ∈ Running dm' <-> exists d, dm_daemons dm !! name = Some d /\
       shouldRunLocally (dst_spec d) dm (cf_nodeID (rt_cfg r)) = true) /\
    (forall name, name ∈ Running dm' -> is_Some (lookup_actor name r')).
Proof.
  intros Hnm Hf. unfold Start. set (dm1 := set_dm_started true dm).
  destruct (reconcile_all_fresh fuel (daemon_names dm1) dm1 r) as (dm' & r' & E & _ & _ & Hout & Hin & _).
  - apply NoDup_fst_map_to_list.
  - exact Hnm.
  - intros name Hname. apply list_elem_of_fmap in Hname as ([k d] & -> & Hk). apply elem_of_map_to_list in Hk.
    exists d. split; [done|]. by apply (Hf _ _ Hk).
  - assert (forall name, name ∈ daemon_names dm1 <-> is_Some (dm_daemons dm !! name)) as Hkeys.
    { intros name. unfold daemon_names. rewrite list_elem_of_fmap. split.
      - intros ([k d] & -> & Hk). apply elem_of_map_to_list in Hk. by exists d.
      - intros [d Hd]. exists (name, d). by rewrite elem_of_map_to_list. }
    assert (forall name, name ∈ Running dm' <-> exists d', dm_daemons dm' !! name = Some d' /\ dst_running d' = true)
      as Hrun.
    { intros name. unfold Running. rewrite list_elem_of_omap. split.
      - intros ([k d'] & Hk & E'). apply elem_of_map_to_list in Hk. destruct (dst_running d') eqn:Er; [|done].
        injection E' as ->. by exists d'.
      - intros (d' & Hd' & Er). exists (name, d'). rewrite elem_of_map_to_list, Er. done. }
    exists dm', r'. split_and!; [done|..].
    + intros name. destruct (decide (name ∈ daemon_names dm1)) as [Hi|Hi].
      * pose proof Hi as [d Hd]%Hkeys. destruct (Hin name d Hi Hd) as (d' & E1 & _). rewrite E1, Hd. split; by eexists.
      * by rewrite Hout.
    + intros name. rewrite Hrun. split.
      * intros (d' & Hd' & Er). destruct (decide (name ∈ daemon_names dm1)) as [Hi|Hi].
        -- pose proof Hi as [d Hd]%Hkeys. destruct (Hin name d Hi Hd) as (d2 & E1 & _ & E3 & _). exists d.
           split; [done|]. assert (d2 = d') as -> by congruence. exact (eq_trans (eq_sym E3) Er).
        -- exfalso. apply Hi, Hkeys. rewrite Hout in Hd' by done. by exists d'.
      * intros (d & Hd & Hs). destruct (Hin name d) as (d' & E1 & _ & E3 & _); [apply Hkeys; by exists d|done|].
        exists d'. split; [done|]. exact (eq_trans E3 Hs).
    + intros name. rewrite Hrun. intros (d' & Hd' & Er).
      destruct (decide (name ∈ daemon_names dm1)) as [Hi|Hi].
      * pose proof Hi as [d Hd]%Hkeys. destruct (Hin name d Hi Hd) as (d2 & E1 & _ & _ & E4).
        assert (d2 = d') as -> by congruence. by apply E4.
      * rewrite Hout in Hd' by done. exfalso. apply Hi, Hkeys. by exists d'.
Qed.

Definition with_cluster (c : Cluster) (dm : DaemonSetManager) : DaemonSetManager :=
  mkDaemonSetManager (Some c) (dm_codec dm) (dm_daemons dm) (dm_started dm) (dm_types dm) (dm_closed dm).

(** A node of the network [ring_network] with two daemons. *)
Definition daemon_specs : list DaemonSpec :=
  [mkDaemonSpec "logger" (job 0) (Some accumulator) [] None;
   mkDaemonSpec "cache" (job 0) (Some accumulator) [] (Some (TagEquals "role" "db"))].

Definition example_daemons (c : Cluster) : DaemonSetManager :=
  foldl (fun dm spec => set_daemon (ds_Name spec) (mkDaemonState spec false None false) dm)
    (NewDaemonSetManager (Some c) (Some example_codec)) daemon_specs.

Definition fresh_runtime : Runtime := NewRuntime (node_cfg "a") true 0.

Lemma start_runs_matching_daemons_witness :
  exists dm' r', Start 2 (example_daemons (ring_cluster "a")) fresh_runtime = Some (dm', r') /\
    ("logger"%string ∈ Running dm') /\ ("cache"%string ∉ Running dm') /\
    forall name, name ∈ Running dm' -> is_Some (lookup_actor name r').
Proof.
  destruct (start_runs_matching_daemons 2 (example_daemons (ring_cluster "a")) fresh_runtime)
    as (dm' & r' & E & _ & Hr & H).
  - apply (bool_decide_unpack _). vm_compute. exact I.
  - intros name d Hd. assert (name = "logger"%string \/ name = "cache"%string) as Hn.
    { unfold example_daemons in Hd. cbn in Hd.
      apply lookup_insert_Some in Hd as [[<- _]|[_ Hd]]; [by right|].
      apply lookup_insert_Some in Hd as [[<- _]|[_ Hd]]; [by left|done]. }
    destruct Hn as [-> | ->]; vm_compute in Hd; injection Hd as <-; (split; [split; [discriminate|left; by eexists]|done]).
  - exists dm', r'. split; [done|]. split_and!; [|intros Hc|done].
    + apply Hr. eexists. split; [vm_compute; reflexivity|reflexivity].
    + apply Hr in Hc as (d & Hd & Hs). vm_compute in Hd. injection Hd as <-. vm_compute in Hs. done.
Defined.

(** ** Restarting daemons *)

(** A daemon is started at most once per runtime: while an actor of its name
    is in the runtime's table, which keeps stopped actors, reconciling a daemon
    that is not running leaves it not running and touches no actor. *)
Theorem present_actor_blocks_daemon (fuel : nat) (name : string) (d : daemonState) (dm : DaemonSetManager)
    (r : Runtime) :
  dm_daemons dm !! name = Some d -> ds_Name (dst_spec d) = name -> dst_running d = false ->
  is_Some (lookup_actor name r) ->
  exists dm', reconcileDaemon fuel name dm r = Some (dm', r) /\ dm_daemons dm' !! name = Some d.
Proof.
  intros Hd Hn Hr Ha. rewrite <- Hn in Ha. unfold reconcileDaemon. rewrite Hd, Hr. cbn [negb andb].
  rewrite !andb_true_r, andb_false_r. destruct (shouldRunLocally _ _ _); [|by exists dm].
  destruct (dst_replicated d) as [[state h]|].
  - unfold startReplicatedDaemon. rewrite createDaemon_present by done. eexists. split; [done|].
    cbn. by destruct (dm_cluster dm).
  - rewrite createDaemon_present by done. by exists dm.
Qed.

(** The placement stops matching and matches again: the daemon does not come
    back, as its stopped actor is never removed. *)
Definition tagged (c : Cluster) : Cluster := UpdateTags {["role" := "db"]}%string c.

Definition toggled : DaemonSetManager * Runtime :=
  default (NewDaemonSetManager None None, fresh_runtime)
    ('(dm, r) ← Start 2 (example_daemons (tagged (ring_cluster "a"))) fresh_runtime;
     Reconcile 2 (with_cluster (ring_cluster "a") dm) r).

Lemma present_actor_blocks_daemon_witness :
  ((fun '(dm, _) => bool_decide ("cache"%string ∈ Running dm)) <$>
     Start 2 (example_daemons (tagged (ring_cluster "a"))) fresh_runtime) = Some true /\
  Running toggled.1 = ["logger"]%string /\
  exists d dm, reconcileDaemon 2 "cache" (with_cluster (tagged (ring_cluster "a")) toggled.1) toggled.2
      = Some (dm, toggled.2) /\
    shouldRunLocally (dst_spec d) (with_cluster (tagged (ring_cluster "a")) toggled.1) "a" = true /\
    dst_running d = false /\ dm_daemons dm !! "cache"%string = Some d.
Proof.
  split; [vm_compute; reflexivity|]. split; [vm_compute; reflexivity|].
  destruct (present_actor_blocks_daemon 2 "cache"
    (mkDaemonState (mkDaemonSpec "cache" (job 0) (Some accumulator) [] (Some (TagEquals "role" "db"))) false None false)
    (with_cluster (tagged (ring_cluster "a")) toggled.1) toggled.2) as (dm & E & H).
  - vm_compute. reflexivity.
  - reflexivity.
  - reflexivity.
  - vm_compute. by eexists.
  - eexists _, dm. split; [exact E|]. split; [|split; [|exact H]]; vm_compute; reflexivity.
Defined.
