(* ===== verification/DistRegistry.v ===== *)
(** * The distributed name registry ([cluster/registry_crdt.go])

    Names are bound to PIDs in a map that the CRDT library replicates.  The map
    is an interface: its local operations and their laws.  What arrives from
    other replicas is another value of the map. *)

From S2P Require Import Prelude Types Fnv GoSort Nodes.

(** The local operations of [crdt.ORMap]; [Put] may fail. *)
Class ORMap (D : Type) := {
  om_Get : string -> D -> option PID;
  om_Put : string -> PID -> D -> D * option string;
  om_Remove : string -> D -> D;
  om_Range : D -> list (string * PID)
}.

(** They behave like those of a map. *)
Class ORMapLaws (D : Type) `{ORMap D} := {
  om_get_put name pid d k :
    (om_Put name pid d).2 = None ->
    om_Get k (om_Put name pid d).1 = if decide (k = name) then Some pid else om_Get k d;
  om_get_put_failed name pid d k e : (om_Put name pid d).2 = Some e -> om_Get k (om_Put name pid d).1 = om_Get k d;
  om_get_remove name d k : om_Get k (om_Remove name d) = if decide (k = name) then None else om_Get k d;
  om_range d name pid : (name, pid) ∈ om_Range d <-> om_Get name d = Some pid;
  om_range_nodup d : NoDup (om_Range d).*1
}.

(** [nodeIDToReplicaID]. *)
Definition nodeIDToReplicaID (id : NodeID) : Z := fnv64a id.

(** An in-memory map is one. *)
#[export] Instance gmap_ORMap : ORMap (gmap string PID) := {
  om_Get name d := d !! name;
  om_Put name pid d := (<[name := pid]> d, None);
  om_Remove name d := delete name d;
  om_Range d := map_to_list d
}.

#[export, refine] Instance gmap_ORMap_laws : ORMapLaws (gmap string PID) := {}.
Proof.
  - intros name pid d k _. cbn. destruct (decide (k = name)) as [->|];
      [apply lookup_insert_eq|by apply lookup_insert_ne].
  - done.
  - intros name d k. cbn. destruct (decide (k = name)) as [->|]; [apply lookup_delete_eq|by apply lookup_delete_ne].
  - intros d name pid. apply elem_of_map_to_list.
  - intros d. apply NoDup_fst_map_to_list.
Defined.

Section registry.
Context {D : Type} `{ORMap D}.
Implicit Types d : D.

Definition Register (name : string) (pid : PID) (d : D) : D * option string :=
  match om_Get name d with
  | Some existing =>
      if bool_decide (Key existing = Key pid) then (d, None)
      else (d, Some "name already registered"%string)
  | None => om_Put name pid d
  end.

Definition Lookup (name : string) (d : D) : option PID := om_Get name d.

Definition Unregister (name : string) (d : D) : D * option PID :=
  match om_Get name d with
  | None => (d, None)
  | Some pid => (om_Remove name d, Some pid)
  end.

Definition NamesByNode (node : NodeID) (d : D) : list string :=
  omap (fun '(name, pid) => if bool_decide (Namespace pid = node) then Some name else None) (om_Range d).

Definition remove_names (names : list string) (d : D) : D := foldl (fun d name => om_Remove name d) d names.

Definition UnregisterByNode (node : NodeID) (d : D) : D * list string :=
  let toRemove := NamesByNode node d in (remove_names toRemove d, toRemove).

Definition OnMembershipChange (ev : MemberEvent) (d : D) : D :=
  match me_Type ev with
  | MemberFailed | MemberLeave => (UnregisterByNode (nm_ID (me_Member ev)) d).1
  | _ => d
  end.

Definition AllEntries (d : D) : gmap string PID := list_to_map (om_Range d).

(** ** Lemmas *)

Context `{!ORMapLaws D}.

Lemma elem_of_NamesByNode node d name :
  name ∈ NamesByNode node d <-> exists pid, om_Get name d = Some pid /\ Namespace pid = node.
Proof.
  unfold NamesByNode. rewrite list_elem_of_omap. split.
  - intros ([k pid] & Hin & E). destruct (bool_decide _) eqn:Eb; [|done]. injection E as ->. bprop.
    exists pid. by rewrite <- om_range.
  - intros (pid & Hg & Hn). exists (name, pid). split; [by apply om_range|]. by rewrite bool_decide_true.
Qed.

Lemma get_remove_names names d k : om_Get k (remove_names names d) = if decide (k ∈ names) then None else om_Get k d.
Proof.
  unfold remove_names. revert d. induction names as [|x names IH]; intros d; cbn [foldl].
  { rewrite decide_False; [done|apply not_elem_of_nil]. }
  rewrite IH, om_get_remove. destruct (decide (k ∈ names)) as [Hk|Hk]; [by rewrite decide_True by by right|].
  destruct (decide (k = x)) as [->|Hne]; [rewrite decide_True; [done|left]|].
  rewrite decide_False; [done|]. rewrite not_elem_of_cons. done.
Qed.

Lemma Register_lookup name pid d :
  (Register name pid d).2 = None ->
  exists pid', Lookup name (Register name pid d).1 = Some pid' /\ Key pid' = Key pid.
Proof.
  unfold Register, Lookup. destruct (om_Get name d) as [e|] eqn:E.
  - destruct (bool_decide _) eqn:Eb; [|done]. intros _. bprop. by exists e.
  - intros Hp. exists pid. rewrite om_get_put by done. by rewrite decide_True.
Qed.

(** A taken name is refused and keeps its binding. *)
Lemma Register_taken name pid d pid0 :
  Lookup name d = Some pid0 -> Key pid0 <> Key pid ->
  Register name pid d = (d, Some "name already registered"%string).
Proof. unfold Lookup, Register. intros -> Hk. by rewrite bool_decide_false. Qed.

Lemma Register_other name pid d k : k <> name -> om_Get k (Register name pid d).1 = om_Get k d.
Proof.
  intros Hk. unfold Register. destruct (om_Get name d); [by destruct (bool_decide _)|].
  destruct (om_Put name pid d).2 as [e|] eqn:E; [by rewrite (om_get_put_failed _ _ _ _ e)|].
  rewrite om_get_put, decide_False by done. done.
Qed.

Lemma Unregister_lookup name d k :
  om_Get k (Unregister name d).1 = if decide (k = name) then None else om_Get k d.
Proof.
  unfold Unregister. destruct (om_Get name d) eqn:E; cbn; [apply om_get_remove|].
  destruct (decide (k = name)) as [->|]; done.
Qed.

(** What is left when a node's names are removed. *)
Lemma UnregisterByNode_lookup node d k :
  om_Get k (UnregisterByNode node d).1 =
    match om_Get k d with
    | Some pid => if decide (Namespace pid = node) then None else Some pid
    | None => None
    end.
Proof.
  unfold UnregisterByNode. cbn [fst]. rewrite get_remove_names. destruct (om_Get k d) as [pid|] eqn:E.
  - destruct (decide (k ∈ _)) as [Hk|Hk]; rewrite elem_of_NamesByNode in Hk; destruct (decide (Namespace pid = node)).
    + done.
    + destruct Hk as (p & Hp & ?). congruence.
    + destruct Hk. by exists pid.
    + done.
  - by destruct (decide (k ∈ _)).
Qed.

Lemma unregistered_names node d : NamesByNode node (UnregisterByNode node d).1 = [].
Proof.
  destruct (NamesByNode node _) as [|name names] eqn:E; [done|].
  assert (name ∈ NamesByNode node (UnregisterByNode node d).1) as Hn by (rewrite E; left).
  apply elem_of_NamesByNode in Hn as (pid & Hg & Hn). rewrite UnregisterByNode_lookup in Hg.
  destruct (om_Get name d) as [pid0|]; [|done]. destruct (decide _); [done|]. by injection Hg as ->.
Qed.
End registry.
