(* ===== verification/ServiceRouter.v ===== *)
(** * Service groups ([cluster/cluster_router.go])

    Workers join a service group by registering under a key made of the service
    and their PID; a router picks one of the registered workers for a message.
    [Send] and [Ask] hand the selected PID to the runtime.  Membership is a
    prefix of the key, so a group also lists the workers of a group or namespace
    whose name extends its own after the colon; the theorems on what a send
    selects assume that there is none ([services_apart]). *)

From S2P Require Import Prelude Types Registry Fnv GoSort Nodes Topology Cluster DistRegistry State Emit Send.

Definition serviceGroupPrefix : string := "svcgroup:".

Definition serviceGroupKey (serviceName : string) (pid : PID) : string :=
  serviceGroupPrefix +:+ serviceName +:+ ":" +:+ Key pid.

Record clusterRouterState := mkClusterRouterState {
  crs_strategy : RouterStrategy;
  crs_rrNext : Z;
  crs_filter : option NodeMatcher;
  crs_preference : option NodeRanker
}.

(** [ClusterRouter]; the registry and the runtime are arguments. *)
Record ClusterRouter := mkClusterRouter {
  cr_cluster : option Cluster;
  cr_routers : gmap string clusterRouterState
}.

Definition NewClusterRouter (cluster : option Cluster) : ClusterRouter := mkClusterRouter cluster ∅.

Definition WithWorkerFilter (m : NodeMatcher) (s : clusterRouterState) : clusterRouterState :=
  mkClusterRouterState (crs_strategy s) (crs_rrNext s) (Some m) (crs_preference s).

Definition WithWorkerPreference (r : NodeRanker) (s : clusterRouterState) : clusterRouterState :=
  mkClusterRouterState (crs_strategy s) (crs_rrNext s) (crs_filter s) (Some r).

Definition set_router (serviceName : string) (s : clusterRouterState) (cr : ClusterRouter) : ClusterRouter :=
  mkClusterRouter (cr_cluster cr) (<[serviceName := s]> (cr_routers cr)).

(** [Configure]: a new state, whose counter starts over. *)
Definition Configure (serviceName : string) (strategy : RouterStrategy)
    (opts : list (clusterRouterState -> clusterRouterState)) (cr : ClusterRouter) : ClusterRouter :=
  set_router serviceName (foldl (fun s o => o s) (mkClusterRouterState strategy 0 None None) opts) cr.

Definition nodeMetaMap (cr : ClusterRouter) : gmap NodeID NodeMeta :=
  match cr_cluster cr with
  | None => ∅
  | Some c => foldl (fun m member => <[nm_ID member := member]> m) {[nm_ID (Self c) := Self c]} (Members c)
  end.

Definition filterByNodeMeta (pids : list PID) (matcher : NodeMatcher) (cr : ClusterRouter) : list PID :=
  filter (fun pid => match nodeMetaMap cr !! Namespace pid with None => false | Some meta => matcher meta end = true)
    pids.

(** A PID's metadata; a missing node reads as the zero value. *)
Definition meta_of (cr : ClusterRouter) (pid : PID) : NodeMeta := default zeroNodeMeta (nodeMetaMap cr !! Namespace pid).

(** [RoutePreference] is its [Rank]. *)
Definition RoutePreference := NodeRanker.

Definition Nearest (tags : gmap string string) : RoutePreference := fun meta =>
  foldl (fun score '(k, v) => if bool_decide (tag k meta = v) then i64 (score + 1) else score) 0 (map_to_list tags).

Definition PreferTag (key : string) (direction : RankDirection) : RoutePreference := RankByTag key direction.

(** [applyPreferences]: the best score first, equal scores in the given order. *)
Definition score (state : option clusterRouterState) (callPrefs : list RoutePreference) (meta : NodeMeta) : Z :=
  foldl (fun s pref => i64 (s + pref meta))
    (match state ≫= crs_preference with Some p => i64 (0 + p meta) | None => 0 end) callPrefs.

Definition applyPreferences (serviceName : string) (pids : list PID) (callPrefs : list RoutePreference)
    (cr : ClusterRouter) : list PID :=
  let state := cr_routers cr !! serviceName in
  let hasStaticPref := bool_decide (is_Some (state ≫= crs_preference)) in
  let hasCallPrefs := negb (bool_decide (length callPrefs = 0%nat)) in
  if (negb hasStaticPref && negb hasCallPrefs) || bool_decide (cr_cluster cr = None) then pids
  else sort_by (fun pid => - score state callPrefs (meta_of cr pid)) pids.

Definition pid_at (members : list PID) (i : Z) : PID := default zeroPID (members !! Z.to_nat i).

(** [selectWorker]; [rnd] is the result of [rand.Intn]. *)
Definition selectWorker (serviceName : string) (members : list PID) (p : payload) (rnd : Z) (cr : ClusterRouter) :
    ClusterRouter * PID :=
  let n := Z.of_nat (length members) in
  let state := cr_routers cr !! serviceName in
  let strategy := match state with Some s => crs_strategy s | None => RouterStrategyRoundRobin end in
  match strategy with
  | RouterStrategyRoundRobin =>
      let s := default (mkClusterRouterState strategy 0 None None) state in
      let next := u64_succ (crs_rrNext s) in
      (set_router serviceName (mkClusterRouterState (crs_strategy s) next (crs_filter s) (crs_preference s)) cr,
       pid_at members (u64 (next - 1) mod n))
  | RouterStrategyRandom => (cr, pid_at members rnd)
  | RouterStrategyConsistentKey =>
      match hashKeyOf p with
      | Some key => (cr, pid_at members (fnv32a key mod u32 n))
      | None => (cr, pid_at members 0)
      end
  | RouterStrategyOther _ => (cr, pid_at members 0)
  end.

(** Sorting by [Key]. *)
Definition key_order (a b : PID) : Prop := String.le (Key a) (Key b).

#[export] Instance key_order_dec : RelDecision key_order.
Proof. intros a b. unfold key_order. apply _. Defined.

#[export] Instance key_order_trans : Transitive key_order.
Proof. intros a b c. unfold key_order. apply (transitivity (R := String.le)). Qed.

#[export] Instance key_order_total : Total key_order.
Proof. intros a b. unfold key_order. apply (String.le_total (Key a) (Key b)). Qed.

Section groups.
Context {D : Type} `{ORMap D}.

Definition Join (serviceName : string) (pid : PID) (d : D) : D * option string :=
  DistRegistry.Register (serviceGroupKey serviceName pid) pid d.

Definition Leave (serviceName : string) (pid : PID) (d : D) : D :=
  (Unregister (serviceGroupKey serviceName pid) d).1.

(** The PIDs of the names with the group's prefix and more. *)
Definition group_pids (serviceName : string) (d : D) : list PID :=
  let prefix := serviceGroupPrefix +:+ serviceName +:+ ":" in
  omap (fun '(name, pid) =>
    if bool_decide (String.length prefix < String.length name)%nat && hasPrefix name prefix
    then Some pid else None) (om_Range d).

Definition GroupMembers (serviceName : string) (cr : ClusterRouter) (d : D) : list PID :=
  let pids := group_pids serviceName d in
  let pids :=
    match cr_routers cr !! serviceName ≫= crs_filter with
    | Some matcher => if bool_decide (cr_cluster cr = None) then pids else filterByNodeMeta pids matcher cr
    | None => pids
    end in
  merge_sort key_order pids.

(** The worker that [sendInternal] and [askInternal] select; [None] when the group
    has no worker, which they report as not found. *)
Definition select (serviceName : string) (p : payload) (prefs : list RoutePreference) (rnd : Z)
    (cr : ClusterRouter) (d : D) : ClusterRouter * option PID :=
  match GroupMembers serviceName cr d with
  | [] => (cr, None)
  | members =>
      let members := applyPreferences serviceName members prefs cr in
      let '(cr, pid) := selectWorker serviceName members p rnd cr in (cr, Some pid)
  end.

Variable fuel : nat.

Definition sendInternal (serviceName : string) (p : payload) (prefs : list RoutePreference) (rnd : Z)
    (cr : ClusterRouter) (d : D) (r : Runtime) : option (ClusterRouter * Runtime * PIDSendAck) :=
  match select serviceName p prefs rnd cr d with
  | (cr, None) => Some (cr, r, mkPIDSendAck PIDRejectedNotFound 0)
  | (cr, Some pid) => '(r, ack) ← SendPID fuel pid p r; Some (cr, r, ack)
  end.

(** Up to the [select] of the ask. *)
Definition askInternal (serviceName : string) (p : payload) (timeout : Z) (prefs : list RoutePreference) (rnd : Z)
    (cr : ClusterRouter) (d : D) (r : Runtime) : option (ClusterRouter * Runtime * (pendingAsk + string)) :=
  match select serviceName p prefs rnd cr d with
  | (cr, None) => Some (cr, r, inr ("no workers in service group " +:+ quote serviceName))
  | (cr, Some pid) => '(r, res) ← AskPIDBegin fuel pid p timeout r; Some (cr, r, res)
  end.

Definition GroupSend (serviceName : string) (p : payload) := sendInternal serviceName p [].

Definition Broadcast (serviceName : string) (p : payload) (cr : ClusterRouter) (d : D) (r : Runtime) :
    option (Runtime * list PIDSendAck) :=
  foldr (fun pid k r => '(r, ack) ← SendPID fuel pid p r; '(r, acks) ← k r; Some (r, ack :: acks))
    (fun r => Some (r, [])) (GroupMembers serviceName cr d) r.
End groups.

(** ** Who is in a group *)

Section membership.
Context {D : Type} `{ORMapLaws D}.

Lemma str_length_app (a b : string) : String.length (a +:+ b) = (String.length a + String.length b)%nat.
Proof. induction a as [|c a IH]; [done|]. rewrite str_app_cons. cbn [String.length]. rewrite IH. done. Qed.

Lemma str_app_assoc (a b c : string) : (a +:+ b) +:+ c = a +:+ (b +:+ c).
Proof. induction a as [|x a IH]; [done|]. rewrite !str_app_cons. by rewrite IH. Qed.

(** Registered under a key of the group. *)
Definition in_group (serviceName : string) (d : D) (pid : PID) : Prop :=
  exists rest, rest <> ""%string /\ om_Get (serviceGroupPrefix +:+ serviceName +:+ ":" +:+ rest) d = Some pid.

(** Accepted by the group's filter. *)
Definition passes_filter (serviceName : string) (cr : ClusterRouter) (pid : PID) : Prop :=
  match cr_routers cr !! serviceName ≫= crs_filter with
  | None => True
  | Some matcher =>
      cr_cluster cr = None \/ exists meta, nodeMetaMap cr !! Namespace pid = Some meta /\ matcher meta = true
  end.

Lemma elem_of_group_pids serviceName d pid : pid ∈ group_pids serviceName d <-> in_group serviceName d pid.
Proof.
  unfold group_pids, in_group. cbn zeta. set (prefix := (serviceGroupPrefix +:+ _)%string).
  assert (forall rest, (serviceGroupPrefix +:+ serviceName +:+ ":" +:+ rest)%string = (prefix +:+ rest)%string) as Eassoc.
  { intros rest. unfold prefix. by rewrite !str_app_assoc. }
  rewrite list_elem_of_omap. split.
  - intros ([name p] & Hin & E). destruct (_ && _) eqn:Eb; [|done]. injection E as ->. bprop.
    apply hasPrefix_inv in H2 as [rest ->]. exists rest. rewrite Eassoc. split; [|by apply om_range].
    intros ->. rewrite str_length_app in H1. cbn in H1. lia.
  - intros (rest & Hne & Hg). rewrite Eassoc in Hg. exists (prefix +:+ rest, pid)%string.
    split; [by apply om_range|]. rewrite hasPrefix_app, str_length_app.
    destruct rest as [|c rest]; [done|]. cbn [String.length]. by rewrite bool_decide_true by lia.
Qed.

Lemma elem_of_GroupMembers serviceName cr d pid :
  pid ∈ GroupMembers serviceName cr d <-> in_group serviceName d pid /\ passes_filter serviceName cr pid.
Proof.
  unfold GroupMembers, passes_filter. cbn zeta. rewrite merge_sort_Permutation.
  destruct (cr_routers cr !! serviceName ≫= crs_filter) as [m|]; [|rewrite elem_of_group_pids; tauto].
  destruct (bool_decide _) eqn:E; bprop.
  - rewrite elem_of_group_pids. tauto.
  - unfold filterByNodeMeta. rewrite list_elem_of_filter, elem_of_group_pids. split.
    + intros [Hm Hg]. split; [done|]. right. destruct (nodeMetaMap cr !! Namespace pid); [eauto|done].
    + intros [Hg [?|(meta & Hn & Hm)]]; [done|]. by rewrite Hn.
Qed.

(** Joined: the registry has the PID under the name that [Join] gives it. *)
Definition member_of (serviceName : string) (d : D) (pid : PID) : Prop :=
  om_Get (serviceGroupKey serviceName pid) d = Some pid.

(** The registry of the groups holds what [Join] put there and no more. *)
Definition grouped (d : D) : Prop :=
  forall name pid, om_Get name d = Some pid -> exists s, name = serviceGroupKey s pid.

Lemma grouped_Join s pid d : grouped d -> grouped (Join s pid d).1.
Proof.
  intros Hg name p. unfold Join, Register. destruct (om_Get (serviceGroupKey s pid) d) as [e|] eqn:E.
  { destruct (bool_decide _); apply Hg. }
  destruct (om_Put (serviceGroupKey s pid) pid d).2 as [e|] eqn:Ep; [rewrite (om_get_put_failed _ _ _ _ e) by done; apply Hg|].
  rewrite om_get_put by done. destruct (decide _) as [->|]; [intros [= <-]; by exists s|apply Hg].
Qed.

Lemma grouped_Leave s pid d : grouped d -> grouped (Leave s pid d).
Proof. intros Hg name p. unfold Leave. rewrite Unregister_lookup. destruct (decide _); [done|apply Hg]. Qed.

Lemma grouped_UnregisterByNode node d : grouped d -> grouped (UnregisterByNode node d).1.
Proof.
  intros Hg name p. rewrite UnregisterByNode_lookup. destruct (om_Get name d) as [q|] eqn:E; [|done].
  destruct (decide _); [done|]. intros [= <-]. by apply Hg.
Qed.

(** No service that has members extends [serviceName] with a colon, or is extended
    by it; so it is for services without colons in their names. *)
Definition services_apart (serviceName : string) (d : D) : Prop :=
  forall s pid, member_of s d pid ->
    s = serviceName \/ forall t, s <> (serviceName +:+ ":" +:+ t)%string /\ serviceName <> (s +:+ ":" +:+ t)%string.

(** Two names of the form "service:rest" that are equal. *)
Lemma split_colon (a b x y : string) :
  (a +:+ ":" +:+ x)%string = (b +:+ ":" +:+ y)%string ->
  (a = b /\ x = y) \/ exists t, b = (a +:+ ":" +:+ t)%string \/ a = (b +:+ ":" +:+ t)%string.
Proof.
  revert b. induction a as [|c a IH]; intros [|c' b]; rewrite ?str_app_cons; intros E.
  - injection E as E. by left.
  - injection E as <- E. right. exists b. left. reflexivity.
  - injection E as -> E. right. exists a. right. reflexivity.
  - injection E as <- E. destruct (IH b E) as [[-> ->]|(t & [->| ->])]; [by left|..].
    + right. exists t. left. by rewrite str_app_cons.
    + right. exists t. right. by rewrite str_app_cons.
Qed.

Lemma serviceGroupKey_inj s s' pid : serviceGroupKey s pid = serviceGroupKey s' pid -> s = s'.
Proof.
  unfold serviceGroupKey. intros E. apply (inj (String.append serviceGroupPrefix)) in E. pose proof E as El.
  apply split_colon in E as [[-> _]|(t & [->| ->])]; [done|..]; exfalso;
    apply (f_equal String.length) in El; rewrite !str_length_app in El; cbn [String.length] in El; lia.
Qed.

(** Then the names with the group's prefix are those of its members. *)
Lemma in_group_member serviceName d pid :
  grouped d -> services_apart serviceName d -> in_group serviceName d pid <-> member_of serviceName d pid.
Proof.
  intros Hg Ha. split.
  - intros (rest & _ & Hr). destruct (Hg _ _ Hr) as [s Es].
    assert (member_of s d pid) as Hm by (unfold member_of; by rewrite <- Es).
    unfold serviceGroupKey in Es. apply (inj (String.append serviceGroupPrefix)) in Es.
    destruct (split_colon _ _ _ _ Es) as [[-> _]|(t & Ht)]; [done|].
    destruct (Ha s pid Hm) as [->|Hn]; [done|]. destruct (Hn t), Ht; done.
  - intros Hm. exists (Key pid). split; [|exact Hm]. unfold Key. destruct (Namespace pid); [done|]. by rewrite str_app_cons.
Qed.

Lemma applyPreferences_perm serviceName pids prefs cr : applyPreferences serviceName pids prefs cr ≡ₚ pids.
Proof. unfold applyPreferences. cbn zeta. destruct (_ || _); [done|]. apply sort_by_perm. Qed.

Lemma pid_at_elem members i : 0 <= i < Z.of_nat (length members) -> pid_at members i ∈ members.
Proof.
  intros Hi. unfold pid_at. destruct (lookup_lt_is_Some_2 members (Z.to_nat i)) as [p Hp]; [lia|].
  rewrite Hp. by apply list_elem_of_lookup_2 in Hp.
Qed.

Lemma selectWorker_elem serviceName members p rnd cr :
  members <> [] -> 0 <= rnd < Z.of_nat (length members) -> Z.of_nat (length members) < u32_modulus ->
  (selectWorker serviceName members p rnd cr).2 ∈ members.
Proof.
  intros Hne Hrnd Hu. assert (0 < Z.of_nat (length members)) as Hn by lia.
  unfold selectWorker. cbn zeta. destruct (match _ with Some s => _ | None => _ end) eqn:Es; cbn [snd].
  - apply pid_at_elem, Z.mod_pos_bound. done.
  - by apply pid_at_elem.
  - destruct (hashKeyOf p) as [k|]; cbn [snd]; apply pid_at_elem; [|lia].
    replace (u32 (Z.of_nat (length members))) with (Z.of_nat (length members)).
    + by apply Z.mod_pos_bound.
    + symmetry. apply Z.mod_small. lia.
  - apply pid_at_elem. lia.
Qed.
Lemma select_eligible serviceName p prefs rnd cr d :
  Z.of_nat (length (GroupMembers serviceName cr d)) < u32_modulus ->
  0 <= rnd < Z.max 1 (Z.of_nat (length (GroupMembers serviceName cr d))) ->
  match select serviceName p prefs rnd cr d with
  | (_, Some pid) => pid ∈ GroupMembers serviceName cr d
  | (cr', None) => cr' = cr /\ GroupMembers serviceName cr d = []
  end.
Proof.
  intros Hu Hr. unfold select. destruct (GroupMembers serviceName cr d) as [|m ms] eqn:E; [done|].
  pose proof (applyPreferences_perm serviceName (m :: ms) prefs cr) as Hp.
  pose proof (selectWorker_elem serviceName (applyPreferences serviceName (m :: ms) prefs cr) p rnd cr) as Hs.
  rewrite (Permutation_length Hp) in Hs. destruct (selectWorker _ _ _ _ _) as [cr' pid]. cbn [snd] in *.
  rewrite <- Hp. apply Hs; [|cbn [length] in *; lia|done]. intros En. rewrite En in Hp. by apply Permutation_nil_l in Hp.
Qed.
End membership.

(** C29: a message to a service group goes to one of its members.  In a registry
    that holds only what [Join] put there (as joining, leaving and the departure
    of nodes keep it), and for a service whose name and the names of the other
    services with members do not extend each other with a colon: when some worker
    has joined the group and its node is accepted by the group's filter (if it has
    one and the router a cluster), then [sendInternal] is the send by PID to such a
    worker, whatever the strategy, the counter, the random draw and the
    preferences, and changes at most the router's state besides; when there is no
    such worker it sends nothing and answers that the target was not found. *)
Theorem group_send_reaches_a_member {D : Type} `{ORMapLaws D} (fuel : nat) (serviceName : string) (p : payload)
    (prefs : list RoutePreference) (rnd : Z) (cr : ClusterRouter) (d : D) (r : Runtime) :
  grouped d -> services_apart serviceName d ->
  Z.of_nat (length (GroupMembers serviceName cr d)) < u32_modulus ->
  0 <= rnd < Z.max 1 (Z.of_nat (length (GroupMembers serviceName cr d))) ->
  let eligible pid := member_of serviceName d pid /\ passes_filter serviceName cr pid in
  ((exists pid, eligible pid) ->
   exists cr' pid, eligible pid /\
     sendInternal fuel serviceName p prefs rnd cr d r =
       match SendPID fuel pid p r with Some (r', ack) => Some (cr', r', ack) | None => None end) /\
  ((forall pid, ~ eligible pid) ->
   sendInternal fuel serviceName p prefs rnd cr d r = Some (cr, r, mkPIDSendAck PIDRejectedNotFound 0)).
Proof.
  intros Hg Ha Hu Hr eligible. pose proof (select_eligible serviceName p prefs rnd cr d Hu Hr) as Hs.
  assert (forall pid, pid ∈ GroupMembers serviceName cr d <-> eligible pid) as He.
  { intros pid. rewrite elem_of_GroupMembers, in_group_member by done. done. }
  unfold sendInternal. destruct (select serviceName p prefs rnd cr d) as [cr' [pid|]]; split.
  - intros _. exists cr', pid. split; [by apply He|]. by destruct (SendPID fuel pid p r) as [[r' ack]|].
  - intros Hn. apply He in Hs. by apply Hn in Hs.
  - intros [pid Hp]. apply He in Hp. destruct Hs as [_ Hs]. rewrite Hs in Hp. by apply not_elem_of_nil in Hp.
  - intros _. by destruct Hs as [-> _].
Qed.

Definition worker (node id : string) : PID := mkPID node id 1.

Definition worker_registry : gmap string PID :=
  (Join "db" (worker "b" "w1") (Join "db" (worker "a" "w1") ∅).1).1.

Definition example_router : ClusterRouter :=
  Configure "db" RouterStrategyConsistentKey [WithWorkerFilter (TagEquals "role" "db")]
    (NewClusterRouter (Some (mkCluster (mkNodeMeta "a" "" {["role" := "db"]}%string 0)
      (TopologyFullMesh FullMesh) 0 ∅ ∅ ∅ [] ∅ true))).

(** The consistent key picks one of the two workers; the cache's worker is not one. *)
Lemma group_send_reaches_a_member_witness :
  let d := (Join "cache" (worker "a" "c1") worker_registry).1 in
  let p := PUser (mkUserValue "main.Job" None (Some "k1"%string) 1) in
  let r := NewRuntime defaultConfig true 0 in
  exists cr' pid, (member_of "db" d pid /\ passes_filter "db" example_router pid) /\
    sendInternal 2 "db" p [] 0 example_router d r =
      match SendPID 2 pid p r with Some (r', ack) => Some (cr', r', ack) | None => None end.
Proof.
  cbv zeta. apply (group_send_reaches_a_member 2 "db" (PUser (mkUserValue "main.Job" None (Some "k1"%string) 1)) [] 0
    example_router (Join "cache" (worker "a" "c1") worker_registry).1 (NewRuntime defaultConfig true 0)).
  - unfold worker_registry. apply grouped_Join, grouped_Join, grouped_Join. intros name pid E. cbn in E.
    by rewrite lookup_empty in E.
  - intros s pid Hm.
    assert (s = "db"%string \/ s = "cache"%string) as [-> | ->]; [|by left|right].
    2: { intros t. split; intros E; discriminate E. }
    assert (map_Forall (fun name q => name = serviceGroupKey "db" q \/ name = serviceGroupKey "cache" q)
      (Join "cache" (worker "a" "c1") worker_registry).1) as Hall by (apply (bool_decide_unpack _); vm_compute; exact I).
    destruct (Hall _ _ Hm) as [E|E]; apply serviceGroupKey_inj in E; [left|right]; exact E.
  - vm_compute. reflexivity.
  - vm_compute. split; [discriminate|reflexivity].
  - exists (worker "a" "w1"). split; [vm_compute; reflexivity|]. right. eexists. split; [vm_compute; reflexivity|]. reflexivity.
Defined.

(** A worker of a service whose name extends another's with a colon is also a
    member of the other group: the prefix of one is a prefix of the other's keys. *)
Example groups_overlap :
  GroupMembers "db" (NewClusterRouter None) (Join "db:archive" (worker "c" "w9") (∅ : gmap string PID)).1
  = [worker "c" "w9"].
Proof. vm_compute. reflexivity. Qed.
