(* ===== verification/Singleton.v ===== *)
(** * Cluster singletons ([cluster/singleton.go], [cluster/cron_singleton.go])

    A singleton is an actor that runs on the leader of its scope.  Each node has
    a manager; a singleton on it is idle, activating (waiting for the previous
    owner to hand over), active or deactivating (waiting to be asked).  Every
    critical section of the manager and every step of its goroutines is an
    operation.  A system envelope is a message in the outbox; the encoding is
    the codec's, so a message arrives as it was sent or not at all. *)

From S2P Require Import Prelude Types Mailbox Resolver Registry Routing Program State Emit Send Lifecycle Cron.
From S2P Require Import Fnv GoSort Nodes Topology Placement Election Ring Feed Cluster DistRegistry.

Inductive singletonPhase := phaseIdle | phaseActivating | phaseActive | phaseDeactivating.

#[export] Instance singletonPhase_eq_dec : EqDecision singletonPhase.
Proof. solve_decision. Defined.

Record SingletonSpec := mkSingletonSpec {
  ss_Name : string;
  ss_InitialState : payload;
  ss_Handler : option handler;
  ss_Options : list actorOption;
  ss_Placement : option NodeMatcher;
  ss_HandoffTimeout : Z;
  ss_OnHandoff : option (payload -> payload)
}.

Definition handoffTimeout (s : SingletonSpec) : Z :=
  if 0 <? ss_HandoffTimeout s then ss_HandoffTimeout s else 10000000000.

(** [singletonState]; [st_cancel] is the operation that [cancel] cancels. *)
Record singletonState := mkSingletonState {
  st_spec : SingletonSpec;
  st_phase : singletonPhase;
  st_term : Z;
  st_cancel : option nat;
  st_rebalancing : bool
}.

(** ** Messages *)

Record singletonHandoffRequest := mkHandoffRequest { hq_Name : string; hq_Term : Z; hq_NewLeader : NodeID }.

Record singletonHandoffResponse := mkHandoffResponse {
  hr_Name : string;
  hr_Term : Z;
  hr_State : payload;
  hr_OK : bool;
  hr_Error : string
}.

Inductive systemMessage :=
  | MHandoffRequest (req : singletonHandoffRequest)
  | MHandoffResponse (resp : singletonHandoffResponse)
  | MDiscoverRequest
  | MDiscoverResponse (running : list string).

Record systemEnvelope := mkSystemEnvelope {
  se_target : NodeID;
  se_correlationID : string;
  se_message : systemMessage
}.

(** ** Goroutines *)

(** Where [runHandoff] is: before its send, in its pause, in its wait. *)
Inductive handoffStage := HRequesting | HPausing | HAwaiting.

Inductive lifecycleOp :=
  | OpHandoff (name : string) (prevLeader : NodeID) (term : Z) (stage : handoffStage)
  | OpDeactivation (name : string).

(** ** The manager *)

(** A channel of [handoffWaits]: the one [DiscoverFromPeers] leaves is nil. *)
Inductive waitChan := NilChan | RespChan (content : option singletonHandoffResponse).

(** [sm_clustered]: there are a cluster, a codec and a dispatcher.  [sm_ops] are
    the goroutines with their contexts (whether they are done). *)
Record SingletonManager (D : Type) := mkSingletonManager {
  sm_runtime : Runtime;
  sm_election : RingElection;
  sm_registry : option D;
  sm_cluster : option Cluster;
  sm_clustered : bool;
  sm_singletons : gmap string singletonState;
  sm_failedNodes : gmap NodeID Z;
  sm_prevLeaders : gmap string NodeID;
  sm_handoffWaits : gmap string waitChan;
  sm_ops : gmap nat (lifecycleOp * bool);
  sm_nextOp : nat;
  sm_outbox : list systemEnvelope;
  sm_started : bool
}.
Arguments mkSingletonManager {D} _ _ _ _ _ _ _ _ _ _ _ _ _.
Arguments sm_runtime {D} _.
Arguments sm_election {D} _.
Arguments sm_registry {D} _.
Arguments sm_cluster {D} _.
Arguments sm_clustered {D} _.
Arguments sm_singletons {D} _.
Arguments sm_failedNodes {D} _.
Arguments sm_prevLeaders {D} _.
Arguments sm_handoffWaits {D} _.
Arguments sm_ops {D} _.
Arguments sm_nextOp {D} _.
Arguments sm_outbox {D} _.
Arguments sm_started {D} _.

Section manager.
Context {D : Type} `{ORMap D}.
Variable fuel : nat.
Abbreviation manager := (SingletonManager D).
Implicit Types sm : manager.

Definition NewSingletonManager (r : Runtime) (e : RingElection) (registry : option D) (c : option Cluster)
    (wired : bool) : manager :=
  mkSingletonManager r e registry c (wired && negb (bool_decide (c = None))) ∅ ∅ ∅ ∅ ∅ 0 [] false.

Definition with_runtime r sm : manager := mkSingletonManager r (sm_election sm) (sm_registry sm) (sm_cluster sm)
  (sm_clustered sm) (sm_singletons sm) (sm_failedNodes sm) (sm_prevLeaders sm) (sm_handoffWaits sm) (sm_ops sm)
  (sm_nextOp sm) (sm_outbox sm) (sm_started sm).
Definition with_election e sm : manager := mkSingletonManager (sm_runtime sm) e (sm_registry sm) (sm_cluster sm)
  (sm_clustered sm) (sm_singletons sm) (sm_failedNodes sm) (sm_prevLeaders sm) (sm_handoffWaits sm) (sm_ops sm)
  (sm_nextOp sm) (sm_outbox sm) (sm_started sm).
Definition with_registry d sm : manager := mkSingletonManager (sm_runtime sm) (sm_election sm) d (sm_cluster sm)
  (sm_clustered sm) (sm_singletons sm) (sm_failedNodes sm) (sm_prevLeaders sm) (sm_handoffWaits sm) (sm_ops sm)
  (sm_nextOp sm) (sm_outbox sm) (sm_started sm).
Definition put_singleton name s sm : manager := mkSingletonManager (sm_runtime sm) (sm_election sm) (sm_registry sm)
  (sm_cluster sm) (sm_clustered sm) (<[name := s]> (sm_singletons sm)) (sm_failedNodes sm) (sm_prevLeaders sm)
  (sm_handoffWaits sm) (sm_ops sm) (sm_nextOp sm) (sm_outbox sm) (sm_started sm).
Definition with_failed f sm : manager := mkSingletonManager (sm_runtime sm) (sm_election sm) (sm_registry sm)
  (sm_cluster sm) (sm_clustered sm) (sm_singletons sm) f (sm_prevLeaders sm) (sm_handoffWaits sm) (sm_ops sm)
  (sm_nextOp sm) (sm_outbox sm) (sm_started sm).
Definition with_prev p sm : manager := mkSingletonManager (sm_runtime sm) (sm_election sm) (sm_registry sm)
  (sm_cluster sm) (sm_clustered sm) (sm_singletons sm) (sm_failedNodes sm) p (sm_handoffWaits sm) (sm_ops sm)
  (sm_nextOp sm) (sm_outbox sm) (sm_started sm).
Definition with_waits w sm : manager := mkSingletonManager (sm_runtime sm) (sm_election sm) (sm_registry sm)
  (sm_cluster sm) (sm_clustered sm) (sm_singletons sm) (sm_failedNodes sm) (sm_prevLeaders sm) w (sm_ops sm)
  (sm_nextOp sm) (sm_outbox sm) (sm_started sm).
Definition with_ops o n sm : manager := mkSingletonManager (sm_runtime sm) (sm_election sm) (sm_registry sm)
  (sm_cluster sm) (sm_clustered sm) (sm_singletons sm) (sm_failedNodes sm) (sm_prevLeaders sm) (sm_handoffWaits sm)
  o n (sm_outbox sm) (sm_started sm).
Definition with_outbox o sm : manager := mkSingletonManager (sm_runtime sm) (sm_election sm) (sm_registry sm)
  (sm_cluster sm) (sm_clustered sm) (sm_singletons sm) (sm_failedNodes sm) (sm_prevLeaders sm) (sm_handoffWaits sm)
  (sm_ops sm) (sm_nextOp sm) o (sm_started sm).
Definition with_started b sm : manager := mkSingletonManager (sm_runtime sm) (sm_election sm) (sm_registry sm)
  (sm_cluster sm) (sm_clustered sm) (sm_singletons sm) (sm_failedNodes sm) (sm_prevLeaders sm) (sm_handoffWaits sm)
  (sm_ops sm) (sm_nextOp sm) (sm_outbox sm) b.

Definition set_phase (ph : singletonPhase) (s : singletonState) : singletonState :=
  mkSingletonState (st_spec s) ph (st_term s) (st_cancel s) (st_rebalancing s).
Definition set_term (t : Z) (s : singletonState) : singletonState :=
  mkSingletonState (st_spec s) (st_phase s) t (st_cancel s) (st_rebalancing s).
Definition set_cancel (x : option nat) (s : singletonState) : singletonState :=
  mkSingletonState (st_spec s) (st_phase s) (st_term s) x (st_rebalancing s).
Definition set_rebalancing (b : bool) (s : singletonState) : singletonState :=
  mkSingletonState (st_spec s) (st_phase s) (st_term s) (st_cancel s) b.

Definition scopeOf (name : string) : string := "singleton/" +:+ name.

Definition localNode sm : NodeID := cf_nodeID (rt_cfg (sm_runtime sm)).

(** A context is done once it is cancelled or its timeout has expired. *)
Definition finish_op (o : nat) sm : manager := with_ops (alter (fun '(op, _) => (op, true)) o (sm_ops sm)) (sm_nextOp sm) sm.

(** [if s.cancel != nil { s.cancel(); s.cancel = nil }]. *)
Definition cancel_op (s : singletonState) sm : singletonState * manager :=
  match st_cancel s with
  | Some o => (set_cancel None s, finish_op o sm)
  | None => (s, sm)
  end.

Definition send_message (target : NodeID) (correlationID : string) (m : systemMessage) sm : manager :=
  with_outbox (sm_outbox sm ++ [mkSystemEnvelope target correlationID m]) sm.

(** ** Leadership *)

(** Whether this node leads the singleton's scope. *)
Definition leads (name : string) (spec : SingletonSpec) sm : manager * bool :=
  match ss_Placement spec, sm_cluster sm with
  | Some placement, Some c =>
      let e := sm_election sm in
      (with_election (use_order (scopeOf name) e) sm,
       bool_decide (LeaderAmong (next_order (scopeOf name) e) (scopeOf name) (Some placement) (Members c ++ [Self c])
                    = Some (localNode sm)))
  | _, _ => let '(e, b) := IsLeader (scopeOf name) (sm_election sm) in (with_election e sm, b)
  end.

Definition isRecentlyFailed (id : NodeID) sm : bool := bool_decide (is_Some (sm_failedNodes sm !! id)).

(** [findPrevLeader], of the scope of [name]. *)
Definition findPrevLeader (name : string) sm : NodeID :=
  let prev := lookup_default "" (scopeOf name) (sm_prevLeaders sm) in
  if negb (bool_decide (prev = ""%string)) then prev
  else
    match sm_registry sm ≫= Lookup name with
    | Some pid => if negb (bool_decide (Namespace pid = localNode sm)) then Namespace pid else ""%string
    | None => ""%string
    end.

(** ** Starting and stopping *)

Definition startActor (name : string) (s : singletonState) (initialState : payload) sm : manager :=
  let r := (RemoveActor name (sm_runtime sm)).1 in
  match CreateActor name initialState (ss_Handler (st_spec s)) (ss_Options (st_spec s)) r with
  | (r, Some _) => with_runtime r sm
  | (r, None) =>
      match sm_registry sm with
      | None => with_runtime r sm
      | Some d =>
          match IssuePID (cf_nodeID (rt_cfg r)) name r with
          | (r, inr _) => with_runtime r sm
          | (r, inl pid) => with_registry (Some (DistRegistry.Register name pid d).1) (with_runtime r sm)
          end
      end
  end.

Definition unregister (name : string) sm : manager :=
  match sm_registry sm with
  | Some d => with_registry (Some (Unregister name d).1) sm
  | None => sm
  end.

Definition stopAndCleanup (name : string) (s : singletonState) sm : option manager :=
  '(r, _) ← Lifecycle.Stop fuel name (sm_runtime sm);
  let '(s, sm) := cancel_op (set_phase phaseIdle s) (with_runtime r sm) in
  Some (unregister name (put_singleton name s sm)).

(** Start at once. *)
Definition activate (name : string) (s : singletonState) (term : Z) sm : manager :=
  put_singleton name (set_term term (set_phase phaseActive s)) (startActor name s (ss_InitialState (st_spec s)) sm).

Definition gainLeadership (name : string) (s : singletonState) (term : Z) sm : manager :=
  let prevLeader := findPrevLeader name sm in
  if bool_decide (prevLeader = ""%string) || bool_decide (prevLeader = localNode sm) || isRecentlyFailed prevLeader sm
  then activate name s term sm
  else if negb (st_rebalancing s) then put_singleton name s sm
  else
    let s := set_rebalancing false s in
    let prevLeader :=
      if bool_decide (prevLeader = ""%string)
      then leaderExcluding (next_order (scopeOf name) (sm_election sm)) (scopeOf name) (el_localID (sm_election sm)) (sm_election sm) else prevLeader in
    if bool_decide (prevLeader = ""%string) || negb (sm_clustered sm) then activate name s term sm
    else
      let o := sm_nextOp sm in
      put_singleton name (set_cancel (Some o) (set_term term (set_phase phaseActivating s)))
        (with_ops (<[o := (OpHandoff name prevLeader term HRequesting, false)]> (sm_ops sm)) (S o) sm).

Definition loseLeadership (name : string) (s : singletonState) (term : Z) sm : option manager :=
  if negb (sm_clustered sm) then stopAndCleanup name s sm
  else
    let o := sm_nextOp sm in
    Some (put_singleton name (set_cancel (Some o) (set_term term (set_phase phaseDeactivating s)))
            (with_ops (<[o := (OpDeactivation name, false)]> (sm_ops sm)) (S o) sm)).

(** One singleton in [reconcile]. *)
Definition reconcile_one (sm : manager) (name : string) : manager :=
  match sm_singletons sm !! name with
  | None => sm
  | Some s =>
      let '(sm, isLeader) := leads name (st_spec s) sm in
      let currentTerm := Term (scopeOf name) (sm_election sm) in
      match st_phase s with
      | phaseActive | phaseDeactivating => sm
      | phaseActivating =>
          if negb isLeader then
            let '(s, sm) := cancel_op s sm in put_singleton name (set_phase phaseIdle s) sm
          else if negb (st_term s =? currentTerm) then
            let '(s, sm) := cancel_op s sm in gainLeadership name s currentTerm sm
          else sm
      | phaseIdle => if isLeader then gainLeadership name s currentTerm sm else sm
      end
  end.

Definition singleton_names sm : list string := fst <$> map_to_list (sm_singletons sm).

Definition reconcile sm : manager := foldl reconcile_one sm (singleton_names sm).

(** One singleton in [Rebalance]. *)
Definition rebalance_one (name : string) sm : option manager :=
  match sm_singletons sm !! name with
  | None => Some sm
  | Some s =>
      let '(sm, isLeader) := leads name (st_spec s) sm in
      let currentTerm := Term (scopeOf name) (sm_election sm) in
      sm ← (if bool_decide (st_phase s = phaseActive) && negb isLeader
            then loseLeadership name s currentTerm sm else Some sm);
      let s := default s (sm_singletons sm !! name) in
      Some (if bool_decide (st_phase s = phaseIdle) && isLeader
            then gainLeadership name (set_rebalancing true s) currentTerm sm else sm)
  end.

Fixpoint rebalance_loop (names : list string) sm : option manager :=
  match names with [] => Some sm | name :: names => sm ← rebalance_one name sm; rebalance_loop names sm end.

Definition Rebalance sm : option manager := rebalance_loop (singleton_names sm) sm.

Definition Running sm : list string :=
  omap (fun '(name, s) =>
    if bool_decide (st_phase s = phaseActive) || bool_decide (st_phase s = phaseDeactivating) then Some name else None)
    (map_to_list (sm_singletons sm)).

(** The loop of [Stop]. *)
Fixpoint stop_loop (names : list string) sm : option manager :=
  match names with
  | [] => Some sm
  | name :: names =>
      sm ← (match sm_singletons sm !! name with
            | None => Some sm
            | Some s =>
                let '(s, sm) := cancel_op s sm in
                if bool_decide (st_phase s = phaseActive) || bool_decide (st_phase s = phaseDeactivating) then
                  '(r, _) ← Lifecycle.Stop fuel name (sm_runtime sm);
                  Some (put_singleton name (set_phase phaseIdle s) (with_runtime r sm))
                else Some (put_singleton name s sm)
            end);
      stop_loop names sm
  end.

Definition StopAll sm : option manager := stop_loop (singleton_names sm) sm.

(** ** Membership and elections *)

Definition setPrevLeader (name : string) (prev : NodeID) sm : manager :=
  with_prev (<[scopeOf name := prev]> (sm_prevLeaders sm)) sm.

(** [watchLoop] on an event of the scope of [name]. *)
Definition watch_event (name : string) (ev : LeaderEvent) sm : manager :=
  reconcile (if negb (bool_decide (le_PrevLeader ev = ""%string)) then setPrevLeader name (le_PrevLeader ev) sm else sm).

Definition OnMemberEvent (now : Z) (ev : MemberEvent) sm : manager :=
  let failed :=
    match me_Type ev with
    | MemberFailed => <[nm_ID (me_Member ev) := now]> (sm_failedNodes sm)
    | _ => sm_failedNodes sm
    end in
  let failed := filter (fun '(_, t) => now - t <= 5 * 60 * 1000000000) failed in
  reconcile (with_failed failed sm).

(** [Register]: the watch of a manager that is running starts with it. *)
Definition Register (spec : SingletonSpec) sm : manager :=
  let sm := put_singleton (ss_Name spec) (mkSingletonState spec phaseIdle 0 None false) sm in
  if sm_started sm
  then reconcile (with_election (Watch (scopeOf (ss_Name spec)) (sm_election sm)) sm) else sm.

(** [RegisterCronSingleton]: the state is handed over as it is. *)
Definition RegisterCronSingleton (cronID : string) (placement : option NodeMatcher) sm : manager :=
  let cronID := if bool_decide (cronID = ""%string) then SingletonCronActorID else cronID in
  let '(r, h) := CronHandler cronID (sm_runtime sm) in
  Register (mkSingletonSpec cronID PNil (Some h) [WithMailboxCapacity 65536] placement 0 (Some (fun state => state)))
    (with_runtime r sm).

(** What [DiscoverFromPeers] records of one response: the first owner of a scope. *)
Definition record_discovered (sm : manager) (resp : NodeID * list string) : manager :=
  with_prev (foldl (fun prev name => match prev !! scopeOf name with
                                     | Some _ => prev
                                     | None => <[scopeOf name := resp.1]> prev
                                     end) (sm_prevLeaders sm) resp.2) sm.

(** [DiscoverFromPeers] with the responses it received, when peers were known and
    one of them connected in time ([connected]). *)
Definition DiscoverFromPeers (connected : bool) (responses : list (NodeID * list string)) sm : manager :=
  match sm_cluster sm with
  | None => sm
  | Some c =>
      if negb (sm_clustered sm) || bool_decide (Members c = []) || negb connected then sm
      else
        let sm := with_waits (<["discover"%string := NilChan]> (sm_handoffWaits sm)) sm in
        let sm := foldl (fun sm m => send_message (nm_ID m) "discover" MDiscoverRequest sm) sm (Members c) in
        foldl record_discovered sm responses
  end.

(** [Start]: discovery, a watch per scope, and the first [reconcile]. *)
Definition Start (connected : bool) (responses : list (NodeID * list string)) sm : manager :=
  let sm := with_started true sm in
  let sm := if sm_clustered sm then DiscoverFromPeers connected responses sm else sm in
  let e := foldl (fun e name => Watch (scopeOf name) e) (sm_election sm) (singleton_names sm) in
  reconcile (with_election e sm).

(** ** The handoff protocol *)

Definition correlationOf (name : string) (term : Z) : string :=
  "handoff:" +:+ name +:+ ":" +:+ itoa term.

Definition completeActivation (name : string) (expectedTerm : Z) (handoffState : payload) sm : manager :=
  match sm_singletons sm !! name with
  | None => sm
  | Some s =>
      if negb (bool_decide (st_phase s = phaseActivating)) || negb (st_term s =? expectedTerm) then sm
      else
        let currentTerm := Term (scopeOf name) (sm_election sm) in
        if negb (currentTerm =? expectedTerm) then put_singleton name (set_phase phaseIdle s) sm
        else
          let initialState :=
            if is_nil handoffState then ss_InitialState (st_spec s)
            else match ss_OnHandoff (st_spec s) with
                 | Some f => f handoffState
                 | None => handoffState
                 end in
          put_singleton name (set_phase phaseActive s) (startActor name s initialState sm)
  end.

(** The end of [runHandoff]: its deferred deletion, and the goroutine is gone. *)
Definition end_handoff (o : nat) (correlationID : string) sm : manager :=
  with_ops (delete o (sm_ops sm)) (sm_nextOp sm) (with_waits (delete correlationID (sm_handoffWaits sm)) sm).

(** [runHandoff] up to its send; [sendErr] is what sending returns. *)
Definition handoff_send (o : nat) (sendErr : option string) sm : option manager :=
  match sm_ops sm !! o with
  | Some (OpHandoff name prevLeader term HRequesting, done_) =>
      let correlationID := correlationOf name term in
      let sm := with_waits (<[correlationID := RespChan None]> (sm_handoffWaits sm)) sm in
      let stage sm st := with_ops (<[o := (OpHandoff name prevLeader term st, done_)]> (sm_ops sm)) (sm_nextOp sm) sm in
      match sendErr with
      | Some _ => Some (stage sm HPausing)
      | None =>
          Some (stage (send_message prevLeader correlationID
                         (MHandoffRequest (mkHandoffRequest name term (localNode sm))) sm) HAwaiting)
      end
  | _ => None
  end.

(** The case its [select] takes: the response, its context, or the end of the
    pause; [None] when that case is not ready. *)
Inductive handoffWake := WakeResponse | WakeDone | WakePause.

Definition handoff_wake (o : nat) (k : handoffWake) sm : option manager :=
  match sm_ops sm !! o with
  | Some (OpHandoff name _ term HPausing, done_) =>
      let correlationID := correlationOf name term in
      match k with
      | WakeDone => if (done_ : bool) then Some (end_handoff o correlationID sm) else None
      | WakePause => Some (end_handoff o correlationID (completeActivation name term PNil sm))
      | WakeResponse => None
      end
  | Some (OpHandoff name _ term HAwaiting, done_) =>
      let correlationID := correlationOf name term in
      match k with
      | WakeDone => if (done_ : bool) then Some (end_handoff o correlationID (completeActivation name term PNil sm)) else None
      | WakeResponse =>
          match sm_handoffWaits sm !! correlationID with
          | Some (RespChan (Some resp)) =>
              let state := if hr_OK resp && negb (is_nil (hr_State resp)) then hr_State resp else PNil in
              Some (end_handoff o correlationID (completeActivation name term state sm))
          | _ => None
          end
      | WakePause => None
      end
  | _ => None
  end.

(** [runDeactivationTimeout] once its context is done. *)
Definition deactivation_end (o : nat) sm : option manager :=
  match sm_ops sm !! o with
  | Some (OpDeactivation name, true) =>
      let sm := with_ops (delete o (sm_ops sm)) (sm_nextOp sm) sm in
      match sm_singletons sm !! name with
      | Some s => if bool_decide (st_phase s = phaseDeactivating) then stopAndCleanup name s sm else Some sm
      | None => Some sm
      end
  | _ => None
  end.

Definition sendHandoffResponse (target : NodeID) (name : string) (term : Z) (correlationID : string) (ok : bool)
    (state : payload) (errMsg : string) sm : manager :=
  send_message target correlationID (MHandoffResponse (mkHandoffResponse name term state ok errMsg)) sm.

Definition onHandoffRequest (from : NodeID) (correlationID : string) (req : singletonHandoffRequest) sm :
    option manager :=
  let name := hq_Name req in
  match sm_singletons sm !! name with
  | None =>
      Some (sendHandoffResponse from name (hq_Term req) correlationID false PNil "singleton_not_registered" sm)
  | Some s =>
      if negb (bool_decide (st_phase s = phaseActive)) && negb (bool_decide (st_phase s = phaseDeactivating))
      then Some (sendHandoffResponse from name (hq_Term req) correlationID false PNil "singleton_not_running" sm)
      else
        '(r, (handoffState, _)) ← StopAndCapture fuel name (sm_runtime sm);
        let '(s, sm) := cancel_op s (with_runtime r sm) in
        let sm := unregister name (put_singleton name (set_phase phaseIdle s) sm) in
        Some (sendHandoffResponse from name (hq_Term req) correlationID true handoffState "" sm)
  end.

Definition onHandoffResponse (correlationID : string) (resp : singletonHandoffResponse) sm : manager :=
  match sm_handoffWaits sm !! correlationID with
  | Some (RespChan None) =>
      with_waits (<[correlationID := RespChan (Some resp)]> (sm_handoffWaits sm)) sm
  | _ => sm
  end.

Definition onDiscoverRequest (from : NodeID) (correlationID : string) sm : manager :=
  send_message from correlationID (MDiscoverResponse (Running sm)) sm.
End manager.
