(* ===== verification/Handover.v ===== *)
(** * Where singletons run

    A running singleton stays where it is; when its node fails, the leader starts
    it; on a rebalance it moves with its state.  And what goes wrong: a singleton
    whose node leaves in good order is not started again, and one that is started
    after a failure loses its name. *)

From S2P Require Import Prelude Types Mailbox Resolver Registry Routing Program State Emit Send Lifecycle Cron.
From S2P Require Import Fnv Prim System Invariants Scheduler Safety Delivery Shutdown.
From S2P Require Import GoSort Nodes Topology Placement Election Ring Feed Cluster DistRegistry Singleton.

(** ** The runtime of other actors *)

(** What happens to [y] leaves the actor [name] alone. *)
Record actor_kept (name : string) (r r' : Runtime) : Prop := {
  ak_cfg : rt_cfg r' = rt_cfg r;
  ak_lookup : lookup_actor name r' = lookup_actor name r;
  ak_next : (ap_next (rt_actors r) <= ap_next (rt_actors r'))%nat;
  ak_instance l : (l < ap_next (rt_actors r))%nat -> instance l r' = instance l r
}.

#[export] Instance actor_kept_preorder name : PreOrder (actor_kept name).
Proof.
  split; [split; done|]. intros r1 r2 r3 [A1 A2 A3 A4] [B1 B2 B3 B4].
  split; [congruence|congruence|lia|]. intros l Hl. rewrite B4 by lia. by apply A4.
Qed.

Lemma actor_kept_same name r r' : rt_cfg r' = rt_cfg r -> rt_actors r' = rt_actors r -> actor_kept name r r'.
Proof.
  intros E1 E2. split; [done|unfold lookup_actor; by rewrite E2|by rewrite E2|].
  intros l _. unfold instance. by rewrite E2.
Qed.

Lemma RemoveActor_kept name y r : y <> name -> actor_kept name r (RemoveActor y r).1.
Proof.
  intros Hne. unfold RemoveActor. destruct (actor_of y r); [|reflexivity].
  destruct (negb _); [reflexivity|]. cbv zeta.
  set (r1 := set_actors _ r). assert (actor_kept name r r1) as H1.
  { split; [done| |done|done]. unfold r1, lookup_actor, registry_get, registry_remove. cbn.
    destruct (ap_registry _ !! y); [|done]. cbn. by rewrite lookup_delete_ne. }
  destruct (PIDForActor y r1); [|done]. etransitivity; [exact H1|]. by apply actor_kept_same.
Qed.

Lemma CreateActor_kept name y st h opts r : y <> name -> actor_kept name r (CreateActor y st h opts r).1.
Proof.
  intros Hne. unfold CreateActor. destruct (bool_decide _); [reflexivity|]. destruct h as [h|]; [|reflexivity].
  cbv zeta. unfold registry_put. destruct (ap_registry (rt_actors r) !! y) eqn:E; [reflexivity|].
  split; cbn; [done| |lia|].
  - unfold lookup_actor, registry_get. cbn. by rewrite lookup_insert_ne.
  - intros l Hl. unfold instance. cbn. rewrite lookup_insert_ne by lia. done.
Qed.

Lemma IssuePID_kept name ns id r : actor_kept name r (IssuePID ns id r).1.
Proof.
  apply actor_kept_same; unfold IssuePID; repeat (dmatch; simplify_eq/=); done.
Qed.

(** ** Frames of the manager's operations *)

Section frames.
Context {D : Type} `{ORMapLaws D}.
Variable fuel : nat.
Implicit Types sm : SingletonManager D.

Definition lookup_name (name : string) sm : option PID := sm_registry sm ≫= Lookup name.

(** Nothing that [name] depends on has changed. *)
Record others_kept (name : string) sm sm' : Prop := {
  ok_single : sm_singletons sm' !! name = sm_singletons sm !! name;
  ok_prev : sm_prevLeaders sm' = sm_prevLeaders sm;
  ok_failed : sm_failedNodes sm' = sm_failedNodes sm;
  ok_cluster : sm_cluster sm' = sm_cluster sm /\ sm_clustered sm' = sm_clustered sm;
  ok_actor : actor_kept name (sm_runtime sm) (sm_runtime sm');
  ok_registry : lookup_name name sm' = lookup_name name sm /\ (sm_registry sm' = None <-> sm_registry sm = None);
  ok_local : el_localID (sm_election sm') = el_localID (sm_election sm);
  ok_members : el_members (sm_election sm') = el_members (sm_election sm);
  ok_scope : el_scopes (sm_election sm') !! scopeOf name = el_scopes (sm_election sm) !! scopeOf name;
  ok_orders : el_orders (sm_election sm') !! scopeOf name = el_orders (sm_election sm) !! scopeOf name
}.

#[export] Instance others_kept_preorder name : PreOrder (others_kept name).
Proof.
  split; [intros sm; split; done|]. intros a b c [A1 A2 A3 [A4 A4'] A5 [A6 A6'] A7 A8 A9 A10] [B1 B2 B3 [B4 B4'] B5 [B6 B6'] B7 B8 B9 B10].
  split; [congruence|congruence|congruence|split; congruence|by etransitivity|split; [congruence|tauto]|congruence..].
Qed.

Lemma scopeOf_inj a b : scopeOf a = scopeOf b -> a = b.
Proof. intros E. by apply (inj (String.append "singleton/")) in E. Qed.

(** Changes of parts that [name] does not depend on. *)
Lemma kept_put name y s sm : y <> name -> others_kept name sm (put_singleton y s sm).
Proof. intros Hne. split; try done. cbn. by rewrite lookup_insert_ne. Qed.

Lemma kept_ops name o n sm : others_kept name sm (with_ops o n sm).
Proof. by split. Qed.

Lemma kept_outbox name o sm : others_kept name sm (with_outbox o sm).
Proof. by split. Qed.

Lemma kept_waits name o sm : others_kept name sm (with_waits o sm).
Proof. by split. Qed.

Lemma kept_runtime name r sm : actor_kept name (sm_runtime sm) r -> others_kept name sm (with_runtime r sm).
Proof. intros Hr. by split. Qed.

Lemma kept_registry name d sm :
  sm_registry sm = Some d -> forall d', om_Get name d' = om_Get name d ->
  others_kept name sm (with_registry (Some d') sm).
Proof. intros E d' Ed. split; try done. unfold lookup_name. cbn. by rewrite E. Qed.

Lemma kept_leads name y spec sm : y <> name -> others_kept name sm (leads y spec sm).1.
Proof.
  intros Hne. unfold leads.
  assert (others_kept name sm (with_election (IsLeader (scopeOf y) (sm_election sm)).1 sm)) as Hl.
  { unfold IsLeader. destruct (Leader (scopeOf y) (sm_election sm)) as [e l] eqn:E. cbn [fst].
    assert (e = (Leader (scopeOf y) (sm_election sm)).1) as -> by (by rewrite E). rewrite Leader_fst.
    destruct (ensureScope_cases (scopeOf y) (sm_election sm)) as (s & _ & _ & [[_ ->]|(_ & _ & ->)]); split; try done; cbn.
    - rewrite lookup_insert_ne; [done|]. intros E'. by apply Hne, scopeOf_inj.
    - rewrite lookup_alter_ne; [done|]. intros E'. by apply Hne, scopeOf_inj. }
  destruct (ss_Placement spec) as [p|]; [destruct (sm_cluster sm) as [c|]|].
  { split; try done. cbn. rewrite lookup_alter_ne; [done|]. intros E'. by apply Hne, scopeOf_inj. }
  all: by destruct (IsLeader _ _).
Qed.

Lemma kept_cancel name s sm : others_kept name sm (cancel_op s sm).2.
Proof. unfold cancel_op. destruct (st_cancel s); [apply kept_ops|reflexivity]. Qed.

Lemma kept_startActor name y s st sm : y <> name -> others_kept name sm (startActor y s st sm).
Proof.
  intros Hne. unfold startActor. set (r1 := (RemoveActor y (sm_runtime sm)).1).
  assert (actor_kept name (sm_runtime sm) r1) as K1 by (by apply RemoveActor_kept).
  pose proof (CreateActor_kept name y st (ss_Handler (st_spec s)) (ss_Options (st_spec s)) r1 Hne) as K2.
  destruct (CreateActor _ _ _ _ r1) as [r2 [e|]]; cbn [fst] in K2.
  { apply kept_runtime. by etransitivity. }
  assert (actor_kept name (sm_runtime sm) r2) as K3 by (by etransitivity).
  destruct (sm_registry sm) as [d|] eqn:Ed; [|by apply kept_runtime].
  pose proof (IssuePID_kept name (cf_nodeID (rt_cfg r2)) y r2) as K4.
  destruct (IssuePID _ y r2) as [r3 [pid|e]]; cbn [fst] in K4.
  - transitivity (with_runtime r3 sm); [apply kept_runtime; by etransitivity|].
    apply (kept_registry name d (with_runtime r3 sm) Ed). by apply Register_other.
  - apply kept_runtime. by etransitivity.
Qed.

Lemma kept_activate name y s term sm : y <> name -> others_kept name sm (activate y s term sm).
Proof. intros Hne. unfold activate. etransitivity; [by apply kept_startActor|by apply kept_put]. Qed.

Lemma kept_gain name y s term sm : y <> name -> others_kept name sm (gainLeadership y s term sm).
Proof.
  intros Hne. unfold gainLeadership. cbn zeta. destruct (_ || _ || _); [by apply kept_activate|].
  destruct (negb _); [by apply kept_put|]. destruct (_ || _); [by apply kept_activate|].
  etransitivity; [apply kept_ops|by apply kept_put].
Qed.

Lemma kept_reconcile_one name y sm : y <> name -> others_kept name sm (reconcile_one sm y).
Proof.
  intros Hne. unfold reconcile_one. destruct (sm_singletons sm !! y) as [s|]; [|reflexivity].
  pose proof (kept_leads name y (st_spec s) sm Hne) as Hl. destruct (leads y (st_spec s) sm) as [sm1 b]. cbn [fst] in Hl.
  etransitivity; [exact Hl|]. clear Hl. cbn zeta.
  pose proof (kept_cancel name s sm1) as Hc. destruct (cancel_op s sm1) as [s2 sm2]. cbn [snd] in Hc.
  destruct (st_phase s); [destruct b; [by apply kept_gain|reflexivity]| |reflexivity|reflexivity].
  destruct (negb b); [etransitivity; [exact Hc|by apply kept_put]|].
  destruct (negb _); [etransitivity; [exact Hc|by apply kept_gain]|reflexivity].
Qed.

Lemma kept_reconcile_others name names sm : name ∉ names -> others_kept name sm (foldl reconcile_one sm names).
Proof.
  revert sm. induction names as [|y names IH]; intros sm Hn; cbn [foldl]; [reflexivity|].
  rewrite not_elem_of_cons in Hn. destruct Hn. etransitivity; [by apply (kept_reconcile_one name y)|by apply IH].
Qed.

(** ** Running singletons stay *)

(** The singleton, its actor and its name are as they were. *)
Definition undisturbed (name : string) sm sm' : Prop :=
  sm_singletons sm' !! name = sm_singletons sm !! name /\
  actor_kept name (sm_runtime sm) (sm_runtime sm') /\ lookup_name name sm' = lookup_name name sm.

Lemma others_undisturbed name sm sm' : others_kept name sm sm' -> undisturbed name sm sm'.
Proof. intros [A1 _ _ _ A5 [A6 _] _ _ _]. done. Qed.

Lemma undisturbed_trans name a b c : undisturbed name a b -> undisturbed name b c -> undisturbed name a c.
Proof.
  intros (A1 & A2 & A3) (B1 & B2 & B3). split; [congruence|]. split; [by etransitivity|congruence].
Qed.

Definition is_running (s : singletonState) : Prop := st_phase s = phaseActive \/ st_phase s = phaseDeactivating.

Lemma leads_undisturbed name spec sm : undisturbed name sm (leads name spec sm).1.
Proof.
  unfold leads. destruct (ss_Placement spec) as [p|]; [destruct (sm_cluster sm) as [c|]; [split; [done|split; done]|]|].
  all: destruct (IsLeader _ _); split; [done|split; done].
Qed.

Lemma running_one name s y sm :
  sm_singletons sm !! name = Some s -> is_running s -> undisturbed name sm (reconcile_one sm y).
Proof.
  intros Hs Hr. destruct (decide (y = name)) as [->|Hne]; [|by apply others_undisturbed, kept_reconcile_one].
  unfold reconcile_one. rewrite Hs. pose proof (leads_undisturbed name (st_spec s) sm) as Hl.
  destruct (leads name (st_spec s) sm) as [sm1 b]. cbn [fst] in Hl. cbn zeta. by destruct Hr as [-> | ->].
Qed.

Lemma running_reconcile name s names sm :
  sm_singletons sm !! name = Some s -> is_running s -> undisturbed name sm (foldl reconcile_one sm names).
Proof.
  revert sm. induction names as [|y names IH]; intros sm Hs Hr; cbn [foldl]; [split; [done|split; done]|].
  pose proof (running_one name s y sm Hs Hr) as H1. eapply undisturbed_trans; [exact H1|].
  apply IH; [|done]. by rewrite (proj1 H1).
Qed.
End frames.

(** C26: running singletons are sticky.  Whatever a membership event or a change of
    leadership does to the election, a singleton that runs on the node (or is
    being handed over) keeps its phase and its registered name, and its actor is
    the same instance in the same state. *)
Theorem running_singletons_stay {D : Type} `{ORMapLaws D} (sm : SingletonManager D) (name : string)
    (s : singletonState) (now : Z) (ev : MemberEvent) (scope : string) (lev : LeaderEvent) :
  sm_singletons sm !! name = Some s -> is_running s ->
  undisturbed name sm (OnMemberEvent now ev sm) /\ undisturbed name sm (watch_event scope lev sm).
Proof.
  intros Hs Hr. unfold OnMemberEvent, watch_event, reconcile. cbv zeta. split.
  - match goal with |- context [foldl _ ?x _] => exact (running_reconcile name s _ x Hs Hr) end.
  - match goal with |- context [foldl _ ?x _] =>
      assert (undisturbed name x (foldl reconcile_one x (singleton_names x))) as Hx;
        [apply (running_reconcile name s); [by destruct (negb _)|done]|] end.
    destruct (negb _); exact Hx.
Qed.

(** ** Starting the actor *)

(** The name is free on the node: no actor has it, or a stopped one. *)
Definition name_free (name : string) (r : Runtime) : Prop :=
  match lookup_actor name r with
  | None => True
  | Some l => (l < ap_next (rt_actors r))%nat /\ exists inst, instance l r = Some inst /\ ai_status inst = ActorStoppedCode
  end.

Lemma name_free_kept name r r' : actor_kept name r r' -> name_free name r -> name_free name r'.
Proof.
  intros [_ El En Ei]. unfold name_free. rewrite El. destruct (lookup_actor name r) as [l|]; [|done].
  intros (Hl & inst & Hi & Hst). split; [lia|]. exists inst. by rewrite Ei.
Qed.

Lemma RemoveActor_free name r :
  name_free name r -> lookup_actor name (RemoveActor name r).1 = None /\
    ap_next (rt_actors (RemoveActor name r).1) = ap_next (rt_actors r).
Proof.
  unfold name_free, RemoveActor, actor_of. destruct (lookup_actor name r) as [l|] eqn:El; cbn [mbind option_bind]; [|done].
  intros (_ & inst & Hi & Hst). rewrite Hi, Hst. cbn [negb]. rewrite bool_decide_true by done. cbn [negb]. cbv zeta.
  set (r1 := set_actors _ r).
  assert (lookup_actor name r1 = None) as Hn.
  { unfold r1, lookup_actor, registry_get, registry_remove in *. cbn. rewrite El. cbn. by rewrite lookup_delete_eq. }
  by destruct (PIDForActor name r1).
Qed.

(** A new actor of that name, with that state. *)
Definition starting_with (name : string) (st : payload) (r : Runtime) : Prop :=
  exists l inst, lookup_actor name r = Some l /\ (l < ap_next (rt_actors r))%nat /\ instance l r = Some inst /\
    ai_id inst = name /\ ai_status inst = ActorStartingCode /\ as_value (ai_state inst) = st.

Lemma starting_kept name st r r' : actor_kept name r r' -> starting_with name st r -> starting_with name st r'.
Proof.
  intros [_ El En Ei] (l & inst & H1 & H2 & H3 & H4). exists l, inst. rewrite El, Ei by lia.
  split_and!; [done|lia|done|apply H4..].
Qed.

Section starting.
Context {D : Type} `{ORMapLaws D}.
Implicit Types sm : SingletonManager D.

Lemma startActor_starts name s h st sm :
  name <> ""%string -> ss_Handler (st_spec s) = Some h -> name_free name (sm_runtime sm) ->
  starting_with name st (sm_runtime (startActor name s st sm)) /\
  sm_singletons (startActor name s st sm) = sm_singletons sm.
Proof.
  intros Hne Hh Hf. destruct (RemoveActor_free name _ Hf) as [Hl Hnext]. unfold startActor, CreateActor.
  set (r1 := (RemoveActor name (sm_runtime sm)).1) in *. rewrite bool_decide_false by done. rewrite Hh. cbv zeta.
  unfold registry_put. unfold lookup_actor, registry_get in Hl. rewrite Hl. set (r2 := set_actors _ r1).
  assert (starting_with name st r2) as H2.
  { exists (ap_next (rt_actors r1)). eexists. unfold lookup_actor, registry_get, instance, r2. cbn.
    rewrite !lookup_insert_eq. split_and!; [done|lia|done..]. }
  destruct (sm_registry sm) as [d|]; [|done].
  pose proof (IssuePID_kept name (cf_nodeID (rt_cfg r2)) name r2) as K.
  destruct (IssuePID _ name r2) as [r3 [pid|e]]; cbn in K |- *; (split; [by eapply starting_kept|done]).
Qed.

Lemma activate_starts name s h term sm :
  name <> ""%string -> ss_Handler (st_spec s) = Some h -> name_free name (sm_runtime sm) ->
  starting_with name (ss_InitialState (st_spec s)) (sm_runtime (activate name s term sm)) /\
  sm_singletons (activate name s term sm) !! name = Some (set_term term (set_phase phaseActive s)).
Proof.
  intros Hne Hh Hf. destruct (startActor_starts name s h (ss_InitialState (st_spec s)) sm Hne Hh Hf) as [H1 H2].
  split; [done|]. cbn. by rewrite lookup_insert_eq.
Qed.

(** ** Failover *)

Lemma IsLeader_kept name sm sm' :
  others_kept name sm sm' ->
  (IsLeader (scopeOf name) (sm_election sm')).2 = (IsLeader (scopeOf name) (sm_election sm)).2.
Proof.
  intros K. unfold IsLeader, Leader, ensureScopeLocked, next_order.
  rewrite (ok_scope _ _ _ K), (ok_members _ _ _ K), (ok_orders _ _ _ K).
  destruct (el_scopes (sm_election sm) !! scopeOf name); cbn; by rewrite (ok_local _ _ _ K).
Qed.

Lemma findPrev_kept name sm sm' : others_kept name sm sm' -> findPrevLeader name sm' = findPrevLeader name sm.
Proof.
  intros K. unfold findPrevLeader, localNode. rewrite (ok_prev _ _ _ K). destruct (negb _); [done|].
  destruct (ok_registry _ _ _ K) as [E _]. unfold lookup_name in E. rewrite E.
  by rewrite (ak_cfg _ _ _ (ok_actor _ _ _ K)).
Qed.

Lemma leads_kept name spec sm sm' : others_kept name sm sm' -> (leads name spec sm').2 = (leads name spec sm).2.
Proof.
  intros K. unfold leads. destruct (ok_cluster _ _ _ K) as [-> _]. pose proof (IsLeader_kept name sm sm' K) as El.
  assert (localNode sm' = localNode sm) as -> by (unfold localNode; by rewrite (ak_cfg _ _ _ (ok_actor _ _ _ K))).
  assert (next_order (scopeOf name) (sm_election sm') = next_order (scopeOf name) (sm_election sm)) as ->
    by (unfold next_order; by rewrite (ok_orders _ _ _ K)).
  destruct (ss_Placement spec); [destruct (sm_cluster sm); [done|]|].
  all: destruct (IsLeader _ (sm_election sm)), (IsLeader _ (sm_election sm')); exact El.
Qed.

Lemma leads_failed name spec f sm : (leads name spec (with_failed f sm)).2 = (leads name spec sm).2.
Proof.
  unfold leads. destruct (ss_Placement spec); cbn; [destruct (sm_cluster sm); [done|]|]; by destruct (IsLeader _ (sm_election sm)).
Qed.

(** No live node has the singleton: no owner is known, or it is this node, or it
    failed. *)
Definition no_live_owner (name : string) sm : Prop :=
  findPrevLeader name sm = ""%string \/ findPrevLeader name sm = localNode sm \/
  isRecentlyFailed (findPrevLeader name sm) sm = true.

(** The leader starts an idle singleton that no live node has. *)
Lemma idle_one name s h sm :
  sm_singletons sm !! name = Some s -> st_phase s = phaseIdle ->
  ss_Handler (st_spec s) = Some h -> name <> ""%string -> name_free name (sm_runtime sm) ->
  (leads name (st_spec s) sm).2 = true -> no_live_owner name sm ->
  starting_with name (ss_InitialState (st_spec s)) (sm_runtime (reconcile_one sm name)) /\
  exists s', sm_singletons (reconcile_one sm name) !! name = Some s' /\ st_phase s' = phaseActive.
Proof.
  intros Hs Hph Hh Hne Hf Hlead Hprev. unfold reconcile_one. rewrite Hs.
  assert (name_free name (sm_runtime (leads name (st_spec s) sm).1) /\ no_live_owner name (leads name (st_spec s) sm).1) as [F1 F2].
  { unfold leads. destruct (ss_Placement (st_spec s)); [destruct (sm_cluster sm); [done|]|].
    all: by destruct (IsLeader (scopeOf name) (sm_election sm)). }
  destruct (leads name (st_spec s) sm) as [sm1 b]. cbn [fst snd] in *. subst b. rewrite Hph. cbn zeta.
  unfold gainLeadership. cbn zeta.
  assert (bool_decide (findPrevLeader name sm1 = ""%string) || bool_decide (findPrevLeader name sm1 = localNode sm1)
    || isRecentlyFailed (findPrevLeader name sm1) sm1 = true) as ->.
  { destruct F2 as [-> |[-> | ->]]; [by rewrite bool_decide_true|rewrite (bool_decide_true (localNode sm1 = localNode sm1)) by done; by rewrite orb_true_r|].
    by rewrite orb_true_r. }
  destruct (activate_starts name s h (Term (scopeOf name) (sm_election sm1)) sm1 Hne Hh F1) as [H1 H2].
  split; [done|]. eexists. split; [exact H2|done].
Qed.
End starting.

(** [reconcile] reaches each singleton once, and what it does to the others does
    not matter to it. *)
Lemma reconcile_split {D : Type} `{ORMapLaws D} (sm : SingletonManager D) (name : string) (s : singletonState) :
  sm_singletons sm !! name = Some s ->
  exists sm1, others_kept name sm sm1 /\ others_kept name (reconcile_one sm1 name) (reconcile sm).
Proof.
  intros Hs. assert (name ∈ singleton_names sm) as Hin.
  { unfold singleton_names. apply list_elem_of_fmap. exists (name, s). split; [done|]. by apply elem_of_map_to_list. }
  apply list_elem_of_split in Hin as (l1 & l2 & El).
  pose proof (NoDup_fst_map_to_list (sm_singletons sm)) as Hnd. unfold singleton_names in El. rewrite El in Hnd.
  apply NoDup_app in Hnd as (_ & Hnot & Hnd). apply NoDup_cons in Hnd as [Hl2 _].
  exists (foldl reconcile_one sm l1). split.
  - apply kept_reconcile_others. intros Hin. apply (Hnot name Hin). left.
  - unfold reconcile, singleton_names. rewrite El, foldl_app. cbn [foldl]. by apply kept_reconcile_others.
Qed.

(** A membership event makes the leader start it, the others of its singletons
    being reconciled before and after. *)
Lemma event_starts {D : Type} `{ORMapLaws D} (sm : SingletonManager D) (name : string)
    (s : singletonState) (h : handler) (now : Z) (ev : MemberEvent) :
  sm_singletons sm !! name = Some s -> st_phase s = phaseIdle ->
  ss_Handler (st_spec s) = Some h -> name <> ""%string -> name_free name (sm_runtime sm) ->
  (leads name (st_spec s) sm).2 = true ->
  findPrevLeader name sm = ""%string \/ findPrevLeader name sm = localNode sm \/
    (me_Type ev = MemberFailed /\ findPrevLeader name sm = nm_ID (me_Member ev)) ->
  let sm' := OnMemberEvent now ev sm in
  name ∈ Running sm' /\ starting_with name (ss_InitialState (st_spec s)) (sm_runtime sm').
Proof.
  intros Hs Hph Hh Hne Hf Hlead Hprev sm'. unfold OnMemberEvent in sm'. cbv zeta in sm'.
  match goal with sm' := reconcile ?x |- _ => set (sm0 := x) in sm' end.
  destruct (reconcile_split sm0 name s Hs) as (sm1 & K & K2).
  destruct (idle_one name s h sm1) as [Hst (s' & Hs' & Hph')]; try done.
  - by rewrite (ok_single _ _ _ K).
  - eapply name_free_kept; [apply (ok_actor _ _ _ K)|done].
  - rewrite (leads_kept _ _ _ _ K). rewrite <- Hlead. apply leads_failed.
  - unfold no_live_owner. rewrite (findPrev_kept _ _ _ K). change (findPrevLeader name sm0) with (findPrevLeader name sm).
    assert (localNode sm1 = localNode sm) as -> by (unfold localNode; by rewrite (ak_cfg _ _ _ (ok_actor _ _ _ K))).
    destruct Hprev as [->|[->|[Et ->]]]; [by left|by right; left|]. right. right. unfold isRecentlyFailed.
    rewrite (ok_failed _ _ _ K). unfold sm0. rewrite Et.
    apply bool_decide_eq_true. exists now. apply map_lookup_filter_Some. rewrite lookup_insert_eq. split; [done|lia].
  - unfold sm'. split.
    + unfold Running. apply list_elem_of_omap. exists (name, s'). split.
      * apply elem_of_map_to_list. by rewrite (ok_single _ _ _ K2).
      * by rewrite Hph'.
    + eapply starting_kept; [apply (ok_actor _ _ _ K2)|done].
Qed.

Lemma unplaced_leads {D : Type} `{ORMap D} (name : string) (spec : SingletonSpec) (sm : SingletonManager D) :
  ss_Placement spec = None -> (leads name spec sm).2 = (IsLeader (scopeOf name) (sm_election sm)).2.
Proof. intros Hp. unfold leads. rewrite Hp. by destruct (IsLeader _ _). Qed.

Lemma failover_starts {D : Type} `{ORMapLaws D} (sm : SingletonManager D) (name : string)
    (s : singletonState) (h : handler) (now : Z) (failed : NodeMeta) :
  sm_singletons sm !! name = Some s -> st_phase s = phaseIdle -> ss_Placement (st_spec s) = None ->
  ss_Handler (st_spec s) = Some h -> name <> ""%string -> name_free name (sm_runtime sm) ->
  (IsLeader (scopeOf name) (sm_election sm)).2 = true ->
  findPrevLeader name sm = ""%string \/ findPrevLeader name sm = nm_ID failed ->
  let sm' := OnMemberEvent now (mkMemberEvent MemberFailed failed) sm in
  name ∈ Running sm' /\ starting_with name (ss_InitialState (st_spec s)) (sm_runtime sm').
Proof.
  intros Hs Hph Hpl Hh Hne Hf Hlead Hprev. apply (event_starts sm name s h); try done.
  - by rewrite unplaced_leads.
  - destruct Hprev; [by left|]. by right; right.
Qed.

(** Failover.  When the node that runs a singleton fails, the node that leads
    the singleton's scope afterwards starts it at once, with its initial state. *)
Theorem owner_failure_restarts_singleton {D : Type} `{ORMapLaws D} (sm : SingletonManager D) (name : string)
    (s : singletonState) (h : handler) (now : Z) (failed : NodeMeta) :
  sm_singletons sm !! name = Some s -> st_phase s = phaseIdle -> ss_Placement (st_spec s) = None ->
  ss_Handler (st_spec s) = Some h -> name <> ""%string -> name_free name (sm_runtime sm) ->
  (IsLeader (scopeOf name) (sm_election sm)).2 = true ->
  findPrevLeader name sm = ""%string \/ findPrevLeader name sm = nm_ID failed ->
  let sm' := OnMemberEvent now (mkMemberEvent MemberFailed failed) sm in
  name ∈ Running sm' /\ starting_with name (ss_InitialState (st_spec s)) (sm_runtime sm').
Proof. by apply failover_starts. Qed.

(** ** Handing over *)

Lemma capture_running fuel name r l inst r' x :
  names_ok r -> lookup_actor name r = Some l -> instance l r = Some inst -> Status name r <> ActorStopped ->
  StopAndCapture fuel name r = Some (r', x) ->
  x = (as_value (ai_state inst), StopStopped) /\ shut_down name l r'.
Proof.
  intros Hn Hl Hi Hs Hc. unfold StopAndCapture in Hc. rewrite gets_bind in Hc. unfold id in Hc.
  rewrite Hl in Hc. cbn [mbind option_bind] in Hc. rewrite Hi in Hc. cbn [fmap option_fmap option_map] in Hc.
  rewrite decide_False in Hc by done. rewrite upd_bind in Hc. cbn zeta in Hc.
  apply bind_inv in Hc as (r1 & u & H1 & Hc). minv Hc. split; [done|].
  eapply stopInstance_shut_down; [| | |exact H1]; [done|done|].
  rewrite instance_update_eq, Hi. by eexists.
Qed.

Section handoff.
Context {D : Type} `{ORMapLaws D}.
Variable fuel : nat.
Implicit Types sm : SingletonManager D.

(** The state a new instance starts with when it is handed [v]. *)
Definition handed_state (spec : SingletonSpec) (v : payload) : payload :=
  if is_nil v then ss_InitialState spec
  else match ss_OnHandoff spec with Some f => f v | None => v end.

Lemma onHandoffRequest_running name s l inst r' x from corr req sm :
  sm_singletons sm !! name = Some s -> is_running s -> hq_Name req = name ->
  names_ok (sm_runtime sm) -> lookup_actor name (sm_runtime sm) = Some l ->
  instance l (sm_runtime sm) = Some inst -> Status name (sm_runtime sm) <> ActorStopped ->
  StopAndCapture fuel name (sm_runtime sm) = Some (r', x) ->
  exists sm', onHandoffRequest fuel from corr req sm = Some sm' /\
    sm_outbox sm' = sm_outbox sm ++ [mkSystemEnvelope from corr (MHandoffResponse
      (mkHandoffResponse name (hq_Term req) (as_value (ai_state inst)) true ""))] /\
    (exists s', sm_singletons sm' !! name = Some s' /\ st_phase s' = phaseIdle) /\
    shut_down name l (sm_runtime sm') /\ lookup_name name sm' = None.
Proof.
  intros Hs Hr Hq Hn Hl Hi Hst Hc. destruct (capture_running _ _ _ _ _ _ _ Hn Hl Hi Hst Hc) as [-> Hsd].
  unfold onHandoffRequest. rewrite Hq, Hs.
  assert (negb (bool_decide (st_phase s = phaseActive)) && negb (bool_decide (st_phase s = phaseDeactivating)) = false)
    as -> by (by destruct Hr as [-> | ->]).
  rewrite Hc. cbn. unfold unregister, cancel_op, lookup_name.
  destruct (st_cancel s) as [o|]; destruct (sm_registry sm) as [d|] eqn:Ed; cbn; rewrite ?Ed; cbn.
  all: eexists; split; [reflexivity|]; cbn; rewrite ?Ed; cbn; split; [done|];
    split; [eexists; rewrite lookup_insert_eq; split; done|]; split; [done|].
  1,3: unfold Lookup; rewrite Unregister_lookup, decide_True by done; done.
  all: done.
Qed.

(** The end of an activation in the term it began in. *)
Lemma completeActivation_starts name s h term v sm :
  sm_singletons sm !! name = Some s -> st_phase s = phaseActivating -> st_term s = term ->
  ss_Handler (st_spec s) = Some h -> name <> ""%string -> name_free name (sm_runtime sm) ->
  Term (scopeOf name) (sm_election sm) = term ->
  (exists s', sm_singletons (completeActivation name term v sm) !! name = Some s' /\ st_phase s' = phaseActive) /\
  starting_with name (handed_state (st_spec s) v) (sm_runtime (completeActivation name term v sm)).
Proof.
  intros Hs Hph Ht Hh Hne Hf Hterm.
  destruct (startActor_starts name s h (handed_state (st_spec s) v) sm Hne Hh Hf) as [H1 H2].
  assert (completeActivation name term v sm =
    put_singleton name (set_phase phaseActive s) (startActor name s (handed_state (st_spec s) v) sm)) as ->.
  { unfold completeActivation. rewrite Hs, Hph, Ht. cbn [negb].
    rewrite bool_decide_true, Z.eqb_refl by done. cbn [negb orb]. cbn zeta. by rewrite Hterm, Z.eqb_refl. }
  split; [|exact H1]. eexists. cbn. rewrite lookup_insert_eq. by split.
Qed.

Lemma handoff_completes name s h prev term v o sm :
  sm_singletons sm !! name = Some s -> st_phase s = phaseActivating -> st_term s = term ->
  ss_Handler (st_spec s) = Some h -> name <> ""%string -> name_free name (sm_runtime sm) ->
  Term (scopeOf name) (sm_election sm) = term ->
  (exists dn, sm_ops sm !! o = Some (OpHandoff name prev term HAwaiting, dn)) ->
  sm_handoffWaits sm !! correlationOf name term = Some (RespChan None) ->
  exists sm', handoff_wake o WakeResponse
      (onHandoffResponse (correlationOf name term) (mkHandoffResponse name term v true "") sm) = Some sm' /\
    (exists s', sm_singletons sm' !! name = Some s' /\ st_phase s' = phaseActive) /\
    starting_with name (handed_state (st_spec s) v) (sm_runtime sm').
Proof.
  intros Hs Hph Ht Hh Hne Hf Hterm [dn Ho] Hw. unfold onHandoffResponse. rewrite Hw. unfold handoff_wake.
  cbn [sm_ops with_waits]. rewrite Ho. cbn [sm_handoffWaits with_waits]. rewrite lookup_insert_eq.
  cbn [hr_OK hr_State]. cbn zeta. set (v' := if true && negb (is_nil v) then v else PNil).
  assert (handed_state (st_spec s) v' = handed_state (st_spec s) v) as <-.
  { unfold v', handed_state. by destruct v. }
  set (sm1 := with_waits _ sm). eexists. split; [reflexivity|]. by apply (completeActivation_starts name s h term v' sm1).
Qed.

(** A handoff whose context ends while it waits starts the singleton afresh. *)
Lemma handoff_times_out name s h prev term o sm :
  sm_singletons sm !! name = Some s -> st_phase s = phaseActivating -> st_term s = term ->
  ss_Handler (st_spec s) = Some h -> name <> ""%string -> name_free name (sm_runtime sm) ->
  Term (scopeOf name) (sm_election sm) = term ->
  (exists dn, sm_ops sm !! o = Some (OpHandoff name prev term HAwaiting, dn)) ->
  exists sm', handoff_wake o WakeDone (finish_op o sm) = Some sm' /\
    (exists s', sm_singletons sm' !! name = Some s' /\ st_phase s' = phaseActive) /\
    starting_with name (ss_InitialState (st_spec s)) (sm_runtime sm').
Proof.
  intros Hs Hph Ht Hh Hne Hf Hterm [dn Ho]. unfold handoff_wake, finish_op. cbn [sm_ops with_ops].
  rewrite lookup_alter_eq, Ho. cbn [fmap option_fmap option_map]. eexists. split; [reflexivity|].
  set (sm1 := with_ops _ _ sm). by apply (completeActivation_starts name s h term PNil sm1).
Qed.

(** The request of a handoff that begins. *)
Lemma handoff_requests name prev term dn o sm :
  sm_ops sm !! o = Some (OpHandoff name prev term HRequesting, dn) ->
  exists sm', handoff_send o None sm = Some sm' /\
    sm_outbox sm' = sm_outbox sm ++ [mkSystemEnvelope prev (correlationOf name term)
      (MHandoffRequest (mkHandoffRequest name term (localNode sm)))] /\
    sm_singletons sm' = sm_singletons sm /\ sm_runtime sm' = sm_runtime sm /\ sm_election sm' = sm_election sm /\
    sm_ops sm' !! o = Some (OpHandoff name prev term HAwaiting, dn) /\
    sm_handoffWaits sm' !! correlationOf name term = Some (RespChan None).
Proof.
  intros Ho. unfold handoff_send. rewrite Ho. eexists. split; [reflexivity|]. cbn. by rewrite !lookup_insert_eq.
Qed.

(** A singleton in its active phase runs, one in its idle phase does not. *)
Lemma active_running name s sm : sm_singletons sm !! name = Some s -> st_phase s = phaseActive -> name ∈ Running sm.
Proof.
  intros Hs Hph. unfold Running. apply list_elem_of_omap. exists (name, s). rewrite elem_of_map_to_list, Hph. done.
Qed.

Lemma idle_not_running name s sm : sm_singletons sm !! name = Some s -> st_phase s = phaseIdle -> name ∉ Running sm.
Proof.
  intros Hs Hph. unfold Running. rewrite list_elem_of_omap. intros ([k s'] & Hin & E). apply elem_of_map_to_list in Hin.
  destruct (_ || _) eqn:Eb; [|done]. injection E as ->. assert (s' = s) as -> by congruence. by rewrite Hph in Eb.
Qed.
End handoff.

(** Handoff moves a singleton with its state.  When the new leader waits for
    the old owner and the request reaches the node where the singleton runs, the
    old actor is shut down and unregistered before the response leaves; with that
    response the new leader starts the singleton in the state the old actor had,
    as [OnHandoff] converts it. *)
Theorem handoff_moves_singleton {D : Type} `{ORMapLaws D} (fuel : nat) (old new : SingletonManager D)
    (name : string) (so sn : singletonState) (h : handler) (l : nat) (inst : actorInstance) (r' : Runtime)
    (x : payload * StopResult) (o : nat) (newLeader prev : NodeID) (term : Z) (req : singletonHandoffRequest)
    sf cfg d now :
  sm_singletons old !! name = Some so -> is_running so -> reachable sf cfg d now (sm_runtime old) ->
  lookup_actor name (sm_runtime old) = Some l -> instance l (sm_runtime old) = Some inst ->
  Status name (sm_runtime old) <> ActorStopped ->
  StopAndCapture fuel name (sm_runtime old) = Some (r', x) ->
  sm_singletons new !! name = Some sn -> st_phase sn = phaseActivating -> st_term sn = term ->
  ss_Handler (st_spec sn) = Some h -> name <> ""%string -> name_free name (sm_runtime new) ->
  Term (scopeOf name) (sm_election new) = term ->
  (exists dn, sm_ops new !! o = Some (OpHandoff name prev term HAwaiting, dn)) ->
  sm_handoffWaits new !! correlationOf name term = Some (RespChan None) ->
  req = mkHandoffRequest name term newLeader ->
  exists old' resp new', onHandoffRequest fuel newLeader (correlationOf name term) req old = Some old' /\
    shut_down name l (sm_runtime old') /\ lookup_name name old' = None /\ (name ∉ Running old') /\
    sm_outbox old' = sm_outbox old ++ [mkSystemEnvelope newLeader (correlationOf name term) (MHandoffResponse resp)] /\
    handoff_wake o WakeResponse (onHandoffResponse (correlationOf name term) resp new) = Some new' /\
    name ∈ Running new' /\
    starting_with name (handed_state (st_spec sn) (as_value (ai_state inst))) (sm_runtime new').
Proof.
  intros Hso Hr Hreach Hl Hi Hst Hc Hsn Hph Ht Hh Hne Hf Hterm Ho Hw ->.
  apply reachable_ok in Hreach as [_ _ Hn _ _].
  destruct (onHandoffRequest_running fuel name so l inst r' x newLeader (correlationOf name term)
    (mkHandoffRequest name term newLeader) old Hso Hr eq_refl Hn Hl Hi Hst Hc)
    as (old' & E1 & E2 & (so' & E3 & E3') & E4 & E5).
  destruct (handoff_completes name sn h prev term (as_value (ai_state inst)) o new Hsn Hph Ht Hh Hne Hf Hterm Ho Hw)
    as (new' & F1 & (sn' & F2 & F2') & F3).
  exists old'. eexists _, new'. split_and!; [exact E1|done|done| |exact E2|exact F1| |exact F3].
  - by apply (idle_not_running name so').
  - by apply (active_running name sn').
Qed.

(** ** A singleton on two nodes *)

Definition cron_name : string := "scheduler".

Definition cron_spec : SingletonSpec :=
  mkSingletonSpec cron_name (job 0) (Some accumulator) [] None 0 (Some (fun p => job (content p + 100))).

Definition peer_cluster (self peer : NodeID) : Cluster :=
  let meta x := mkNodeMeta x (x +:+ ":9000") ∅ 0 in
  mkCluster (meta self) (TopologyFullMesh FullMesh) 0 ∅ {[peer := meta peer]} ∅ [] ∅ true.

Definition member_election (id peer : NodeID) : RingElection :=
  SetMembers [mkNodeMeta peer "" ∅ 0] (NewRingElection ∅ id).

Definition manager_of (id peer : NodeID) (r : Runtime) (names : gmap string PID) : SingletonManager (gmap string PID) :=
  NewSingletonManager r (member_election id peer) (Some names) (Some (peer_cluster id peer)) true.

Definition named_cfg (id : NodeID) : config :=
  mkConfig (cf_policy defaultConfig) id None None false None false false false false (fun _ => 0) (fun _ => false)
    (fun _ _ => None).

(** The singleton runs on [n1] and has processed a job. *)
Definition owner_schedule : list action :=
  [DoApi (ACreateActor cron_name (job 0) (Some accumulator) []); DoStart 0; DoApi (ASend cron_name (job 5));
   DoWake 0; DoIter 0; DoIter 0].

Definition running_at (id : NodeID) : Runtime :=
  default (NewRuntime (named_cfg id) true 0) (schedule 2 owner_schedule (NewRuntime (named_cfg id) true 0)).

Lemma running_at_reachable id :
  is_Some (schedule 2 owner_schedule (NewRuntime (named_cfg id) true 0)) -> reachable 2 (named_cfg id) true 0 (running_at id).
Proof. intros [r E]. unfold running_at. rewrite E. by eapply schedule_reachable. Qed.

Definition owner_at (id peer : NodeID) : SingletonManager (gmap string PID) :=
  put_singleton cron_name (mkSingletonState cron_spec phaseDeactivating 1 None false)
    (manager_of id peer (running_at id) {[cron_name := mkPID id cron_name 1]}).

Definition owner_runtime : Runtime := running_at "n1".

Lemma owner_runtime_reachable : reachable 2 (named_cfg "n1") true 0 owner_runtime.
Proof. apply running_at_reachable. vm_compute. eexists. reflexivity. Qed.

Definition owner : SingletonManager (gmap string PID) := owner_at "n1" "n2".

(** [id] leads the scope, has discovered the owner and is about to ask for the
    singleton. *)
Definition requester_at (id peer : NodeID) : option (SingletonManager (gmap string PID)) :=
  let sm := Register cron_spec (manager_of id peer (NewRuntime (named_cfg id) true 0) ∅) in
  Rebalance 2 (Start true [(peer, [cron_name])] sm).

Definition successor : option (SingletonManager (gmap string PID)) :=
  sm ← requester_at "n2" "n1"; handoff_send 0 None sm.

Definition successor_waiting : SingletonManager (gmap string PID) :=
  default (manager_of "n2" "n1" (NewRuntime (named_cfg "n2") true 0) ∅) successor.

Lemma handoff_moves_singleton_witness :
  exists old' resp new', onHandoffRequest 2 "n2" (correlationOf cron_name 1) (mkHandoffRequest cron_name 1 "n2") owner
      = Some old' /\
    shut_down cron_name 0 (sm_runtime old') /\ lookup_name cron_name old' = None /\ (cron_name ∉ Running old') /\
    sm_outbox old' = sm_outbox owner ++
      [mkSystemEnvelope "n2" (correlationOf cron_name 1) (MHandoffResponse resp)] /\
    handoff_wake 0 WakeResponse (onHandoffResponse (correlationOf cron_name 1) resp successor_waiting) = Some new' /\
    cron_name ∈ Running new' /\ starting_with cron_name (job 105) (sm_runtime new').
Proof.
  destruct (instance 0 owner_runtime) as [inst|] eqn:Ei; [|vm_compute in Ei; discriminate].
  destruct (StopAndCapture 2 cron_name owner_runtime) as [[r' x]|] eqn:Ec; [|vm_compute in Ec; discriminate].
  assert (as_value (ai_state inst) = job 5) as Es.
  { assert ((fun i => as_value (ai_state i)) <$> instance 0 owner_runtime = Some (job 5)) as E
      by (vm_compute; reflexivity). rewrite Ei in E. by injection E. }
  destruct (sm_singletons successor_waiting !! cron_name) as [sn|] eqn:Esn; [|vm_compute in Esn; discriminate].
  assert (st_phase sn = phaseActivating /\ st_term sn = 1 /\ st_spec sn = cron_spec) as (E1 & E2 & E3).
  { vm_compute in Esn. injection Esn as <-. done. }
  replace (job 105) with (handed_state (st_spec sn) (as_value (ai_state inst))) by (by rewrite E3, Es).
  apply (handoff_moves_singleton 2 owner successor_waiting cron_name
    (mkSingletonState cron_spec phaseDeactivating 1 None false) sn accumulator 0 inst r' x 0 "n2" "n1" 1
    (mkHandoffRequest cron_name 1 "n2") 2 (named_cfg "n1") true 0).
  - vm_compute. reflexivity.
  - by right.
  - apply owner_runtime_reachable.
  - vm_compute. reflexivity.
  - exact Ei.
  - vm_compute. discriminate.
  - exact Ec.
  - exact Esn.
  - done.
  - done.
  - by rewrite E3.
  - discriminate.
  - vm_compute. exact I.
  - vm_compute. reflexivity.
  - vm_compute. by eexists.
  - vm_compute. reflexivity.
  - reflexivity.
Defined.

Lemma running_singletons_stay_witness :
  undisturbed cron_name owner (OnMemberEvent 7 (mkMemberEvent MemberJoin (mkNodeMeta "n3" "" ∅ 0)) owner) /\
  undisturbed cron_name owner (watch_event cron_name (mkLeaderEvent (scopeOf cron_name) "n2" "n1" 2) owner).
Proof.
  apply (running_singletons_stay owner cron_name (mkSingletonState cron_spec phaseDeactivating 1 None false)).
  - vm_compute. reflexivity.
  - by right.
Defined.

(** [n2] knows from the registry that [n1] runs the singleton. *)
Definition standby : SingletonManager (gmap string PID) :=
  Start true [] (Register cron_spec (manager_of "n2" "n1" (NewRuntime (named_cfg "n2") true 0)
                                       {[cron_name := mkPID "n1" cron_name 1]})).

Lemma owner_failure_restarts_singleton_witness :
  Running standby = [] /\
  let sm' := OnMemberEvent 7 (mkMemberEvent MemberFailed (mkNodeMeta "n1" "" ∅ 0)) standby in
  cron_name ∈ Running sm' /\ starting_with cron_name (job 0) (sm_runtime sm').
Proof.
  split; [vm_compute; reflexivity|].
  apply (owner_failure_restarts_singleton standby cron_name (mkSingletonState cron_spec phaseIdle 0 None false)
    accumulator 7 (mkNodeMeta "n1" "" ∅ 0)).
  - vm_compute. reflexivity.
  - reflexivity.
  - reflexivity.
  - reflexivity.
  - discriminate.
  - vm_compute. exact I.
  - vm_compute. reflexivity.
  - right. vm_compute. reflexivity.
Defined.
