(* ===== verification/Transfer.v ===== *)
(** * Handing a singleton over the network ([sendSystemEnvelope] and the handlers
      of [cluster/singleton.go], the dispatcher of [cluster/inbound_handler.go])

    The manager's messages travel in envelopes and are handed to its handlers by
    the dispatcher, together with the node they came through.  A handler answers
    to that node.  Between nodes that are connected it is the sender, and the
    handoff is complete; through a relay it is the relay. *)

From S2P Require Import Prelude Types Mailbox Resolver Registry Routing Program State Emit Send Lifecycle Broker Cron.
From S2P Require Import Fnv Prim System Invariants Scheduler Safety Delivery Shutdown.
From S2P Require Import GoSort Nodes Topology Placement Election Ring Feed Cluster Remote Relay.
From S2P Require Import DistRegistry Singleton Handover.

Definition singletonHandoffReqType : string := "__singleton_handoff_req".
Definition singletonHandoffRespType : string := "__singleton_handoff_resp".
Definition singletonDiscoverReqType : string := "__singleton_discover_req".
Definition singletonDiscoverRespType : string := "__singleton_discover_resp".

Definition typeOf (m : systemMessage) : string :=
  match m with
  | MHandoffRequest _ => singletonHandoffReqType
  | MHandoffResponse _ => singletonHandoffRespType
  | MDiscoverRequest => singletonDiscoverReqType
  | MDiscoverResponse _ => singletonDiscoverRespType
  end.

(** The methods that [Start] registers. *)
Inductive singletonHandler := OnHandoffRequest | OnHandoffResponse | OnDiscoverRequest | OnDiscoverResponse.

Definition handlerOf (m : systemMessage) : singletonHandler :=
  match m with
  | MHandoffRequest _ => OnHandoffRequest
  | MHandoffResponse _ => OnHandoffResponse
  | MDiscoverRequest => OnDiscoverRequest
  | MDiscoverResponse _ => OnDiscoverResponse
  end.

Definition registerHandlers (d : InboundDispatcher singletonHandler) : InboundDispatcher singletonHandler :=
  let d := RegisterHandler singletonHandoffReqType OnHandoffRequest d in
  let d := RegisterHandler singletonHandoffRespType OnHandoffResponse d in
  let d := RegisterHandler singletonDiscoverReqType OnDiscoverRequest d in
  RegisterHandler singletonDiscoverRespType OnDiscoverResponse d.

Lemma registered_handler m d : id_handlers (registerHandlers d) !! typeOf m = Some (handlerOf m).
Proof.
  destruct m; unfold registerHandlers, RegisterHandler; cbn [id_handlers typeOf handlerOf];
    repeat (rewrite lookup_insert_ne by done); apply lookup_insert_eq.
Qed.

(** The codec on the manager's messages. *)
Record SystemCodec := mkSystemCodec {
  sc_Encode : systemMessage -> string + string;
  sc_Decode : string -> option systemMessage
}.

Definition system_round_trips (sc : SystemCodec) (m : systemMessage) : Prop :=
  exists bytes, sc_Encode sc m = inl bytes /\ sc_Decode sc bytes = Some m.

Section transfer.
Variables (sc : SystemCodec) (now : Z) (dialed : string -> Connection + string).

(** ** Sending and receiving *)

(** [sendSystemEnvelope] of a message of the outbox. *)
Definition sendSystemEnvelope (sendErr : Connection -> option string) (se : systemEnvelope) (c : Cluster) :
    Cluster * option string * option (Connection * Envelope) :=
  let typeName := typeOf (se_message se) in
  match sc_Encode sc (se_message se) with
  | inr e => (c, Some ("encode " +:+ typeName +:+ ": " +:+ e), None)
  | inl encoded =>
      let env := mkEnvelope (LocalNodeID c) "" (se_target se) "" "" 0 typeName "" 0 encoded false
                   (se_correlationID se) None now in
      match SendRemote now dialed sendErr (se_target se) env c with
      | (c, SendError e) => (c, Some e, None)
      | (c, Sent conn env) => (c, None, Some (conn, env))
      end
  end.

Section handlers.
Context {D : Type} `{ORMap D}.
Variable fuel : nat.
Implicit Types sm : SingletonManager D.

(** A handler's call; a message of another kind, or one that cannot be decoded, is
    dropped.  [onDiscoverRequest] does not look at its payload, and a response to
    a discovery goes to the channel the discovery reads. *)
Definition handle (h : singletonHandler) (from : NodeID) (env : Envelope) sm : option (SingletonManager D) :=
  match h, sc_Decode sc (en_Payload env) with
  | OnHandoffRequest, Some (MHandoffRequest req) => onHandoffRequest fuel from (en_AskRequestID env) req sm
  | OnHandoffResponse, Some (MHandoffResponse resp) => Some (onHandoffResponse (en_AskRequestID env) resp sm)
  | OnDiscoverRequest, _ => Some (onDiscoverRequest from (en_AskRequestID env) sm)
  | _, _ => Some sm
  end.
End handlers.

(** [onDiscoverResponse]: what it offers to the channel [DiscoverFromPeers] reads,
    which has room for [capacity] responses; no channel outside a discovery. *)
Definition discoverResponse (from : NodeID) (env : Envelope) (capacity : nat) (ch : option (list (NodeID * list string))) :
    option (list (NodeID * list string)) :=
  match sc_Decode sc (en_Payload env), ch with
  | Some (MDiscoverResponse running), Some l => if (length l <? capacity)%nat then Some (l ++ [(from, running)]) else ch
  | _, _ => ch
  end.

(** ** The way of a message *)

Section network.
Variables (codec : Codec) (router_fuel : nat).
Variables (t : TopologyImpl) (S : gset NodeID) (w : gmap NodeID (node singletonHandler)).
Hypothesis Hok : topo_ok t.
Hypothesis Hempty : ""%string ∉ S.
Hypothesis Hw : settled_network t S w.
Hypothesis Hnow : now <> 0.
Hypothesis Hhandlers : forall id nd, w !! id = Some nd -> exists d, nd_dispatcher nd = registerHandlers d.

(** It arrives at its handler as it was sent; the node it came through is the
    sender if the two are connected, and another if the sender has no connection
    to the target. *)
Lemma system_arrives a b na nb se hops :
  a ∈ S -> b ∈ S -> a <> b -> w !! a = Some na -> w !! b = Some nb -> se_target se = b ->
  system_round_trips sc (se_message se) -> (topo_dist t S a b <= hops)%nat ->
  exists conn env from,
    sendSystemEnvelope (fun _ => None) se (nd_cluster na) = (nd_cluster na, None, Some (conn, env)) /\
    deliver codec now router_fuel dialed hops a (RemoteNodeID conn) env w = Some (w, b, Handled (handlerOf (se_message se)) from) /\
    sc_Decode sc (en_Payload env) = Some (se_message se) /\ en_AskRequestID env = se_correlationID se /\
    (is_Some (cl_conns (nd_cluster na) !! b) -> from = a) /\ (cl_conns (nd_cluster na) !! b = None -> from <> a).
Proof.
  intros Ha Hb Hne Hna Hnb Ht (bytes & Ee & Ed) Hd.
  destruct (Hw a Ha) as (na' & Hna' & Hset). assert (na' = na) as -> by congruence.
  set (env := mkEnvelope (LocalNodeID (nd_cluster na)) "" b "" "" 0 (typeOf (se_message se)) "" 0 bytes false
    (se_correlationID se) None now).
  destruct (settled_hop now dialed t S Hok Hempty b Hb a na env Hset Hne Hnow) as (conn & Es & Hin & Hlt & Hc & Hdirect).
  destruct (deliver_origin codec now router_fuel dialed t S Hok Hempty b Hb hops a (RemoteNodeID conn) env w nb Hw Hin Hnb)
    as (from & Ev & Hf1 & Hf2); [done|done|lia|].
  exists conn, env, from. split_and!.
  - unfold sendSystemEnvelope. rewrite Ee, Ht. fold env. by rewrite Es.
  - rewrite Ev. unfold arrival, dispatch_here. destruct (Hhandlers b nb Hnb) as [d Ehd].
    change (en_TypeName env) with (typeOf (se_message se)). rewrite Ehd, registered_handler. cbn [mbind option_bind].
    rewrite <- Ehd. f_equal. f_equal. f_equal. apply insert_id. rewrite Hnb. by destruct nb.
  - exact Ed.
  - done.
  - intros Hs. by apply Hf1, Hdirect.
  - intros Hn E. destruct (decide (RemoteNodeID conn = b)) as [Eb|Hnb']; [congruence|]. specialize (Hf2 Hnb').
    subst from. apply (Nat.lt_irrefl (topo_dist t S a b)), (Nat.le_lt_trans _ _ _ Hf2), Hlt.
Qed.
End network.
End transfer.

(** ** The handoff *)

(** A requester: the new leader's manager with its handoff goroutine about to ask. *)
Record requests {D : Type} (name : string) (owner : NodeID) (term : Z) (o : nat) (h : handler) (sn : singletonState)
    (sm : SingletonManager D) : Prop := {
  rq_single : sm_singletons sm !! name = Some sn;
  rq_phase : st_phase sn = phaseActivating;
  rq_term : st_term sn = term;
  rq_handler : ss_Handler (st_spec sn) = Some h;
  rq_name : name <> ""%string;
  rq_free : name_free name (sm_runtime sm);
  rq_current : Term (scopeOf name) (sm_election sm) = term;
  rq_op : exists dn, sm_ops sm !! o = Some (OpHandoff name owner term HRequesting, dn)
}.

(** An owner: a manager whose singleton runs on a reachable runtime. *)
Record owns {D : Type} (fuel : nat) (name : string) (l : nat) (inst : actorInstance) (sm : SingletonManager D) : Prop := {
  ow_single : exists so, sm_singletons sm !! name = Some so /\ is_running so;
  ow_reachable : exists sf cfg d now, reachable sf cfg d now (sm_runtime sm);
  ow_actor : lookup_actor name (sm_runtime sm) = Some l;
  ow_instance : instance l (sm_runtime sm) = Some inst;
  ow_status : Status name (sm_runtime sm) <> ActorStopped;
  ow_capture : is_Some (StopAndCapture fuel name (sm_runtime sm))
}.

Section handoff.
Context {D : Type} `{ORMapLaws D}.
Implicit Types old new : SingletonManager D.

(** The request leaves, and the requester waits. *)
Lemma request_sent name owner term o h sn new :
  requests name owner term o h sn new ->
  exists new1, handoff_send o None new = Some new1 /\
    sm_outbox new1 = sm_outbox new ++ [mkSystemEnvelope owner (correlationOf name term)
      (MHandoffRequest (mkHandoffRequest name term (localNode new)))] /\
    sm_singletons new1 = sm_singletons new /\ sm_runtime new1 = sm_runtime new /\ sm_election new1 = sm_election new /\
    (exists dn, sm_ops new1 !! o = Some (OpHandoff name owner term HAwaiting, dn)) /\
    sm_handoffWaits new1 !! correlationOf name term = Some (RespChan None).
Proof.
  intros [_ _ _ _ _ _ _ [dn Ho]]. destruct (handoff_requests name owner term dn o new Ho) as (new1 & H1 & H2 & H3 & H4 & H5 & H6 & H7).
  exists new1. split_and!; try done. by exists dn.
Qed.

(** The owner shuts its actor down and answers to the node the request came
    through. *)
Lemma request_answered fuel name l inst corr req from old :
  owns fuel name l inst old -> hq_Name req = name ->
  exists old', onHandoffRequest fuel from corr req old = Some old' /\
    sm_outbox old' = sm_outbox old ++ [mkSystemEnvelope from corr
      (MHandoffResponse (mkHandoffResponse name (hq_Term req) (as_value (ai_state inst)) true ""))] /\
    shut_down name l (sm_runtime old') /\ lookup_name name old' = None /\ name ∉ Running old'.
Proof.
  intros [(so & Hso & Hr) (sf & cfg & d & now & Hreach) Hl Hi Hst [[r' x] Hc]] Hq.
  apply reachable_ok in Hreach as [_ _ Hn _ _].
  destruct (onHandoffRequest_running fuel name so l inst r' x from corr req old Hso Hr Hq Hn Hl Hi Hst Hc)
    as (old' & E1 & E2 & (so' & E3 & E3') & E4 & E5).
  exists old'. split_and!; [done..|]. by apply (idle_not_running name so').
Qed.

(** C28: a handoff crosses the network.  When a new leader asks the node where its
    singleton runs, and the two nodes are connected to each other in a settled
    cluster, the request arrives, the old actor is shut down and its name freed
    before the answer leaves, the answer arrives, and with it the new leader starts
    the singleton in the state the old actor had, as [OnHandoff] converts it. *)
Theorem handoff_crosses_network (sc : SystemCodec) (codec : Codec) (now : Z) (rf fuel hops : nat)
    (dialed : string -> Connection + string) (t : TopologyImpl) (S : gset NodeID)
    (w : gmap NodeID (node singletonHandler)) (a b : NodeID) (na nb : node singletonHandler) old new
    (name : string) (term : Z) (o l : nat) (h : handler) (sn : singletonState) (inst : actorInstance) :
  let corr := correlationOf name term in
  topo_ok t -> ""%string ∉ S -> settled_network t S w -> now <> 0 ->
  (forall id nd, w !! id = Some nd -> exists d, nd_dispatcher nd = registerHandlers d) ->
  a ∈ S -> b ∈ S -> a <> b -> w !! a = Some na -> w !! b = Some nb ->
  is_Some (cl_conns (nd_cluster na) !! b) -> is_Some (cl_conns (nd_cluster nb) !! a) ->
  (topo_dist t S a b <= hops)%nat -> (topo_dist t S b a <= hops)%nat ->
  requests name b term o h sn new -> owns fuel name l inst old ->
  (forall leader, system_round_trips sc (MHandoffRequest (mkHandoffRequest name term leader))) ->
  system_round_trips sc (MHandoffResponse (mkHandoffResponse name term (as_value (ai_state inst)) true "")) ->
  exists new1 req conn env old' resp conn' env' new2 new',
    handoff_send o None new = Some new1 /\ sm_outbox new1 = sm_outbox new ++ [req] /\
    sendSystemEnvelope sc now dialed (fun _ => None) req (nd_cluster na) = (nd_cluster na, None, Some (conn, env)) /\
    deliver codec now rf dialed hops a (RemoteNodeID conn) env w = Some (w, b, Handled OnHandoffRequest a) /\
    handle sc fuel OnHandoffRequest a env old = Some old' /\ sm_outbox old' = sm_outbox old ++ [resp] /\
    shut_down name l (sm_runtime old') /\ lookup_name name old' = None /\ (name ∉ Running old') /\
    sendSystemEnvelope sc now dialed (fun _ => None) resp (nd_cluster nb) = (nd_cluster nb, None, Some (conn', env')) /\
    deliver codec now rf dialed hops b (RemoteNodeID conn') env' w = Some (w, a, Handled OnHandoffResponse b) /\
    handle sc fuel OnHandoffResponse b env' new1 = Some new2 /\ handoff_wake o WakeResponse new2 = Some new' /\
    name ∈ Running new' /\
    starting_with name (handed_state (st_spec sn) (as_value (ai_state inst))) (sm_runtime new').
Proof.
  intros corr Hok Hempty Hw Hnow Hh Ha Hb Hne Hna Hnb Hcab Hcba Hda Hdb Hreq Hown Hrt1 Hrt2.
  destruct (request_sent name b term o h sn new Hreq) as (new1 & E1 & E2 & E3 & E4 & E5 & E6 & E7).
  set (req := mkSystemEnvelope b corr (MHandoffRequest (mkHandoffRequest name term (localNode new)))) in *.
  destruct (system_arrives sc now dialed codec rf t S w Hok Hempty Hw Hnow Hh a b na nb req hops)
    as (conn & env & from & F1 & F2 & F3 & F4 & F5 & _); [done..|apply Hrt1|done|].
  rewrite (F5 Hcab) in F2.
  destruct (request_answered fuel name l inst corr (mkHandoffRequest name term (localNode new)) a old Hown eq_refl)
    as (old' & G1 & G2 & G3 & G4 & G5).
  set (resp := mkSystemEnvelope a corr (MHandoffResponse (mkHandoffResponse name term (as_value (ai_state inst)) true ""))) in *.
  destruct (system_arrives sc now dialed codec rf t S w Hok Hempty Hw Hnow Hh b a nb na resp hops)
    as (conn' & env' & from' & I1 & I2 & I3 & I4 & I5 & _); [done..|].
  rewrite (I5 Hcba) in I2. destruct Hreq as [R1 R2 R3 R4 R5 R6 R7 _].
  destruct (handoff_completes name sn h b term (as_value (ai_state inst)) o new1) as (new' & J1 & (sn' & J2 & J3) & J4);
    [by rewrite E3|done|done|done|done|by rewrite E4|by rewrite E5|done|done|].
  exists new1, req, conn, env, old', resp, conn', env',
    (onHandoffResponse corr (mkHandoffResponse name term (as_value (ai_state inst)) true "") new1), new'.
  split_and!; try done.
  - unfold handle. rewrite F3. cbn [se_message req]. by rewrite F4.
  - unfold handle. rewrite I3. cbn [se_message resp]. by rewrite I4.
  - by apply (active_running name sn').
Qed.

(** Through a relay the state is lost.  When the new leader has no connection to
    the owner, the owner still shuts its actor down, but it answers to the relay,
    which drops the answer; the new leader waits until its time is up and starts
    the singleton in its initial state. *)
Theorem relayed_handoff_loses_state (sc : SystemCodec) (codec : Codec) (now : Z) (rf fuel hops : nat)
    (dialed : string -> Connection + string) (t : TopologyImpl) (S : gset NodeID)
    (w : gmap NodeID (node singletonHandler)) (a b : NodeID) (na nb : node singletonHandler) old new
    (name : string) (term : Z) (o l : nat) (h : handler) (sn : singletonState) (inst : actorInstance) :
  let corr := correlationOf name term in
  topo_ok t -> ""%string ∉ S -> settled_network t S w -> now <> 0 ->
  (forall id nd, w !! id = Some nd -> exists d, nd_dispatcher nd = registerHandlers d) ->
  a ∈ S -> b ∈ S -> a <> b -> w !! a = Some na -> w !! b = Some nb ->
  cl_conns (nd_cluster na) !! b = None -> (topo_dist t S a b <= hops)%nat ->
  requests name b term o h sn new -> owns fuel name l inst old ->
  (forall leader, system_round_trips sc (MHandoffRequest (mkHandoffRequest name term leader))) ->
  exists new1 req conn env relay old' resp new',
    handoff_send o None new = Some new1 /\ sm_outbox new1 = sm_outbox new ++ [req] /\
    sendSystemEnvelope sc now dialed (fun _ => None) req (nd_cluster na) = (nd_cluster na, None, Some (conn, env)) /\
    deliver codec now rf dialed hops a (RemoteNodeID conn) env w = Some (w, b, Handled OnHandoffRequest relay) /\
    relay <> a /\
    handle sc fuel OnHandoffRequest relay env old = Some old' /\
    shut_down name l (sm_runtime old') /\ (name ∉ Running old') /\
    sm_outbox old' = sm_outbox old ++ [resp] /\ se_target resp = relay /\
    (forall (other : SingletonManager D) from env', sc_Decode sc (en_Payload env') = Some (se_message resp) ->
       en_AskRequestID env' = corr -> sm_handoffWaits other !! corr = None ->
       handle sc fuel OnHandoffResponse from env' other = Some other) /\
    handoff_wake o WakeDone (finish_op o new1) = Some new' /\ name ∈ Running new' /\
    starting_with name (ss_InitialState (st_spec sn)) (sm_runtime new').
Proof.
  intros corr Hok Hempty Hw Hnow Hh Ha Hb Hne Hna Hnb Hcab Hda Hreq Hown Hrt1.
  destruct (request_sent name b term o h sn new Hreq) as (new1 & E1 & E2 & E3 & E4 & E5 & E6 & E7).
  set (req := mkSystemEnvelope b corr (MHandoffRequest (mkHandoffRequest name term (localNode new)))) in *.
  destruct (system_arrives sc now dialed codec rf t S w Hok Hempty Hw Hnow Hh a b na nb req hops)
    as (conn & env & relay & F1 & F2 & F3 & F4 & _ & F6); [done..|apply Hrt1|done|].
  destruct (request_answered fuel name l inst corr (mkHandoffRequest name term (localNode new)) relay old Hown eq_refl)
    as (old' & G1 & G2 & G3 & G4 & G5). destruct Hreq as [R1 R2 R3 R4 R5 R6 R7 _].
  destruct (handoff_times_out name sn h b term o new1) as (new' & J1 & (sn' & J2 & J3) & J4);
    [by rewrite E3|done|done|done|done|by rewrite E4|by rewrite E5|done|].
  exists new1, req, conn, env, relay, old'. eexists _, new'. split_and!; try done.
  - by apply F6.
  - unfold handle. rewrite F3. cbn [se_message req]. by rewrite F4.
  - intros other from env' Hdec Hid Hn. unfold handle. rewrite Hdec. cbn [se_message]. rewrite Hid.
    unfold onHandoffResponse. by rewrite Hn.
  - by apply (active_running name sn').
Qed.
End handoff.

(** ** In a ring *)

Definition with_handlers (nd : node unit) : node singletonHandler :=
  mkNode (nd_cluster nd) (nd_runtime nd) (registerHandlers (mkInboundDispatcher (id_cluster (nd_dispatcher nd)) ∅)).

Definition handler_network : gmap NodeID (node singletonHandler) := with_handlers <$> ring_network.

Lemma handler_network_settled : settled_network example_ring (list_to_set ring_ids) handler_network.
Proof.
  intros a Ha. destruct (ring_network_settled a Ha) as (nd & E & Hs). exists (with_handlers nd).
  split; [unfold handler_network; by rewrite lookup_fmap, E|exact Hs].
Qed.

Lemma handler_network_lookup a : a ∈ ring_ids -> handler_network !! a = Some (with_handlers (ring_node a)).
Proof. intros Ha. unfold handler_network. by rewrite lookup_fmap, ring_network_lookup. Qed.

Lemma handler_network_handles id nd : handler_network !! id = Some nd -> exists d, nd_dispatcher nd = registerHandlers d.
Proof.
  unfold handler_network. rewrite lookup_fmap. destruct (ring_network !! id) as [nd0|]; [|done].
  intros [= <-]. by eexists.
Qed.

(** The messages of a handoff of the example singleton in its first term, with a
    job as its state. *)
Definition example_system_codec : SystemCodec :=
  mkSystemCodec
    (fun m => match m with
       | MHandoffRequest req =>
           if bool_decide (hq_Name req = cron_name) && (hq_Term req =? 1) then inl ("q" +:+ hq_NewLeader req)
           else inr "unknown request"%string
       | MHandoffResponse (mkHandoffResponse name term (PUser v) true ""%string) =>
           if bool_decide (name = cron_name) && (term =? 1) then inl ("r" +:+ itoa (uv_Content v)) else inr "unknown response"%string
       | _ => inr "unknown message"%string
       end)
    (fun s => match s with
       | String c rest =>
           if bool_decide (c = "q"%char) then Some (MHandoffRequest (mkHandoffRequest cron_name 1 rest))
           else n ← Atoi rest; Some (MHandoffResponse (mkHandoffResponse cron_name 1 (job n) true ""))
       | EmptyString => None
       end).

Lemma requests_round_trip leader :
  system_round_trips example_system_codec (MHandoffRequest (mkHandoffRequest cron_name 1 leader)).
Proof. by eexists. Qed.

Lemma response_round_trips :
  system_round_trips example_system_codec (MHandoffResponse (mkHandoffResponse cron_name 1 (job 5) true "")).
Proof. exists "r5"%string. split; vm_compute; reflexivity. Qed.

Definition requester (id peer : NodeID) : SingletonManager (gmap string PID) :=
  default (manager_of id peer (NewRuntime (named_cfg id) true 0) ∅) (requester_at id peer).

Definition requested (id peer : NodeID) : singletonState :=
  default (mkSingletonState cron_spec phaseIdle 0 None false) (sm_singletons (requester id peer) !! cron_name).

(** What is to be computed of a requester. *)
Definition requester_check (id peer : NodeID) : bool :=
  let sm := requester id peer in
  match sm_singletons sm !! cron_name with
  | Some s => bool_decide (st_phase s = phaseActivating) && (st_term s =? 1)
  | None => false
  end && (Term (scopeOf cron_name) (sm_election sm) =? 1) && bool_decide (lookup_actor cron_name (sm_runtime sm) = None) &&
  match sm_ops sm !! 0%nat with
  | Some (OpHandoff name owner term HRequesting, _) =>
      bool_decide (name = cron_name) && bool_decide (owner = peer) && (term =? 1)
  | _ => false
  end.

Lemma requester_requests id peer :
  requester_check id peer = true -> st_spec <$> sm_singletons (requester id peer) !! cron_name = Some cron_spec ->
  requests cron_name peer 1 0 accumulator (requested id peer) (requester id peer).
Proof.
  unfold requester_check, requested. set (sm := requester id peer). clearbody sm.
  destruct (sm_singletons sm !! cron_name) as [s|] eqn:Es; [|done]. cbn [default from_option fmap option_fmap option_map].
  destruct (sm_ops sm !! 0%nat) as [[[name owner term []|] dn]|] eqn:Eo; rewrite ?andb_false_r; try done.
  intros Hc [= Hs]. rewrite !andb_true_iff in Hc. destruct Hc as [[[[P1 P2] P3] P4] [[P5 P6] P7]].
  apply Z.eqb_eq in P2, P3, P7. bprop. subst name owner term. split.
  - exact Es.
  - done.
  - done.
  - cbn. by rewrite Hs.
  - done.
  - unfold name_free. by rewrite P4.
  - done.
  - by exists dn.
Qed.

Definition owned (id : NodeID) : option actorInstance := instance 0 (running_at id).

Lemma owner_owns id peer inst :
  is_Some (schedule 2 owner_schedule (NewRuntime (named_cfg id) true 0)) -> owned id = Some inst ->
  lookup_actor cron_name (running_at id) = Some 0%nat -> Status cron_name (running_at id) <> ActorStopped ->
  is_Some (StopAndCapture 2 cron_name (running_at id)) -> owns 2 cron_name 0 inst (owner_at id peer).
Proof.
  intros Hs Hi Hl Hst Hc. split.
  - eexists. split; [apply lookup_insert_eq|by right].
  - exists 2%nat, (named_cfg id), true, 0. by apply running_at_reachable.
  - exact Hl.
  - exact Hi.
  - exact Hst.
  - exact Hc.
Qed.

Lemma owned_state id :
  (fun i => as_value (ai_state i)) <$> owned id = Some (job 5) -> exists inst, owned id = Some inst /\ as_value (ai_state inst) = job 5.
Proof. intros E. destruct (owned id) as [inst|]; [|done]. injection E as E. by exists inst. Qed.

(** [d] takes over from [a], to which it is connected. *)
Lemma handoff_crosses_network_witness :
  exists new1 req conn env old' resp conn' env' new2 new',
    handoff_send 0 None (requester "d" "a") = Some new1 /\ sm_outbox new1 = sm_outbox (requester "d" "a") ++ [req] /\
    sendSystemEnvelope example_system_codec 9 (fun _ => inr "no"%string) (fun _ => None) req (ring_cluster "d") =
      (ring_cluster "d", None, Some (conn, env)) /\
    deliver example_codec 9 2 (fun _ => inr "no"%string) 5 "d" (RemoteNodeID conn) env handler_network =
      Some (handler_network, "a"%string, Handled OnHandoffRequest "d"%string) /\
    handle example_system_codec 2 OnHandoffRequest "d" env (owner_at "a" "d") = Some old' /\
    sm_outbox old' = sm_outbox (owner_at "a" "d") ++ [resp] /\
    shut_down cron_name 0 (sm_runtime old') /\ lookup_name cron_name old' = None /\ (cron_name ∉ Running old') /\
    sendSystemEnvelope example_system_codec 9 (fun _ => inr "no"%string) (fun _ => None) resp (ring_cluster "a") =
      (ring_cluster "a", None, Some (conn', env')) /\
    deliver example_codec 9 2 (fun _ => inr "no"%string) 5 "a" (RemoteNodeID conn') env' handler_network =
      Some (handler_network, "d"%string, Handled OnHandoffResponse "a"%string) /\
    handle example_system_codec 2 OnHandoffResponse "a" env' new1 = Some new2 /\
    handoff_wake 0 WakeResponse new2 = Some new' /\ cron_name ∈ Running new' /\
    starting_with cron_name (job 105) (sm_runtime new').
Proof.
  destruct (owned_state "a") as (inst & Ei & Es); [vm_compute; reflexivity|].
  assert (requests cron_name "a" 1 0 accumulator (requested "d" "a") (requester "d" "a")) as Hreq
    by (apply requester_requests; vm_compute; reflexivity).
  assert (st_spec (requested "d" "a") = cron_spec) as Esp by (vm_compute; reflexivity).
  replace (job 105) with (handed_state (st_spec (requested "d" "a")) (as_value (ai_state inst))) by (by rewrite Esp, Es).
  apply (handoff_crosses_network example_system_codec example_codec 9 2 2 5 (fun _ => inr "no"%string) example_ring
    (list_to_set ring_ids) handler_network "d" "a" (with_handlers (ring_node "d")) (with_handlers (ring_node "a"))
    (owner_at "a" "d") (requester "d" "a") cron_name 1 0 0 accumulator (requested "d" "a") inst).
  - vm_compute. discriminate.
  - apply (bool_decide_unpack _). vm_compute. exact I.
  - exact handler_network_settled.
  - discriminate.
  - exact handler_network_handles.
  - apply (bool_decide_unpack _). vm_compute. exact I.
  - apply (bool_decide_unpack _). vm_compute. exact I.
  - discriminate.
  - apply handler_network_lookup, (bool_decide_unpack _). vm_compute. exact I.
  - apply handler_network_lookup, (bool_decide_unpack _). vm_compute. exact I.
  - apply (bool_decide_unpack _). vm_compute. exact I.
  - apply (bool_decide_unpack _). vm_compute. exact I.
  - apply (bool_decide_unpack _). vm_compute. exact I.
  - apply (bool_decide_unpack _). vm_compute. exact I.
  - exact Hreq.
  - apply owner_owns; [|exact Ei|vm_compute; reflexivity|vm_compute; discriminate|];
      apply (bool_decide_unpack _); vm_compute; exact I.
  - exact requests_round_trip.
  - rewrite Es. exact response_round_trips.
Defined.

(** [d] takes over from [b], to which it has no connection. *)
Lemma relayed_handoff_loses_state_witness :
  exists new1 req conn env relay old' resp new',
    handoff_send 0 None (requester "d" "b") = Some new1 /\ sm_outbox new1 = sm_outbox (requester "d" "b") ++ [req] /\
    sendSystemEnvelope example_system_codec 9 (fun _ => inr "no"%string) (fun _ => None) req (ring_cluster "d") =
      (ring_cluster "d", None, Some (conn, env)) /\
    deliver example_codec 9 2 (fun _ => inr "no"%string) 5 "d" (RemoteNodeID conn) env handler_network =
      Some (handler_network, "b"%string, Handled OnHandoffRequest relay) /\
    relay <> "d"%string /\
    handle example_system_codec 2 OnHandoffRequest relay env (owner_at "b" "d") = Some old' /\
    shut_down cron_name 0 (sm_runtime old') /\ (cron_name ∉ Running old') /\
    sm_outbox old' = sm_outbox (owner_at "b" "d") ++ [resp] /\ se_target resp = relay /\
    (forall (other : SingletonManager (gmap string PID)) from env',
       sc_Decode example_system_codec (en_Payload env') = Some (se_message resp) ->
       en_AskRequestID env' = correlationOf cron_name 1 -> sm_handoffWaits other !! correlationOf cron_name 1 = None ->
       handle example_system_codec 2 OnHandoffResponse from env' other = Some other) /\
    handoff_wake 0 WakeDone (finish_op 0 new1) = Some new' /\ cron_name ∈ Running new' /\
    starting_with cron_name (job 0) (sm_runtime new').
Proof.
  destruct (owned_state "b") as (inst & Ei & Es); [vm_compute; reflexivity|].
  assert (requests cron_name "b" 1 0 accumulator (requested "d" "b") (requester "d" "b")) as Hreq
    by (apply requester_requests; vm_compute; reflexivity).
  assert (st_spec (requested "d" "b") = cron_spec) as Esp by (vm_compute; reflexivity).
  replace (job 0) with (ss_InitialState (st_spec (requested "d" "b"))) by (by rewrite Esp).
  apply (relayed_handoff_loses_state example_system_codec example_codec 9 2 2 5 (fun _ => inr "no"%string) example_ring
    (list_to_set ring_ids) handler_network "d" "b" (with_handlers (ring_node "d")) (with_handlers (ring_node "b"))
    (owner_at "b" "d") (requester "d" "b") cron_name 1 0 0 accumulator (requested "d" "b") inst).
  - vm_compute. discriminate.
  - apply (bool_decide_unpack _). vm_compute. exact I.
  - exact handler_network_settled.
  - discriminate.
  - exact handler_network_handles.
  - apply (bool_decide_unpack _). vm_compute. exact I.
  - apply (bool_decide_unpack _). vm_compute. exact I.
  - discriminate.
  - apply handler_network_lookup, (bool_decide_unpack _). vm_compute. exact I.
  - apply handler_network_lookup, (bool_decide_unpack _). vm_compute. exact I.
  - vm_compute. reflexivity.
  - apply (bool_decide_unpack _). vm_compute. exact I.
  - exact Hreq.
  - apply owner_owns; [|exact Ei|vm_compute; reflexivity|vm_compute; discriminate|];
      apply (bool_decide_unpack _); vm_compute; exact I.
  - exact requests_round_trip.
Defined.
