(* ===== verification/Wiring.v ===== *)
(** * A wired cluster node ([cluster/start.go], [cluster/placement.go],
      [cluster/supervision_cluster.go])

    [Start] puts a node together and connects its parts; what matters afterwards
    is the callback it installs for membership events, which passes each event to
    the election, the resolver, the singletons, the registry and the brokers, in
    this order. *)

From S2P Require Import Prelude Types Mailbox Resolver Registry Routing Program State Emit Send Lifecycle Broker Cron.
From S2P Require Import Fnv Prim System Invariants Scheduler Safety Delivery Shutdown.
From S2P Require Import GoSort Nodes Topology Placement Election Ring Feed Cluster DistRegistry Singleton Handover.

(** The parts that [Start] creates, around the manager, which holds the runtime,
    the election and the registry. *)
Record wiredNode (D : Type) := mkWiredNode {
  wn_manager : SingletonManager D;
  wn_resolver : RemotePIDResolver InMemoryPIDResolver
}.
Arguments mkWiredNode {D} _ _.
Arguments wn_manager {D} _.
Arguments wn_resolver {D} _.

(** [Config]: which of its optional parts are there. *)
Record Config := mkConfig {
  cg_Addr : string;
  cg_Provider : bool;
  cg_Transport : bool;
  cg_Auth : bool;
  cg_Topology : option TopologyImpl
}.

(** [Start] up to the creation of the parts: its errors, in the order of its
    checks.  [bootstrap] is what the provider's [Bootstrap] returns (a transport
    or an error), when there is one to call; [factory] whether a default transport
    is registered. *)
Definition startConfig (nodeID : NodeID) (cfg : Config) (bootstrap : option (option string)) (factory : bool) :
    ClusterConfig + string :=
  if bool_decide (nodeID = ""%string)
  then inr "cluster: runtime must have a node ID (use actor.WithNodeID)"%string
  else if bool_decide (cg_Addr cfg = ""%string) then inr "cluster: Addr is required"%string
  else if negb (cg_Provider cfg) then inr "cluster: Provider is required"%string
  else
    match (if cg_Transport cfg || cg_Auth cfg then None else bootstrap) with
    | Some (Some e) => inr ("cluster bootstrap: " +:+ e)
    | b =>
        if negb (cg_Transport cfg) && negb (bool_decide (b = Some None)) && negb factory
        then inr "cluster: no transport configured and no default registered (import grpctransport)"%string
        else inl (mkClusterConfig (mkNodeMeta nodeID (cg_Addr cfg) ∅ 0) true true
                    (Some (default (TopologyFullMesh FullMesh) (cg_Topology cfg))) 0)
    end.

Section wiring.
Context {D : Type} `{ORMap D}.
Variable fuel : nat.
Implicit Types sm : SingletonManager D.

(** The node [Start] creates for a runtime; [orders] are the choices its election
    will make. *)
Definition wire (orders : gmap string (list nat)) (r : Runtime) (d : D) (cfg : ClusterConfig) (c : Cluster) : wiredNode D :=
  let id := nm_ID (cc_Self cfg) in
  mkWiredNode (NewSingletonManager r (NewRingElection orders id) (Some d) (Some c) true)
    (NewRemotePIDResolver NewInMemoryPIDResolver id).

(** The subsystems' part of the callback. *)
Definition member_event (now : Z) (ev : MemberEvent) sm : SingletonManager D :=
  let sm := with_election (Election.OnMembershipChange ev (sm_election sm)) sm in
  let sm := OnMemberEvent now ev sm in
  match sm_registry sm with
  | Some d => with_registry (Some (DistRegistry.OnMembershipChange ev d)) sm
  | None => sm
  end.

(** The callback that [Start] installs with [SetOnMemberEvent]. *)
Definition onMemberEvent (now : Z) (ev : MemberEvent) (n : wiredNode D) : option (wiredNode D) :=
  let m := me_Member ev in
  let resolver :=
    match me_Type ev with
    | MemberJoin | MemberUpdated => AddRemoteNode (nm_ID m) (wn_resolver n)
    | MemberLeave | MemberFailed => RemoveRemoteNode (nm_ID m) (wn_resolver n)
    end in
  let sm := member_event now ev (wn_manager n) in
  '(r, _) ← PublishMembershipEvent fuel (MemberEventType_string (me_Type ev))
              (mkClusterMemberInfo (nm_ID m) (nm_Addr m) (nm_Tags m)) (sm_runtime sm);
  Some (mkWiredNode (with_runtime r sm) resolver).
End wiring.

(** ** Restarting the actors of failed nodes *)

Inductive PlacementAction := PlacementRestart | PlacementAbandon.

Record PlacementDecision := mkPlacementDecision {
  pd_ActorName : string;
  pd_TargetNode : NodeID;
  pd_Action : PlacementAction
}.

(** [SimpleRestartPolicy.OnNodeFailed]. *)
Definition SimpleRestart_OnNodeFailed (failedNode : NodeID) (actorNames : list string) (live : list NodeMeta) :
    list PlacementDecision :=
  if bool_decide (length live = 0%nat) || bool_decide (length actorNames = 0%nat) then []
  else imap (fun i name =>
    mkPlacementDecision name (nm_ID (default zeroNodeMeta (live !! (i mod length live)%nat))) PlacementRestart) actorNames.

Definition clusterSupervisorScope : string := "cluster_supervisor".

(** [ClusterSupervisor]: its policy, scope and decisions. *)
Record ClusterSupervisor := mkClusterSupervisor {
  cs_policy : NodeID -> list string -> list NodeMeta -> list PlacementDecision;
  cs_scope : string;
  cs_decisions : list PlacementDecision
}.

Definition NewClusterSupervisor (policy : NodeID -> list string -> list NodeMeta -> list PlacementDecision)
    (scope : string) : ClusterSupervisor :=
  mkClusterSupervisor policy (if bool_decide (scope = ""%string) then clusterSupervisorScope else scope) [].

Section supervision.
Context {D : Type} `{ORMap D}.

(** [handleNodeFailure]; [term'] is the scope's term when the policy has
    answered. *)
Definition handleNodeFailure (failed : NodeMeta) (term' : Z) (c : Cluster) (e : RingElection) (d : D)
    (cs : ClusterSupervisor) : RingElection * D * ClusterSupervisor :=
  let '(e, isLeader) := IsLeader (cs_scope cs) e in
  if negb isLeader then (e, d, cs)
  else
    let term := Term (cs_scope cs) e in
    let actorNames := NamesByNode (nm_ID failed) d in
    if bool_decide (length actorNames = 0%nat) then (e, d, cs)
    else
      let live := filter (fun m => nm_ID m <> nm_ID failed) (Members c) in
      let decisions := cs_policy cs (nm_ID failed) actorNames live in
      if negb (term' =? term) then (e, d, cs)
      else (e, (UnregisterByNode (nm_ID failed) d).1,
            mkClusterSupervisor (cs_policy cs) (cs_scope cs) (cs_decisions cs ++ decisions)).

(** The callback of [Start]. *)
Definition supervise (ev : MemberEvent) (term' : Z) (c : Cluster) (e : RingElection) (d : D)
    (cs : ClusterSupervisor) : RingElection * D * ClusterSupervisor :=
  let e := Election.OnMembershipChange ev e in
  match me_Type ev with
  | MemberFailed => handleNodeFailure (me_Member ev) term' c e d cs
  | _ => (e, d, cs)
  end.
End supervision.

(** ** The callback on a node's failure *)

Section failure.
Context {D : Type} `{ORMapLaws D}.
Variable fuel : nat.
Implicit Types sm : SingletonManager D.

(** A name that the registry binds is not bound anew. *)
Lemma startActor_registry name s st sm pid :
  lookup_name name sm = Some pid -> lookup_name name (startActor name s st sm) = Some pid.
Proof.
  intros Hl. unfold startActor. destruct (CreateActor _ _ _ _ _) as [r2 [e|]]; [done|].
  destruct (sm_registry sm) as [d|] eqn:Ed; [|unfold lookup_name in Hl; by rewrite Ed in Hl].
  destruct (IssuePID _ _ r2) as [r3 [pid'|e]]; [|unfold lookup_name in *; cbn; by rewrite Ed in *].
  unfold lookup_name in *. cbn. rewrite Ed in Hl. cbn in Hl. unfold Lookup, DistRegistry.Register in *.
  rewrite Hl. destruct (bool_decide _); exact Hl.
Qed.

Lemma reconcile_one_registry name y sm pid :
  lookup_name name sm = Some pid -> lookup_name name (reconcile_one sm y) = Some pid.
Proof.
  intros Hl. destruct (decide (y = name)) as [->|Hne];
    [|by rewrite (proj1 (ok_registry _ _ _ (kept_reconcile_one name y sm Hne)))].
  unfold reconcile_one. destruct (sm_singletons sm !! name) as [s|]; [|done].
  pose proof (leads_undisturbed name (st_spec s) sm) as (_ & _ & E).
  destruct (leads name (st_spec s) sm) as [sm1 b]. cbn [fst] in E. rewrite <- E in Hl. clear E. cbn zeta.
  assert (forall s0 term sm0, lookup_name name sm0 = Some pid ->
    lookup_name name (gainLeadership name s0 term sm0) = Some pid) as Hg.
  { intros s0 term sm0 Hs0. unfold gainLeadership, activate. cbn zeta.
    destruct (_ || _ || _); [exact (startActor_registry name s0 _ sm0 pid Hs0)|].
    destruct (negb _); [exact Hs0|]. destruct (_ || _); [|exact Hs0].
    exact (startActor_registry name (set_rebalancing false s0) _ sm0 pid Hs0). }
  assert (lookup_name name (cancel_op s sm1).2 = Some pid) as Hc by (unfold cancel_op; by destruct (st_cancel s)).
  destruct (cancel_op s sm1) as [s2 sm2]. cbn [snd] in Hc.
  destruct (st_phase s); [destruct b; [by apply Hg|done]| |done|done].
  destruct (negb b); [exact Hc|]. destruct (negb _); [by apply Hg|done].
Qed.

Lemma reconcile_registry name sm pid : lookup_name name sm = Some pid -> lookup_name name (reconcile sm) = Some pid.
Proof.
  unfold reconcile. generalize (singleton_names sm). intros names. revert sm.
  induction names as [|y names IH]; intros sm Hl; [done|]. cbn [foldl]. by apply IH, reconcile_one_registry.
Qed.
End failure.

(** C30: a failed-over singleton loses its name.  When the owner of a singleton fails
    while its name is registered, the callback makes the new leader start the
    singleton before it removes the failed node's names: the registration of the
    new instance is refused, the old one is then removed, and the singleton runs
    without a name in the registry. *)
Theorem failover_loses_the_name {D : Type} `{ORMapLaws D} (sm : SingletonManager D) (name : string)
    (s : singletonState) (h : handler) (now : Z) (failed : NodeMeta) (pid : PID) :
  let e := Election.OnMembershipChange (mkMemberEvent MemberFailed failed) (sm_election sm) in
  sm_singletons sm !! name = Some s -> st_phase s = phaseIdle -> ss_Placement (st_spec s) = None ->
  ss_Handler (st_spec s) = Some h -> name <> ""%string -> name_free name (sm_runtime sm) ->
  (IsLeader (scopeOf name) e).2 = true ->
  findPrevLeader name sm = nm_ID failed ->
  lookup_name name sm = Some pid -> Namespace pid = nm_ID failed ->
  let sm' := member_event now (mkMemberEvent MemberFailed failed) sm in
  name ∈ Running sm' /\ starting_with name (ss_InitialState (st_spec s)) (sm_runtime sm') /\
  lookup_name name sm' = None.
Proof.
  intros e Hs Hph Hpl Hh Hne Hf Hlead Hprev Hl Hns sm'.
  set (sm0 := with_election e sm). set (sm1 := OnMemberEvent now (mkMemberEvent MemberFailed failed) sm0).
  assert (name ∈ Running sm1 /\ starting_with name (ss_InitialState (st_spec s)) (sm_runtime sm1)) as [Hr Hst].
  { apply (failover_starts sm0 name s h now failed); done || by right. }
  assert (lookup_name name sm1 = Some pid) as Hl1 by (by apply reconcile_registry).
  unfold sm', member_event. fold e. fold sm0. fold sm1.
  destruct (sm_registry sm1) as [d|] eqn:Ed; [|unfold lookup_name in Hl1; by rewrite Ed in Hl1].
  split_and!; [exact Hr|exact Hst|]. unfold lookup_name in *. rewrite Ed in Hl1. cbn in Hl1 |- *.
  change (om_Get name (UnregisterByNode (nm_ID failed) d).1 = None). unfold Lookup in Hl1.
  rewrite UnregisterByNode_lookup, Hl1. by rewrite decide_True.
Qed.

Lemma failover_loses_the_name_witness :
  let sm' := member_event 7 (mkMemberEvent MemberFailed (mkNodeMeta "n1" "" ∅ 0)) standby in
  cron_name ∈ Running sm' /\ starting_with cron_name (job 0) (sm_runtime sm') /\ lookup_name cron_name sm' = None.
Proof.
  apply (failover_loses_the_name standby cron_name (mkSingletonState cron_spec phaseIdle 0 None false)
    accumulator 7 (mkNodeMeta "n1" "" ∅ 0) (mkPID "n1" cron_name 1)).
  - vm_compute. reflexivity.
  - reflexivity.
  - reflexivity.
  - reflexivity.
  - discriminate.
  - vm_compute. exact I.
  - vm_compute. reflexivity.
  - vm_compute. reflexivity.
  - vm_compute. reflexivity.
  - reflexivity.
Defined.

(** ** The callback on a planned departure *)

Section departure.
Context {D : Type} `{ORMapLaws D}.
Implicit Types sm : SingletonManager D.

(** An idle singleton whose recorded previous owner has not failed. *)
Record stranded (name : string) (owner : NodeID) sm : Prop := {
  sd_idle : exists s, sm_singletons sm !! name = Some s /\ st_phase s = phaseIdle /\ st_rebalancing s = false;
  sd_prev : sm_prevLeaders sm !! scopeOf name = Some owner;
  sd_alive : sm_failedNodes sm !! owner = None;
  sd_owner : owner <> ""%string /\ owner <> localNode sm
}.

Lemma stranded_kept name owner sm sm' : others_kept name sm sm' -> stranded name owner sm -> stranded name owner sm'.
Proof.
  intros K [H1 H2 H3 H4]. split.
  - by rewrite (ok_single _ _ _ K).
  - by rewrite (ok_prev _ _ _ K).
  - by rewrite (ok_failed _ _ _ K).
  - unfold localNode in *. by rewrite (ak_cfg _ _ _ (ok_actor _ _ _ K)).
Qed.

Lemma stranded_one name owner y sm : stranded name owner sm -> stranded name owner (reconcile_one sm y).
Proof.
  intros Hs. destruct (decide (y = name)) as [->|Hne]; [|eapply stranded_kept; [by apply kept_reconcile_one|done]].
  pose proof Hs as [(s & H1 & H2 & H3) H4 H5 [H6 H7]]. unfold reconcile_one. rewrite H1.
  assert (forall e, stranded name owner (with_election e sm)) as He by (intros e; by destruct Hs).
  assert (stranded name owner (leads name (st_spec s) sm).1) as Hl.
  { unfold leads. destruct (ss_Placement (st_spec s)); [destruct (sm_cluster sm); [apply He|]|].
    all: destruct (IsLeader _ _); apply He. }
  assert (sm_singletons (leads name (st_spec s) sm).1 !! name = Some s) as Hs1.
  { rewrite <- H1. apply leads_undisturbed. }
  destruct (leads name (st_spec s) sm) as [sm1 b]. cbn [fst] in *. cbn zeta. rewrite H2. destruct b; [|done].
  pose proof Hl as [_ P1 P2 [_ P4]]. unfold gainLeadership. cbn zeta.
  assert (findPrevLeader name sm1 = owner) as ->.
  { unfold findPrevLeader, lookup_default. rewrite P1. cbn. by rewrite bool_decide_false. }
  rewrite (bool_decide_false (owner = ""%string)), (bool_decide_false (owner = localNode sm1)) by done.
  unfold isRecentlyFailed. rewrite P2. cbn [is_Some]. rewrite bool_decide_false by (by intros []).
  cbn [orb]. rewrite H3. cbn [negb]. destruct Hl. split; try done. exists s. split; [|done]. cbn. apply lookup_insert_eq.
Qed.

Lemma stranded_reconcile name owner names sm : stranded name owner sm -> stranded name owner (foldl reconcile_one sm names).
Proof. revert sm. induction names as [|y names IH]; intros sm Hs; [done|]. cbn [foldl]. by apply IH, stranded_one. Qed.

Lemma stranded_event name owner now ev sm :
  ~ (me_Type ev = MemberFailed /\ nm_ID (me_Member ev) = owner) ->
  stranded name owner sm -> stranded name owner (member_event now ev sm).
Proof.
  intros Hev Hs. unfold member_event. cbn zeta. set (sm0 := with_election _ sm).
  assert (stranded name owner (OnMemberEvent now ev sm0)) as Ho.
  { unfold OnMemberEvent, reconcile. cbn zeta. apply stranded_reconcile. destruct Hs as [H1 H2 H3 H4]. split; try done.
    cbn. apply map_lookup_filter_None. left. destruct (me_Type ev) eqn:E; try done.
    rewrite lookup_insert_ne; [done|]. intros Hid. by apply Hev. }
  destruct (sm_registry _); [|done]. by destruct Ho.
Qed.
End departure.

(** A planned departure strands a singleton.  Once the new leader has seen the
    leadership change from a node that left in good order (not failed), it never
    starts that node's singleton: not at the change, and not at any later
    membership event, unless that node is reported as failed. *)
Theorem planned_departure_strands_singleton {D : Type} `{ORMapLaws D} (sm : SingletonManager D) (name : string)
    (s : singletonState) (lev : LeaderEvent) (events : list (Z * MemberEvent)) :
  sm_singletons sm !! name = Some s -> st_phase s = phaseIdle -> st_rebalancing s = false ->
  let owner := le_PrevLeader lev in
  owner <> ""%string -> owner <> localNode sm -> sm_failedNodes sm !! owner = None ->
  Forall (fun '(_, ev) => ~ (me_Type ev = MemberFailed /\ nm_ID (me_Member ev) = owner)) events ->
  name ∉ Running (foldl (fun sm '(now, ev) => member_event now ev sm) (watch_event name lev sm) events).
Proof.
  intros Hs Hph Hr owner Ho1 Ho2 Hf Hev.
  assert (stranded name owner (watch_event name lev sm)) as H1.
  { unfold watch_event, reconcile. fold owner. rewrite (bool_decide_false (owner = ""%string)) by done. cbn [negb].
    apply stranded_reconcile. split; [by exists s| |done|done]. cbn. apply lookup_insert_eq. }
  revert H1. generalize (watch_event name lev sm). clear Hs Hph Ho2 Hf.
  induction Hev as [|[now ev] events He Hev IH]; intros sm1 Hs1; cbn [foldl].
  - destruct Hs1 as [(s1 & E1 & E2 & _) _ _ _]. unfold Running. rewrite list_elem_of_omap.
    intros ([k s2] & Hin & E). apply elem_of_map_to_list in Hin. destruct (_ || _) eqn:Eb; [|done].
    injection E as ->. assert (s2 = s1) as -> by congruence. by rewrite E2 in Eb.
  - by apply IH, stranded_event.
Qed.

Lemma planned_departure_strands_singleton_witness :
  cron_name ∉ Running (foldl (fun sm '(now, ev) => member_event now ev sm)
    (watch_event cron_name (mkLeaderEvent (scopeOf cron_name) "n2" "n1" 2)
       (member_event 7 (mkMemberEvent MemberLeave (mkNodeMeta "n1" "" ∅ 0)) standby))
    [(8, mkMemberEvent MemberJoin (mkNodeMeta "n3" "" ∅ 0)); (9, mkMemberEvent MemberLeave (mkNodeMeta "n3" "" ∅ 0))]).
Proof.
  apply (planned_departure_strands_singleton
    (member_event 7 (mkMemberEvent MemberLeave (mkNodeMeta "n1" "" ∅ 0)) standby) cron_name
    (mkSingletonState cron_spec phaseIdle 0 None false)).
  - vm_compute. reflexivity.
  - reflexivity.
  - reflexivity.
  - discriminate.
  - vm_compute. discriminate.
  - vm_compute. reflexivity.
  - repeat constructor; cbn; intros [? ?]; discriminate.
Defined.

(** ** Placement of a failed node's actors *)

Lemma SimpleRestart_spec failedNode names live :
  let ds := SimpleRestart_OnNodeFailed failedNode names live in
  (live = [] -> ds = []) /\
  (live <> [] -> pd_ActorName <$> ds = names) /\
  forall d, d ∈ ds -> pd_Action d = PlacementRestart /\ pd_TargetNode d ∈ nm_ID <$> live.
Proof.
  cbn zeta. unfold SimpleRestart_OnNodeFailed. destruct live as [|m live]; [by split_and!; try (intros ? []%not_elem_of_nil)|].
  rewrite bool_decide_false by done. cbn [orb]. split_and!; [done| |].
  - intros _. destruct (bool_decide _) eqn:E; bprop; [by destruct names|].
    apply list_eq. intros i. rewrite list_lookup_fmap, list_lookup_imap. by destruct (names !! i).
  - intros d Hd. destruct (bool_decide _); [by apply not_elem_of_nil in Hd|].
    apply elem_of_lookup_imap in Hd as (i & x & -> & _). cbn [pd_Action pd_TargetNode]. split; [done|].
    destruct (lookup_lt_is_Some_2 (m :: live) (i mod length (m :: live))%nat) as [y Hy].
    { apply Nat.mod_upper_bound. done. }
    rewrite Hy. apply list_elem_of_fmap. exists y. split; [done|]. by apply list_elem_of_lookup_2 in Hy.
Qed.
