(* ===== verification/ByteStream.v ===== *)
(** * Programs that talk over a byte stream

    The two ends of the join protocol ([cluster/join.go]) read and write a
    connection.  An end is a program that reads a number of bytes, writes bytes
    or returns; it can be run against given bytes (an arbitrary peer) or against
    another program (the peer the code has).  A read of more bytes than are
    there waits while the peer runs, and fails as [io.ReadFull] does once the
    peer has gone. *)

From S2P Require Import Prelude.

Abbreviation bytes := (list ascii) (only parsing).

(** [[]byte(s)] and [string(b)]. *)
Definition toBytes (s : string) : bytes := String.list_ascii_of_string s.
Definition ofBytes (b : bytes) : string := String.string_of_list_ascii b.

Lemma toBytes_ofBytes b : toBytes (ofBytes b) = b.
Proof. apply String.list_ascii_of_string_of_list_ascii. Qed.

Lemma ofBytes_toBytes s : ofBytes (toBytes s) = s.
Proof. apply String.string_of_list_ascii_of_string. Qed.

(** [io.ReadFull] returns the bytes or an error, [conn.Write] an error or none. *)
Inductive io (A : Type) : Type :=
  | Ret (a : A)
  | ReadFull (n : nat) (k : bytes + string -> io A)
  | Write (bs : bytes) (k : option string -> io A).
Arguments Ret {A} _.
Arguments ReadFull {A} _ _.
Arguments Write {A} _ _.

#[export] Instance io_ret : MRet io := fun A => Ret.
#[export] Instance io_bind : MBind io := fun A B f =>
  fix bind p :=
    match p with
    | Ret a => f a
    | ReadFull n k => ReadFull n (fun r => bind (k r))
    | Write bs k => Write bs (fun e => bind (k e))
    end.

Definition readFull (n : nat) : io (bytes + string) := ReadFull n Ret.
Definition write (bs : bytes) : io (option string) := Write bs Ret.

(** [if err != nil { return ... }]. *)
Definition checked {A B} (p : io (A + string)) (fail : string -> io B) (k : A -> io B) : io B :=
  r ← p; match r with inl a => k a | inr e => fail e end.

Definition written {B} (p : io (option string)) (fail : string -> io B) (k : io B) : io B :=
  e ← p; match e with None => k | Some e => fail e end.

(** ** Running an end *)

(** [io.ReadFull] on a closed connection with too few bytes left. *)
Definition eof (inp : bytes) : string :=
  match inp with [] => "EOF"%string | _ => "unexpected EOF"%string end.

(** Against a peer that sent [inp] and closed; [faults] says which writes fail.
    What was written, and the result. *)
Fixpoint run {A} (p : io A) (inp : bytes) (faults : list (option string)) : bytes * A :=
  match p with
  | Ret a => ([], a)
  | ReadFull n k =>
      if (n <=? length inp)%nat then run (k (inl (take n inp))) (drop n inp) faults
      else run (k (inr (eof inp))) [] faults
  | Write bs k =>
      match faults with
      | Some e :: faults => run (k (Some e)) inp faults
      | _ => let '(out, a) := run (k None) inp (tail faults) in (bs ++ out, a)
      end
  end.

(** As far as the bytes that are there go: the rest of the program, the bytes it
    did not read, what it wrote. *)
Fixpoint advance {A} (p : io A) (inp : bytes) : io A * bytes * bytes :=
  match p with
  | Ret a => (Ret a, inp, [])
  | ReadFull n k =>
      if (n <=? length inp)%nat then advance (k (inl (take n inp))) (drop n inp) else (p, inp, [])
  | Write bs k => let '(p, inp, out) := advance (k None) inp in (p, inp, bs ++ out)
  end.

(** Two ends of one connection, each closing it when it returns.  [None]: out of
    fuel, or both wait for the other. *)
Fixpoint exchange {A B} (fuel : nat) (p : io A) (q : io B) (to_p to_q : bytes) : option (A * B) :=
  match fuel with
  | O => None
  | S fuel =>
      let '(p, to_p, out_p) := advance p to_p in
      let '(q, to_q, out_q) := advance q (to_q ++ out_p) in
      match p, q with
      | Ret a, q => Some (a, (run q to_q []).2)
      | p, Ret b => Some ((run p (to_p ++ out_q) []).2, b)
      | p, q => exchange fuel p q (to_p ++ out_q) to_q
      end
  end.

(** ** Running sequences *)

(** What a program writes first. *)
Definition wrote {P : Type} (bs : bytes) (x : P * bytes) : P * bytes := (x.1, bs ++ x.2).

Lemma take_drop_app {A} (a b : list A) n : length a = n -> take n (a ++ b) = a /\ drop n (a ++ b) = b.
Proof. intros <-. by rewrite take_app_length, drop_app_length. Qed.

Section sequences.
Context {A B : Type}.
Implicit Types (fail : string -> io B) (k : A -> io B).

Lemma advance_checked_read fail (k : bytes -> io B) n a rest :
  length a = n -> advance (checked (readFull n) fail k) (a ++ rest) = advance (k a) rest.
Proof.
  intros Ha. cbn. destruct (take_drop_app a rest n Ha) as [-> ->].
  by rewrite (proj2 (Nat.leb_le _ _)) by (rewrite length_app; lia).
Qed.

Lemma advance_checked_all fail (k : bytes -> io B) n a :
  length a = n -> advance (checked (readFull n) fail k) a = advance (k a) [].
Proof. intros Ha. rewrite <-(app_nil_r a) at 1. by apply advance_checked_read. Qed.

Lemma advance_checked_blocked fail (k : bytes -> io B) n inp :
  (length inp < n)%nat -> advance (checked (readFull n) fail k) inp = (checked (readFull n) fail k, inp, []).
Proof. intros H. cbn. by rewrite (proj2 (Nat.leb_gt _ _)). Qed.

Lemma advance_written fail (k : io B) bs inp :
  advance (written (write bs) fail k) inp = wrote bs (advance k inp).
Proof. cbn. by destruct (advance k inp) as [[??]?]. Qed.

Lemma run_checked_read fail (k : bytes -> io B) n a rest faults :
  length a = n -> run (checked (readFull n) fail k) (a ++ rest) faults = run (k a) rest faults.
Proof.
  intros Ha. cbn. destruct (take_drop_app a rest n Ha) as [-> ->].
  by rewrite (proj2 (Nat.leb_le _ _)) by (rewrite length_app; lia).
Qed.

Lemma run_checked_short fail (k : bytes -> io B) n inp faults :
  (length inp < n)%nat -> run (checked (readFull n) fail k) inp faults = run (fail (eof inp)) [] faults.
Proof. intros H. cbn. by rewrite (proj2 (Nat.leb_gt _ _)). Qed.

(** A read gets its bytes or fails. *)
Lemma run_checked_inv fail (k : bytes -> io B) n inp faults :
  (exists a rest, inp = a ++ rest /\ length a = n /\
     run (checked (readFull n) fail k) inp faults = run (k a) rest faults) \/
  run (checked (readFull n) fail k) inp faults = run (fail (eof inp)) [] faults.
Proof.
  destruct (decide (length inp < n)%nat); [right; by apply run_checked_short|left].
  exists (take n inp), (drop n inp). rewrite take_drop. split_and!; [done|rewrite length_take; lia|].
  rewrite <-(take_drop n inp) at 1. apply run_checked_read. rewrite length_take. lia.
Qed.

(** A write goes out or fails. *)
Lemma run_written_inv fail (k : io B) bs inp faults :
  exists faults',
    run (written (write bs) fail k) inp faults = (bs ++ (run k inp faults').1, (run k inp faults').2) \/
    exists e, run (written (write bs) fail k) inp faults = run (fail e) inp faults'.
Proof.
  destruct faults as [|[e|] faults].
  - exists []. left. cbn. by destruct (run k inp []).
  - exists faults. right. by exists e.
  - exists faults. left. cbn. by destruct (run k inp faults).
Qed.
End sequences.

(** The next read or write of the run in the goal. *)
Tactic Notation "case_read" ident(a) ident(r) ident(H) :=
  match goal with |- context [run (checked (readFull ?n) ?f ?k) ?inp ?fs] =>
    let E := fresh in
    destruct (run_checked_inv f k n inp fs) as [(a & r & -> & H & E)|E]; rewrite E; clear E
  end.

Tactic Notation "case_write" ident(fs) :=
  match goal with |- context [run (written (write ?bs) ?f ?k) ?inp ?fs0] =>
    let e := fresh in destruct (run_written_inv f k bs inp fs0) as [fs [-> |(e & ->)]]; cbn [fst snd]
  end.

(** A program whose result is fixed returns it. *)
Lemma run_ignored {A B} (p : io A) (x : B) inp faults : (run (p ≫= fun _ => Ret x) inp faults).2 = x.
Proof.
  revert inp faults. induction p as [a|n k IH|bs k IH]; intros inp faults; [done| |]; cbn -[Nat.leb].
  - destruct (n <=? length inp)%nat; apply IH.
  - destruct faults as [|[e|] faults]; [|apply IH|]; pose proof (IH None inp) as H;
      match goal with |- context [run ?p inp ?f] => specialize (H f); by destruct (run p inp f) end.
Qed.

(** ** Two ends *)

Definition waits {A} (p : io A) : Prop := exists n k, p = ReadFull n k.

Lemma checked_waits {A} n (fail : string -> io A) k : waits (checked (readFull n) fail k).
Proof. eexists _, _. reflexivity. Qed.

Section exchange.
Context {A B : Type} (p : io A) (q : io B) (fuel : nat) (to_p to_q : bytes).

Lemma exchange_wait p' q' rp rq op oq :
  advance p to_p = (p', rp, op) -> advance q (to_q ++ op) = (q', rq, oq) -> waits p' -> waits q' ->
  exchange (S fuel) p q to_p to_q = exchange fuel p' q' (rp ++ oq) rq.
Proof. intros E1 E2 (? & ? & ->) (? & ? & ->). cbn [exchange]. by rewrite E1, E2. Qed.

Lemma exchange_left a q' rp rq op oq :
  advance p to_p = (Ret a, rp, op) -> advance q (to_q ++ op) = (q', rq, oq) ->
  exchange (S fuel) p q to_p to_q = Some (a, (run q' rq []).2).
Proof. intros E1 E2. cbn [exchange]. by rewrite E1, E2. Qed.

Lemma exchange_right p' b rp rq op oq :
  advance p to_p = (p', rp, op) -> advance q (to_q ++ op) = (Ret b, rq, oq) -> waits p' ->
  exchange (S fuel) p q to_p to_q = Some ((run p' (rp ++ oq) []).2, b).
Proof. intros E1 E2 (? & ? & ->). cbn [exchange]. by rewrite E1, E2. Qed.
End exchange.

(** ** Any countable type as bytes: binary numbers *)

Fixpoint pos_bytes (p : positive) : string :=
  match p with xH => "" | xO p => String "0" (pos_bytes p) | xI p => String "1" (pos_bytes p) end.

Fixpoint bytes_pos (s : string) : positive :=
  match s with EmptyString => xH | String c s => if ascii_dec c "0" then xO (bytes_pos s) else xI (bytes_pos s) end.

Lemma bytes_pos_bytes p : bytes_pos (pos_bytes p) = p.
Proof. induction p as [p IH|p IH|]; cbn; by rewrite ?IH. Qed.

Definition countable_bytes {A} `{Countable A} (a : A) : bytes := toBytes (pos_bytes (encode a)).

Definition bytes_countable {A} `{Countable A} (bs : bytes) : option A := decode (bytes_pos (ofBytes bs)).

Lemma bytes_countable_bytes {A} `{Countable A} (a : A) : bytes_countable (countable_bytes a) = Some a.
Proof. unfold bytes_countable, countable_bytes. by rewrite ofBytes_toBytes, bytes_pos_bytes, decode_encode. Qed.
