(* ===== verification/Join.v ===== *)
(** * The join protocol ([cluster/join.go])

    A new node proves to a node of the cluster that it knows the cluster's token,
    has the other node prove the same, and exchanges a certificate request for a
    certificate and the cluster's CA key.  Both ends are programs over a byte
    stream ([ByteStream.v]); the HMAC, the random nonces and the handler that
    signs requests are parameters. *)

From S2P Require Import Prelude Fnv Topology ByteStream.

Definition ErrJoinBadToken : string := "join: token verification failed".

Definition joinMagic : bytes := toBytes "JREQ".
Definition nonceSize : nat := 32.
(** [sha256.Size]. *)
Definition hmacSize : nat := 32.

Record JoinResponse := mkJoinResponse {
  jr_NodeCertDER : bytes;
  jr_CACertDER : bytes;
  jr_CAKeyPKCS8 : bytes;
  jr_ServerID : string;
  jr_ClusterAddr : string;
  jr_Payload : option bytes  (* nil or a slice *)
}.

Record JoinRequest := mkJoinRequest {
  jq_NodeID : string;
  jq_ClusterAddr : string;
  jq_CSRDER : bytes
}.

(** ** Frames *)

(** [binary.BigEndian.PutUint32] and [Uint32]. *)
Definition putUint32 (n : Z) : bytes :=
  [byteAscii (Z.shiftr n 24); byteAscii (Z.shiftr n 16); byteAscii (Z.shiftr n 8); byteAscii n].

Definition byteOf (c : ascii) : Z := Z.of_nat (nat_of_ascii c).

Definition uint32 (bs : bytes) : Z :=
  fold_left (fun acc c => Z.lor (Z.shiftl acc 8) (byteOf c)) bs 0.

Definition blen (bs : bytes) : Z := Z.of_nat (length bs).

Definition writeLenPrefixed (data : bytes) : io (option string) :=
  e ← write (putUint32 (u32 (blen data)));
  match e with
  | Some e => mret (Some e)
  | None => if 0 <? blen data then write data else mret None
  end.

Definition readLenPrefixed : io (bytes + string) :=
  checked (readFull 4) (fun e => mret (inr e)) (fun lenBuf =>
    let n := uint32 lenBuf in
    if 2 ^ 20 <? n then mret (inr ("join: message too large: " +:+ pretty n +:+ " bytes"))
    else if 0 <? n then readFull (Z.to_nat n) else mret (inl [])).

Section join.
Variable hmac : bytes -> bytes -> bytes.

Definition computeJoinHMAC (key a b : bytes) : bytes := hmac key (a ++ b).

(** ** The server *)

Section server.
Variables (token : bytes) (nonceS : bytes + string) (handler : JoinRequest -> JoinResponse + string).

(** The end of [handleConn]: the response, whose write errors are ignored. *)
Definition sendResponse (resp : JoinResponse) : io unit :=
  _ ← writeLenPrefixed (jr_NodeCertDER resp);
  _ ← writeLenPrefixed (jr_CACertDER resp);
  _ ← writeLenPrefixed (jr_CAKeyPKCS8 resp);
  _ ← writeLenPrefixed (toBytes (jr_ServerID resp));
  _ ← writeLenPrefixed (toBytes (jr_ClusterAddr resp));
  _ ← writeLenPrefixed (default [] (jr_Payload resp));
  mret tt.

Definition quit : string -> io (option JoinRequest) := fun _ => mret None.

(** Step 3 of [handleConn] after the client's HMAC, and the call of the handler. *)
Definition serveRequest : io (option JoinRequest) :=
  checked readLenPrefixed quit (fun nodeID =>
  checked readLenPrefixed quit (fun clientClusterAddr =>
  checked readLenPrefixed quit (fun csrDER =>
  let req := mkJoinRequest (ofBytes nodeID) (ofBytes clientClusterAddr) csrDER in
  match handler req with
  | inr _ => mret (Some req)
  | inl resp => _ ← sendResponse resp; mret (Some req)
  end))).

(** Step 3 of [handleConn]: the client's proof. *)
Definition awaitProof (nonceC nonceS : bytes) : io (option JoinRequest) :=
  checked (readFull hmacSize) quit (fun clientHMAC =>
  let expectedClientHMAC := computeJoinHMAC token nonceS nonceC in
  if negb (bool_decide (clientHMAC = expectedClientHMAC)) then mret None else serveRequest).

(** Step 2 of [handleConn]: the challenge. *)
Definition challenge (nonceC nonceS : bytes) : io (option JoinRequest) :=
  let serverHMAC := computeJoinHMAC token nonceC nonceS in
  written (write nonceS) quit (written (write serverHMAC) quit (awaitProof nonceC nonceS)).

(** [handleConn]: the request for which it called the handler, if it did. *)
Definition handleConn : io (option JoinRequest) :=
  checked (readFull 4) quit (fun magic =>
  if negb (bool_decide (magic = joinMagic)) then mret None
  else checked (readFull nonceSize) quit (fun nonceC =>
    match nonceS with
    | inr _ => mret None
    | inl nonceS => challenge nonceC nonceS
    end)).
End server.

(** ** The client *)

Definition failed (what : string) (e : string) : io (JoinResponse + string) :=
  mret (inr ("join client: " +:+ what +:+ ": " +:+ e)).

(** The end of [JoinClient]: reading the response. *)
Definition readResponse : io (JoinResponse + string) :=
  checked readLenPrefixed (failed "read cert") (fun certDER =>
  checked readLenPrefixed (failed "read CA cert") (fun caCertDER =>
  checked readLenPrefixed (failed "read CA key") (fun caKeyPKCS8 =>
  checked readLenPrefixed (failed "read server ID") (fun serverID =>
  checked readLenPrefixed (failed "read cluster addr") (fun clusterAddr =>
  checked readLenPrefixed (failed "read payload") (fun payload =>
  mret (inl (mkJoinResponse certDER caCertDER caKeyPKCS8 (ofBytes serverID)
    (ofBytes clusterAddr) (if 0 <? blen payload then Some payload else None))))))))).

(** Step 3 of [JoinClient]: the client's proof and request. *)
Definition prove (token nonceC nonceS : bytes) (req : JoinRequest) : io (JoinResponse + string) :=
  let clientHMAC := computeJoinHMAC token nonceS nonceC in
  written (write clientHMAC) (failed "write HMAC")
  (written (writeLenPrefixed (toBytes (jq_NodeID req))) (failed "write node ID")
  (written (writeLenPrefixed (toBytes (jq_ClusterAddr req))) (failed "write cluster addr")
  (written (writeLenPrefixed (jq_CSRDER req)) (failed "write CSR")
   readResponse))).

(** Step 2 of [JoinClient]: the server's proof. *)
Definition awaitChallenge (token nonceC : bytes) (req : JoinRequest) : io (JoinResponse + string) :=
  checked (readFull nonceSize) (failed "read server nonce") (fun nonceS =>
  checked (readFull hmacSize) (failed "read server HMAC") (fun serverHMAC =>
  let expectedServerHMAC := computeJoinHMAC token nonceC nonceS in
  if negb (bool_decide (serverHMAC = expectedServerHMAC)) then mret (inr ErrJoinBadToken)
  else prove token nonceC nonceS req)).

(** [JoinClient] once the connection is there. *)
Definition joinConn (token : bytes) (nonceC : bytes + string) (req : JoinRequest) : io (JoinResponse + string) :=
  match nonceC with
  | inr e => failed "generate nonce" e
  | inl nonceC =>
      written (write joinMagic) (failed "write magic")
      (written (write nonceC) (failed "write nonce") (awaitChallenge token nonceC req))
  end.

Definition JoinClient (addr : string) (dialErr : option string) (token : bytes) (nonceC : bytes + string)
    (req : JoinRequest) : io (JoinResponse + string) :=
  match dialErr with
  | Some e => failed ("dial " +:+ addr) e
  | None => joinConn token nonceC req
  end.
End join.

(** ** Frames *)

Definition frame (data : bytes) : bytes := putUint32 (u32 (blen data)) ++ data.

#[global] Arguments frame : simpl never.

(** What a frame may hold. *)
Definition fits (data : bytes) : Prop := blen data <= 2 ^ 20.

Lemma byteOf_byteAscii x : byteOf (byteAscii x) = x mod 256.
Proof.
  unfold byteOf, byteAscii. change 255 with (Z.ones 8). rewrite Z.land_ones by lia. change (2 ^ 8) with 256.
  pose proof (Z.mod_pos_bound x 256 ltac:(lia)). rewrite nat_ascii_embedding; lia.
Qed.

Lemma byteOf_range c : 0 <= byteOf c < 256.
Proof. unfold byteOf. pose proof (nat_ascii_bounded c). lia. Qed.

Lemma byteAscii_byteOf x c : x mod 256 = byteOf c -> byteAscii x = c.
Proof.
  intros H. rewrite <-(ascii_nat_embedding c), <-(ascii_nat_embedding (byteAscii x)). f_equal.
  apply Nat2Z.inj. change (byteOf (byteAscii x) = byteOf c). by rewrite byteOf_byteAscii.
Qed.

Lemma append_byte acc b : 0 <= b < 256 -> Z.lor (Z.shiftl acc 8) b = acc * 256 + b.
Proof.
  intros Hb. rewrite Z.shiftl_mul_pow2 by lia. symmetry. apply Z.add_nocarry_lor. apply Z.bits_inj'.
  intros n Hn. rewrite Z.land_spec, Z.bits_0. destruct (decide (n < 8)); [by rewrite Z.mul_pow2_bits_low|].
  rewrite <-(Z.mod_small b (2 ^ 8)), Z.mod_pow2_bits_high by lia. apply andb_false_r.
Qed.

Lemma uint32_bytes a b c d :
  uint32 [a; b; c; d] = ((byteOf a * 256 + byteOf b) * 256 + byteOf c) * 256 + byteOf d.
Proof. unfold uint32. cbn [fold_left]. rewrite !append_byte by apply byteOf_range. lia. Qed.

Lemma uint32_putUint32 n : 0 <= n < 2 ^ 32 -> uint32 (putUint32 n) = n.
Proof.
  intros Hn. unfold putUint32. rewrite uint32_bytes, !byteOf_byteAscii, !Z.shiftr_div_pow2 by lia.
  change (2 ^ 24) with 16777216. change (2 ^ 16) with 65536. change (2 ^ 8) with 256. change (2 ^ 32) with 4294967296 in Hn.
  Z.to_euclidean_division_equations. lia.
Qed.

Lemma putUint32_uint32 bs : length bs = 4%nat -> putUint32 (uint32 bs) = bs.
Proof.
  destruct bs as [|a [|b [|c [|d [|]]]]]; try done. intros _. rewrite uint32_bytes. unfold putUint32.
  pose proof (byteOf_range a). pose proof (byteOf_range b). pose proof (byteOf_range c). pose proof (byteOf_range d).
  repeat f_equal; apply byteAscii_byteOf; rewrite ?Z.shiftr_div_pow2 by lia;
    change (2 ^ 24) with 16777216; change (2 ^ 16) with 65536; change (2 ^ 8) with 256;
    Z.to_euclidean_division_equations; lia.
Qed.

Lemma blen_nonneg d : 0 <= blen d.
Proof. unfold blen. lia. Qed.

Lemma frame_fits d : fits d -> frame d = putUint32 (blen d) ++ d /\ uint32 (putUint32 (blen d)) = blen d.
Proof.
  unfold fits, frame, u32. pose proof (blen_nonneg d). intros Hd. change (2 ^ 20) with 1048576 in Hd.
  rewrite Z.mod_small by (unfold u32_modulus; lia). split; [done|]. apply uint32_putUint32. lia.
Qed.

Section frames.
Context {B : Type}.

Lemma advance_frame (fail : string -> io B) (k : io B) d inp :
  advance (written (writeLenPrefixed d) fail k) inp = wrote (frame d) (advance k inp).
Proof.
  unfold frame, writeLenPrefixed. destruct (0 <? blen d) eqn:E; cbn -[putUint32 u32 blen];
    destruct (advance k inp) as [[??]?]; cbn -[putUint32 u32].
  - by rewrite app_assoc.
  - destruct d; [by rewrite app_nil_r|]. apply Z.ltb_ge in E. unfold blen in E. cbn [length] in E. lia.
Qed.

Lemma advance_sent {A} (f : option string -> io A) (k : A -> io B) d inp :
  advance ((writeLenPrefixed d ≫= f) ≫= k) inp = wrote (frame d) (advance (f None ≫= k) inp).
Proof.
  unfold frame, writeLenPrefixed. destruct (0 <? blen d) eqn:E; cbn -[putUint32 u32 blen];
    match goal with |- context [advance ?p inp] => destruct (advance p inp) as [[??]?] end; cbn -[putUint32 u32].
  - by rewrite app_assoc.
  - destruct d; [by rewrite app_nil_r|]. apply Z.ltb_ge in E. unfold blen in E. cbn [length] in E. lia.
Qed.

(** [readLenPrefixed] once the length is there. *)
Definition readBody (n : Z) : io (bytes + string) :=
  if 2 ^ 20 <? n then mret (inr ("join: message too large: " +:+ pretty n +:+ " bytes"))
  else if 0 <? n then readFull (Z.to_nat n) else mret (inl []).

Lemma advance_readLen (fail : string -> io B) k h rest :
  length h = 4%nat ->
  advance (checked readLenPrefixed fail k) (h ++ rest) = advance (checked (readBody (uint32 h)) fail k) rest.
Proof. destruct h as [|a [|b [|c [|d [|]]]]]; try done. Qed.

Lemma advance_readLen_blocked (fail : string -> io B) k inp :
  (length inp < 4)%nat ->
  advance (checked readLenPrefixed fail k) inp = (checked readLenPrefixed fail k, inp, []).
Proof. destruct inp as [|a [|b [|c [|d inp]]]]; cbn [length]; try lia; done. Qed.

Lemma run_readLen (fail : string -> io B) k h rest faults :
  length h = 4%nat ->
  run (checked readLenPrefixed fail k) (h ++ rest) faults = run (checked (readBody (uint32 h)) fail k) rest faults.
Proof. destruct h as [|a [|b [|c [|d [|]]]]]; try done. Qed.

Lemma run_readLen_short (fail : string -> io B) k inp faults :
  (length inp < 4)%nat -> run (checked readLenPrefixed fail k) inp faults = run (fail (eof inp)) [] faults.
Proof. destruct inp as [|a [|b [|c [|d inp]]]]; cbn [length]; try lia; done. Qed.

Lemma advance_readFrame (fail : string -> io B) k d rest :
  fits d -> advance (checked readLenPrefixed fail k) (frame d ++ rest) = advance (k d) rest.
Proof.
  intros Hd. destruct (frame_fits d Hd) as [-> En]. rewrite <-app_assoc, advance_readLen by done. rewrite En. unfold readBody.
  rewrite (proj2 (Z.ltb_ge _ _)) by done. destruct (0 <? blen d) eqn:E.
  - apply Z.ltb_lt in E. apply advance_checked_read. unfold blen. lia.
  - destruct d; [done|]. apply Z.ltb_ge in E. unfold blen in E. cbn [length] in E. lia.
Qed.

Lemma advance_readFrame_all (fail : string -> io B) k d :
  fits d -> advance (checked readLenPrefixed fail k) (frame d) = advance (k d) [].
Proof. intros Hd. rewrite <-(app_nil_r (frame d)). by apply advance_readFrame. Qed.

Lemma run_readFrame (fail : string -> io B) k d rest faults :
  fits d -> run (checked readLenPrefixed fail k) (frame d ++ rest) faults = run (k d) rest faults.
Proof.
  intros Hd. destruct (frame_fits d Hd) as [-> En]. rewrite <-app_assoc, run_readLen by done. rewrite En. unfold readBody.
  rewrite (proj2 (Z.ltb_ge _ _)) by done. destruct (0 <? blen d) eqn:E.
  - apply run_checked_read. unfold blen. lia.
  - destruct d; [done|]. apply Z.ltb_ge in E. unfold blen in E. cbn [length] in E. lia.
Qed.

(** A frame larger than a megabyte is refused. *)
Lemma run_readFrame_large (fail : string -> io B) k d rest faults :
  ~ fits d -> blen d < 2 ^ 32 ->
  run (checked readLenPrefixed fail k) (frame d ++ rest) faults =
    run (fail ("join: message too large: " +:+ pretty (blen d) +:+ " bytes")) (d ++ rest) faults.
Proof.
  intros Hd Hl. unfold fits in Hd. pose proof (blen_nonneg d).
  unfold frame, u32. rewrite Z.mod_small by (unfold u32_modulus; lia). rewrite <-app_assoc.
  rewrite run_readLen by done. rewrite uint32_putUint32 by lia. unfold readBody.
  by rewrite (proj2 (Z.ltb_lt _ _)) by lia.
Qed.

(** What was read was a frame. *)
Lemma run_readFrame_inv (fail : string -> io B) k inp faults :
  (exists d rest, inp = frame d ++ rest /\ fits d /\
     run (checked readLenPrefixed fail k) inp faults = run (k d) rest faults) \/
  exists e rest, run (checked readLenPrefixed fail k) inp faults = run (fail e) rest faults.
Proof.
  destruct (decide (length inp < 4)%nat); [right; rewrite run_readLen_short by done; by eauto|].
  rewrite <-(take_drop 4 inp). set (h := take 4 inp). set (rest := drop 4 inp).
  assert (length h = 4%nat) as Hh by (unfold h; rewrite length_take; lia). rewrite run_readLen by done.
  clearbody h rest.
  assert (0 <= uint32 h < 2 ^ 32) as Hr.
  { destruct h as [|a [|b [|c [|d [|]]]]]; try done. rewrite uint32_bytes.
    pose proof (byteOf_range a). pose proof (byteOf_range b). pose proof (byteOf_range c). pose proof (byteOf_range d). lia. }
  unfold readBody. destruct (2 ^ 20 <? uint32 h) eqn:El; [right; by eauto|]. apply Z.ltb_ge in El.
  destruct (0 <? uint32 h) eqn:E.
  - destruct (run_checked_inv fail k (Z.to_nat (uint32 h)) rest faults) as [(d & rest' & -> & Hd & ->)| ->]; [|by eauto].
    assert (blen d = uint32 h) as Hb by (unfold blen; lia). left. exists d, rest'. unfold fits. rewrite Hb. split_and!; [|done|done].
    unfold frame, u32. rewrite Hb, Z.mod_small, putUint32_uint32 by (unfold u32_modulus; lia || done). by rewrite <-app_assoc.
  - left. exists [], rest. split_and!; [|done|done]. unfold frame. cbn [blen length]. rewrite app_nil_r.
    apply Z.ltb_ge in E. change (u32 (blen [])) with 0. replace 0 with (uint32 h) by lia. by rewrite putUint32_uint32.
Qed.

Lemma run_frame_inv (fail : string -> io B) (k : io B) d inp faults :
  exists faults',
    (run (written (writeLenPrefixed d) fail k) inp faults).2 = (run k inp faults').2 \/
    exists e, (run (written (writeLenPrefixed d) fail k) inp faults).2 = (run (fail e) inp faults').2.
Proof.
  unfold writeLenPrefixed. destruct faults as [|[e|] faults].
  - exists []. left. by destruct (0 <? blen d); cbn; destruct (run k inp []).
  - exists faults. right. by exists e.
  - destruct (0 <? blen d); cbn; [|exists faults; left; by destruct (run k inp faults)].
    destruct faults as [|[e|] faults]; cbn.
    + exists []. left. by destruct (run k inp []).
    + exists faults. right. exists e. by destruct (run (fail e) inp faults).
    + exists faults. left. by destruct (run k inp faults).
Qed.
End frames.

(** ** The handshake *)

Section handshake.
Variable hmac : bytes -> bytes -> bytes.
Hypothesis hmac_size : forall key m, length (hmac key m) = hmacSize.

(** The frames of a request and of a response. *)
Definition request_frames (req : JoinRequest) : bytes :=
  frame (toBytes (jq_NodeID req)) ++ frame (toBytes (jq_ClusterAddr req)) ++ frame (jq_CSRDER req).

Definition response_frames (resp : JoinResponse) : bytes :=
  frame (jr_NodeCertDER resp) ++ frame (jr_CACertDER resp) ++ frame (jr_CAKeyPKCS8 resp) ++
  frame (toBytes (jr_ServerID resp)) ++ frame (toBytes (jr_ClusterAddr resp)) ++ frame (default [] (jr_Payload resp)).

Definition request_fits (req : JoinRequest) : Prop :=
  fits (toBytes (jq_NodeID req)) /\ fits (toBytes (jq_ClusterAddr req)) /\ fits (jq_CSRDER req).

Definition response_fits (resp : JoinResponse) : Prop :=
  fits (jr_NodeCertDER resp) /\ fits (jr_CACertDER resp) /\ fits (jr_CAKeyPKCS8 resp) /\
  fits (toBytes (jr_ServerID resp)) /\ fits (toBytes (jr_ClusterAddr resp)) /\ fits (default [] (jr_Payload resp)).

(** An empty payload arrives as none. *)
Definition received (resp : JoinResponse) : JoinResponse :=
  mkJoinResponse (jr_NodeCertDER resp) (jr_CACertDER resp) (jr_CAKeyPKCS8 resp) (jr_ServerID resp)
    (jr_ClusterAddr resp) (match jr_Payload resp with Some [] => None | p => p end).

Lemma run_readResponse resp rest faults :
  response_fits resp -> run readResponse (response_frames resp ++ rest) faults = ([], inl (received resp)).
Proof.
  intros (?&?&?&?&?&?). unfold readResponse, response_frames. rewrite <-!app_assoc, !run_readFrame by done.
  cbn [run mret io_ret]. rewrite !ofBytes_toBytes. unfold received. repeat f_equal.
  destruct (jr_Payload resp) as [[|]|]; reflexivity.
Qed.

Lemma wrote_wrote {P : Type} a b (x : P * bytes) : wrote a (wrote b x) = wrote (a ++ b) x.
Proof. unfold wrote. cbn. by rewrite app_assoc. Qed.

Lemma advance_sendResponse {A} resp (k : unit -> io A) inp :
  advance (sendResponse resp ≫= k) inp = wrote (response_frames resp) (advance (k tt) inp).
Proof. unfold sendResponse, response_frames. rewrite !advance_sent, !wrote_wrote, <-!app_assoc. reflexivity. Qed.

(** The messages of a handshake, as the two ends produce them. *)

Lemma client_hello token nonceC req :
  advance (joinConn hmac token (inl nonceC) req) [] =
    (awaitChallenge hmac token nonceC req, [], joinMagic ++ nonceC).
Proof.
  unfold joinConn. rewrite !advance_written, !wrote_wrote. unfold awaitChallenge at 1.
  rewrite advance_checked_blocked by (by apply Nat.ltb_lt). unfold wrote. cbn [fst snd]. by rewrite app_nil_r.
Qed.

Lemma server_challenge token nonceC nonceS handler :
  length nonceC = nonceSize ->
  advance (handleConn hmac token (inl nonceS) handler) (joinMagic ++ nonceC) =
    (awaitProof hmac token handler nonceC nonceS, [], nonceS ++ computeJoinHMAC hmac token nonceC nonceS).
Proof.
  intros Hc. unfold handleConn. rewrite advance_checked_read by done. rewrite bool_decide_true by done. cbn [negb].
  rewrite advance_checked_all by done. unfold challenge.
  rewrite !advance_written, !wrote_wrote. unfold awaitProof at 1.
  rewrite advance_checked_blocked by (by apply Nat.ltb_lt). unfold wrote. cbn [fst snd]. by rewrite app_nil_r.
Qed.

Lemma client_answer token nonceC nonceS req :
  length nonceS = nonceSize ->
  advance (awaitChallenge hmac token nonceC req) (nonceS ++ computeJoinHMAC hmac token nonceC nonceS) =
    (readResponse, [], computeJoinHMAC hmac token nonceS nonceC ++ request_frames req).
Proof.
  intros Hs. unfold awaitChallenge. rewrite advance_checked_read by done.
  rewrite advance_checked_all by apply hmac_size.
  rewrite bool_decide_true by done. cbn [negb]. unfold prove.
  rewrite advance_written, !advance_frame, !wrote_wrote. unfold readResponse at 1.
  rewrite advance_readLen_blocked by (by apply Nat.ltb_lt). unfold wrote, request_frames. cbn [fst snd].
  by rewrite app_nil_r, <-!app_assoc.
Qed.

Lemma client_refuses token nonceC nonceS proof req :
  length nonceS = nonceSize -> length proof = hmacSize -> proof <> computeJoinHMAC hmac token nonceC nonceS ->
  advance (awaitChallenge hmac token nonceC req) (nonceS ++ proof) = (Ret (inr ErrJoinBadToken), [], []).
Proof.
  intros Hs Hp Hne. unfold awaitChallenge. rewrite advance_checked_read by done.
  rewrite advance_checked_all by done. by rewrite bool_decide_false.
Qed.

Lemma server_answer token nonceC nonceS handler req :
  request_fits req ->
  advance (awaitProof hmac token handler nonceC nonceS)
    (computeJoinHMAC hmac token nonceS nonceC ++ request_frames req) =
    match handler req with
    | inl resp => (Ret (Some req), [], response_frames resp)
    | inr _ => (Ret (Some req), [], [])
    end.
Proof.
  intros (H1 & H2 & H3). unfold awaitProof. rewrite advance_checked_read by apply hmac_size.
  rewrite bool_decide_true by done. cbn [negb]. unfold serveRequest, request_frames.
  rewrite !advance_readFrame, advance_readFrame_all by done.
  rewrite !ofBytes_toBytes. destruct req as [id addr csr]. cbn [jq_NodeID jq_ClusterAddr jq_CSRDER].
  destruct (handler _) as [resp|]; [|done]. rewrite advance_sendResponse. unfold wrote. cbn. by rewrite app_nil_r.
Qed.

(** Both ends have the same token. *)
Lemma handshake_agrees (token nonceC nonceS : bytes) (req : JoinRequest) (handler : JoinRequest -> JoinResponse + string) :
  length nonceC = nonceSize -> length nonceS = nonceSize -> request_fits req ->
  (forall resp, handler req = inl resp -> response_fits resp) ->
  exchange 2 (joinConn hmac token (inl nonceC) req) (handleConn hmac token (inl nonceS) handler) [] [] =
  Some (match handler req with
        | inl resp => inl (received resp)
        | inr _ => inr "join client: read cert: EOF"%string
        end, Some req).
Proof.
  intros Hc Hs Hreq Hresp.
  rewrite (exchange_wait _ _ _ [] [] _ _ _ _ _ _ (client_hello token nonceC req)
    (server_challenge token nonceC nonceS handler Hc)) by apply checked_waits. cbn [app].
  pose proof (client_answer token nonceC nonceS req Hs) as E1.
  pose proof (server_answer token nonceC nonceS handler req Hreq) as E2.
  assert (waits readResponse) as Hw by (eexists _, _; reflexivity).
  destruct (handler req) as [resp|e] eqn:Eh; rewrite (exchange_right _ _ _ _ [] _ _ _ _ _ _ E1 E2 Hw); [|done].
  cbn [app]. rewrite <-(app_nil_r (response_frames resp)), run_readResponse by auto. done.
Qed.

(** C32: the handshake.  When both ends have the same token, the server signs the
    client's request and the client gets the server's response, whatever the
    nonces are, as long as no field exceeds a megabyte; if the handler refuses,
    the client fails to read its certificate.  When the server's proof does not
    hold for the client's token, the client reports a bad token and the server's
    handler is never called.  Neither end waits for the other forever. *)
Theorem join_handshake (tokenC tokenS nonceC nonceS : bytes) (req : JoinRequest)
    (handler : JoinRequest -> JoinResponse + string) :
  length nonceC = nonceSize -> length nonceS = nonceSize -> request_fits req ->
  (forall resp, handler req = inl resp -> response_fits resp) ->
  let outcome := exchange 2 (joinConn hmac tokenC (inl nonceC) req) (handleConn hmac tokenS (inl nonceS) handler) [] [] in
  (tokenC = tokenS ->
     outcome = Some (match handler req with
                     | inl resp => inl (received resp)
                     | inr _ => inr "join client: read cert: EOF"%string
                     end, Some req)) /\
  (computeJoinHMAC hmac tokenC nonceC nonceS <> computeJoinHMAC hmac tokenS nonceC nonceS ->
     outcome = Some (inr ErrJoinBadToken, None)).
Proof.
  intros Hc Hs Hreq Hresp. cbn zeta. split; [intros <-; by apply handshake_agrees|].
  rewrite (exchange_wait _ _ _ [] [] _ _ _ _ _ _ (client_hello tokenC nonceC req)
    (server_challenge tokenS nonceC nonceS handler Hc)) by apply checked_waits. cbn [app].
  intros Hne. eassert (advance (awaitProof hmac tokenS handler nonceC nonceS) ([] ++ []) = _) as E2.
  { apply advance_checked_blocked. by apply Nat.ltb_lt. }
  rewrite (exchange_left _ _ _ _ [] _ _ _ _ _ _ (client_refuses tokenC nonceC nonceS _ req Hs (hmac_size _ _) ltac:(done)) E2).
  done.
Qed.

(** The next frame written in the run in the goal. *)
Local Tactic Notation "case_frame" ident(fs) :=
  match goal with |- context [run (written (writeLenPrefixed ?d) ?f ?k) ?inp ?fs0] =>
    let e := fresh in destruct (run_frame_inv f k d inp fs0) as [fs [-> |(e & ->)]]
  end.

(** Peel a frame off the input of a run that succeeds. *)
Local Tactic Notation "read_frame" hyp(H) "as" ident(d) ident(r) ident(F) :=
  match type of H with
  | run (checked readLenPrefixed ?f ?k) ?inp ?faults = _ =>
      let E := fresh in
      destruct (run_readFrame_inv f k inp faults) as [(d & r & -> & F & E)|(? & ? & E)]; rewrite E in H; clear E;
      [|discriminate H || by injection H as <- <-]
  end.

(** What the server did with what it got after its challenge. *)
Lemma run_serveRequest handler input faults out res :
  run (serveRequest handler) input faults = (out, res) ->
  match res with
  | None => out = []
  | Some served => exists rest, request_fits served /\ input = request_frames served ++ rest
  end.
Proof.
  unfold serveRequest. intros H. read_frame H as sid r1 F1. read_frame H as addr r2 F2. read_frame H as csr r3 F3.
  set (served := mkJoinRequest _ _ _) in H. assert (res = Some served) as ->.
  { destruct (handler served); [|by injection H as _ <-].
    assert ((run (sendResponse j ≫= fun _ => mret (Some served)) r3 faults).2 = Some served) as Hi by apply run_ignored.
    by rewrite H in Hi. }
  exists r3. unfold request_fits, request_frames, served. cbn. rewrite !toBytes_ofBytes, <-!app_assoc. done.
Qed.

(** The challenge goes out as far as writes succeed; the handler is called only
    after the client's proof. *)
Lemma run_challenge token handler nonceC nonceS input faults :
  match run (challenge hmac token handler nonceC nonceS) input faults with
  | (out, None) => out `prefix_of` nonceS ++ computeJoinHMAC hmac token nonceC nonceS
  | (out, Some served) =>
      exists rest, request_fits served /\
        input = computeJoinHMAC hmac token nonceS nonceC ++ request_frames served ++ rest
  end.
Proof.
  unfold challenge. set (proof := computeJoinHMAC hmac token nonceC nonceS).
  case_write fs; [|apply prefix_nil].
  case_write fs'; [|cbn; rewrite app_nil_r; by apply prefix_app_r].
  unfold awaitProof. case_read sent rest Hl; [|cbn; by rewrite app_nil_r].
  destruct (bool_decide _) eqn:Es; cbn [negb]; [|cbn; by rewrite app_nil_r]. bprop. subst sent.
  destruct (run (serveRequest handler) rest fs') as [out res] eqn:Er. apply run_serveRequest in Er. cbn [fst snd].
  destruct res as [served|]; [|subst out; by rewrite app_nil_r].
  destruct Er as (r & Hf & ->). exists r. done.
Qed.

Lemma run_readResponse_inv input faults resp :
  (run readResponse input faults).2 = inl resp ->
  exists sent rest, response_fits sent /\ resp = received sent /\ input = response_frames sent ++ rest.
Proof.
  destruct (run readResponse input faults) as [out res] eqn:H. cbn. intros ->. unfold readResponse in H.
  read_frame H as cert r1 F1. read_frame H as ca r2 F2. read_frame H as key r3 F3. read_frame H as sid r4 F4.
  read_frame H as addr r5 F5. read_frame H as payload r6 F6. injection H as <- <-.
  exists (mkJoinResponse cert ca key (ofBytes sid) (ofBytes addr) (Some payload)), r6.
  unfold response_fits, response_frames, received. cbn. rewrite !toBytes_ofBytes, <-!app_assoc.
  split_and!; try done. f_equal. destruct payload; reflexivity.
Qed.

Lemma run_prove token nonceC nonceS req input faults resp :
  (run (prove hmac token nonceC nonceS req) input faults).2 = inl resp ->
  exists sent rest, response_fits sent /\ resp = received sent /\ input = response_frames sent ++ rest.
Proof.
  unfold prove. case_write f1; [|done].
  case_frame f2; [|done].
  case_frame f3; [|done].
  case_frame f4; [|done].
  apply run_readResponse_inv.
Qed.

(** C31: both ends are authenticated, whoever the peer is.  The server calls its
    handler, and sends anything but its challenge, only for a peer that sent the
    HMAC of both nonces under the server's token, followed by the request it is
    called with; the client returns a response only if the peer sent the HMAC of
    both nonces in the other order under the client's token, followed by this
    response.  This holds for every stream of bytes the peer may send and
    whichever writes fail. *)
Theorem join_is_authenticated (token nonce : bytes) (req : JoinRequest) (handler : JoinRequest -> JoinResponse + string)
    (input : bytes) (faults : list (option string)) :
  match run (handleConn hmac token (inl nonce) handler) input faults with
  | (out, None) => out = [] \/ exists nonceC, length nonceC = nonceSize /\ out `prefix_of` nonce ++ computeJoinHMAC hmac token nonceC nonce
  | (out, Some served) =>
      exists nonceC rest, length nonceC = nonceSize /\ request_fits served /\
        input = joinMagic ++ nonceC ++ computeJoinHMAC hmac token nonce nonceC ++ request_frames served ++ rest
  end /\
  forall resp, (run (joinConn hmac token (inl nonce) req) input faults).2 = inl resp ->
    exists nonceS sent rest, length nonceS = nonceSize /\ response_fits sent /\ resp = received sent /\
      input = nonceS ++ computeJoinHMAC hmac token nonce nonceS ++ response_frames sent ++ rest.
Proof.
  split.
  - unfold handleConn. case_read magic r1 Hm; [|by left].
    destruct (bool_decide _) eqn:Em; cbn [negb]; [|by left]. bprop. subst magic.
    case_read nonceC r2 Hc; [|by left].
    pose proof (run_challenge token handler nonceC nonce r2 faults) as Hr.
    destruct (run (challenge hmac token handler nonceC nonce) r2 faults) as [out [served|]].
    + destruct Hr as (rest & Hf & ->). exists nonceC, rest. by rewrite <-?app_assoc.
    + right. by exists nonceC.
  - intros resp. unfold joinConn.
    case_write f1; [|done]. case_write f2; [|done]. unfold awaitChallenge.
    case_read nonceS r1 Hs; [|done]. case_read proof r2 Hp; [|done].
    destruct (bool_decide _) eqn:Ep; cbn [negb]; [|done]. bprop. subst proof. intros Hr.
    destruct (run_prove _ _ _ _ _ _ _ Hr) as (sent & rest & Hf & -> & ->).
    exists nonceS, sent, rest. by rewrite <-?app_assoc.
Qed.
End handshake.

(** A request that fits is read back as it was sent, and a larger payload than a
    megabyte makes the client fail although the server has signed. *)
Lemma oversized_payload_is_refused cert ca key sid addr payload rest faults :
  response_fits (mkJoinResponse cert ca key sid addr None) -> ~ fits payload -> blen payload < 2 ^ 32 ->
  (run readResponse (response_frames (mkJoinResponse cert ca key sid addr (Some payload)) ++ rest) faults).2 =
    inr ("join client: read payload: join: message too large: " +:+ pretty (blen payload) +:+ " bytes")%string.
Proof.
  intros (?&?&?&?&?&_) Hp Hl. unfold readResponse, response_frames. cbn [jr_NodeCertDER jr_CACertDER jr_CAKeyPKCS8
    jr_ServerID jr_ClusterAddr jr_Payload default] in *.
  rewrite <-!app_assoc, !run_readFrame by done. by rewrite run_readFrame_large.
Qed.

(** ** A concrete handshake *)

Definition example_hmac (key m : bytes) : bytes := take hmacSize (key ++ m ++ replicate hmacSize "000"%char).

Lemma example_hmac_size key m : length (example_hmac key m) = hmacSize.
Proof. unfold example_hmac. rewrite length_take, !length_app, length_replicate. lia. Qed.

Definition example_nonce (c : ascii) : bytes := replicate nonceSize c.
Definition example_request : JoinRequest := mkJoinRequest "n2" "10.0.0.2:9000" (toBytes "csr").
Definition example_response : JoinResponse :=
  mkJoinResponse (toBytes "cert") (toBytes "ca") (toBytes "key") "n1" "10.0.0.1:9000" (Some []).

Lemma join_handshake_witness :
  exchange 2 (joinConn example_hmac (toBytes "token") (inl (example_nonce "a")) example_request)
    (handleConn example_hmac (toBytes "token") (inl (example_nonce "b")) (fun _ => inl example_response)) [] [] =
  Some (inl (received example_response), Some example_request).
Proof.
  apply (join_handshake example_hmac example_hmac_size (toBytes "token") (toBytes "token") (example_nonce "a")
    (example_nonce "b") example_request (fun _ => inl example_response)).
  - vm_compute. reflexivity.
  - vm_compute. reflexivity.
  - unfold request_fits, fits. vm_compute. repeat split; discriminate.
  - intros resp [= <-]. unfold response_fits, fits. vm_compute. repeat split; discriminate.
  - reflexivity.
Defined.

Definition example_answer : bytes :=
  example_nonce "b" ++ computeJoinHMAC example_hmac (toBytes "token") (example_nonce "a") (example_nonce "b") ++
  response_frames example_response.

Lemma join_is_authenticated_witness :
  exists nonceS sent rest, length nonceS = nonceSize /\ response_fits sent /\ received example_response = received sent /\
    example_answer = nonceS ++ computeJoinHMAC example_hmac (toBytes "token") (example_nonce "a") nonceS ++
      response_frames sent ++ rest.
Proof.
  apply (join_is_authenticated example_hmac (toBytes "token") (example_nonce "a") example_request
    (fun _ => inl example_response) example_answer []). vm_compute. reflexivity.
Defined.
