(* ===== verification/Auth.v ===== *)
(** * Authentication of peers ([cluster/auth.go])

    The interface [ClusterAuth] and the implementations that need no
    certificates; [CertAuth] is in [Certs.v]. *)

From S2P Require Import Prelude ByteStream.

Definition ErrAuthRejected : string := "cluster_auth_rejected".

(** [Credentials] returns the payload of the handshake or an error, [Verify] an
    error or none. *)
Record ClusterAuth := mkClusterAuth {
  ca_Credentials : bytes + string;
  ca_Verify : bytes -> option string
}.

Definition NoopAuth : ClusterAuth := mkClusterAuth (inl []) (fun _ => None).

(** [SharedSecretAuth]; the secret is copied, and compared in constant time,
    which has the result of an ordinary comparison. *)
Definition NewSharedSecretAuth (secret : bytes) : ClusterAuth :=
  mkClusterAuth (inl secret)
    (fun peer => if bool_decide (secret = peer) then None else Some ErrAuthRejected).

Lemma shared_secret_verifies secret peer :
  ca_Verify (NewSharedSecretAuth secret) peer = None <-> peer = secret.
Proof.
  cbn. destruct (bool_decide _) eqn:E; bprop; [by split|]. split; [done|]. by intros ->.
Qed.
