(* ===== verification/Grpc.v ===== *)
(** * The gRPC transport ([cluster/grpctransport/transport.go])

    Envelopes are translated to protocol buffers and back, streams are
    authenticated by an HMAC in their metadata, and a server takes the identity
    of the node at the other end of a stream from the first envelope it receives.
    gRPC itself (dialling, streams, headers) and the HMAC are parameters; an
    operation takes what gRPC returns as an argument. *)

From S2P Require Import Prelude Nodes Cluster ByteStream Join Auth.

(** ** Metadata *)

Definition metaNodeID : string := "x-cluster-node".
Definition metaTimestamp : string := "x-cluster-ts".
Definition metaNonce : string := "x-cluster-nonce".
Definition metaSignature : string := "x-cluster-sig".

(** [authTimestampSkew], in nanoseconds. *)
Definition authTimestampSkew : Z := 30000000000.

(** [metadata.MD]; all keys of this transport are in lower case. *)
Abbreviation MD := (gmap string (list string)).

(** [metadata.Pairs]. *)
Definition pairs (l : list (string * string)) : MD :=
  foldl (fun (md : MD) '(k, v) => <[k := default [] (md !! k) ++ [v]]> md) ∅ l.

Definition firstMDValue (md : MD) (key : string) : string :=
  default ""%string (head (default [] (md !! key))).

(** ** Signatures *)

Definition hexDigit (n : nat) : ascii := ascii_of_nat (if (n <? 10)%nat then 48 + n else 87 + n)%nat.

(** [hex.EncodeToString]. *)
Fixpoint EncodeToString (bs : bytes) : string :=
  match bs with
  | [] => ""
  | c :: bs => String (hexDigit (nat_of_ascii c / 16)) (String (hexDigit (nat_of_ascii c mod 16)) (EncodeToString bs))
  end.

(** [time.Since], which saturates, on nanoseconds. *)
Definition Since (now ts : Z) : Z := Z.max (- 2 ^ 63) (Z.min (2 ^ 63 - 1) (now - ts)).

(** The status codes used. *)
Inductive statusCode := Unauthenticated | Internal.

Section auth.
Variable hmac : bytes -> bytes -> bytes.

Definition computeHMAC (secret : bytes) (nonce timestamp : string) : string :=
  EncodeToString (hmac secret (toBytes nonce ++ toBytes "|" ++ toBytes timestamp)).

(** [buildAuthMetadata]: [nonce] is what the random source returns. *)
Definition buildAuthMetadata (localID : NodeID) (auth : ClusterAuth) (nonce : bytes + string) (now : Z) :
    MD + string :=
  match ca_Credentials auth with
  | inr e => inr e
  | inl secret =>
      match nonce with
      | inr e => inr ("generate nonce: " +:+ e)
      | inl nonce =>
          let ts := pretty now in
          let nonceHex := EncodeToString nonce in
          let sig := computeHMAC secret nonceHex ts in
          inl (pairs [(metaNodeID, localID); (metaTimestamp, ts); (metaNonce, nonceHex); (metaSignature, sig)])
      end
  end.

(** [streamAuthInterceptor]: the status with which the stream is refused, or
    none when its handler runs. *)
Definition streamAuthInterceptor (auth : option ClusterAuth) (now : Z) (md : option MD) :
    option (statusCode * string) :=
  match auth with
  | None => None
  | Some auth =>
      match md with
      | None => Some (Unauthenticated, "missing metadata"%string)
      | Some md =>
          let ts := firstMDValue md metaTimestamp in
          let nonce := firstMDValue md metaNonce in
          let sig := firstMDValue md metaSignature in
          if bool_decide (ts = ""%string) || bool_decide (nonce = ""%string) || bool_decide (sig = ""%string)
          then Some (Unauthenticated, "missing auth metadata"%string)
          else
            match Atoi ts with
            | None => Some (Unauthenticated, "invalid timestamp"%string)
            | Some tsNano =>
                let delta := Since now tsNano in
                let delta := if delta <? 0 then i64 (- delta) else delta in
                if authTimestampSkew <? delta
                then Some (Unauthenticated, "timestamp outside acceptable window"%string)
                else
                  match ca_Credentials auth with
                  | inr _ => Some (Internal, "auth credentials unavailable"%string)
                  | inl secret =>
                      let expected := computeHMAC secret nonce ts in
                      if negb (bool_decide (sig = expected)) then Some (Unauthenticated, "invalid signature"%string)
                      else None
                  end
            end
      end
  end.
End auth.

(** ** Envelopes *)

(** [RemotePIDProto] and [ClusterEnvelope], the generated messages. *)
Record RemotePIDProto := mkRemotePIDProto {
  rpp_Node : string;
  rpp_Namespace : string;
  rpp_ActorId : string;
  rpp_Generation : Z
}.

Record ClusterEnvelope := mkClusterEnvelope {
  pb_SenderNode : string;
  pb_SenderActorId : string;
  pb_TargetNode : string;
  pb_TargetActorId : string;
  pb_Namespace : string;
  pb_Generation : Z;
  pb_TypeName : string;
  pb_SchemaVersion : string;
  pb_MessageId : Z;
  pb_Payload : string;
  pb_IsAsk : bool;
  pb_AskRequestId : string;
  pb_AskReplyTo : option RemotePIDProto;
  pb_SentAtUnixNano : Z;
  pb_Headers : gmap string string
}.

Definition envelopeToProto (env : Envelope) (headers : gmap string string) : ClusterEnvelope :=
  mkClusterEnvelope (en_SenderNode env) (en_SenderActorID env) (en_TargetNode env) (en_TargetActorID env)
    (en_Namespace env) (en_Generation env) (en_TypeName env) (en_SchemaVersion env) (en_MessageID env)
    (en_Payload env) (en_IsAsk env) (en_AskRequestID env)
    (match en_AskReplyTo env with
     | Some r => Some (mkRemotePIDProto (rp_Node r) (rp_Namespace r) (rp_ActorID r) (rp_Generation r))
     | None => None
     end)
    (en_SentAtUnixNano env) headers.

Definition protoToEnvelope (pb : ClusterEnvelope) : Envelope :=
  mkEnvelope (pb_SenderNode pb) (pb_SenderActorId pb) (pb_TargetNode pb) (pb_TargetActorId pb)
    (pb_Namespace pb) (pb_Generation pb) (pb_TypeName pb) (pb_SchemaVersion pb) (pb_MessageId pb)
    (pb_Payload pb) (pb_IsAsk pb) (pb_AskRequestId pb)
    (match pb_AskReplyTo pb with
     | Some r => Some (mkRemotePID (rpp_Node r) (rpp_Namespace r) (rpp_ActorId r) (rpp_Generation r))
     | None => None
     end)
    (pb_SentAtUnixNano pb).

Lemma protoToEnvelope_envelopeToProto env headers : protoToEnvelope (envelopeToProto env headers) = env.
Proof. destruct env as [???????????? r ?]. by destruct r as [[]|]. Qed.

(** ** Connections *)

(** [grpcConn], the end that dialled. *)
Record grpcConn := mkGrpcConn {
  gc_remoteNode : NodeID;
  gc_remoteAddr : string;
  gc_headers : gmap string string;
  gc_closed : bool
}.

(** [Send] and [SendWithHeaders]: the message that goes out on the stream and
    the stream's error. *)
Definition send_pb (c : grpcConn) (pb : ClusterEnvelope) (streamErr : option string) :
    option ClusterEnvelope * option string :=
  if gc_closed c then (None, Some ErrConnectionClosed) else (Some pb, streamErr).

Definition grpcConn_Send (c : grpcConn) (env : Envelope) (streamErr : option string) :=
  send_pb c (envelopeToProto env (gc_headers c)) streamErr.

(** Headers of the message win over those of the transport. *)
Definition SendWithHeaders (c : grpcConn) (env : Envelope) (headers : gmap string string)
    (streamErr : option string) :=
  send_pb c (envelopeToProto env (headers ∪ gc_headers c)) streamErr.

Definition grpcConn_Close (c : grpcConn) : grpcConn :=
  mkGrpcConn (gc_remoteNode c) (gc_remoteAddr c) (gc_headers c) true.

(** [grpcServerConn], the end that accepted; its stream closes when its handler
    returns, [Close] does nothing. *)
Record grpcServerConn := mkGrpcServerConn { gs_remoteNode : NodeID; gs_remoteAddr : string }.

Definition grpcServerConn_Send (c : grpcServerConn) (env : Envelope) (streamErr : option string) :=
  (envelopeToProto env ∅, streamErr).

(** ** Streams *)

(** The calls of the [InboundHandler]. *)
Inductive handlerCall :=
  | CallEstablished (remote : NodeID) (conn : grpcServerConn)
  | CallEnvelope (from : NodeID) (env : Envelope)
  | CallLost (remote : NodeID) (err : string).

(** [serverImpl.Stream]: [sendHeader] is the error of sending the header, [recv]
    the messages that arrive and [err] the error that ends the stream.  The
    header sent, the calls made and the error returned. *)
Definition Stream (localID : NodeID) (handler : bool) (remoteAddr : string) (sendHeader : option string)
    (recv : list ClusterEnvelope) (err : string) : MD * list handlerCall * option string :=
  let header := pairs [(metaNodeID, localID)] in
  match sendHeader with
  | Some e => (header, [], Some e)
  | None =>
      match recv with
      | [] => (header, [], Some err)
      | first :: rest =>
          let remoteID := pb_SenderNode first in
          let conn := mkGrpcServerConn remoteID remoteAddr in
          (header,
           if handler
           then CallEstablished remoteID conn :: CallEnvelope remoteID (protoToEnvelope first) ::
                  ((fun pb => CallEnvelope remoteID (protoToEnvelope pb)) <$> rest) ++ [CallLost remoteID err]
           else [], None)
      end
  end.

(** ** The transport *)

Record GRPCTransport := mkGRPCTransport {
  gt_localID : NodeID;
  gt_auth : option ClusterAuth;
  gt_handler : bool;        (* set by [Listen] *)
  gt_defaultHeaders : gmap string string;
  gt_serverTLS : bool;
  gt_clientTLS : bool;
  gt_listening : bool;
  gt_closed : bool
}.

Definition New (localID : NodeID) : GRPCTransport := mkGRPCTransport localID None false ∅ false false false false.

Definition NewWithConfig (localID : NodeID) (headers : gmap string string) (serverTLS clientTLS : bool) : GRPCTransport :=
  mkGRPCTransport localID None false headers serverTLS clientTLS false false.

(** The default factory ([default.go]): TLS at both ends when configured. *)
Definition defaultFactory (nodeID : NodeID) (tls : bool) : GRPCTransport :=
  if tls then NewWithConfig nodeID ∅ true true else New nodeID.

Definition SetAuth (auth : ClusterAuth) (t : GRPCTransport) : GRPCTransport :=
  mkGRPCTransport (gt_localID t) (Some auth) (gt_handler t) (gt_defaultHeaders t) (gt_serverTLS t) (gt_clientTLS t)
    (gt_listening t) (gt_closed t).

Definition Listen (netErr : option string) (t : GRPCTransport) : GRPCTransport * option string :=
  if gt_closed t then (t, Some ErrTransportClosed)
  else
    let started listening := mkGRPCTransport (gt_localID t) (gt_auth t) true (gt_defaultHeaders t) (gt_serverTLS t)
      (gt_clientTLS t) listening false in
    match netErr with
    | Some e => (started (gt_listening t), Some (ErrDialFailed +:+ ": " +:+ e)%string)
    | None => (started true, None)
    end.

Definition Close (t : GRPCTransport) : GRPCTransport :=
  mkGRPCTransport (gt_localID t) (gt_auth t) (gt_handler t) (gt_defaultHeaders t) (gt_serverTLS t) (gt_clientTLS t)
    (gt_listening t) true.

Section dial.
Variable hmac : bytes -> bytes -> bytes.

(** The metadata of an outgoing stream. *)
Definition dialMetadata (t : GRPCTransport) (auth : option ClusterAuth) (nonce : bytes + string) (now : Z) :
    option MD + string :=
  match auth with
  | None => inl None
  | Some auth =>
      match buildAuthMetadata hmac (gt_localID t) auth nonce now with
      | inl md => inl (Some md)
      | inr e => inr (ErrHandshakeFailed +:+ ": " +:+ e)%string
      end
  end.

(** [Dial]: [clientErr] is the error of [grpc.NewClient], [stream] what opening a
    stream with the metadata gives (its header or an error). *)
Definition Dial (addr : string) (auth : option ClusterAuth) (nonce : bytes + string) (now : Z)
    (clientErr : option string) (stream : option MD -> MD + string) (t : GRPCTransport) : grpcConn + string :=
  if gt_closed t then inr ErrTransportClosed
  else
    match clientErr with
    | Some e => inr (ErrDialFailed +:+ ": " +:+ e)%string
    | None =>
        match dialMetadata t auth nonce now with
        | inr e => inr e
        | inl md =>
            match stream md with
            | inr e => inr (ErrHandshakeFailed +:+ ": " +:+ e)%string
            | inl header => inl (mkGrpcConn (firstMDValue header metaNodeID) addr (gt_defaultHeaders t) false)
            end
        end
    end.

(** The goroutine of [Dial]: what arrives on the stream is the server's. *)
Definition readLoop (c : grpcConn) (t : GRPCTransport) (recv : list ClusterEnvelope) : list handlerCall :=
  if gt_handler t then (fun pb => CallEnvelope (gc_remoteNode c) (protoToEnvelope pb)) <$> recv else [].
End dial.

(** ** Timestamps *)

Lemma digitOf_pretty n : (n < 10)%N -> digitOf (pretty_N_char n) = Some (Z.of_N n).
Proof.
  intros Hn. rewrite <- (N2Nat.id n). assert (N.to_nat n < 10)%nat as Hk by lia. generalize dependent (N.to_nat n).
  intros k Hk. do 10 (destruct k as [|k]; [reflexivity|]). lia.
Qed.

Lemma digitsOf_pretty_go x s : digitsOf 0 (pretty_N_go x s) = digitsOf (Z.of_N x) s.
Proof.
  revert s. induction (N.lt_wf_0 x) as [x _ IH]; intros s.
  destruct (decide (x = 0)%N) as [->|Hx]; [by rewrite pretty_N_go_0|].
  rewrite pretty_N_go_step by lia. rewrite IH by (apply N.div_lt; lia). cbn [digitsOf].
  rewrite digitOf_pretty by (apply N.mod_upper_bound; lia). cbn [mbind option_bind]. f_equal.
  rewrite N2Z.inj_div, N2Z.inj_mod. pose proof (Z.div_mod (Z.of_N x) 10). lia.
Qed.

Lemma digitsOf_pretty (x : N) : digitsOf 0 (pretty x) = Some (Z.of_N x).
Proof.
  unfold pretty, pretty_N. case_decide as E; [by subst|]. by rewrite digitsOf_pretty_go.
Qed.

(** A decimal number is not empty and starts with no sign. *)
Lemma pretty_N_head (x : N) : exists c s, pretty x = String c s /\ is_Some (digitOf c).
Proof.
  pose proof (digitsOf_pretty x) as H. destruct (pretty x) as [|c s] eqn:E.
  - cbn in H. injection H as H. assert (x = 0%N) as -> by lia. done.
  - cbn in H. exists c, s. split; [done|]. by destruct (digitOf c).
Qed.

(** [strconv.ParseInt] reads back what [strconv.FormatInt] wrote. *)
Lemma Atoi_pretty (z : Z) : - 2 ^ 63 <= z < 2 ^ 63 -> Atoi (pretty z) = Some z.
Proof.
  intros Hz. assert (forall v, - 2 ^ 63 <= v < 2 ^ 63 ->
    (if (- 2 ^ 63 <=? v) && (v <? 2 ^ 63) then Some v else None) = Some v) as Hr.
  { intros v Hv. by rewrite (proj2 (Z.leb_le _ _)), (proj2 (Z.ltb_lt _ _)) by lia. }
  unfold Atoi. destruct z as [|p|p]; [done| |].
  - change (pretty (Z.pos p)) with (pretty (N.pos p)). destruct (pretty_N_head (N.pos p)) as (c & s & E & [d Hd]).
    pose proof (digitsOf_pretty (N.pos p)) as Hp. rewrite E in *.
    assert (c <> "+"%char /\ c <> "-"%char) as [? ?] by (split; intros ->; done).
    transitivity (v ← digitsOf 0 (String c s); if (- 2 ^ 63 <=? v) && (v <? 2 ^ 63) then Some v else None).
    { destruct c as [[] [] [] [] [] [] [] []]; done. }
    rewrite Hp. cbn [mbind option_bind]. by apply Hr.
  - change (pretty (Z.neg p)) with ("-" +:+ pretty (N.pos p)). 
    destruct (pretty_N_head (N.pos p)) as (c & s & E & [d Hd]).
    pose proof (digitsOf_pretty (N.pos p)) as Hp. rewrite E in *.
    transitivity (v ← Z.opp <$> digitsOf 0 (String c s); if (- 2 ^ 63 <=? v) && (v <? 2 ^ 63) then Some v else None);
      [done|]. rewrite Hp. cbn [fmap option_fmap option_map mbind option_bind]. by apply Hr.
Qed.

(** ** Stream authentication *)

Lemma hexDigit_inj a b : (a < 16)%nat -> (b < 16)%nat -> hexDigit a = hexDigit b -> a = b.
Proof.
  assert (forall n, (n < 16)%nat -> nat_of_ascii (hexDigit n) = if (n <? 10)%nat then 48 + n else 87 + n)%nat as Hd.
  { intros n Hn. unfold hexDigit. apply nat_ascii_embedding. destruct (n <? 10)%nat; lia. }
  intros Ha Hb H. apply (f_equal nat_of_ascii) in H. rewrite !Hd in H by done.
  destruct (a <? 10)%nat eqn:Ea, (b <? 10)%nat eqn:Eb; rewrite ?Nat.ltb_lt, ?Nat.ltb_ge in *; lia.
Qed.

Lemma EncodeToString_inj a b : EncodeToString a = EncodeToString b -> a = b.
Proof.
  revert b. induction a as [|x a IH]; intros [|y b]; try done. cbn [EncodeToString]. intros H.
  pose proof (nat_ascii_bounded x). pose proof (nat_ascii_bounded y).
  remember (nat_of_ascii x / 16)%nat as hx eqn:Ehx. remember (nat_of_ascii x mod 16)%nat as lx eqn:Elx.
  remember (nat_of_ascii y / 16)%nat as hy eqn:Ehy. remember (nat_of_ascii y mod 16)%nat as ly eqn:Ely.
  injection H as E1 E2 E3.
  apply hexDigit_inj in E1; [|subst; apply Nat.Div0.div_lt_upper_bound; lia..].
  apply hexDigit_inj in E2; [|subst; apply Nat.mod_upper_bound; lia..].
  f_equal; [|by apply IH]. rewrite <-(ascii_nat_embedding x), <-(ascii_nat_embedding y). f_equal.
  rewrite (Nat.div_mod_eq (nat_of_ascii x) 16), (Nat.div_mod_eq (nat_of_ascii y) 16). congruence.
Qed.

(** The window of the timestamp: no overflow lets a timestamp outside of it
    through. *)
Lemma skew_exact now ts :
  0 <= now < 2 ^ 63 -> - 2 ^ 63 <= ts < 2 ^ 63 ->
  (authTimestampSkew <? (if Since now ts <? 0 then i64 (- Since now ts) else Since now ts)) = false <->
  Z.abs (now - ts) <= authTimestampSkew.
Proof.
  intros Hn Ht. unfold Since, authTimestampSkew. rewrite Z.ltb_ge.
  assert (Z.max (- 2 ^ 63) (Z.min (2 ^ 63 - 1) (now - ts)) = Z.min (2 ^ 63 - 1) (now - ts)) as -> by lia.
  destruct (Z.min (2 ^ 63 - 1) (now - ts) <? 0) eqn:E.
  - apply Z.ltb_lt in E. rewrite i64_small by lia. lia.
  - apply Z.ltb_ge in E. lia.
Qed.

Section admission.
Variable hmac : bytes -> bytes -> bytes.

(** When the interceptor lets a stream pass. *)
Lemma interceptor_exact auth now md :
  0 <= now < 2 ^ 63 ->
  streamAuthInterceptor hmac (Some auth) now md = None <->
  exists m ts secret, md = Some m /\
    firstMDValue m metaTimestamp <> ""%string /\ firstMDValue m metaNonce <> ""%string /\
    Atoi (firstMDValue m metaTimestamp) = Some ts /\ Z.abs (now - ts) <= authTimestampSkew /\
    ca_Credentials auth = inl secret /\ firstMDValue m metaSignature <> ""%string /\
    firstMDValue m metaSignature = computeHMAC hmac secret (firstMDValue m metaNonce) (firstMDValue m metaTimestamp).
Proof.
  intros Hn. unfold streamAuthInterceptor. destruct md as [m|]; [|split; [done|by intros (?&?&?&?&?)]].
  destruct (_ || _) eqn:E1.
  { split; [done|]. intros (m' & ts & secret & [= <-] & H1 & H2 & _ & _ & _ & H3 & _).
    rewrite !bool_decide_false in E1 by done. done. }
  bprop. destruct (Atoi _) as [ts|] eqn:Ets; [|split; [done|]; intros (m' & ? & ? & [= <-] & _ & _ & ? & _); congruence].
  pose proof (skew_exact now ts Hn (Atoi_range _ _ Ets)) as Hskew. cbn zeta.
  destruct (authTimestampSkew <? _) eqn:Es.
  { split; [done|]. intros (m' & ts' & ? & [= <-] & _ & _ & E & Hs & _). assert (ts' = ts) as -> by congruence.
    by apply Hskew in Hs. }
  destruct (ca_Credentials auth) as [secret|e] eqn:Ec.
  2:{ split; [done|]. by intros (?&?&?&_&_&_&_&_&?&_). }
  destruct (bool_decide (firstMDValue m metaSignature = _)) eqn:Eb; cbn [negb]; bprop; split; try done.
  - intros _. exists m, ts, secret. split_and!; try done. by apply Hskew.
  - intros (m' & ? & secret' & [= <-] & _ & _ & _ & _ & [= ->] & _ & E). done.
Qed.

Lemma dial_metadata id secret nonce t0 auth :
  ca_Credentials auth = inl secret ->
  exists md, buildAuthMetadata hmac id auth (inl nonce) t0 = inl md /\ firstMDValue md metaNodeID = id /\
    firstMDValue md metaTimestamp = pretty t0 /\ firstMDValue md metaNonce = EncodeToString nonce /\
    firstMDValue md metaSignature = computeHMAC hmac secret (EncodeToString nonce) (pretty t0).
Proof.
  intros Hc. unfold buildAuthMetadata. rewrite Hc. eexists. split; [done|]. unfold firstMDValue, pairs.
  cbn [foldl]. split_and!; by repeat first [rewrite lookup_insert_eq | rewrite lookup_insert_ne by done].
Qed.

(** C35: admission of streams.  A server that authenticates admits the stream a
    client opens with its own credentials exactly when the two secrets give the
    same HMAC of the nonce and the timestamp and the two clocks differ by at most
    thirty seconds, whatever the 64-bit timestamps are; in particular nodes with
    the same secret admit each other.  A server without authentication admits
    every stream. *)
Theorem streams_are_admitted_by_secret (id : NodeID) (client server : ClusterAuth) (sC sS nonce : bytes) (t0 now : Z)
    (md : MD) :
  (forall key m, hmac key m <> []) -> nonce <> [] -> 0 <= t0 < 2 ^ 63 -> 0 <= now < 2 ^ 63 ->
  ca_Credentials client = inl sC -> ca_Credentials server = inl sS ->
  buildAuthMetadata hmac id client (inl nonce) t0 = inl md ->
  let signed := toBytes (EncodeToString nonce) ++ toBytes "|" ++ toBytes (pretty t0) in
  (streamAuthInterceptor hmac (Some server) now (Some md) = None <->
     Z.abs (now - t0) <= authTimestampSkew /\ hmac sC signed = hmac sS signed) /\
  streamAuthInterceptor hmac None now (Some md) = None.
Proof.
  intros Hh Hnonce Ht Hn Hc Hs Hmd. cbn zeta. split; [|done].
  destruct (dial_metadata id sC nonce t0 client Hc) as (md' & Emd & _ & E1 & E2 & E3).
  assert (md' = md) as -> by congruence. rewrite (interceptor_exact _ _ _ Hn).
  pose proof (Atoi_pretty t0 ltac:(lia)) as Hp.
  assert (EncodeToString nonce <> ""%string) by (by destruct nonce).
  assert (pretty t0 <> ""%string) by (intros E; by rewrite E in Hp).
  split.
  - intros (m & ts & secret & [= <-] & _ & _ & Hts & Hskew & Hsec & _ & Hsig). rewrite E1, E2, E3 in *.
    assert (ts = t0) as -> by congruence. assert (secret = sS) as -> by congruence. split; [done|].
    by apply EncodeToString_inj in Hsig.
  - intros [Hskew Hsig]. exists md, t0, sS. rewrite E1, E2, E3. split_and!; try done.
    + unfold computeHMAC. specialize (Hh sC (toBytes (EncodeToString nonce) ++ toBytes "|" ++ toBytes (pretty t0))).
      destruct (hmac sC _); done.
    + unfold computeHMAC. by rewrite Hsig.
Qed.
End admission.

Lemma streams_are_admitted_by_secret_witness :
  let auth := NewSharedSecretAuth (toBytes "cookie") in
  exists md, buildAuthMetadata example_hmac "n1" auth (inl (toBytes "nonce")) 1000 = inl md /\
    streamAuthInterceptor example_hmac (Some auth) 30000001000 (Some md) = None.
Proof.
  intros auth. eexists. split; [vm_compute; reflexivity|].
  apply (streams_are_admitted_by_secret example_hmac "n1" auth auth (toBytes "cookie") (toBytes "cookie") (toBytes "nonce")
    1000 30000001000).
  - intros key m E. apply (f_equal length) in E. rewrite example_hmac_size in E. discriminate.
  - discriminate.
  - lia.
  - lia.
  - reflexivity.
  - reflexivity.
  - vm_compute. reflexivity.
  - split; [vm_compute; discriminate|reflexivity].
Defined.
