(* ===== verification/Multicast.v ===== *)
(** * Discovery by multicast ([pkg/multicastprovider/provider.go])

    Every node announces itself periodically on a multicast group.  A provider
    keeps the nodes it heard of with the time it last heard them, drops those
    that leave or stay silent too long, and reports changes on an event channel.
    The network is the environment: the announcements that arrive are arguments,
    and so are the errors of the socket operations. *)

From S2P Require Import Prelude Registry Nodes Feed Seeds.

Record Config := mkConfig {
  GroupAddr : string;
  Interface : string;
  BroadcastInterval : Z;
  DeadTimeout : Z;
  Port : Z
}.

Definition setDefaults (c : Config) : Config :=
  mkConfig (if bool_decide (GroupAddr c = ""%string) then "239.1.1.1:7946"%string else GroupAddr c) (Interface c)
    (if BroadcastInterval c <=? 0 then 1000000000 else BroadcastInterval c)
    (if DeadTimeout c <=? 0 then 5000000000 else DeadTimeout c)
    (if Port c <=? 0 then 9000 else Port c).

Record announcement := mkAnnouncement {
  an_NodeID : string;
  an_Addr : string;
  an_Tags : gmap string string;
  an_Leaving : bool
}.

Record peerState := mkPeerState { ps_meta : NodeMeta; ps_lastSeen : Z }.

#[export] Instance multicast_peer : PeerState peerState := { peer_meta := ps_meta; peer_alive _ := true }.

(** [MulticastProvider]; [mp_stopped] says that [stopCh] is closed. *)
Record MulticastProvider := mkMulticastProvider {
  mp_cfg : Config;
  mp_self : NodeMeta;
  mp_members : gmap string peerState;
  mp_feed : eventFeed;
  mp_started : bool;
  mp_stopped : bool
}.

Definition NewWithConfig (c : Config) : MulticastProvider :=
  mkMulticastProvider (setDefaults c) zeroNodeMeta ∅ (newFeed 1024) false false.

Definition New : MulticastProvider := NewWithConfig (mkConfig "" "" 0 0 0).

(** [Start]: the steps of opening the socket that can fail. *)
Inductive startStep := ResolveGroup | FindInterface | ListenUDP | SetLoopback.

Definition startError (p : MulticastProvider) (step : startStep) (e : string) : string :=
  (match step with
   | ResolveGroup => "multicastprovider: resolve group addr: "
   | FindInterface => "multicastprovider: interface " +:+ quote (Interface (mp_cfg p)) +:+ ": "
   | ListenUDP => "multicastprovider: listen multicast udp: "
   | SetLoopback => "multicastprovider: set loopback: "
   end +:+ e)%string.

Definition Start (self : NodeMeta) (failed : option (startStep * string)) (p : MulticastProvider) :
    MulticastProvider * option string :=
  if mp_started p then (p, Some ErrProviderAlreadyStarted)
  else
    let p' started := mkMulticastProvider (mp_cfg p) self (mp_members p) (mp_feed p) started false in
    match failed with
    | Some (step, e) => (p' false, Some (startError p step e))
    | None => (p' true, None)
    end.

(** What [sendAnnouncement] puts on the wire. *)
Definition announce (leaving : bool) (p : MulticastProvider) : announcement :=
  mkAnnouncement (nm_ID (mp_self p)) (nm_Addr (mp_self p)) (nm_Tags (mp_self p)) leaving.

(** [Stop] up to the leave announcement it sends, and the closing of its
    channels; packets may be handled in between. *)
Definition Stop_begin (p : MulticastProvider) : MulticastProvider * (announcement + string) :=
  if negb (mp_started p) then (p, inr ErrProviderNotStarted)
  else
    (mkMulticastProvider (mp_cfg p) (mp_self p) (mp_members p) (mp_feed p) false (mp_stopped p),
     inl (announce true p)).

Definition Stop_end (p : MulticastProvider) : MulticastProvider :=
  mkMulticastProvider (mp_cfg p) (mp_self p) (mp_members p) (closeFeed (mp_feed p)) (mp_started p) true.

Definition Members (p : MulticastProvider) : list NodeMeta :=
  (fun '(_, ps) => ps_meta ps) <$> map_to_list (mp_members p).

Definition UpdateTags (tags : gmap string string) (p : MulticastProvider) : MulticastProvider :=
  mkMulticastProvider (mp_cfg p) (mkNodeMeta (nm_ID (mp_self p)) (nm_Addr (mp_self p)) tags (nm_JoinedAt (mp_self p)))
    (mp_members p) (mp_feed p) (mp_started p) (mp_stopped p).

(** [emit]: nothing after the stop channel is closed; a full channel drops the
    event.  [None] is the panic of a send on a closed channel. *)
Definition emit (ev : MemberEvent) (p : MulticastProvider) : option eventFeed :=
  if mp_stopped p then Some (mp_feed p) else Feed.emit ev (mp_feed p).

(** Members and events after a change. *)
Definition changed (members : gmap string peerState) (ev : option MemberEvent) (p : MulticastProvider) :
    option MulticastProvider :=
  f ← match ev with Some ev => emit ev p | None => Some (mp_feed p) end;
  Some (mkMulticastProvider (mp_cfg p) (mp_self p) members f (mp_started p) (mp_stopped p)).

Definition handleAnnouncement (now : Z) (ann : announcement) (p : MulticastProvider) : option MulticastProvider :=
  let nodeID := an_NodeID ann in
  if bool_decide (nodeID = nm_ID (mp_self p)) then Some p
  else
    let meta joined := mkNodeMeta nodeID (an_Addr ann) (an_Tags ann) joined in
    if an_Leaving ann then
      match mp_members p !! nodeID with
      | Some _ => changed (delete nodeID (mp_members p)) (Some (mkMemberEvent MemberLeave (meta 0))) p
      | None => Some p
      end
    else
      match mp_members p !! nodeID with
      | None =>
          changed (<[nodeID := mkPeerState (meta now) now]> (mp_members p))
            (Some (mkMemberEvent MemberJoin (meta now))) p
      | Some existing =>
          if negb (tagsEqual (nm_Tags (ps_meta existing)) (an_Tags ann)) then
            let m := mkNodeMeta (nm_ID (ps_meta existing)) (an_Addr ann) (an_Tags ann) (nm_JoinedAt (ps_meta existing)) in
            changed (<[nodeID := mkPeerState m now]> (mp_members p)) (Some (mkMemberEvent MemberUpdated m)) p
          else changed (<[nodeID := mkPeerState (ps_meta existing) now]> (mp_members p)) None p
      end.

(** The silent peers go, one event each. *)
Definition sweep_one (now : Z) (id : string) (p : MulticastProvider) : option MulticastProvider :=
  match mp_members p !! id with
  | Some ps =>
      if DeadTimeout (mp_cfg p) <? now - ps_lastSeen ps
      then changed (delete id (mp_members p)) (Some (mkMemberEvent MemberFailed (ps_meta ps))) p
      else Some p
  | None => Some p
  end.

Fixpoint sweep_loop (now : Z) (ids : list string) (p : MulticastProvider) : option MulticastProvider :=
  match ids with [] => Some p | id :: ids => p ← sweep_one now id p; sweep_loop now ids p end.

Definition sweep (now : Z) (p : MulticastProvider) : option MulticastProvider :=
  sweep_loop now (fst <$> map_to_list (mp_members p)) p.

(** Taking an event from [Events()]. *)
Definition recv (p : MulticastProvider) : MulticastProvider * option MemberEvent :=
  let '(f, ev) := recvFeed (mp_feed p) in
  (mkMulticastProvider (mp_cfg p) (mp_self p) (mp_members p) f (mp_started p) (mp_stopped p), ev).

(** ** Runs *)

Inductive mc_op :=
  | MHear (now : Z) (ann : announcement)
  | MSweep (now : Z)
  | MRecv
  | MTags (tags : gmap string string)
  | MStop_begin
  | MStop_end.

(** The provider, the view of a consumer that applies the events it receives,
    and a bound on the events so far. *)
Definition mc_run : Type := MulticastProvider * memberView * nat.

Definition run_mc (o : mc_op) (st : mc_run) : option mc_run :=
  let '(p, v, n) := st in
  match o with
  | MHear now ann => p' ← handleAnnouncement now ann p; Some (p', v, S n)
  | MSweep now => p' ← sweep now p; Some (p', v, (n + size (mp_members p))%nat)
  | MRecv => Some ((recv p).1, match (recv p).2 with Some ev => apply_event v ev | None => v end, n)
  | MTags tags => Some (UpdateTags tags p, v, n)
  | MStop_begin => Some ((Stop_begin p).1, v, n)
  | MStop_end => Some (Stop_end p, v, n)
  end.

Fixpoint run_mcs (os : list mc_op) (st : mc_run) : option mc_run :=
  match os with [] => Some st | o :: os => st ← run_mc o st; run_mcs os st end.

(** ** The feed *)

Section multicast.
Implicit Types (p : MulticastProvider) (ms : gmap string peerState).

(** The members a change leaves are those its event leads to. *)
Definition follows ms ms' (ev : option MemberEvent) : Prop :=
  members_view ms' = match ev with Some ev => apply_event (members_view ms) ev | None => members_view ms end.

Lemma view_lookup ms id : members_view ms !! id = ps_meta <$> ms !! id.
Proof. unfold members_view. rewrite lookup_omap. by destruct (ms !! id). Qed.

Lemma follows_insert ms id ps t :
  nm_ID (ps_meta ps) = id -> t = MemberJoin \/ t = MemberUpdated ->
  follows ms (<[id := ps]> ms) (Some (mkMemberEvent t (ps_meta ps))).
Proof.
  intros Hid Ht. unfold follows, apply_event. apply map_eq. intros k.
  destruct Ht as [-> | ->]; cbn [me_Type me_Member]; rewrite Hid, view_lookup;
    (destruct (decide (k = id)) as [->|Hne];
     [by rewrite !lookup_insert_eq|by rewrite !lookup_insert_ne, view_lookup]).
Qed.

Lemma follows_touch ms id ps t :
  ms !! id = Some ps -> follows ms (<[id := mkPeerState (ps_meta ps) t]> ms) None.
Proof.
  intros Hps. unfold follows. apply map_eq. intros k. rewrite !view_lookup.
  destruct (decide (k = id)) as [->|Hne]; [by rewrite lookup_insert_eq, Hps|by rewrite lookup_insert_ne].
Qed.

Lemma follows_delete ms id t m :
  nm_ID m = id -> t = MemberLeave \/ t = MemberFailed ->
  follows ms (delete id ms) (Some (mkMemberEvent t m)).
Proof.
  intros Hid Ht. unfold follows, apply_event. apply map_eq. intros k.
  destruct Ht as [-> | ->]; cbn [me_Type me_Member]; rewrite Hid, view_lookup;
    (destruct (decide (k = id)) as [->|Hne];
     [by rewrite !lookup_delete_eq|by rewrite !lookup_delete_ne, view_lookup]).
Qed.

(** The stop channel is closed with the event channel, so no send panics; and
    peers are stored under their IDs. *)
Definition sound p : Prop := ef_closed (mp_feed p) = mp_stopped p /\ peers_ok (mp_members p).

(** What a run keeps, after at most [n] events, between a provider and its
    consumer's view. *)
Definition synced (v : memberView) (n : nat) p : Prop :=
  drops n (mp_feed p) /\
  (mp_stopped p = false -> feed_sync v (members_view (mp_members p)) (mp_feed p)).

Lemma synced_more v n n' p : (n <= n')%nat -> synced v n p -> synced v n' p.
Proof. unfold synced, drops. intros Hn (? & ?). split_and!; [lia|lia|done]. Qed.

(** A step with at most [k] events. *)
Definition good_step (k : nat) p (res : option MulticastProvider) : Prop :=
  exists p', res = Some p' /\ sound p' /\
  forall v n, Z.of_nat (n + k) < u64_modulus -> synced v n p -> synced v (n + k) p'.

Lemma good_skip k p : sound p -> good_step k p (Some p).
Proof. intros Hp. exists p. split_and!; [done|done|]. intros v n _. apply synced_more. lia. Qed.

Lemma changed_good ms' ev p :
  sound p -> follows (mp_members p) ms' ev -> peers_ok ms' -> good_step 1 p (changed ms' ev p).
Proof.
  intros [Hc Hok] Hf Hok'. unfold follows in Hf.
  unfold good_step, changed, emit, sound, synced in *. destruct ev as [ev|]; cbn [mbind option_bind].
  2:{ eexists. split_and!; [done|done|done|]. cbn [mp_feed mp_stopped mp_members]. intros v n _ (Hd & Hs).
      rewrite Hf. split; [unfold drops in *; lia|done]. }
  destruct (mp_stopped p) eqn:Est.
  { eexists. split_and!; [done|done|done|]. cbn [mp_feed mp_stopped mp_members]. intros v n _ (Hd & Hs).
    split; [unfold drops in *; lia|done]. }
  destruct (Feed.emit ev (mp_feed p)) as [f|] eqn:E.
  2:{ unfold Feed.emit in E. rewrite Hc in E. by destruct (_ <? _)%nat. }
  eexists. split_and!; [done| |done|]; cbn [mp_feed mp_stopped mp_members].
  { unfold Feed.emit in E. rewrite Hc in E. destruct (_ <? _)%nat; by simplify_eq/=. }
  intros v n Hn (Hd & Hs). rewrite Hf, Nat.add_1_r.
  pose proof (emit_dropped ev (mp_feed p) f n E) as Hd'. split; [apply Hd'; [lia|done]|].
  intros _. eapply emit_sync; [done|unfold drops in Hd; lia|by apply Hs].
Qed.

Lemma changed_fields ms' ev p p' :
  changed ms' ev p = Some p' ->
  mp_members p' = ms' /\ mp_cfg p' = mp_cfg p /\ mp_self p' = mp_self p.
Proof. unfold changed. intros H. by apply bind_Some in H as (f & _ & [= <-]). Qed.

Lemma hear_good now ann p : sound p -> good_step 1 p (handleAnnouncement now ann p).
Proof.
  intros Hp. pose proof Hp as [_ Hok]. unfold handleAnnouncement. destruct (bool_decide _); [by apply good_skip|].
  destruct (an_Leaving ann), (mp_members p !! an_NodeID ann) as [ps|] eqn:E; [| by apply good_skip | |].
  - apply changed_good; [done|apply follows_delete; auto|by apply map_Forall_delete].
  - pose proof (Hok _ _ E) as Eid. cbn in Eid. destruct (negb _); apply changed_good;
      [done|apply (follows_insert _ _ (mkPeerState _ now)); auto|by apply map_Forall_insert_2
      |done|by apply follows_touch|by apply map_Forall_insert_2].
  - apply changed_good; [done|apply (follows_insert _ _ (mkPeerState _ now)); auto|by apply map_Forall_insert_2].
Qed.

Lemma sweep_one_good now id p : sound p -> good_step 1 p (sweep_one now id p).
Proof.
  intros Hp. pose proof Hp as [_ Hok]. unfold sweep_one.
  destruct (mp_members p !! id) as [ps|] eqn:E; [|by apply good_skip].
  destruct (_ <? _); [|by apply good_skip]. pose proof (Hok _ _ E) as Eid. cbn in Eid.
  apply changed_good; [done|apply follows_delete; auto|by apply map_Forall_delete].
Qed.

Lemma sweep_loop_good now ids p : sound p -> good_step (length ids) p (sweep_loop now ids p).
Proof.
  revert p. induction ids as [|id ids IH]; intros p Hp; [by apply good_skip|]. cbn.
  destruct (sweep_one_good now id p Hp) as (p1 & -> & Hp1 & H1).
  destruct (IH p1 Hp1) as (p2 & E2 & Hp2 & H2). exists p2. split_and!; [done|done|].
  intros v n Hn Hs. rewrite Nat.add_succ_r, <- Nat.add_succ_l. apply H2; [lia|].
  rewrite <- Nat.add_1_r. apply H1; [lia|done].
Qed.

(** The bound on the events of an operation. *)
Definition mc_cost (o : mc_op) p : nat :=
  match o with MHear _ _ => 1 | MSweep _ => size (mp_members p) | _ => 0 end.

Lemma run_mc_good o p v n :
  sound p ->
  exists p' v', run_mc o (p, v, n) = Some (p', v', (n + mc_cost o p)%nat) /\ sound p' /\
  (Z.of_nat (n + mc_cost o p) < u64_modulus -> synced v n p -> synced v' (n + mc_cost o p) p').
Proof.
  intros Hp. pose proof Hp as [Hc Hok]. destruct o as [now ann|now| |tags| |]; cbn [run_mc mc_cost]; rewrite ?Nat.add_0_r.
  - destruct (hear_good now ann p Hp) as (p' & -> & Hp' & Hs). rewrite Nat.add_1_r in *. exists p', v.
    split_and!; [done|done|]. intros Hn Hv. rewrite <- Nat.add_1_r. apply Hs; [lia|done].
  - destruct (sweep_loop_good now (map_to_list (mp_members p)).*1 p Hp) as (p' & E & Hp' & Hs).
    rewrite length_fmap, length_map_to_list in Hs. unfold sweep. rewrite E. exists p', v.
    split_and!; [done|done|]. intros Hn Hv. by apply Hs.
  - eexists _, _. split; [done|]. unfold recv.
    pose proof (recv_sync v (members_view (mp_members p)) (mp_feed p)) as Hr.
    destruct (recvFeed (mp_feed p)) as [f ev] eqn:E. unfold recvFeed in E.
    destruct (ef_ch (mp_feed p)); injection E as <- <-; (split; [done|]); intros _ (? & ?); split; auto.
  - by eexists _, _.
  - eexists _, _. split; [done|]. unfold Stop_begin. destruct (negb _); (split; [done|]); intros _ Hs; exact Hs.
  - eexists _, _. split_and!; [done|by split|]. intros _ (Hd & _). by split.
Qed.

Lemma run_mcs_good os p v n :
  sound p ->
  exists p' v' n', run_mcs os (p, v, n) = Some (p', v', n') /\ sound p' /\ (n <= n')%nat /\
  (Z.of_nat n' < u64_modulus -> synced v n p -> synced v' n' p').
Proof.
  revert p v n. induction os as [|o os IH]; intros p v n Hp; cbn [run_mcs].
  { exists p, v, n. split_and!; [done|done|lia|done]. }
  destruct (run_mc_good o p v n Hp) as (p1 & v1 & -> & Hp1 & H1).
  destruct (IH p1 v1 (n + mc_cost o p)%nat Hp1) as (p2 & v2 & n2 & E2 & Hp2 & Hle & H2). cbn. exists p2, v2, n2.
  split_and!; [done|done|lia|]. intros Hn Hs. apply H2; [done|]. apply H1; [lia|done].
Qed.

(** A provider as [Start] leaves it. *)
Definition fresh (c : Config) (self : NodeMeta) : MulticastProvider := (Start self None (NewWithConfig c)).1.

Lemma fresh_sound c self : sound (fresh c self).
Proof. split; [done|apply map_Forall_empty]. Qed.

Lemma elem_of_Members p m :
  peers_ok (mp_members p) -> m ∈ Members p <-> members_view (mp_members p) !! nm_ID m = Some m.
Proof.
  intros Hok. rewrite <- listed_members by done. unfold Members.
  by rewrite list_elem_of_fmap, list_elem_of_omap; split; intros ([k ps] & H1 & H2);
    exists (k, ps); unfold alive_of in *; cbn in *; simplify_eq.
Qed.

(** A multicast provider never sends on its closed event channel, whatever
    announcements, sweeps, tag updates and stops follow its start; and as long as
    it is not stopped and no event was dropped, a consumer that applies the
    pending events to its view has exactly the provider's members (over fewer
    than [2^64] events). *)
Theorem multicast_feed_is_faithful c self os :
  exists p v n, run_mcs os (fresh c self, ∅, 0%nat) = Some (p, v, n) /\
  (Z.of_nat n < u64_modulus -> mp_stopped p = false -> ef_dropped (mp_feed p) = 0 ->
   forall m, m ∈ Members p <-> apply_events v (ef_ch (mp_feed p)) !! nm_ID m = Some m).
Proof.
  destruct (run_mcs_good os (fresh c self) ∅ 0%nat) as (p & v & n & E & [_ Hok] & _ & Hs);
    [by apply fresh_sound|].
  exists p, v, n. split; [done|]. intros Hn Hst Hd m. destruct (Hs Hn) as (_ & Hf).
  { split; [unfold drops; cbn; lia|done]. }
  rewrite (Hf Hst Hd). by apply elem_of_Members.
Qed.

(** ** Failure detection *)

Definition keeps_config p p' : Prop := mp_cfg p' = mp_cfg p /\ nm_ID (mp_self p') = nm_ID (mp_self p).

(** What a sweep leaves of a peer's state. *)
Definition swept (dead now : Z) (o : option peerState) : option peerState :=
  ps ← o; if dead <? now - ps_lastSeen ps then None else Some ps.

Lemma sweep_one_lookup now id p p' k :
  sweep_one now id p = Some p' ->
  mp_members p' !! k = (if decide (k = id) then swept (DeadTimeout (mp_cfg p)) now (mp_members p !! k)
                        else mp_members p !! k) /\ keeps_config p p'.
Proof.
  unfold sweep_one, swept. intros H. destruct (mp_members p !! id) as [ps|] eqn:E.
  - destruct (_ <? _) eqn:Et.
    + apply changed_fields in H as (-> & Hc & Hs). split; [|by split; [|rewrite Hs]].
      destruct (decide _) as [->|Hne]; [by rewrite lookup_delete_eq, E; cbn; rewrite Et|].
      by apply lookup_delete_ne.
    + injection H as <-. split; [|by split]. destruct (decide _) as [->|]; [|done]. rewrite E. cbn. by rewrite Et.
  - injection H as <-. split; [|by split]. destruct (decide _) as [->|]; [by rewrite E|done].
Qed.

Lemma sweep_loop_lookup now ids p p' k :
  sweep_loop now ids p = Some p' -> NoDup ids ->
  mp_members p' !! k = (if decide (k ∈ ids) then swept (DeadTimeout (mp_cfg p)) now (mp_members p !! k)
                        else mp_members p !! k) /\ keeps_config p p'.
Proof.
  revert p. induction ids as [|id ids IH]; intros p H Hn; cbn in H.
  { injection H as <-. by rewrite decide_False by apply not_elem_of_nil. }
  apply bind_Some in H as (p1 & H1 & H). apply NoDup_cons in Hn as [Hid Hn].
  destruct (sweep_one_lookup _ _ _ _ k H1) as (E1 & Hc1 & Hs1), (IH _ H Hn) as (E & Hc & Hs).
  split; [|by split; congruence]. rewrite E, E1, Hc1. clear E E1.
  destruct (decide (k = id)) as [->|Hne].
  - rewrite decide_False by done. by rewrite decide_True by left.
  - destruct (decide (k ∈ ids)); [by rewrite decide_True by (by right)|].
    rewrite decide_False; [done|]. by rewrite not_elem_of_cons.
Qed.

Lemma sweep_lookup now p p' k :
  sweep now p = Some p' ->
  mp_members p' !! k = swept (DeadTimeout (mp_cfg p)) now (mp_members p !! k) /\ keeps_config p p'.
Proof.
  intros H. destruct (sweep_loop_lookup now _ p p' k H (NoDup_fst_map_to_list _)) as [E Hk]. split; [|done].
  rewrite E. destruct (decide _) as [|Hn]; [done|]. destruct (mp_members p !! k) as [ps|] eqn:El; [|done].
  exfalso. apply Hn, list_elem_of_fmap. exists (k, ps). split; [done|by apply elem_of_map_to_list].
Qed.

(** No operation changes the configuration or the node's own ID, and none makes
    a node a member of its own view. *)
Lemma run_mc_self o p v n r :
  run_mc o (p, v, n) = Some r ->
  keeps_config p r.1.1 /\
  (mp_members p !! nm_ID (mp_self p) = None -> mp_members r.1.1 !! nm_ID (mp_self p) = None).
Proof.
  intros H. destruct o as [now ann|now| |tags| |]; cbn [run_mc] in H.
  - apply bind_Some in H as (p' & H & [= <-]). unfold handleAnnouncement in H. cbn [fst].
    destruct (bool_decide _) eqn:Eb; [by injection H as <-|]. bprop.
    destruct (an_Leaving ann), (mp_members p !! an_NodeID ann); [|by injection H as <-| |];
      [|destruct (negb _)|]; apply changed_fields in H as (-> & Hc & Hs);
      (split; [by split; [|rewrite Hs]|]); by rewrite ?lookup_insert_ne, ?lookup_delete_ne by done.
  - apply bind_Some in H as (p' & H & [= <-]). destruct (sweep_lookup _ _ _ (nm_ID (mp_self p)) H) as [E Hc].
    split; [done|]. cbn [fst]. rewrite E. by intros ->.
  - injection H as <-. cbn [fst]. unfold recv. by destruct (recvFeed _).
  - by injection H as <-.
  - injection H as <-. cbn [fst]. unfold Stop_begin. by destruct (negb _).
  - by injection H as <-.
Qed.

Lemma run_mcs_self os p v n r :
  run_mcs os (p, v, n) = Some r ->
  keeps_config p r.1.1 /\
  (mp_members p !! nm_ID (mp_self p) = None -> mp_members r.1.1 !! nm_ID (mp_self p) = None).
Proof.
  revert p v n. induction os as [|o os IH]; intros p v n H; cbn [run_mcs] in H; [by injection H as <-|].
  apply bind_Some in H as ([[p1 v1] n1] & H1 & H). destruct (run_mc_self _ _ _ _ _ H1) as [[Hc Hs] Hn].
  destruct (IH _ _ _ H) as [[Hc' Hs'] Hn']. cbn [fst] in *. split; [by split; congruence|].
  intros Hp. rewrite <- Hs. apply Hn'. rewrite Hs. by apply Hn.
Qed.

(** When a node was last heard, and whether it was leaving. *)
Definition hear_step (id : string) (h : option (Z * bool)) (o : mc_op) : option (Z * bool) :=
  match o with
  | MHear t ann => if bool_decide (an_NodeID ann = id) then Some (t, an_Leaving ann) else h
  | _ => h
  end.

Definition latest (id : string) (os : list mc_op) : option (Z * bool) := foldl (hear_step id) None os.

(** No sweep was later than [T]. *)
Definition heard_ok (dead T : Z) (h : option (Z * bool)) (o : option peerState) : Prop :=
  match h with
  | Some (t, false) => (ps_lastSeen <$> o) = Some t \/ o = None /\ dead < T - t
  | _ => o = None
  end.

Lemma handle_lookup now ann p p' k h dead T :
  handleAnnouncement now ann p = Some p' -> k <> nm_ID (mp_self p) ->
  heard_ok dead T h (mp_members p !! k) ->
  heard_ok dead T (hear_step k h (MHear now ann)) (mp_members p' !! k) /\ keeps_config p p'.
Proof.
  intros H Hk Hh. unfold handleAnnouncement in H. cbn [hear_step].
  destruct (decide (an_NodeID ann = k)) as [Eid|Hne].
  - rewrite bool_decide_true by done. rewrite Eid, bool_decide_false in H by done.
    destruct (an_Leaving ann); destruct (mp_members p !! k) as [ps|] eqn:E.
    + apply changed_fields in H as (-> & Hc & Hs). split; [apply lookup_delete_eq|by split; [|rewrite Hs]].
    + injection H as <-. by split.
    + destruct (negb _); apply changed_fields in H as (-> & Hc & Hs);
        (split; [rewrite lookup_insert_eq; by left|by split; [|rewrite Hs]]).
    + apply changed_fields in H as (-> & Hc & Hs).
      split; [rewrite lookup_insert_eq; by left|by split; [|rewrite Hs]].
  - rewrite bool_decide_false by done. destruct (bool_decide _); [by injection H as <-|].
    destruct (an_Leaving ann), (mp_members p !! an_NodeID ann); [|by injection H as <-| |];
      [|destruct (negb _)|]; apply changed_fields in H as (-> & Hc & Hs);
      rewrite ?lookup_insert_ne, ?lookup_delete_ne by done; (split; [done|by split; [|rewrite Hs]]).
Qed.

Lemma run_mc_heard o p v n r k h T :
  run_mc o (p, v, n) = Some r -> k <> nm_ID (mp_self p) -> (forall t, o = MSweep t -> t <= T) ->
  heard_ok (DeadTimeout (mp_cfg p)) T h (mp_members p !! k) ->
  heard_ok (DeadTimeout (mp_cfg p)) T (hear_step k h o) (mp_members r.1.1 !! k) /\ keeps_config p r.1.1.
Proof.
  intros H Hk HT Hh. destruct o as [now ann|now| |tags| |]; cbn [run_mc] in H.
  - apply bind_Some in H as (p' & H & [= <-]). by eapply handle_lookup.
  - apply bind_Some in H as (p' & H & [= <-]). destruct (sweep_lookup _ _ _ k H) as [E Hc]. split; [|done].
    cbn [fst hear_step]. rewrite E. specialize (HT now eq_refl). unfold heard_ok in *.
    destruct h as [[t [|]]|]; [by rewrite Hh| |by rewrite Hh]. destruct Hh as [Hh|[Hh Hd]].
    + destruct (mp_members p !! k) as [ps|]; [|done]. injection Hh as <-. cbn.
      destruct (Z.ltb_spec (DeadTimeout (mp_cfg p)) (now - ps_lastSeen ps)); [right; split; [done|lia]|by left].
    + right. by rewrite Hh.
  - injection H as <-. cbn [fst]. unfold recv. by destruct (recvFeed _).
  - injection H as <-. by split.
  - injection H as <-. cbn [fst]. unfold Stop_begin. by destruct (negb _).
  - injection H as <-. by split.
Qed.

Lemma run_mcs_heard os p v n r k h T :
  run_mcs os (p, v, n) = Some r -> k <> nm_ID (mp_self p) -> (forall t, MSweep t ∈ os -> t <= T) ->
  heard_ok (DeadTimeout (mp_cfg p)) T h (mp_members p !! k) ->
  heard_ok (DeadTimeout (mp_cfg p)) T (foldl (hear_step k) h os) (mp_members r.1.1 !! k).
Proof.
  revert p v n h. induction os as [|o os IH]; intros p v n h H Hk HT Hh; cbn [run_mcs foldl] in *.
  { by injection H as <-. }
  apply bind_Some in H as ([[p1 v1] n1] & H1 & H).
  destruct (run_mc_heard o p v n _ k h T H1 Hk) as (Hh1 & Hc & Hs); [intros t ->; apply HT; left|done|].
  cbn [fst] in *. rewrite <- Hc. eapply IH; [done|by rewrite Hs|intros t Ht; apply HT; by right|by rewrite Hc].
Qed.

Lemma Members_IDs p k : peers_ok (mp_members p) -> k ∈ nm_ID <$> Members p <-> is_Some (mp_members p !! k).
Proof.
  intros Hok. unfold Members. rewrite <- list_fmap_compose, list_elem_of_fmap. split.
  - intros ([id ps] & -> & Hin). apply elem_of_map_to_list in Hin.
    pose proof (Hok _ _ Hin) as Eid. cbn in *. rewrite Eid. by eexists.
  - intros [ps Hps]. exists (k, ps). split; [symmetry; exact (Hok _ _ Hps)|by apply elem_of_map_to_list].
Qed.

Lemma run_mcs_app os os' st : run_mcs (os ++ os') st = (st' ← run_mcs os st; run_mcs os' st').
Proof.
  revert st. induction os as [|o os IH]; intros st; cbn [app run_mcs]; [done|].
  destruct (run_mc o st) as [st'|]; cbn [mbind option_bind]; [apply IH|done].
Qed.

Lemma heard_swept dead now h o :
  heard_ok dead now h o ->
  is_Some (swept dead now o) <-> exists t, h = Some (t, false) /\ now - t <= dead.
Proof.
  unfold heard_ok, swept. intros Hh. destruct h as [[t [|]]|]; [|destruct Hh as [Hh|[Hh Hd]]|]; try rewrite Hh.
  - split; [by intros []|by intros (? & ? & _)].
  - destruct o as [ps|]; [|done]. injection Hh as <-. cbn.
    destruct (Z.ltb_spec dead (now - ps_lastSeen ps)); split; [by intros []| |by eauto|by eauto].
    intros (t & [= <-] & ?). lia.
  - split; [by intros []|intros (t' & [= <-] & ?); lia].
  - split; [by intros []|by intros (? & ? & _)].
Qed.

(** C37: after a sweep, whatever was announced before it and in whatever order
    packets arrived, a node is a member exactly if it is another node, the last
    packet heard from it was not a leave, and it came at most [DeadTimeout]
    before the sweep. *)
Theorem multicast_detects_silence c self os now k :
  (forall t, MSweep t ∈ os -> t <= now) ->
  exists p v n, run_mcs (os ++ [MSweep now]) (fresh c self, ∅, 0%nat) = Some (p, v, n) /\
  (k ∈ nm_ID <$> Members p <->
   k <> nm_ID self /\ exists t, latest k os = Some (t, false) /\ now - t <= DeadTimeout (setDefaults c)).
Proof.
  intros HT. destruct (run_mcs_good os (fresh c self) ∅ 0%nat (fresh_sound c self)) as (p & v & n & E & Hp & _).
  destruct (sweep_loop_good now (map_to_list (mp_members p)).*1 p Hp) as (p' & E' & Hp' & _).
  exists p', v, (n + size (mp_members p))%nat. split.
  { rewrite run_mcs_app, E. cbn [mbind option_bind run_mcs run_mc]. unfold sweep. by rewrite E'. }
  rewrite (Members_IDs p' k) by apply Hp'. destruct (sweep_lookup now p p' k E') as [-> _].
  destruct (run_mcs_self os _ _ _ _ E) as [[Hc _] Hself]. cbn [fst] in Hc, Hself. rewrite Hc.
  change (mp_cfg (fresh c self)) with (setDefaults c).
  destruct (decide (k = nm_ID self)) as [->|Hk].
  - pose proof (Hself eq_refl) as Hself'. cbn in Hself'. rewrite Hself'. split; [by intros []|by intros []].
  - pose proof (run_mcs_heard os _ _ _ _ k None now E Hk HT eq_refl) as Hh. fold (latest k os) in Hh.
    cbn [fst] in Hh. change (mp_cfg (fresh c self)) with (setDefaults c) in Hh.
    apply heard_swept in Hh. rewrite Hh. tauto.
Qed.

Definition example_config : Config := mkConfig "" "" 0 0 0.
Definition example_self : NodeMeta := mkNodeMeta "n1" "10.0.0.1:9000" ∅ 0.

(** Two nodes announce themselves, one of them again before the sweep. *)
Definition example_ops : list mc_op :=
  [MHear 1000000000 (mkAnnouncement "n2" "10.0.0.2:9000" ∅ false);
   MHear 1500000000 (mkAnnouncement "n3" "10.0.0.3:9000" ∅ false); MRecv; MSweep 2000000000;
   MHear 2500000000 (mkAnnouncement "n3" "10.0.0.3:9000" ∅ false);
   MHear 2600000000 (mkAnnouncement "n1" "10.0.0.1:9000" ∅ false)].

Lemma multicast_detects_silence_witness :
  exists p v n, run_mcs (example_ops ++ [MSweep 7000000000])
    (fresh example_config example_self, ∅, 0%nat) = Some (p, v, n) /\
  ("n3"%string ∈ nm_ID <$> Members p <->
   "n3"%string <> nm_ID example_self /\
   exists t, latest "n3" example_ops = Some (t, false) /\ 7000000000 - t <= DeadTimeout (setDefaults example_config)).
Proof.
  apply multicast_detects_silence. intros t Ht. unfold example_ops in Ht.
  repeat (apply elem_of_cons in Ht as [Ht|Ht]; [try discriminate; injection Ht as ->; lia|]).
  by apply not_elem_of_nil in Ht.
Defined.

Example n2_is_dropped_n3_is_not :
  (fun st => nm_ID <$> Members st.1.1) <$>
  run_mcs (example_ops ++ [MSweep 7000000000]) (fresh example_config example_self, ∅, 0%nat) = Some ["n3"%string].
Proof. vm_compute. reflexivity. Qed.

(** A provider started again after [Stop] makes a new stop channel but keeps
    its closed event channel: the first node it hears of makes it panic. *)
Lemma restart_panics c self t id addr tags :
  id <> nm_ID self ->
  let stopped := Stop_end (Stop_begin (fresh c self)).1 in
  (Start self None stopped).2 = None /\
  handleAnnouncement t (mkAnnouncement id addr tags false) (Start self None stopped).1 = None.
Proof.
  intros Hid. split; [done|]. unfold handleAnnouncement. cbn [an_NodeID an_Leaving].
  rewrite bool_decide_false by done.
  change (mp_members _) with (∅ : gmap string peerState). by rewrite lookup_empty.
Qed.
End multicast.
