(* ===== verification/Gossip.v ===== *)
(** * Gossip ([cluster/gossip.go], [cluster/metadata_gossip.go],
      [cluster/codec.go])

    A gossip protocol produces a delta every round and sends it to a few members
    chosen at random; a node that receives one hands it to the protocol it names.
    Metadata gossip spreads a node's own metadata this way.  The state the
    callbacks work on is a type that holds the node's cluster. *)

From S2P Require Import Prelude GoSort Nodes Topology Ring Feed Cluster ByteStream.

(** ** What nodes encode for each other *)

Record GossipEnvelope := mkGossipEnvelope { ge_Protocol : string; ge_Payload : string }.

(** A publication in transit: [pubsubBroadcastMsg], [pubsubGossipPayload] and
    [pubsubRoutedMsg] have the same fields. *)
Record pubsubMsg := mkPubsubMsg { pm_Topic : string; pm_Payload : string; pm_PublisherNode : NodeID }.

Inductive wireValue :=
  | WGossipEnvelope (e : GossipEnvelope)
  | WPubsubBroadcastMsg (m : pubsubMsg)
  | WPubsubGossipPayloads (ms : list pubsubMsg)
  | WPubsubRoutedMsg (m : pubsubMsg).

(** [Codec] on these values. *)
Record WireCodec := mkWireCodec {
  wc_Encode : wireValue -> string + string;
  wc_Decode : string -> wireValue + string
}.

(** What an encoder and its decoder promise about a value. *)
Definition round_trips (wc : WireCodec) (v : wireValue) : Prop :=
  exists bytes, wc_Encode wc v = inl bytes /\ wc_Decode wc bytes = inl v.

(** [GobCodec]: a value travels as an interface, so [gob] refuses a type that
    was not registered.  [gob] and [ungob] stand for the bytes. *)
Definition typeName (v : wireValue) : string :=
  match v with
  | WGossipEnvelope _ => "cluster.GossipEnvelope"
  | WPubsubBroadcastMsg _ => "cluster.pubsubBroadcastMsg"
  | WPubsubGossipPayloads _ => "[]cluster.pubsubGossipPayload"
  | WPubsubRoutedMsg _ => "cluster.pubsubRoutedMsg"
  end.

Definition GobCodec (registered : gset string) (gob : wireValue -> string) (ungob : string -> option wireValue) :
    WireCodec :=
  mkWireCodec
    (fun v => if bool_decide (typeName v ∈ registered) then inl (gob v)
              else inr ("gob encode: gob: type not registered for interface: " +:+ typeName v)%string)
    (fun bytes => match ungob bytes with Some v => inl v | None => inr "EOF"%string end).

(** What the package's [init] functions register of these types. *)
Definition init_registered : gset string :=
  {["cluster.GossipEnvelope"; "cluster.metadataGossipMsg"; "cluster.pubsubBroadcastMsg";
    "cluster.pubsubGossipPayload"; "cluster.pubsubRoutedMsg"]}.

Lemma gob_round_trips gob ungob v :
  typeName v ∈ init_registered -> ungob (gob v) = Some v -> round_trips (GobCodec init_registered gob ungob) v.
Proof. intros Hv Hu. exists (gob v). cbn. by rewrite bool_decide_true, Hu. Qed.

(** A codec that carries every value: values of a countable type as binary
    numbers ([pos_bytes]). *)
#[export] Instance GossipEnvelope_eq_dec : EqDecision GossipEnvelope.
Proof. solve_decision. Defined.
#[export] Instance pubsubMsg_eq_dec : EqDecision pubsubMsg.
Proof. solve_decision. Defined.
#[export] Instance wireValue_eq_dec : EqDecision wireValue.
Proof. solve_decision. Defined.

#[export] Instance pubsubMsg_countable : Countable pubsubMsg.
Proof.
  refine (inj_countable' (fun m => (pm_Topic m, pm_Payload m, pm_PublisherNode m))
    (fun '(t, p, n) => mkPubsubMsg t p n) _). by intros [].
Defined.

#[export] Instance wireValue_countable : Countable wireValue.
Proof.
  refine (inj_countable' (fun v => match v with
      | WGossipEnvelope e => inl (inl (ge_Protocol e, ge_Payload e))
      | WPubsubBroadcastMsg m => inl (inr m)
      | WPubsubGossipPayloads ms => inr (inl ms)
      | WPubsubRoutedMsg m => inr (inr m)
      end)
    (fun x => match x with
      | inl (inl (p, d)) => WGossipEnvelope (mkGossipEnvelope p d)
      | inl (inr m) => WPubsubBroadcastMsg m
      | inr (inl ms) => WPubsubGossipPayloads ms
      | inr (inr m) => WPubsubRoutedMsg m
      end) _).
  by intros [[]| | |].
Defined.

Definition binary_wire : WireCodec :=
  mkWireCodec (fun v => inl (pos_bytes (encode v)))
    (fun s => match decode (bytes_pos s) with Some v => inl v | None => inr "EOF"%string end).

Lemma binary_round_trips v : round_trips binary_wire v.
Proof. exists (pos_bytes (encode v)). cbn. by rewrite bytes_pos_bytes, decode_encode. Qed.

(** ** Choosing peers *)

(** Swapping two elements of a slice. *)
Definition swap {A} (i j : nat) (l : list A) : list A :=
  match l !! i, l !! j with
  | Some x, Some y => <[i := y]> (<[j := x]> l)
  | _, _ => l
  end.

(** The shuffle, down from index [i]; [rand i] is [rand.Intn(i+1)]. *)
Fixpoint shuffle {A} (rand : nat -> nat) (i : nat) (l : list A) : list A :=
  match i with
  | O => l
  | S i' => shuffle rand i' (swap i (rand i) l)
  end.

(** [None] is the panic of a negative slice bound. *)
Definition selectRandomPeers (rand : nat -> nat) (members : list NodeMeta) (n : Z) : option (list NodeMeta) :=
  if Z.of_nat (length members) <=? n then Some members
  else if n <? 0 then None
  else Some (take (Z.to_nat n) (shuffle rand (length members - 1) members)).

(** ** The protocol *)

(** The part of a node's state that the protocol itself uses. *)
Class HasCluster (S : Type) := { cluster_of : S -> Cluster; with_cluster : Cluster -> S -> S }.

#[export] Instance Cluster_HasCluster : HasCluster Cluster := { cluster_of c := c; with_cluster c _ := c }.

Record GossipConfig (S : Type) := mkGossipConfig {
  gc_Protocol : string;
  gc_Interval : Z;
  gc_Fanout : Z;
  gc_OnProduce : option (S -> S * option string);
  gc_OnReceive : option (NodeID -> string -> S -> S)
}.
Arguments mkGossipConfig {S} _ _ _ _ _.
Arguments gc_Protocol {S} _.
Arguments gc_Interval {S} _.
Arguments gc_Fanout {S} _.
Arguments gc_OnProduce {S} _.
Arguments gc_OnReceive {S} _.

(** [GossipProtocol] keeps its configuration with the defaults filled in. *)
Definition NewGossipProtocol {S} (cfg : GossipConfig S) : GossipConfig S :=
  mkGossipConfig (gc_Protocol cfg) (if gc_Interval cfg =? 0 then 1000000000 else gc_Interval cfg)
    (if gc_Fanout cfg =? 0 then 3 else gc_Fanout cfg) (gc_OnProduce cfg) (gc_OnReceive cfg).

Section protocol.
Context {S : Type} `{HasCluster S}.
Variables (wc : WireCodec) (now : Z).
Variables (dialed : string -> Connection + string) (sendErr : Connection -> option string).

(** The sending loop: what became of each envelope. *)
Fixpoint send_all (mk : NodeMeta -> Envelope) (peers : list NodeMeta) (c : Cluster) :
    Cluster * list (NodeID * sendOutcome) :=
  match peers with
  | [] => (c, [])
  | peer :: peers =>
      let '(c, o) := SendRemote now dialed sendErr (nm_ID peer) (mk peer) c in
      let '(c, os) := send_all mk peers c in (c, (nm_ID peer, o) :: os)
  end.

Definition gossip_envelope (c : Cluster) (encoded : string) (peer : NodeMeta) : Envelope :=
  mkEnvelope (LocalNodeID c) "" (nm_ID peer) "" "" 0 "__gossip" "" 0 encoded false "" None now.

(** [doRound]; [None] is the panic of [selectRandomPeers]. *)
Definition doRound (rand : nat -> nat) (g : GossipConfig S) (s : S) : option (S * list (NodeID * sendOutcome)) :=
  match gc_OnProduce g with
  | None => Some (s, [])
  | Some producer =>
      match producer s with
      | (s, None) => Some (s, [])
      | (s, Some delta) =>
          peers ← selectRandomPeers rand (Members (cluster_of s)) (gc_Fanout g);
          match peers with
          | [] => Some (s, [])
          | _ =>
              match wc_Encode wc (WGossipEnvelope (mkGossipEnvelope (gc_Protocol g) delta)) with
              | inr _ => Some (s, [])
              | inl encoded =>
                  let c := cluster_of s in
                  let '(c', sent) := send_all (gossip_envelope c encoded) peers c in
                  Some (with_cluster c' s, sent)
              end
          end
      end
  end.

Definition HandleInbound (g : GossipConfig S) (from : NodeID) (env : GossipEnvelope) (s : S) : S :=
  if negb (bool_decide (ge_Protocol env = gc_Protocol g)) then s
  else match gc_OnReceive g with Some handler => handler from (ge_Payload env) s | None => s end.

(** [GossipRouter]: its protocols by name. *)
Definition GossipRouter : Type := gmap string (GossipConfig S).

Definition Add (g : GossipConfig S) (gr : GossipRouter) : GossipRouter := <[gc_Protocol g := g]> gr.

(** The decoding that the router and a single handler share. *)
Definition decode_gossip (env : Envelope) : option GossipEnvelope :=
  match wc_Decode wc (en_Payload env) with
  | inl (WGossipEnvelope ge) => Some ge
  | _ => None
  end.

(** [handle] of the router. *)
Definition router_handle (gr : GossipRouter) (from : NodeID) (env : Envelope) (s : S) : S :=
  match decode_gossip env with
  | None => s
  | Some ge =>
      match gr !! ge_Protocol ge with
      | Some g => HandleInbound g from ge s
      | None => s
      end
  end.

(** The handler that [RegisterGossipHandler] registers. *)
Definition single_handle (g : GossipConfig S) (from : NodeID) (env : Envelope) (s : S) : S :=
  match decode_gossip env with Some ge => HandleInbound g from ge s | None => s end.
End protocol.

(** ** Metadata gossip *)

Definition metadataGossipProtocol : string := "node_metadata".

Section metadata.
Variables (gobMeta : NodeMeta -> string) (ungobMeta : string -> option NodeMeta).

Definition produce (c : Cluster) : Cluster * option string := (c, Some (gobMeta (Self c))).

Definition receive (from : NodeID) (data : string) (c : Cluster) : Cluster :=
  match ungobMeta data with Some m => (UpdatePeerMeta m c).1.1 | None => c end.

(** The event that goes to the membership callback. *)
Definition receive_event (data : string) (c : Cluster) : option MemberEvent :=
  m ← ungobMeta data; (UpdatePeerMeta m c).2.

Definition NewMetadataGossip (cfg : GossipConfig Cluster) : GossipConfig Cluster :=
  NewGossipProtocol
    (mkGossipConfig metadataGossipProtocol (gc_Interval cfg) (gc_Fanout cfg) (Some produce) (Some receive)).
End metadata.

(** ** The shuffle *)

Section shuffle.
Context {A : Type}.
Implicit Types l : list A.

Definition transpose (i j k : nat) : nat := if decide (k = i) then j else if decide (k = j) then i else k.

#[local] Instance transpose_inj i j : Inj (=) (=) (transpose i j).
Proof.
  intros k k'. unfold transpose.
  repeat match goal with |- context [decide ?P] => destruct (decide P) end; lia.
Qed.

Lemma swap_length i j l : length (swap i j l) = length l.
Proof. unfold swap. destruct (l !! i), (l !! j); rewrite ?length_insert; done. Qed.

Lemma swap_lookup i j l k :
  (i < length l)%nat -> (j < length l)%nat -> swap i j l !! k = l !! transpose i j k.
Proof.
  intros Hi Hj. unfold swap, transpose. apply lookup_lt_is_Some in Hi as [x Hx], Hj as [y Hy].
  rewrite Hx, Hy. pose proof (lookup_lt_Some _ _ _ Hx). pose proof (lookup_lt_Some _ _ _ Hy).
  destruct (decide (k = i)) as [->|Hi].
  { rewrite Hy. apply list_lookup_insert_eq. by rewrite length_insert. }
  rewrite list_lookup_insert_ne by done. destruct (decide (k = j)) as [->|Hj].
  { rewrite Hx. by apply list_lookup_insert_eq. }
  by apply list_lookup_insert_ne.
Qed.

Lemma swap_perm i j l : swap i j l ≡ₚ l.
Proof.
  destruct (decide (i < length l)%nat) as [Hi|Hi]; destruct (decide (j < length l)%nat) as [Hj|Hj].
  - apply Permutation_inj. split; [apply swap_length|]. exists (transpose i j).
    split; [apply _|]. intros k. by apply swap_lookup.
  - unfold swap. rewrite (lookup_ge_None_2 l j) by lia. by destruct (l !! i).
  - unfold swap. by rewrite (lookup_ge_None_2 l i) by lia.
  - unfold swap. by rewrite (lookup_ge_None_2 l i) by lia.
Qed.

(** However the random numbers fall, the shuffle is a permutation. *)
Lemma shuffle_perm rand i l : shuffle rand i l ≡ₚ l.
Proof. revert l. induction i as [|i IH]; intros l; cbn; [done|]. by rewrite IH, swap_perm. Qed.

Lemma shuffle_length rand i l : length (shuffle rand i l) = length l.
Proof. apply Permutation_length, shuffle_perm. Qed.

Lemma swap_above i j l k : (i < length l)%nat -> (j <= i)%nat -> (i < k)%nat -> swap i j l !! k = l !! k.
Proof.
  intros Hi Hj Hk. rewrite swap_lookup by lia. unfold transpose. by rewrite !decide_False by lia.
Qed.

Lemma swap_at i j l : (i < length l)%nat -> (j <= i)%nat -> swap i j l !! i = l !! j.
Proof. intros Hi Hj. rewrite swap_lookup by lia. unfold transpose. by rewrite decide_True. Qed.

Definition intn (rand : nat -> nat) : Prop := forall i, (rand i <= i)%nat.

Lemma shuffle_above rand i l k :
  intn rand -> (i < length l)%nat -> (i < k)%nat -> shuffle rand i l !! k = l !! k.
Proof.
  intros Hr. revert l. induction i as [|i IH]; intros l Hi Hk; cbn; [done|].
  rewrite IH by (rewrite ?swap_length; lia). apply swap_above; [lia|apply Hr|lia].
Qed.

(** The element at the top index is the one that was chosen. *)
Lemma shuffle_at rand i l : intn rand -> (S i < length l)%nat -> shuffle rand (S i) l !! S i = l !! rand (S i).
Proof.
  intros Hr Hi. cbn. rewrite shuffle_above by (rewrite ?swap_length; auto with lia).
  apply swap_at; [lia|apply Hr].
Qed.

(** Different random numbers give different orders. *)
Lemma shuffle_inj rand rand' i l :
  intn rand -> intn rand' -> NoDup l -> (i < length l)%nat ->
  shuffle rand i l = shuffle rand' i l -> forall k, (1 <= k <= i)%nat -> rand k = rand' k.
Proof.
  intros Hr Hr'. revert l. induction i as [|i IH]; intros l Hn Hi He k Hk; [lia|].
  assert (rand (S i) = rand' (S i)) as E.
  { pose proof (shuffle_at rand i l Hr Hi) as H1. pose proof (shuffle_at rand' i l Hr' Hi) as H2.
    rewrite He, H2 in H1. pose proof (Hr (S i)). pose proof (Hr' (S i)).
    destruct (lookup_lt_is_Some_2 l (rand (S i))) as [x Hx]; [lia|]. rewrite Hx in H1.
    by eapply NoDup_lookup. }
  destruct (decide (k = S i)) as [->|]; [done|].
  cbn in He. rewrite E in He. apply (IH (swap (S i) (rand' (S i)) l)); [|by rewrite swap_length; lia|done|lia].
  by rewrite swap_perm.
Qed.

(** Every order is some shuffle's. *)
Lemma shuffle_surj l l' i :
  l' ≡ₚ l -> NoDup l -> (i < length l)%nat -> (forall k, (i < k)%nat -> l' !! k = l !! k) ->
  exists rand, intn rand /\ shuffle rand i l = l'.
Proof.
  revert l. induction i as [|i IH]; intros l Hp Hn Hi Ha.
  - exists (fun _ => O). split; [intros k; lia|]. cbn. apply list_eq. intros k.
    destruct k as [|k]; [|symmetry; apply Ha; lia].
    destruct l as [|x l]; [cbn in Hi; lia|]. destruct l' as [|y l']; [by apply Permutation_nil_cons in Hp|].
    cbn. assert (l' = l) as ->. { apply list_eq. intros k. apply (Ha (S k)). lia. }
    assert (y ∈ x :: l) as Hy by (rewrite <- Hp; left). apply elem_of_cons in Hy as [->|Hy]; [done|].
    exfalso. assert (NoDup (y :: l)) as Hn' by by rewrite Hp. by apply NoDup_cons in Hn' as [? _].
  - pose proof (Permutation_length Hp) as Hlen.
    destruct (lookup_lt_is_Some_2 l' (S i)) as [y Hy]; [lia|].
    assert (y ∈ l) as Hin by (rewrite <- Hp; by eapply list_elem_of_lookup_2).
    apply list_elem_of_lookup in Hin as [j Hj].
    assert (j <= S i)%nat as Hji.
    { destruct (decide (j <= S i)%nat) as [|Hgt]; [done|]. exfalso.
      assert (NoDup l') as Hn' by by rewrite Hp. rewrite <- Ha in Hj by lia.
      pose proof (NoDup_lookup _ _ _ _ Hn' Hy Hj). lia. }
    destruct (IH (swap (S i) j l)) as (rand & Hr & E).
    + by rewrite swap_perm.
    + by rewrite swap_perm.
    + rewrite swap_length. lia.
    + intros k Hk. destruct (decide (k = S i)) as [->|Hne]; [by rewrite swap_at, Hj by lia|].
      rewrite swap_above by lia. apply Ha. lia.
    + exists (fun k => if decide (k = S i) then j else rand k). split.
      { intros k. destruct (decide (k = S i)) as [->|]; [done|apply Hr]. }
      cbn [shuffle]. rewrite decide_True by done. rewrite <- E.
      assert (forall n (m : list A), (n <= i)%nat -> shuffle (fun k => if decide (k = S i) then j else rand k) n m = shuffle rand n m) as Hs.
      { induction n as [|n IHn]; intros m Hnm; cbn [shuffle]; [done|].
        rewrite IHn, decide_False by lia. done. }
      by apply Hs.
Qed.
End shuffle.

(** Every order of the members comes from exactly one sequence of the random
    numbers that the shuffle draws, so uniform numbers choose uniformly among
    orders, and the [n] peers taken are a uniform choice. *)
Theorem shuffle_is_uniform (members members' : list NodeMeta) :
  NoDup members -> members' ≡ₚ members ->
  exists rand, intn rand /\ shuffle rand (length members - 1) members = members' /\
  forall rand', intn rand' -> shuffle rand' (length members - 1) members = members' ->
    forall k, (1 <= k < length members)%nat -> rand' k = rand k.
Proof.
  intros Hn Hp. destruct (decide (length members = 0%nat)) as [E|Hl].
  { exists (fun _ => O). split; [intros k; lia|]. apply length_zero_iff_nil in E as ->.
    apply Permutation_nil_r in Hp as ->. split; [done|]. cbn. lia. }
  destruct (shuffle_surj members members' (length members - 1)) as (rand & Hr & E); [done|done|lia| |].
  { intros k Hk. rewrite !lookup_ge_None_2; [done|lia|]. rewrite (Permutation_length Hp). lia. }
  exists rand. split_and!; [done|done|]. intros rand' Hr' E' k Hk.
  apply (shuffle_inj rand' rand (length members - 1) members); [done..|lia|congruence|lia].
Qed.

Section witness_shuffle.
Definition peer_a : NodeMeta := mkNodeMeta "a" "10.0.0.1:1" ∅ 0.
Definition peer_b : NodeMeta := mkNodeMeta "b" "10.0.0.2:1" ∅ 0.
Definition peer_c : NodeMeta := mkNodeMeta "c" "10.0.0.3:1" ∅ 0.

Lemma shuffle_is_uniform_witness :
  exists rand, intn rand /\ shuffle rand (3 - 1) [peer_a; peer_b; peer_c] = [peer_c; peer_a; peer_b] /\
  forall rand', intn rand' -> shuffle rand' (3 - 1) [peer_a; peer_b; peer_c] = [peer_c; peer_a; peer_b] ->
    forall k, (1 <= k < 3)%nat -> rand' k = rand k.
Proof.
  apply (shuffle_is_uniform [peer_a; peer_b; peer_c] [peer_c; peer_a; peer_b]).
  - apply (bool_decide_unpack _). vm_compute. exact I.
  - apply (bool_decide_unpack _). vm_compute. exact I.
Defined.
End witness_shuffle.

(** ** Rounds *)

Section rounds.
Context {S : Type} `{HasCluster S}.
Variables (wc : WireCodec) (now : Z).
Variables (dialed : string -> Connection + string) (sendErr : Connection -> option string).

(** The peers of a round: members, as many as the fanout if there are as many. *)
Lemma selectRandomPeers_spec rand members n peers :
  selectRandomPeers rand members n = Some peers ->
  peers ⊆ members /\ (NoDup members -> NoDup peers) /\
  length peers = Nat.min (Z.to_nat n) (length members).
Proof.
  unfold selectRandomPeers. destruct (Z.leb_spec (Z.of_nat (length members)) n).
  - intros [= <-]. split_and!; [done|done|lia].
  - destruct (Z.ltb_spec n 0); [done|]. intros [= <-]. split_and!.
    + intros x Hx. rewrite <- (shuffle_perm rand (length members - 1) members).
      by eapply subseteq_take.
    + intros Hn. assert (NoDup (shuffle rand (length members - 1) members)) as Hs by by rewrite shuffle_perm.
      by eapply sublist_NoDup, sublist_take.
    + by rewrite length_take, shuffle_length.
Qed.

(** Only a negative fanout panics. *)
Lemma selectRandomPeers_total rand members n : 0 <= n -> is_Some (selectRandomPeers rand members n).
Proof.
  intros Hn. unfold selectRandomPeers. destruct (_ <=? n); [by eexists|].
  destruct (Z.ltb_spec n 0); [lia|by eexists].
Qed.

(** What goes out is what was given, stamped. *)
Lemma SendRemote_env target env c c' conn env' :
  SendRemote now dialed sendErr target env c = (c', Sent conn env') ->
  env' = if en_SentAtUnixNano env =? 0 then sent_at now env else env.
Proof.
  unfold SendRemote, send_on. intros H0. set (e := if _ =? 0 then _ else _) in *.
  destruct (cl_conns c !! target); [destruct (sendErr _); by simplify_eq|].
  destruct (Route _ _ _ _) as [hop|]; [|done]. destruct (bool_decide _).
  - destruct (ensureConnection _ _ _) as [c1 [conn1|]]; [|done]. destruct (sendErr _); by simplify_eq.
  - destruct (cl_conns c !! hop); [destruct (sendErr _); by simplify_eq|].
    destruct (ensureConnection _ _ _) as [c1 [conn1|]]; [|done]. destruct (sendErr _); by simplify_eq.
Qed.

Lemma SendRemote_payload target env c c' conn env' :
  SendRemote now dialed sendErr target env c = (c', Sent conn env') ->
  en_Payload env' = en_Payload env /\ en_TypeName env' = en_TypeName env /\
  en_TargetNode env' = en_TargetNode env /\ en_SenderNode env' = en_SenderNode env.
Proof. intros H0. apply SendRemote_env in H0 as ->. by destruct (_ =? 0). Qed.

Lemma send_all_ids mk peers c : (send_all now dialed sendErr mk peers c).2.*1 = nm_ID <$> peers.
Proof.
  revert c. induction peers as [|p peers IH]; intros c; cbn; [done|].
  destruct (SendRemote _ _ _ _ _ c) as [c1 o]. specialize (IH c1).
  destruct (send_all _ _ _ _ peers c1) as [c2 os]. cbn in *. by rewrite IH.
Qed.

Lemma send_all_sent mk peers c id conn env :
  (id, Sent conn env) ∈ (send_all now dialed sendErr mk peers c).2 ->
  exists p, p ∈ peers /\ nm_ID p = id /\ en_Payload env = en_Payload (mk p) /\ en_TypeName env = en_TypeName (mk p) /\
    en_TargetNode env = en_TargetNode (mk p) /\ en_SenderNode env = en_SenderNode (mk p).
Proof.
  revert c. induction peers as [|p peers IH]; intros c; cbn.
  { intros H0. by apply not_elem_of_nil in H0. }
  destruct (SendRemote _ _ _ _ _ c) as [c1 o] eqn:E. specialize (IH c1).
  destruct (send_all _ _ _ _ peers c1) as [c2 os]. cbn in *. intros Hin.
  apply elem_of_cons in Hin as [Hin|Hin].
  - injection Hin as -> <-. apply SendRemote_payload in E. exists p. split; [left|done].
  - destruct (IH Hin) as (q & Hq & ?). exists q. split; [by right|done].
Qed.

(** A round that sends to a member sends it the protocol's delta. *)
Lemma doRound_sent rand g s s' sent id conn env :
  round_trips wc (WGossipEnvelope (mkGossipEnvelope (gc_Protocol g) (default "" (f ← gc_OnProduce g; (f s).2)))) ->
  doRound wc now dialed sendErr rand g s = Some (s', sent) -> (id, Sent conn env) ∈ sent ->
  exists f delta, gc_OnProduce g = Some f /\ (f s).2 = Some delta /\
    id ∈ nm_ID <$> Members (cluster_of (f s).1) /\ en_TypeName env = "__gossip"%string /\ en_TargetNode env = id /\
    decode_gossip wc env = Some (mkGossipEnvelope (gc_Protocol g) delta).
Proof.
  unfold doRound. destruct (gc_OnProduce g) as [f|]; cbn [mbind option_bind];
    [|intros _ [= _ <-] Hin; by apply not_elem_of_nil in Hin].
  destruct (f s) as [s1 [delta|]] eqn:Ef; cbn [fst snd default];
    [|intros _ [= _ <-] Hin; by apply not_elem_of_nil in Hin].
  intros (bytes & E1 & E2) Hd Hin. apply bind_Some in Hd as (peers & Hp & Hd).
  destruct (selectRandomPeers_spec _ _ _ _ Hp) as (Hsub & _).
  destruct peers as [|p0 peers']; [injection Hd as _ <-; by apply not_elem_of_nil in Hin|].
  cbn in E1. rewrite E1 in Hd. destruct (send_all _ _ _ _ _ _) as [c' os] eqn:Es. injection Hd as _ <-.
  pose proof (send_all_sent (gossip_envelope now (cluster_of s1) bytes) (p0 :: peers') (cluster_of s1) id conn env) as Hs.
  rewrite Es in Hs. destruct (Hs Hin) as (p & Hp1 & <- & Hpay & Hty & Htg & _).
  exists f, delta. rewrite Ef. split_and!; [done|done| |done|done|].
  - apply list_elem_of_fmap. exists p. split; [done|by apply Hsub].
  - unfold decode_gossip. rewrite Hpay. cbn. by rewrite E2.
Qed.
End rounds.

(** ** Metadata spreads *)

Lemma UpdatePeerMeta_lookup m c :
  let c' := (UpdatePeerMeta m c).1.1 in
  (forall k, k <> nm_ID m -> cl_peers c' !! k = cl_peers c !! k) /\
  cl_peers c' !! nm_ID m = (old ← cl_peers c !! nm_ID m; Some (if tagsEqual (nm_Tags old) (nm_Tags m) then old else m)).
Proof.
  unfold UpdatePeerMeta. destruct (cl_peers c !! nm_ID m) as [old|] eqn:E; cbn; [|by split].
  destruct (tagsEqual _ _); cbn; [by split|]. split; [intros k Hk; by apply lookup_insert_ne|].
  apply lookup_insert_eq.
Qed.

Section spread.
Variables (wc : WireCodec) (now : Z).
Variables (dialed : string -> Connection + string) (sendErr : Connection -> option string).
Variables (gobMeta : NodeMeta -> string) (ungobMeta : string -> option NodeMeta).
Abbreviation metadata := (NewMetadataGossip gobMeta ungobMeta).

(** Whoever a round of metadata gossip reaches, and by whatever path, then
    has the sender's tags in its record of the sender, if it had a record and no
    tag of that record had an empty value; its other records stay. *)
Theorem metadata_gossip_spreads rand cfg cs cs' sent id conn env gr cfg' from cr :
  ungobMeta (gobMeta (Self cs)) = Some (Self cs) ->
  round_trips wc (WGossipEnvelope (mkGossipEnvelope metadataGossipProtocol (gobMeta (Self cs)))) ->
  doRound wc now dialed sendErr rand (metadata cfg) cs = Some (cs', sent) -> (id, Sent conn env) ∈ sent ->
  gr !! metadataGossipProtocol = Some (metadata cfg') ->
  let cr' := router_handle wc gr from env cr in
  id ∈ nm_ID <$> Members cs /\
  (forall k, k <> LocalNodeID cs -> cl_peers cr' !! k = cl_peers cr !! k) /\
  match cl_peers cr !! LocalNodeID cs with
  | None => cl_peers cr' !! LocalNodeID cs = None
  | Some old => (forall k, nm_Tags old !! k <> Some ""%string) ->
      exists m, cl_peers cr' !! LocalNodeID cs = Some m /\ nm_Tags m = nm_Tags (Self cs)
  end.
Proof.
  intros gob_meta wc_gossip Hd Hin Hgr. cbv zeta.
  destruct (doRound_sent wc now dialed sendErr rand (metadata cfg) cs cs' sent id conn env) as
    (f & delta & Ef & Ed & Hid & _ & _ & Hdec); [exact wc_gossip|done|done|].
  injection Ef as <-. cbn in Ed, Hid. injection Ed as <-.
  assert (router_handle wc gr from env cr = (UpdatePeerMeta (Self cs) cr).1.1) as ->.
  { unfold router_handle. rewrite Hdec. cbn [ge_Protocol]. change (gc_Protocol (metadata cfg)) with metadataGossipProtocol.
    rewrite Hgr. unfold HandleInbound. cbn [ge_Protocol ge_Payload gc_Protocol gc_OnReceive NewMetadataGossip NewGossipProtocol].
    rewrite bool_decide_true by done. cbn [negb]. unfold receive. by rewrite gob_meta. }
  split; [done|]. destruct (UpdatePeerMeta_lookup (Self cs) cr) as [Hne Heq].
  change (nm_ID (Self cs)) with (LocalNodeID cs) in *. split; [exact Hne|].
  destruct (cl_peers cr !! LocalNodeID cs) as [old|] eqn:E; [|done].
  intros Hempty. eexists. split; [exact Heq|]. destruct (tagsEqual _ _) eqn:Et; [by apply tagsEqual_eq|done].
Qed.

(** Nothing orders deltas: one that arrives late takes a record back to the tags
    it carries. *)
Lemma late_metadata_wins m1 m2 from c old :
  ungobMeta (gobMeta m1) = Some m1 -> ungobMeta (gobMeta m2) = Some m2 -> nm_ID m1 = nm_ID m2 ->
  cl_peers c !! nm_ID m1 = Some old -> tagsEqual (nm_Tags m2) (nm_Tags m1) = false ->
  tagsEqual (nm_Tags old) (nm_Tags m2) = false ->
  cl_peers (receive ungobMeta from (gobMeta m1) (receive ungobMeta from (gobMeta m2) c)) !! nm_ID m1 = Some m1.
Proof.
  intros E1 E2 Eid Hold Ht Ht'. unfold receive. rewrite E1, E2.
  destruct (UpdatePeerMeta_lookup m2 c) as [_ H2]. rewrite <- Eid, Hold in H2. cbn in H2. rewrite Ht' in H2.
  destruct (UpdatePeerMeta_lookup m1 (UpdatePeerMeta m2 c).1.1) as [_ H1]. rewrite H2 in H1. cbn in H1.
  by rewrite Ht in H1.
Qed.
End spread.

Section witness_metadata.
Definition tagged (zone : string) : NodeMeta := mkNodeMeta "a" "10.0.0.1:1" {["zone" := zone]} 0.

Definition full_mesh_cluster (self : NodeMeta) (peers : list NodeMeta) : Cluster :=
  mkCluster self (TopologyFullMesh FullMesh) 0 (list_to_map ((fun m => (nm_ID m, (1, nm_ID m))) <$> peers))
    (list_to_map ((fun m => (nm_ID m, m)) <$> peers)) ∅ [] ∅ true.

(** A codec that knows one envelope. *)
Definition example_wire : WireCodec :=
  mkWireCodec (fun _ => inl "G"%string)
    (fun _ => inl (WGossipEnvelope (mkGossipEnvelope metadataGossipProtocol "M"))).

Definition example_gossip : GossipConfig Cluster :=
  NewMetadataGossip (fun _ => "M"%string) (fun _ => Some (tagged "west")) (mkGossipConfig "" 0 0 None None).

Lemma metadata_gossip_spreads_witness :
  let cs := full_mesh_cluster (tagged "west") [peer_b; peer_c] in
  let cr := full_mesh_cluster peer_b [tagged "east"; peer_c] in
  exists cs' sent conn env,
    doRound example_wire 7 (fun _ => inr "no"%string) (fun _ => None) (fun _ => 0%nat) example_gossip cs = Some (cs', sent) /\
    ("b"%string, Sent conn env) ∈ sent /\
    let cr' := router_handle example_wire (Add example_gossip ∅) "a" env cr in
    exists m, cl_peers cr' !! LocalNodeID cs = Some m /\ nm_Tags m = nm_Tags (Self cs).
Proof.
  cbv zeta.
  destruct (doRound example_wire 7 (fun _ => inr "no"%string) (fun _ => None) (fun _ => 0%nat) example_gossip
    (full_mesh_cluster (tagged "west") [peer_b; peer_c])) as [[cs' sent]|] eqn:E; [|vm_compute in E; discriminate].
  assert (exists conn env, ("b"%string, Sent conn env) ∈ sent) as (conn & env & Hin).
  { vm_compute in E. injection E as _ <-. eexists _, _. right. left. }
  exists cs', sent, conn, env. split; [reflexivity|]. split; [exact Hin|].
  pose proof (metadata_gossip_spreads example_wire 7 (fun _ => inr "no"%string) (fun _ => None) (fun _ => "M"%string)
    (fun _ => Some (tagged "west")) (fun _ => 0%nat) (mkGossipConfig "" 0 0 None None)
    (full_mesh_cluster (tagged "west") [peer_b; peer_c]) cs' sent "b" conn env
    (Add example_gossip ∅) (mkGossipConfig "" 0 0 None None) "a" (full_mesh_cluster peer_b [tagged "east"; peer_c])
    eq_refl (ex_intro _ "G"%string (conj eq_refl eq_refl)) E Hin eq_refl) as (_ & _ & H).
  assert (cl_peers (full_mesh_cluster peer_b [tagged "east"; peer_c])
    !! LocalNodeID (full_mesh_cluster (tagged "west") [peer_b; peer_c]) = Some (tagged "east")) as E0 by reflexivity.
  rewrite E0 in H. apply H. intros k Hk. cbn in Hk. apply lookup_singleton_Some in Hk as [_ Hk]. discriminate.
Defined.
End witness_metadata.
