(* ===== verification/Spread.v ===== *)
(** * Publications across nodes ([cluster/pubsub_adapter.go],
      [cluster/pubsub_adapter_direct.go], [cluster/pubsub_adapter_gossip.go])

    Subscriptions stay on their node; an adapter takes publications to the other
    nodes, whose handler publishes them locally.  The direct adapter sends each
    publication to every member; the gossip adapter collects them for the next
    round of a gossip protocol.  A handler's calls are data: topic, payload and
    publishing node. *)

From S2P Require Import Prelude Types Resolver Routing State Emit Send.
From S2P Require Import Program Prim System Invariants Scheduler Safety Asks.
From S2P Require Import GoSort Nodes Topology Ring Feed Cluster Remote Relay Gossip.

(** A call of the [RemotePublishHandler]. *)
Definition remotePublish : Type := string * payload * NodeID.

Definition pubsubEnvelopeType : string := "__pubsub_broadcast".
Definition pubsubGossipProtocol : string := "pubsub_broadcast".
Definition maxPendingPubSub : Z := 4096.

Section adapters.
Variables (codec : Codec) (wc : WireCodec).

(** ** The direct adapter *)

Section direct.
Variables (now : Z) (dialed : string -> Connection + string) (sendErr : Connection -> option string).

Definition pubsub_envelope (c : Cluster) (encoded : string) (m : NodeMeta) : Envelope :=
  mkEnvelope (LocalNodeID c) "" (nm_ID m) "" "" 0 pubsubEnvelopeType "" 0 encoded false "" None now.

(** [Broadcast] of the direct adapter: what became of each envelope, or the
    encoder's error. *)
Definition Direct_Broadcast (topic : string) (p : payload) (publisherNode : NodeID) (c : Cluster) :
    Cluster * (list (NodeID * sendOutcome) + string) :=
  match cd_Encode codec p with
  | inr e => (c, inr e)
  | inl payloadBytes =>
      match wc_Encode wc (WPubsubBroadcastMsg (mkPubsubMsg topic payloadBytes publisherNode)) with
      | inr e => (c, inr e)
      | inl encoded =>
          let '(c', sent) := send_all now dialed sendErr (pubsub_envelope c encoded) (Members c) c in
          (c', inl sent)
      end
  end.
End direct.

(** [HandleInbound] of the direct adapter; [handler] says that one is set. *)
Definition Direct_HandleInbound (handler : bool) (env : Envelope) : option remotePublish :=
  if negb handler then None
  else
    match wc_Decode wc (en_Payload env) with
    | inl (WPubsubBroadcastMsg msg) =>
        match cd_Decode codec (pm_Payload msg) with
        | inl p => Some (pm_Topic msg, p, pm_PublisherNode msg)
        | inr _ => None
        end
    | _ => None
    end.

(** ** The gossip adapter *)

Record GossipPubSubAdapter := mkGossipPubSubAdapter {
  ga_handler : bool;
  ga_pending : list pubsubMsg
}.

Definition Gossip_Broadcast (topic : string) (p : payload) (publisherNode : NodeID) (a : GossipPubSubAdapter) :
    GossipPubSubAdapter * option string :=
  match cd_Encode codec p with
  | inr e => (a, Some e)
  | inl encoded =>
      if maxPendingPubSub <=? Z.of_nat (length (ga_pending a))
      then (a, Some "pubsub gossip buffer full (4096)"%string)
      else (mkGossipPubSubAdapter (ga_handler a) (ga_pending a ++ [mkPubsubMsg topic encoded publisherNode]), None)
  end.

Definition Gossip_produce (a : GossipPubSubAdapter) : GossipPubSubAdapter * option string :=
  match ga_pending a with
  | [] => (a, None)
  | batch =>
      (mkGossipPubSubAdapter (ga_handler a) [],
       match wc_Encode wc (WPubsubGossipPayloads batch) with inl encoded => Some encoded | inr _ => None end)
  end.

(** [receive]: the handler's calls, in order. *)
Definition Gossip_receive (data : string) (a : GossipPubSubAdapter) : list remotePublish :=
  if negb (ga_handler a) then []
  else
    match wc_Decode wc data with
    | inl (WPubsubGossipPayloads batch) =>
        omap (fun msg =>
          match cd_Decode codec (pm_Payload msg) with
          | inl p => Some (pm_Topic msg, p, pm_PublisherNode msg)
          | inr _ => None
          end) batch
    | _ => []
    end.

(** A node with this adapter: its cluster, the adapter and the handler's calls. *)
Record pubsubNode := mkPubsubNode {
  pn_cluster : Cluster;
  pn_adapter : GossipPubSubAdapter;
  pn_calls : list remotePublish
}.

#[export] Instance pubsubNode_HasCluster : HasCluster pubsubNode := {
  cluster_of := pn_cluster;
  with_cluster c n := mkPubsubNode c (pn_adapter n) (pn_calls n)
}.

Definition NewGossipPubSubAdapter (cfg : GossipConfig pubsubNode) : GossipConfig pubsubNode :=
  NewGossipProtocol (mkGossipConfig pubsubGossipProtocol (gc_Interval cfg) (gc_Fanout cfg)
    (Some (fun n => let '(a, delta) := Gossip_produce (pn_adapter n) in (mkPubsubNode (pn_cluster n) a (pn_calls n), delta)))
    (Some (fun _ data n => mkPubsubNode (pn_cluster n) (pn_adapter n) (pn_calls n ++ Gossip_receive data (pn_adapter n))))).

(** ** A direct broadcast reaches every node *)

Lemma send_all_settled {H} now dialed t (S : gset NodeID) a (na : node H) mk peers :
  topo_ok t -> ""%string ∉ S -> settled t S a na ->
  (forall p, p ∈ peers -> nm_ID p ∈ S /\ nm_ID p <> a) -> (forall p, en_SentAtUnixNano (mk p) <> 0) ->
  exists sent, send_all now dialed (fun _ => None) mk peers (nd_cluster na) = (nd_cluster na, sent) /\
  sent.*1 = nm_ID <$> peers /\
  forall p, p ∈ peers -> exists conn, (nm_ID p, Sent conn (mk p)) ∈ sent /\ RemoteNodeID conn ∈ S /\
    (topo_dist t S (RemoteNodeID conn) (nm_ID p) < topo_dist t S a (nm_ID p))%nat.
Proof.
  intros Hok He Hset Hp Hat. induction peers as [|p peers IH]; cbn.
  { exists []. split_and!; [done|done|]. intros p H0. by apply not_elem_of_nil in H0. }
  destruct (Hp p) as [HS Hne]; [left|].
  destruct (settled_send now dialed t S Hok He (nm_ID p) HS a na (mk p) Hset ltac:(done) (Hat p)) as (conn & -> & Hc).
  destruct IH as (sent & -> & E & Hs); [intros q Hq; apply Hp; by right|].
  exists ((nm_ID p, Sent conn (mk p)) :: sent). cbn. rewrite E. split_and!; [done|done|].
  intros q Hq. apply elem_of_cons in Hq as [->|Hq].
  - exists conn. split; [left|done].
  - destruct (Hs q Hq) as (conn' & ? & ?). exists conn'. split; [by right|done].
Qed.

(** The members a settled node knows are the other nodes. *)
Lemma settled_members {H} t (S : gset NodeID) a (na : node H) b :
  settled t S a na -> b ∈ S -> b <> a -> exists m, m ∈ Members (nd_cluster na) /\ nm_ID m = b.
Proof.
  intros (E1 & _ & _ & _ & E5 & _) Hb Hne. rewrite <- E5 in Hb.
  apply elem_of_known in Hb as [?|Hb]; [done|]. apply elem_of_node_ids in Hb as (m & Hm & <-).
  apply elem_of_cons in Hm as [->|Hm]; [by destruct Hne|by exists m].
Qed.

Lemma settled_member_in {H} t (S : gset NodeID) a (na : node H) m :
  settled t S a na -> m ∈ Members (nd_cluster na) -> nm_ID m ∈ S.
Proof.
  intros (_ & _ & _ & _ & E5 & _) Hm. rewrite <- E5. apply elem_of_known. right.
  apply elem_of_node_ids. exists m. split; [by right|done].
Qed.

(** C39: a direct broadcast reaches every node.  In a cluster whose nodes know the
    same members and hold the connections their topology asks for, one envelope
    per member goes out, and each arrives, however many hops away, at the handler
    of its node, which is called with the topic, the payload and the publishing
    node of the broadcast. *)
Theorem direct_broadcast_reaches_every_node {H} (now : Z) (rf fuel : nat) (dialed : string -> Connection + string)
    (t : TopologyImpl) (S : gset NodeID) (w : gmap NodeID (node H)) (a : NodeID) (na : node H) (h : H)
    (topic : string) (p : payload) (bytes : string) (publisher : NodeID) :
  topo_ok t -> ""%string ∉ S -> settled_network t S w -> now <> 0 -> a ∈ S -> w !! a = Some na ->
  (forall m, m ∈ Members (nd_cluster na) -> nm_ID m <> a) ->
  cd_Encode codec p = inl bytes -> cd_Decode codec bytes = inl p ->
  round_trips wc (WPubsubBroadcastMsg (mkPubsubMsg topic bytes publisher)) ->
  exists sent, Direct_Broadcast now dialed (fun _ => None) topic p publisher (nd_cluster na) =
    (nd_cluster na, inl sent) /\
  sent.*1 = nm_ID <$> Members (nd_cluster na) /\
  forall b nb, b ∈ S -> b <> a -> w !! b = Some nb -> (topo_dist t S a b <= fuel)%nat ->
  id_handlers (nd_dispatcher nb) !! pubsubEnvelopeType = Some h ->
  exists conn env from, (b, Sent conn env) ∈ sent /\
    deliver codec now rf dialed fuel a (RemoteNodeID conn) env w = Some (w, b, Handled h from) /\
    Direct_HandleInbound true env = Some (topic, p, publisher).
Proof.
  intros Hok He Hw Hnow Ha Hna Hmem Henc Hdec (enc & Ew1 & Ew2).
  destruct (Hw a Ha) as (na' & Hna' & Hset). assert (na' = na) as -> by congruence.
  destruct (send_all_settled now dialed t S a na (pubsub_envelope now (nd_cluster na) enc)
    (Members (nd_cluster na)) Hok He Hset) as (sent & Es & Eids & Hs); [|done|].
  { intros m Hm. split; [by eapply settled_member_in|by apply Hmem]. }
  exists sent. unfold Direct_Broadcast. rewrite Henc, Ew1, Es. split_and!; [done|done|].
  intros b nb Hb Hne Hnb Hfuel Hh. destruct (settled_members t S a na b Hset Hb Hne) as (m & Hm & <-).
  destruct (Hs m Hm) as (conn & Hin & HcS & Hlt).
  destruct (deliver_settled codec now rf dialed t S Hok He (nm_ID m) Hb fuel a (RemoteNodeID conn)
    (pubsub_envelope now (nd_cluster na) enc m) w nb Hw HcS Hnb) as (from & Ed); [done|done|lia|].
  exists conn, (pubsub_envelope now (nd_cluster na) enc m), from. split; [done|]. split.
  - rewrite Ed. unfold arrival, dispatch_here. cbn [en_TypeName pubsub_envelope]. rewrite Hh. cbn.
    f_equal. f_equal. f_equal. apply insert_id. rewrite Hnb. by destruct nb.
  - unfold Direct_HandleInbound. cbn. rewrite Ew2. cbn. by rewrite Hdec.
Qed.

(** ** The gossip adapter keeps publications in order *)

(** Broadcasts and rounds, with the publications accepted so far and the batches
    handed to the gossip protocol. *)
Inductive gossip_op := GBroadcast (topic : string) (p : payload) (publisher : NodeID) | GProduce.

Record gossipRun := mkGossipRun {
  gr_adapter : GossipPubSubAdapter;
  gr_accepted : list pubsubMsg;
  gr_deltas : list string
}.

Definition run_gossip (r : gossipRun) (o : gossip_op) : gossipRun :=
  match o with
  | GBroadcast topic p publisher =>
      match Gossip_Broadcast topic p publisher (gr_adapter r), cd_Encode codec p with
      | (a, None), inl bytes => mkGossipRun a (gr_accepted r ++ [mkPubsubMsg topic bytes publisher]) (gr_deltas r)
      | (a, _), _ => mkGossipRun a (gr_accepted r) (gr_deltas r)
      end
  | GProduce =>
      let '(a, delta) := Gossip_produce (gr_adapter r) in
      mkGossipRun a (gr_accepted r) (match delta with Some d => gr_deltas r ++ [d] | None => gr_deltas r end)
  end.

Definition run_gossips (os : list gossip_op) : gossipRun :=
  foldl run_gossip (mkGossipRun (mkGossipPubSubAdapter true []) [] []) os.

(** The call a publication makes at its receiver. *)
Definition call_of (msg : pubsubMsg) : option remotePublish :=
  match cd_Decode codec (pm_Payload msg) with
  | inl p => Some (pm_Topic msg, p, pm_PublisherNode msg)
  | inr _ => None
  end.

(** What a receiver of the deltas calls. *)
Definition received (deltas : list string) : list remotePublish :=
  deltas ≫= fun d => Gossip_receive d (mkGossipPubSubAdapter true []).

Lemma received_app ds ds' : received (ds ++ ds') = received ds ++ received ds'.
Proof. apply bind_app. Qed.

(** With a codec that carries batches, the gossip adapter loses no accepted
    publication and keeps their order: what the receivers of all batches call,
    with what is still pending, is what was accepted; and never more than 4096
    publications are pending. *)
Theorem gossip_adapter_keeps_publications os :
  (forall batch, round_trips wc (WPubsubGossipPayloads batch)) ->
  let r := run_gossips os in
  received (gr_deltas r) ++ omap call_of (ga_pending (gr_adapter r)) = omap call_of (gr_accepted r) /\
  Z.of_nat (length (ga_pending (gr_adapter r))) <= maxPendingPubSub.
Proof.
  intros Hwc. cbv zeta. unfold run_gossips. induction os as [|o os IH] using rev_ind; [done|].
  rewrite foldl_app. cbn [foldl]. destruct IH as [IH Hlen]. set (r := foldl _ _ os) in *. clearbody r.
  destruct o as [topic p publisher|]; unfold run_gossip.
  - unfold Gossip_Broadcast. destruct (cd_Encode codec p) as [bytes|e]; [|done].
    destruct (Z.leb_spec maxPendingPubSub (Z.of_nat (length (ga_pending (gr_adapter r))))); [done|]. cbn [ga_pending gr_adapter gr_deltas gr_accepted].
    rewrite !omap_app, app_assoc, IH. split; [done|]. rewrite length_app. cbn. lia.
  - unfold Gossip_produce. destruct (ga_pending (gr_adapter r)) as [|m ms] eqn:E.
    + cbn [ga_pending gr_adapter gr_deltas gr_accepted]. rewrite E in *. done.
    + destruct (Hwc (m :: ms)) as (bytes & E1 & E2). cbn in E1. rewrite E1. cbn [ga_pending gr_adapter gr_deltas gr_accepted].
      split; [|done]. rewrite received_app, <- IH, ?E. cbn [omap list_omap]. rewrite app_nil_r. f_equal.
      unfold received. cbn [mbind list_bind]. unfold Gossip_receive. cbn [ga_handler negb]. rewrite E2, app_nil_r. done.
Qed.

End adapters.

(** ** ... but the default codec carries no batch *)

Lemma gob_refuses_batches gob ungob batch :
  exists e, wc_Encode (GobCodec init_registered gob ungob) (WPubsubGossipPayloads batch) = inr e.
Proof. eexists. cbn -[init_registered]. by rewrite bool_decide_false by (apply (bool_decide_unpack _); vm_compute; exact I). Qed.

(** With the default codec, after the registrations of the package, a node's
    gossip adapter never sends a publication to anyone: every round empties the
    pending publications and sends nothing. *)
Theorem gob_drops_every_batch codec gob ungob now dialed sendErr rand (cfg : GossipConfig pubsubNode) (n : pubsubNode) :
  let wc := GobCodec init_registered gob ungob in
  doRound wc now dialed sendErr rand (NewGossipPubSubAdapter codec wc cfg) n =
    Some (mkPubsubNode (pn_cluster n) (mkGossipPubSubAdapter (ga_handler (pn_adapter n)) []) (pn_calls n), []).
Proof.
  cbv zeta. destruct n as [c [h pending] calls]. unfold doRound.
  cbn [gc_OnProduce NewGossipPubSubAdapter NewGossipProtocol pn_adapter pn_cluster pn_calls].
  unfold Gossip_produce. cbn [ga_pending ga_handler].
  destruct pending as [|m ms]; [done|]. destruct (gob_refuses_batches gob ungob (m :: ms)) as [e E].
  rewrite E. done.
Qed.

(** ** Witnesses *)

Definition with_handler (nd : node unit) : node unit :=
  mkNode (nd_cluster nd) (nd_runtime nd) (RegisterHandler pubsubEnvelopeType tt (nd_dispatcher nd)).

(** The ring of [Relay.v], with the adapter's handler at every node. *)
Definition pubsub_network : gmap NodeID (node unit) := with_handler <$> ring_network.

Lemma pubsub_network_settled : settled_network example_ring (list_to_set ring_ids) pubsub_network.
Proof.
  intros a Ha. destruct (ring_network_settled a Ha) as (nd & E & Hs). exists (with_handler nd).
  split; [unfold pubsub_network; by rewrite lookup_fmap, E|exact Hs].
Qed.

Lemma direct_broadcast_reaches_every_node_witness :
  exists na sent conn env from, pubsub_network !! "a"%string = Some na /\
  Direct_Broadcast example_codec binary_wire 9 (fun _ => inr "no"%string) (fun _ => None) "news" (job 4) "a" (nd_cluster na) =
    (nd_cluster na, inl sent) /\
  ("d"%string, Sent conn env) ∈ sent /\
  deliver example_codec 9 0 (fun _ => inr "no"%string) 5 "a" (RemoteNodeID conn) env pubsub_network =
    Some (pubsub_network, "d"%string, Handled tt from) /\
  Direct_HandleInbound example_codec binary_wire true env = Some ("news"%string, job 4, "a"%string).
Proof.
  destruct (pubsub_network !! "a"%string) as [na|] eqn:Ea;
    [|unfold pubsub_network in Ea; rewrite lookup_fmap, ring_network_lookup in Ea; [discriminate|left]].
  destruct (direct_broadcast_reaches_every_node example_codec binary_wire 9 0 5 (fun _ => inr "no"%string) example_ring
    (list_to_set ring_ids) pubsub_network "a" na tt "news" (job 4) (itoa 4) "a") as (sent & E & _ & Hs).
  - vm_compute. discriminate.
  - apply (bool_decide_unpack _). vm_compute. exact I.
  - exact pubsub_network_settled.
  - discriminate.
  - apply (bool_decide_unpack _). vm_compute. exact I.
  - exact Ea.
  - unfold pubsub_network in Ea. rewrite lookup_fmap, ring_network_lookup in Ea by left. injection Ea as <-.
    apply Forall_forall. apply (bool_decide_unpack _). vm_compute. exact I.
  - reflexivity.
  - reflexivity.
  - apply binary_round_trips.
  - destruct (Hs "d"%string (with_handler (ring_node "d"))) as (conn & env & from & H1 & H2 & H3).
    + apply (bool_decide_unpack _). vm_compute. exact I.
    + discriminate.
    + unfold pubsub_network. rewrite lookup_fmap, ring_network_lookup; [reflexivity|].
      apply (bool_decide_unpack _). vm_compute. exact I.
    + apply (bool_decide_unpack _). vm_compute. exact I.
    + reflexivity.
    + exists na, sent, conn, env, from. repeat split; assumption.
Defined.

Lemma gossip_adapter_keeps_publications_witness :
  let r := run_gossips example_codec binary_wire
    [GBroadcast "news" (job 4) "a"; GBroadcast "news" (job 5) "a"; GProduce; GBroadcast "news" (job 6) "a"] in
  received example_codec binary_wire (gr_deltas r) ++ omap (call_of example_codec) (ga_pending (gr_adapter r)) =
    omap (call_of example_codec) (gr_accepted r) /\
  Z.of_nat (length (ga_pending (gr_adapter r))) <= maxPendingPubSub.
Proof. apply gossip_adapter_keeps_publications. intros batch. apply binary_round_trips. Defined.
