(* ===== verification/Routes.v ===== *)
(** * Routed publications ([cluster/pubsub_adapter_crdt.go])

    The routing adapter replicates who subscribes to what in a CRDT map of sets
    with two views, and sends a publication only to the nodes in the set of its
    topic.  The map is an interface: its local operations and their laws; what
    arrives from other replicas is another value of the map.  The specification
    is the set of subscriptions and the matcher of the local broker; the sets are
    keyed by the subscribed pattern, so a pattern with wildcards is missed. *)

From S2P Require Import Prelude Types Resolver Routing PubSub State Emit Send.
From S2P Require Import Program Prim System Invariants Scheduler Safety Asks.
From S2P Require Import GoSort Nodes Topology Ring Feed Cluster Remote Relay Gossip Spread.

(** The operations of [crdt.DeltaMap] with sets as values. *)
Class DeltaMap (R : Type) := {
  dm_AddSetMember : string -> string -> R -> R;
  dm_RemoveSetMember : string -> string -> R -> R;
  dm_RemoveKey : string -> R -> R;
  dm_HasKey : string -> R -> bool;
  dm_SetElements : string -> R -> list string
}.

(** They behave like those of a map of sets. *)
Class DeltaMapLaws (R : Type) `{DeltaMap R} := {
  dm_add k v r k' v' :
    v' ∈ dm_SetElements k' (dm_AddSetMember k v r) <-> (k' = k /\ v' = v) \/ v' ∈ dm_SetElements k' r;
  dm_remove k v r k' v' :
    v' ∈ dm_SetElements k' (dm_RemoveSetMember k v r) <-> ~ (k' = k /\ v' = v) /\ v' ∈ dm_SetElements k' r;
  dm_remove_key k r k' v' :
    v' ∈ dm_SetElements k' (dm_RemoveKey k r) <-> k' <> k /\ v' ∈ dm_SetElements k' r;
  dm_has k r v : v ∈ dm_SetElements k r -> dm_HasKey k r = true;
  dm_nodup k r : NoDup (dm_SetElements k r)
}.

(** A map of finite sets is one. *)
#[export] Instance gmap_DeltaMap : DeltaMap (gmap string (gset string)) := {
  dm_AddSetMember k v r := <[k := {[v]} ∪ lookup_default ∅ k r]> r;
  dm_RemoveSetMember k v r := <[k := lookup_default ∅ k r ∖ {[v]}]> r;
  dm_RemoveKey k r := delete k r;
  dm_HasKey k r := bool_decide (is_Some (r !! k));
  dm_SetElements k r := elements (lookup_default ∅ k r)
}.

Lemma default_insert (k k' : string) (x : gset string) (r : gmap string (gset string)) :
  lookup_default ∅ k' (<[k := x]> r) = if decide (k' = k) then x else lookup_default ∅ k' r.
Proof.
  unfold lookup_default. destruct (decide (k' = k)) as [->|]; [by rewrite lookup_insert_eq|by rewrite lookup_insert_ne].
Qed.

#[export, refine] Instance gmap_DeltaMap_laws : DeltaMapLaws (gmap string (gset string)) := {}.
Proof.
  - intros k v r k' v'. cbn. rewrite default_insert, !elem_of_elements.
    destruct (decide (k' = k)) as [->|]; set_solver.
  - intros k v r k' v'. cbn. rewrite default_insert, !elem_of_elements.
    destruct (decide (k' = k)) as [->|]; set_solver.
  - intros k r k' v'. cbn. rewrite !elem_of_elements. unfold lookup_default.
    destruct (decide (k' = k)) as [->|]; [rewrite lookup_delete_eq|rewrite lookup_delete_ne by done]; set_solver.
  - intros k r v. cbn. rewrite elem_of_elements. unfold lookup_default.
    destruct (r !! k); cbn; [done|set_solver].
  - intros k r. apply NoDup_elements.
Defined.

Definition pubsubRoutedType : string := "__pubsub_routed".
Definition routeNodePrefix : string := "node:".
Definition routeTopicPrefix : string := "topic:".

Definition nodeKey (node : string) : string := routeNodePrefix +:+ node.
Definition topicKey (topic : string) : string := routeTopicPrefix +:+ topic.

Lemma app_inj_l (p s s' : string) : p +:+ s = p +:+ s' -> s = s'.
Proof. induction p as [|c p IH]; cbn; [done|]. intros H. injection H. exact IH. Qed.

Lemma nodeKey_inj n n' : nodeKey n = nodeKey n' <-> n = n'.
Proof. split; [apply app_inj_l|by intros ->]. Qed.

Lemma topicKey_inj n n' : topicKey n = topicKey n' <-> n = n'.
Proof. split; [apply app_inj_l|by intros ->]. Qed.

Lemma nodeKey_topicKey n t : nodeKey n <> topicKey t.
Proof. done. Qed.

Section routes.
Context {R : Type} `{DeltaMap R}.
Implicit Types r : R.

Definition NotifySubscribe (localID topic : string) r : R :=
  dm_AddSetMember (topicKey topic) localID (dm_AddSetMember (nodeKey localID) topic r).

Definition NotifyUnsubscribe (localID topic : string) r : R :=
  dm_RemoveSetMember (topicKey topic) localID (dm_RemoveSetMember (nodeKey localID) topic r).

(** The nodes a publication goes to. *)
Definition route_targets (localID topic : string) r : list NodeID :=
  if dm_HasKey (topicKey topic) r
  then filter (fun nodeID => nodeID <> localID) (dm_SetElements (topicKey topic) r)
  else [].

Section broadcast.
Variables (codec : Codec) (wc : WireCodec).
Variables (now : Z) (dialed : string -> Connection + string) (sendErr : Connection -> option string).

Definition routed_envelope (localID encoded : string) (target : NodeID) : Envelope :=
  mkEnvelope localID "" target "" "" 0 pubsubRoutedType "" 0 encoded false "" None now.

Fixpoint send_routed (localID encoded : string) (nodes : list NodeID) (c : Cluster) :
    Cluster * list (NodeID * sendOutcome) :=
  match nodes with
  | [] => (c, [])
  | nodeID :: nodes =>
      let '(c, o) := SendRemote now dialed sendErr nodeID (routed_envelope localID encoded nodeID) c in
      let '(c, os) := send_routed localID encoded nodes c in (c, (nodeID, o) :: os)
  end.

Definition Routed_Broadcast (localID topic : string) (p : payload) (publisherNode : NodeID) r (c : Cluster) :
    Cluster * (list (NodeID * sendOutcome) + string) :=
  match cd_Encode codec p with
  | inr e => (c, inr e)
  | inl payloadBytes =>
      match wc_Encode wc (WPubsubRoutedMsg (mkPubsubMsg topic payloadBytes publisherNode)) with
      | inr e => (c, inr e)
      | inl encoded =>
          let '(c, sent) := send_routed localID encoded (route_targets localID topic r) c in (c, inl sent)
      end
  end.

Definition Routed_handleInbound (handler : bool) (env : Envelope) : option remotePublish :=
  if negb handler then None
  else
    match wc_Decode wc (en_Payload env) with
    | inl (WPubsubRoutedMsg msg) =>
        match cd_Decode codec (pm_Payload msg) with
        | inl p => Some (pm_Topic msg, p, pm_PublisherNode msg)
        | inr _ => None
        end
    | _ => None
    end.
End broadcast.

(** [OnMembershipChange]: the departed node leaves the sets of its topics, then
    its own set goes. *)
Definition remove_from_topics (nodeID : string) (topics : list string) r : R :=
  foldl (fun r topic => dm_RemoveSetMember (topicKey topic) nodeID r) r topics.

Definition OnMembershipChange (ev : MemberEvent) r : R :=
  match me_Type ev with
  | MemberFailed | MemberLeave =>
      let nodeID := nm_ID (me_Member ev) in
      if dm_HasKey (nodeKey nodeID) r
      then dm_RemoveKey (nodeKey nodeID) (remove_from_topics nodeID (dm_SetElements (nodeKey nodeID) r) r)
      else r
  | _ => r
  end.

(** ** The specification: a set of subscriptions *)

Inductive route_op :=
  | RSubscribe (node topic : string)
  | RUnsubscribe (node topic : string)
  | RMember (ev : MemberEvent).

Definition run_route (r : R) (o : route_op) : R :=
  match o with
  | RSubscribe node topic => NotifySubscribe node topic r
  | RUnsubscribe node topic => NotifyUnsubscribe node topic r
  | RMember ev => OnMembershipChange ev r
  end.

Abbreviation subscriptions := (gset (string * string)).

Definition spec_route (s : subscriptions) (o : route_op) : subscriptions :=
  match o with
  | RSubscribe node topic => {[(node, topic)]} ∪ s
  | RUnsubscribe node topic => s ∖ {[(node, topic)]}
  | RMember ev =>
      match me_Type ev with
      | MemberFailed | MemberLeave => filter (fun nt => nt.1 <> nm_ID (me_Member ev)) s
      | _ => s
      end
  end.

Context `{!DeltaMapLaws R}.

(** Both views hold the subscriptions. *)
Definition views (r : R) (s : subscriptions) : Prop :=
  forall node topic,
    (topic ∈ dm_SetElements (nodeKey node) r <-> (node, topic) ∈ s) /\
    (node ∈ dm_SetElements (topicKey topic) r <-> (node, topic) ∈ s).

Lemma elem_remove_from_topics nodeID topics r k v :
  v ∈ dm_SetElements k (remove_from_topics nodeID topics r) <->
  ~ (v = nodeID /\ exists topic, topic ∈ topics /\ k = topicKey topic) /\ v ∈ dm_SetElements k r.
Proof.
  unfold remove_from_topics. revert r. induction topics as [|topic topics IH]; intros r; cbn [foldl].
  { split; [intros Hv; split; [|done]|by intros []]. intros (_ & t & Ht & _). by apply not_elem_of_nil in Ht. }
  rewrite IH, dm_remove. split.
  - intros (H1 & H2 & H3). split; [|done]. intros (-> & t & Ht & ->). apply elem_of_cons in Ht as [->|Ht]; [by apply H2|].
    apply H1. split; [done|by exists t].
  - intros (H1 & H2). split_and!; [|intros [-> ->]|done].
    + intros (-> & t & Ht & ->). apply H1. split; [done|]. exists t. split; [by right|done].
    + apply H1. split; [done|]. exists topic. split; [left|done].
Qed.

Lemma run_route_views r s o : views r s -> views (run_route r o) (spec_route s o).
Proof.
  intros Hv node topic. destruct (Hv node topic) as [Hn Ht]. destruct o as [n t|n t|ev]; cbn.
  - unfold NotifySubscribe. rewrite !dm_add, Hn, Ht, nodeKey_inj, topicKey_inj.
    pose proof (nodeKey_topicKey node t). pose proof (nodeKey_topicKey n topic). set_solver.
  - unfold NotifyUnsubscribe. rewrite !dm_remove, Hn, Ht, nodeKey_inj, topicKey_inj.
    pose proof (nodeKey_topicKey node t). pose proof (nodeKey_topicKey n topic). set_solver.
  - unfold OnMembershipChange. set (d := nm_ID (me_Member ev)).
    assert (views
      (if dm_HasKey (nodeKey d) r
       then dm_RemoveKey (nodeKey d) (remove_from_topics d (dm_SetElements (nodeKey d) r) r) else r)
      (filter (fun nt => nt.1 <> d) s)) as Hd.
    { clear node topic Hn Ht. intros node topic. destruct (Hv node topic) as [Hn Ht].
      rewrite elem_of_filter. cbn [fst]. destruct (dm_HasKey (nodeKey d) r) eqn:Ek.
      - rewrite !dm_remove_key, !elem_remove_from_topics, Hn, Ht. rewrite nodeKey_inj. split.
        + split; [tauto|]. intros [Hne ?]. split_and!; [done| |done]. intros (_ & t & _ & E).
          by apply nodeKey_topicKey in E.
        + split.
          * intros (_ & Hx & Hin). split; [|done]. intros ->. apply Hx. split; [done|]. exists topic.
            split; [by apply (Hv d topic)|done].
          * intros [Hne Hin]. split_and!; [intros E; by symmetry in E; apply nodeKey_topicKey in E| |done].
            by intros [-> _].
      - assert (forall t, (d, t) ∉ s) as Hno.
        { intros t Hin. apply (proj1 (Hv d t)) in Hin. apply dm_has in Hin. congruence. }
        rewrite Hn, Ht. split; (split; [intros Hin; split; [intros ->; by eapply Hno|done]|by intros []]). }
    destruct (me_Type ev); by apply Hv || apply Hd.
Qed.

Lemma run_routes_views os r s : views r s -> views (foldl run_route r os) (foldl spec_route s os).
Proof.
  revert r s. induction os as [|o os IH]; intros r s Hv; cbn; [done|]. by apply IH, run_route_views.
Qed.

Lemma route_targets_views localID topic r s node :
  views r s -> node ∈ route_targets localID topic r <-> node <> localID /\ (node, topic) ∈ s.
Proof.
  intros Hv. destruct (Hv node topic) as [_ Ht]. unfold route_targets. rewrite <- Ht.
  destruct (dm_HasKey _ r) eqn:E; [by rewrite list_elem_of_filter|].
  split; [intros Hn; by apply not_elem_of_nil in Hn|]. intros [_ Hin]. apply dm_has in Hin. congruence.
Qed.

Lemma send_routed_ids now dialed sendErr localID encoded nodes c :
  (send_routed now dialed sendErr localID encoded nodes c).2.*1 = nodes.
Proof.
  revert c. induction nodes as [|n nodes IH]; intros c; cbn; [done|].
  destruct (SendRemote _ _ _ _ _ c) as [c1 o]. specialize (IH c1).
  destruct (send_routed _ _ _ _ _ nodes c1) as [c2 os]. cbn in *. by rewrite IH.
Qed.

(** ** Which nodes want a topic

    A node wants a topic when it has a subscription whose pattern, read as the
    local broker reads patterns, matches the topic; a plain pattern has no
    wildcard segment. *)

Definition wants_by (s : subscriptions) (node topic : string) (p : topicPattern) : Prop :=
  (node, tp_raw p) ∈ s /\ parseTopicPattern (tp_raw p) = inl p /\
  matches (tp_segments p) (splitDots topic) = true.

Definition plain (p : topicPattern) : Prop := "+"%string ∉ tp_segments p /\ "#"%string ∉ tp_segments p.

Lemma matches_plain segs topic :
  "+"%string ∉ segs -> "#"%string ∉ segs -> matches segs topic = true -> segs = topic.
Proof.
  revert topic. induction segs as [|x segs IH]; intros [|y topic] Hp Hh Hm; cbn in Hm; try done.
  - destruct (bool_decide_reflect (x = "#"%string)); [set_solver|done].
  - destruct (bool_decide_reflect (x = "#"%string)); [set_solver|].
    destruct (bool_decide_reflect (x = "+"%string)); [set_solver|]. cbn in Hm.
    apply andb_true_iff in Hm as [->%bool_decide_eq_true Hm]. f_equal. apply IH; set_solver.
Qed.

Lemma matches_itself segs : matches segs segs = true.
Proof.
  induction segs as [|x segs IH]; cbn; [done|]. case_bool_decide; [done|].
  rewrite (bool_decide_eq_true_2 (x = x)), orb_true_r, IH by done. done.
Qed.

(** A topic that may be published is a plain pattern. *)
Lemma publishable_segments raw segs :
  parsePublishSegments raw segs = None ->
  "+"%string ∉ segs /\ "#"%string ∉ segs /\ checkPatternSegments segs = true.
Proof.
  induction segs as [|x segs IH]; cbn; [set_solver|].
  destruct (bool_decide_reflect (x = ""%string)); [done|].
  destruct (bool_decide_reflect (x = "+"%string)); [done|].
  destruct (bool_decide_reflect (x = "#"%string)); [done|]. cbn.
  destruct (containsByte x "+"), (containsByte x "#"); cbn; try done. intros H1.
  apply IH in H1 as (?&?&?). split_and!; [set_solver|set_solver|done].
Qed.

Lemma publishable_pattern topic segs :
  parsePublishTopic topic = inl segs ->
  segs = splitDots topic /\ plain (mkTopicPattern topic segs) /\
  parseTopicPattern topic = inl (mkTopicPattern topic segs).
Proof.
  unfold parsePublishTopic, parseTopicPattern. destruct (trimmedEmpty topic); [done|].
  destruct (parsePublishSegments _ _) eqn:E; [done|]. intros [= <-].
  apply publishable_segments in E as (?&?&->). done.
Qed.

(** A plain pattern wants the one topic it spells. *)
Lemma wants_plain s node topic p : wants_by s node topic p -> plain p -> (node, topic) ∈ s.
Proof.
  intros (Hin & Hp & Hm) [H1 H2]. apply matches_plain in Hm; [|done..].
  replace topic with (tp_raw p); [done|].
  rewrite <- (joinDots_splitDots topic), <- Hm. symmetry.
  unfold parseTopicPattern in Hp. destruct (trimmedEmpty _); [done|].
  destruct (checkPatternSegments _); [|done]. injection Hp as Hp. rewrite <- Hp at 1. cbn. apply joinDots_splitDots.
Qed.

Lemma wants_topic s node topic segs :
  parsePublishTopic topic = inl segs -> (node, topic) ∈ s ->
  exists p, plain p /\ wants_by s node topic p.
Proof.
  intros (-> & Hpl & Hp)%publishable_pattern Hin. eexists. split; [exact Hpl|].
  unfold wants_by. cbn. split_and!; [done..|]. apply matches_itself.
Qed.

(** A departed node has no subscription until it subscribes again. *)
Definition departure (node : string) (o : route_op) : Prop :=
  exists ev, o = RMember ev /\ (me_Type ev = MemberFailed \/ me_Type ev = MemberLeave) /\ nm_ID (me_Member ev) = node.

Definition subscribes (node : string) (o : route_op) : Prop := exists topic, o = RSubscribe node topic.

Lemma departed_spec node s os topic :
  (forall topic, (node, topic) ∉ s) -> (forall o, o ∈ os -> ~ subscribes node o) ->
  (node, topic) ∉ foldl spec_route s os.
Proof.
  revert s. induction os as [|o os IH]; intros s Hs Hos; cbn; [apply Hs|].
  apply IH; [|intros o' Ho'; apply Hos; by right]. clear IH topic. intros topic.
  assert (~ subscribes node o) as Ho by (apply Hos; left). specialize (Hs topic).
  destruct o as [n t|n t|ev]; cbn; [|set_solver|].
  - intros [[= -> ->]%elem_of_singleton|]%elem_of_union; [|done]. apply Ho. by exists t.
  - destruct (me_Type ev); rewrite ?elem_of_filter; naive_solver.
Qed.

(** C38: from an empty routing table, after any subscriptions, unsubscriptions
    and departures of nodes, the broadcast of a topic that may be published
    sends one envelope to each of its targets.  A target is another node and
    has a subscription whose pattern matches the topic; every other node with
    a matching subscription without wildcards is a target; a node all of whose
    matching patterns have wildcards is not; and neither is one that departed
    and did not subscribe since.  Both views of the table agree. *)
Theorem routes_follow_subscriptions (r0 : R) (os : list route_op) codec wc now dialed sendErr
    (localID topic : string) (segs : list string) (p : payload) (bytes encoded : string)
    (publisher : NodeID) (c : Cluster) :
  (forall k, dm_SetElements k r0 = []) -> parsePublishTopic topic = inl segs -> cd_Encode codec p = inl bytes ->
  wc_Encode wc (WPubsubRoutedMsg (mkPubsubMsg topic bytes publisher)) = inl encoded ->
  let r := foldl run_route r0 os in
  let s := foldl spec_route ∅ os in
  exists sent, (Routed_Broadcast codec wc now dialed sendErr localID topic p publisher r c).2 = inl sent /\
  NoDup sent.*1 /\
  (forall node, node ∈ sent.*1 -> node <> localID /\ (exists q, wants_by s node topic q)) /\
  (forall node q, node <> localID -> wants_by s node topic q -> plain q -> node ∈ sent.*1) /\
  (forall node, (forall q, wants_by s node topic q -> ~ plain q) -> node ∉ sent.*1) /\
  (forall node os1 o os2, os = os1 ++ o :: os2 -> departure node o ->
     (forall o', o' ∈ os2 -> ~ subscribes node o') -> node ∉ sent.*1) /\
  (forall node t, t ∈ dm_SetElements (nodeKey node) r <-> node ∈ dm_SetElements (topicKey t) r).
Proof.
  intros H0 Hpub Henc Hwc. cbv zeta. assert (views (foldl run_route r0 os) (foldl spec_route ∅ os)) as Hv.
  { apply run_routes_views. intros node t. rewrite !H0. set_solver. }
  unfold Routed_Broadcast. rewrite Henc, Hwc.
  pose proof (send_routed_ids now dialed sendErr localID encoded (route_targets localID topic (foldl run_route r0 os)) c) as E.
  destruct (send_routed _ _ _ _ _ _ c) as [c' sent]. cbn in E. exists sent. rewrite E.
  assert (forall node, node ∈ route_targets localID topic (foldl run_route r0 os) <->
    node <> localID /\ (node, topic) ∈ foldl spec_route ∅ os) as Ht by (intros; by apply route_targets_views).
  split_and!; [done| | | | | |].
  - unfold route_targets. destruct (dm_HasKey _ _); [|apply NoDup_nil_2]. apply NoDup_filter, dm_nodup.
  - intros node [? Hin]%Ht. split; [done|]. eapply wants_topic in Hin as (q & _ & ?); [by exists q|done].
  - intros node q Hne Hq Hpl. apply Ht. split; [done|]. by eapply wants_plain.
  - intros node Hn [_ Hin]%Ht. eapply wants_topic in Hin as (q & ? & ?); [by eapply Hn|done].
  - intros node os1 o os2 -> (ev & -> & Hev & Hid) Hos [_ Hin]%Ht. revert Hin.
    rewrite foldl_app. cbn [foldl]. apply departed_spec; [|done]. intros t. cbn.
    destruct Hev as [-> | ->]; rewrite elem_of_filter; naive_solver.
  - intros node t. destruct (Hv node t) as [-> ->]. done.
Qed.
End routes.

Definition example_route_ops : list route_op :=
  [RSubscribe "b" "news"; RSubscribe "c" "news"; RSubscribe "c" "jobs"; RSubscribe "a" "news";
   RSubscribe "d" "news"; RUnsubscribe "d" "news"; RSubscribe "e" "#";
   RMember (mkMemberEvent MemberFailed (mkNodeMeta "c" "" ∅ 0))].

(** Of the five subscribed nodes, [b] is sent the publication, [c] has failed
    and [e], subscribed to everything, is missed. *)
Lemma routes_follow_subscriptions_witness :
  let s := foldl spec_route ∅ example_route_ops in
  exists sent, (Routed_Broadcast example_codec binary_wire 9 (fun _ => inr "no"%string) (fun _ => None) "a" "news" (job 4) "a"
    (foldl run_route (∅ : gmap string (gset string)) example_route_ops) (full_mesh_cluster peer_a [peer_b; peer_c])).2 = inl sent /\
  "b"%string ∈ sent.*1 /\ "c"%string ∉ sent.*1 /\
  wants_by s "e" "news" (mkTopicPattern "#" ["#"]) /\ "e"%string ∉ sent.*1.
Proof.
  destruct (binary_round_trips (WPubsubRoutedMsg (mkPubsubMsg "news" (itoa 4) "a"))) as (enc & E & _).
  assert (forall k, dm_SetElements k (∅ : gmap string (gset string)) = []) as H0 by (intros k; reflexivity).
  destruct (routes_follow_subscriptions ∅ example_route_ops example_codec binary_wire 9 (fun _ => inr "no"%string) (fun _ => None)
    "a" "news" ["news"%string] (job 4) (itoa 4) enc "a" (full_mesh_cluster peer_a [peer_b; peer_c])
    H0 eq_refl eq_refl E) as (sent & Hs & _ & _ & Hin & Hout & Hgone & _).
  exists sent. split; [exact Hs|]. split_and!.
  - apply (Hin "b"%string (mkTopicPattern "news" ["news"%string])).
    + discriminate.
    + split; [apply (bool_decide_unpack _); vm_compute; exact I|]. split; reflexivity.
    + split; apply (bool_decide_unpack _); exact I.
  - apply (Hgone "c"%string (take 7 example_route_ops)
      (RMember (mkMemberEvent MemberFailed (mkNodeMeta "c" "" ∅ 0))) []).
    + reflexivity.
    + eexists. split; [reflexivity|]. split; [left; reflexivity|reflexivity].
    + intros o' Ho'. destruct (not_elem_of_nil _ Ho').
  - split; [apply (bool_decide_unpack _); vm_compute; exact I|]. split; reflexivity.
  - apply Hout. intros q (Hq & Hp & _) [_ H]. apply H.
    assert (tp_raw q = "#"%string) as E1.
    { assert (Forall (fun x => x.1 = "e"%string -> x.2 = "#"%string) (elements (foldl spec_route ∅ example_route_ops))) as Hall.
      { apply (bool_decide_unpack _). vm_compute. exact I. }
      rewrite Forall_forall in Hall.
      apply (Hall ("e"%string, tp_raw q)); [apply elem_of_elements; exact Hq|reflexivity]. }
    rewrite E1 in Hp. vm_compute in Hp. injection Hp as <-. cbn. left.
Defined.

Example only_b_is_sent_the_news :
  route_targets "a" "news" (foldl run_route (∅ : gmap string (gset string)) example_route_ops) = ["b"%string].
Proof. vm_compute. reflexivity. Qed.

(** A pattern with wildcards is a key of its own, which no publication looks up:
    the subscriber matches the topic, and nothing is sent to its node. *)
Example wildcard_subscribers_are_missed :
  route_targets "a" "news.today" (NotifySubscribe "b" "news.#" (∅ : gmap string (gset string))) = [] /\
  matches ["news"; "#"] ["news"; "today"] = true.
Proof. split; vm_compute; reflexivity. Qed.
