(* ===== verification/Replication.v ===== *)
(** * The CRDT library's transport ([cluster/registry_transport.go])

    The CRDT library replicates its values by messages between replicas; the
    cluster carries them in envelopes.  Replicas are named by a hash of the node
    ID.  The library's messages and their encoding are parameters. *)

From S2P Require Import Prelude Types Fnv Resolver Routing State Emit Send.
From S2P Require Import Program Prim System Invariants Scheduler Safety Asks.
From S2P Require Import GoSort Nodes Topology Ring Feed Cluster Remote Relay DistRegistry.

Definition registryMsgType : string := "__registry".

(** [ClusterCRDTTransport], but for its cluster; [ct_recv] says that a receiver
    is set. *)
Record ClusterCRDTTransport := mkClusterCRDTTransport {
  ct_localID : NodeID;
  ct_replicaID : Z;
  ct_msgType : string;
  ct_recv : bool
}.

Definition NewClusterCRDTTransportWithType (c : Cluster) (msgType : string) : ClusterCRDTTransport :=
  mkClusterCRDTTransport (LocalNodeID c) (nodeIDToReplicaID (LocalNodeID c)) msgType false.

Definition NewClusterCRDTTransport (c : Cluster) : ClusterCRDTTransport :=
  NewClusterCRDTTransportWithType c registryMsgType.

Definition OnReceive (t : ClusterCRDTTransport) : ClusterCRDTTransport :=
  mkClusterCRDTTransport (ct_localID t) (ct_replicaID t) (ct_msgType t) true.

(** The first member with this replica ID, in the order [Members] returned. *)
Fixpoint find_replica (target : Z) (members : list NodeMeta) : NodeID :=
  match members with
  | [] => ""
  | m :: members => if nodeIDToReplicaID (nm_ID m) =? target then nm_ID m else find_replica target members
  end.

Definition replicaIDToNodeID (target : Z) (c : Cluster) : NodeID := find_replica target (Members c).

(** [Peers] of the topology given to the library. *)
Definition Peers (c : Cluster) : list Z := (fun m => nodeIDToReplicaID (nm_ID m)) <$> Members c.

(** ** The construction of the registry *)

Section registry.
Context {D O : Type}.

(** The library's constructor and the options that carry a transport and a
    topology. *)
Variables (NewORMap : Z -> list O -> D) (WithTransport : ClusterCRDTTransport -> O) (WithTopology : Cluster -> O).

Record DistributedRegistry := mkDistributedRegistry { dr_data : D; dr_transport : option ClusterCRDTTransport }.

Record registryOpts := mkRegistryOpts { ro_cluster : option Cluster; ro_crdtOpts : list O }.

Inductive RegistryOption :=
  | WithClusterReplication (c : option Cluster)
  | WithRegistryCRDTOptions (opts : list O).

Definition apply_registry_option (o : registryOpts) (opt : RegistryOption) : registryOpts :=
  match opt with
  | WithClusterReplication c => mkRegistryOpts c (ro_crdtOpts o)
  | WithRegistryCRDTOptions opts => mkRegistryOpts (ro_cluster o) (ro_crdtOpts o ++ opts)
  end.

Definition registry_options (opts : list RegistryOption) : registryOpts :=
  foldl apply_registry_option (mkRegistryOpts None []) opts.

(** The map is made with the transport as it is then; the library sets its
    receiver. *)
Definition NewDistributedRegistry (nodeID : NodeID) (opts : list RegistryOption) : DistributedRegistry :=
  let o := registry_options opts in
  let replicaID := nodeIDToReplicaID nodeID in
  match ro_cluster o with
  | Some c =>
      let t := NewClusterCRDTTransport c in
      mkDistributedRegistry (NewORMap replicaID ([WithTransport t; WithTopology c] ++ ro_crdtOpts o)) (Some t)
  | None => mkDistributedRegistry (NewORMap replicaID (ro_crdtOpts o)) None
  end.

Definition NewDistributedRegistryWithTransport (nodeID : NodeID) (transport topology : O) (opts : list O) : DistributedRegistry :=
  mkDistributedRegistry (NewORMap (nodeIDToReplicaID nodeID) ([transport; topology] ++ opts)) None.

(** [WireInbound], with the handler of a transport; a registry without one of its
    own is not wired. *)
Definition WireInbound {H} (handler : ClusterCRDTTransport -> H) (r : DistributedRegistry) (d : InboundDispatcher H) : InboundDispatcher H :=
  match dr_transport r with
  | Some t => RegisterHandler (ct_msgType t) (handler t) d
  | None => d
  end.

(** The last cluster given counts; the library's options keep their order. *)
Lemma registry_options_app opts opts' :
  registry_options (opts ++ opts') = foldl apply_registry_option (registry_options opts) opts'.
Proof. unfold registry_options. apply foldl_app. Qed.

Lemma registry_options_spec opts :
  ro_crdtOpts (registry_options opts) =
    mjoin ((fun o => match o with WithRegistryCRDTOptions os => os | _ => [] end) <$> opts) /\
  (ro_cluster (registry_options opts) =
    from_option id None (last (omap (fun o => match o with WithClusterReplication c => Some c | _ => None end) opts))).
Proof.
  induction opts as [|o opts [IH1 IH2]] using rev_ind; [done|].
  rewrite registry_options_app, fmap_app, join_app, omap_app. cbn [foldl].
  destruct o as [c|os]; cbn; rewrite ?IH1, ?IH2; cbn; rewrite ?app_nil_r; [|done].
  by rewrite last_snoc.
Qed.

(** A replicated registry receives the messages of its type, and only a
    replicated one does. *)
Lemma WireInbound_spec {H} (handler : ClusterCRDTTransport -> H) nodeID opts d ty :
  id_handlers (WireInbound handler (NewDistributedRegistry nodeID opts) d) !! ty =
  match ro_cluster (registry_options opts) with
  | Some c => if decide (ty = registryMsgType) then Some (handler (NewClusterCRDTTransport c)) else id_handlers d !! ty
  | None => id_handlers d !! ty
  end.
Proof.
  unfold WireInbound, NewDistributedRegistry. destruct (ro_cluster _) as [c|]; cbn; [|done].
  destruct (decide (ty = registryMsgType)) as [->|]; [apply lookup_insert_eq|by apply lookup_insert_ne].
Qed.
End registry.

Section transport.
Context {M : Type}.
Variables (Marshal : M -> string) (UnmarshalTransportMessage : Z -> string -> option M).
Variables (now : Z) (dialed : string -> Connection + string) (sendErr : Connection -> option string).

Definition transport_envelope (t : ClusterCRDTTransport) (target : NodeID) (msg : M) : Envelope :=
  mkEnvelope (ct_localID t) "" target "" "" 0 (ct_msgType t) "" 0 (Marshal msg) false "" None now.

(** [Send]: an unknown replica is no error. *)
Definition Send (peer : Z) (msg : M) (t : ClusterCRDTTransport) (c : Cluster) :
    Cluster * option string * option (Connection * Envelope) :=
  let targetNode := replicaIDToNodeID peer c in
  if bool_decide (targetNode = ""%string) then (c, None, None)
  else
    match SendRemote now dialed sendErr targetNode (transport_envelope t targetNode msg) c with
    | (c, SendError e) => (c, Some e, None)
    | (c, Sent conn env) => (c, None, Some (conn, env))
    end.

(** [handleInbound]: the message that the receiver gets. *)
Definition handleInbound (from : NodeID) (env : Envelope) (t : ClusterCRDTTransport) : option M :=
  if negb (ct_recv t) then None else UnmarshalTransportMessage (nodeIDToReplicaID from) (en_Payload env).
End transport.

(** Where no two members have the same hash, a replica ID finds its node. *)
Lemma find_replica_found members m :
  m ∈ members ->
  (forall m', m' ∈ members -> nodeIDToReplicaID (nm_ID m') = nodeIDToReplicaID (nm_ID m) -> nm_ID m' = nm_ID m) ->
  find_replica (nodeIDToReplicaID (nm_ID m)) members = nm_ID m.
Proof.
  induction members as [|x members IH]; intros Hm Hinj; [by apply not_elem_of_nil in Hm|]. cbn.
  destruct (Z.eqb_spec (nodeIDToReplicaID (nm_ID x)) (nodeIDToReplicaID (nm_ID m))) as [E|Hne].
  { apply Hinj; [left|done]. }
  apply elem_of_cons in Hm as [->|Hm]; [done|]. apply IH; [done|]. intros m' Hm'. apply Hinj. by right.
Qed.

Lemma find_replica_member target members :
  find_replica target members = ""%string \/
  exists m, m ∈ members /\ nm_ID m = find_replica target members /\ nodeIDToReplicaID (nm_ID m) = target.
Proof.
  induction members as [|x members IH]; cbn; [by left|].
  destruct (Z.eqb_spec (nodeIDToReplicaID (nm_ID x)) target) as [E|Hne].
  - right. exists x. split; [left|done].
  - destruct IH as [E|(m & ? & ?)]; [by left|]. right. exists m. split; [by right|done].
Qed.

(** A message for the replica of another node arrives at that node's
    transport with its bytes, however many hops away, in a cluster whose nodes
    know the same members and hold the connections their topology asks for, if
    no two members' hashes collide; the receiver attributes it to the replica of
    the last node on the way. *)
Theorem crdt_messages_arrive {H M} (Marshal : M -> string) (Unmarshal : Z -> string -> option M)
    (codec : Codec) (now : Z) (rf fuel : nat) (dialed : string -> Connection + string)
    (t : TopologyImpl) (S : gset NodeID) (w : gmap NodeID (node H)) (a b : NodeID) (na nb : node H) (h : H)
    (tr tr' : ClusterCRDTTransport) (m : NodeMeta) (msg : M) :
  topo_ok t -> ""%string ∉ S -> settled_network t S w -> now <> 0 -> a ∈ S -> b ∈ S -> b <> a ->
  w !! a = Some na -> w !! b = Some nb -> m ∈ Members (nd_cluster na) -> nm_ID m = b ->
  (forall m', m' ∈ Members (nd_cluster na) -> nodeIDToReplicaID (nm_ID m') = nodeIDToReplicaID b -> nm_ID m' = b) ->
  id_handlers (nd_dispatcher nb) !! ct_msgType tr = Some h -> (topo_dist t S a b <= fuel)%nat ->
  exists conn env from,
    Send Marshal now dialed (fun _ => None) (nodeIDToReplicaID b) msg tr (nd_cluster na) =
      (nd_cluster na, None, Some (conn, env)) /\
    deliver codec now rf dialed fuel a (RemoteNodeID conn) env w = Some (w, b, Handled h from) /\
    handleInbound Unmarshal from env (OnReceive tr') = Unmarshal (nodeIDToReplicaID from) (Marshal msg).
Proof.
  intros Hok He Hw Hnow Ha Hb Hne Hna Hnb Hm <- Hinj Hh Hfuel.
  destruct (Hw a Ha) as (na' & Hna' & Hset). assert (na' = na) as -> by congruence.
  set (env := transport_envelope Marshal now tr (nm_ID m) msg).
  destruct (settled_send now dialed t S Hok He (nm_ID m) Hb a na env Hset ltac:(done) Hnow) as (conn & Es & HcS & Hlt).
  destruct (deliver_settled codec now rf dialed t S Hok He (nm_ID m) Hb fuel a (RemoteNodeID conn) env w nb Hw HcS Hnb)
    as (from & Ed); [done|done|lia|].
  exists conn, env, from. split_and!.
  - unfold Send, replicaIDToNodeID. rewrite (find_replica_found _ m) by done.
    rewrite bool_decide_false by congruence. fold env. by rewrite Es.
  - rewrite Ed. unfold arrival, dispatch_here. cbn [en_TypeName env transport_envelope]. rewrite Hh. cbn.
    f_equal. f_equal. f_equal. apply insert_id. rewrite Hnb. by destruct nb.
  - done.
Qed.

(** ** In a ring *)

Definition with_transport (nd : node unit) : node unit :=
  mkNode (nd_cluster nd) (nd_runtime nd) (RegisterHandler registryMsgType tt (nd_dispatcher nd)).

Definition transport_network : gmap NodeID (node unit) := with_transport <$> ring_network.

Lemma transport_network_settled : settled_network example_ring (list_to_set ring_ids) transport_network.
Proof.
  intros a Ha. destruct (ring_network_settled a Ha) as (nd & E & Hs). exists (with_transport nd).
  split; [unfold transport_network; by rewrite lookup_fmap, E|exact Hs].
Qed.

Lemma transport_network_lookup a :
  a ∈ ring_ids -> transport_network !! a = Some (with_transport (ring_node a)).
Proof. intros Ha. unfold transport_network. by rewrite lookup_fmap, ring_network_lookup. Qed.

Definition example_transport (id : NodeID) : ClusterCRDTTransport := NewClusterCRDTTransport (ring_cluster id).

(** Messages are strings that carry the replica they came from. *)
Definition example_unmarshal (from : Z) (s : string) : option (Z * string) := Some (from, s).

Lemma crdt_messages_arrive_witness :
  exists conn env from,
    Send snd 9 (fun _ => inr "no"%string) (fun _ => None) (nodeIDToReplicaID "e") (0, "delta"%string) (example_transport "a")
      (ring_cluster "a") = (ring_cluster "a", None, Some (conn, env)) /\
    deliver example_codec 9 0 (fun _ => inr "no"%string) 5 "a" (RemoteNodeID conn) env transport_network =
      Some (transport_network, "e"%string, Handled tt from) /\
    handleInbound example_unmarshal from env (OnReceive (example_transport "e")) =
      example_unmarshal (nodeIDToReplicaID from) "delta".
Proof.
  apply (crdt_messages_arrive snd example_unmarshal example_codec 9 0 5 (fun _ => inr "no"%string) example_ring
    (list_to_set ring_ids) transport_network "a" "e" (with_transport (ring_node "a")) (with_transport (ring_node "e")) tt
    (example_transport "a") (example_transport "e") (mkNodeMeta "e" "e:9000" ∅ 0) (0, "delta"%string)).
  - vm_compute. discriminate.
  - apply (bool_decide_unpack _). vm_compute. exact I.
  - exact transport_network_settled.
  - discriminate.
  - apply (bool_decide_unpack _). vm_compute. exact I.
  - apply (bool_decide_unpack _). vm_compute. exact I.
  - discriminate.
  - apply transport_network_lookup, (bool_decide_unpack _). vm_compute. exact I.
  - apply transport_network_lookup, (bool_decide_unpack _). vm_compute. exact I.
  - apply (bool_decide_unpack _). vm_compute. exact I.
  - reflexivity.
  - refine (proj1 (Forall_forall (fun m' => nodeIDToReplicaID (nm_ID m') = nodeIDToReplicaID "e" -> nm_ID m' = "e"%string) _) _).
    apply (bool_decide_unpack _). vm_compute. exact I.
  - reflexivity.
  - apply (bool_decide_unpack _). vm_compute. exact I.
Defined.

(** The replica a relayed message is attributed to is not its sender's. *)
Definition attributed (conn : Connection) (env : Envelope) : option NodeID :=
  match deliver example_codec 9 0 (fun _ => inr "no"%string) 5 "a" (RemoteNodeID conn) env transport_network with
  | Some (_, _, Handled _ from) => Some from
  | _ => None
  end.

Example relayed_message_has_the_relay_as_origin :
  match Send snd 9 (fun _ => inr "no"%string) (fun _ => None) (nodeIDToReplicaID "e") (0, "delta"%string)
    (example_transport "a") (ring_cluster "a") with
  | (_, _, Some (conn, env)) =>
      en_SenderNode env = "a"%string /\ attributed conn env = Some "b"%string
  | _ => False
  end.
Proof. vm_compute. split; reflexivity. Qed.
