(* ===== verification/Certs.v ===== *)
(** * Certificates ([pkg/certmanager/certmanager.go], [cluster/auth_cert.go])

    A cluster has a certificate authority whose key every node gets; a node's
    certificate is signed by it and carries the node's ID as its common name.
    Cryptography is symbolic: a key pair is a number, its public half identifies
    it, a certificate records the key that signed it, and nobody forges.  The
    binary encodings and the parsing of IP addresses are an interface.  Random
    choices and the clock are arguments. *)

From S2P Require Import Prelude Nodes ByteStream Auth.

(** ** Keys and certificates *)

Record PrivateKey := mkPrivateKey { key_secret : Z }.

Definition Public (k : PrivateKey) : Z := key_secret k.

Inductive extKeyUsage := ExtKeyUsageServerAuth | ExtKeyUsageClientAuth.

(** The fields of [x509.Certificate] that are used; [c_Signer] is the public key
    under which the signature verifies. *)
Record Certificate := mkCertificate {
  c_SerialNumber : Z;
  c_CommonName : string;
  c_NotBefore : Z;
  c_NotAfter : Z;
  c_IsCA : bool;
  c_ExtKeyUsage : list extKeyUsage;
  c_IPAddresses : list string;
  c_PublicKey : Z;
  c_Signer : Z
}.

Record CertificateRequest := mkCertificateRequest {
  csr_CommonName : string;
  csr_PublicKey : Z;
  csr_Signer : Z
}.

#[export] Instance PrivateKey_eq_dec : EqDecision PrivateKey.
Proof. solve_decision. Defined.
#[export] Instance extKeyUsage_eq_dec : EqDecision extKeyUsage.
Proof. solve_decision. Defined.
#[export] Instance Certificate_eq_dec : EqDecision Certificate.
Proof. solve_decision. Defined.

(** What [x509.ParsePKCS8PrivateKey] may find. *)
Inductive parsedKey := Ed25519Key (k : PrivateKey) | WrappedEd25519 | OtherKey (type : string).

(** The encodings. *)
Class Encodings := {
  certDER : Certificate -> bytes;
  ParseCertificate : bytes -> Certificate + string;
  csrDER : CertificateRequest -> bytes;
  ParseCertificateRequest : bytes -> CertificateRequest + string;
  MarshalPKCS8PrivateKey : PrivateKey -> bytes;
  ParsePKCS8PrivateKey : bytes -> parsedKey + string;
  ParseIP : string -> option string
}.

Class EncodingLaws `{Encodings} := {
  parse_cert c : ParseCertificate (certDER c) = inl c;
  parse_csr r : ParseCertificateRequest (csrDER r) = inl r;
  parse_key k : ParsePKCS8PrivateKey (MarshalPKCS8PrivateKey k) = inl (Ed25519Key k);
  cert_not_empty c : certDER c <> []
}.

(** ** Addresses: [net.SplitHostPort] and [net.JoinHostPort] *)

(** [strings.LastIndexByte], as the parts before and after the last [c]. *)
Fixpoint cutLast (c : ascii) (s : string) : option (string * string) :=
  match s with
  | EmptyString => None
  | String x s' =>
      match cutLast c s' with
      | Some (a, b) => Some (String x a, b)
      | None => if ascii_dec x c then Some (EmptyString, s') else None
      end
  end.

Fixpoint cutFirst (c : ascii) (s : string) : option (string * string) :=
  match s with
  | EmptyString => None
  | String x s' =>
      if ascii_dec x c then Some (EmptyString, s')
      else match cutFirst c s' with Some (a, b) => Some (String x a, b) | None => None end
  end.

Definition hasByte (c : ascii) (s : string) : bool := bool_decide (is_Some (cutFirst c s)).

(** [None] is an error: the callers only ask whether there is one. *)
Definition SplitHostPort (hostport : string) : option (string * string) :=
  match cutLast ":" hostport with
  | None => None
  | Some (before, port) =>
      match before with
      | String "[" inner =>
          match cutFirst "]" inner with
          | Some (host, EmptyString) =>
              if hasByte "[" (host +:+ port) || hasByte "]" port then None else Some (host, port)
          | _ => None
          end
      | _ =>
          if hasByte ":" before || hasByte "[" hostport || hasByte "]" hostport then None
          else Some (before, port)
      end
  end.

Definition JoinHostPort (host port : string) : string :=
  if hasByte ":" host then "[" +:+ host +:+ "]:" +:+ port else host +:+ ":" +:+ port.

(** ** The authority *)

Record CA := mkCA { ca_Cert : Certificate; ca_CertDER : bytes; ca_Key : PrivateKey }.
Record NodeCert := mkNodeCert { nc_Cert : Certificate; nc_CertDER : bytes; nc_Key : PrivateKey }.

Definition tenYears : Z := 10 * 365 * 24 * 3600 * 1000000000.
Definition oneYear : Z := 365 * 24 * 3600 * 1000000000.

(** ** Files, by directory and name *)

Inductive fileData := PEM (type : string) (bs : bytes) | NotPEM.

Abbreviation fileSystem := (gmap (string * string) fileData).

Definition fileCACert : string := "ca.pem".
Definition fileCAKey : string := "ca-key.pem".
Definition fileNodeCert : string := "node.pem".
Definition fileNodeKey : string := "node-key.pem".

Section certs.
Context `{Encodings}.

(** [x509.CreateCertificate] for a parent whose key is known. *)
Definition CreateCertificate (template : Certificate) (parent : option Certificate) (pub : Z) (priv : PrivateKey) :
    bytes + string :=
  let signed := certDER (mkCertificate (c_SerialNumber template) (c_CommonName template) (c_NotBefore template)
    (c_NotAfter template) (c_IsCA template) (c_ExtKeyUsage template) (c_IPAddresses template) pub (Public priv)) in
  match parent with
  | Some p => if c_PublicKey p =? Public priv then inl signed
              else inr "x509: provided PrivateKey doesn't match parent's PublicKey"%string
  | None => inl signed
  end.

Definition GenerateCA (key : PrivateKey + string) (serial : Z + string) (now : Z) : CA + string :=
  match key with
  | inr e => inr ("certmanager: generate CA key: " +:+ e)%string
  | inl priv =>
      match serial with
      | inr e => inr ("certmanager: generate serial: " +:+ e)%string
      | inl serial =>
          let template := mkCertificate serial "westcoast-cluster-ca" now (now + tenYears) true [] [] 0 0 in
          match CreateCertificate template None (Public priv) priv with
          | inr e => inr ("certmanager: create CA cert: " +:+ e)%string
          | inl der =>
              match ParseCertificate der with
              | inr e => inr ("certmanager: parse CA cert: " +:+ e)%string
              | inl cert => inl (mkCA cert der priv)
              end
          end
      end
  end.

Definition GenerateCSR (nodeID : string) (key : PrivateKey + string) : (bytes * PrivateKey) + string :=
  match key with
  | inr e => inr ("certmanager: generate node key: " +:+ e)%string
  | inl priv => inl (csrDER (mkCertificateRequest nodeID (Public priv) (Public priv)), priv)
  end.

(** The addresses a certificate is valid for. *)
Definition ipSANs (addr : string) : list string :=
  match SplitHostPort addr with
  | Some (host, _) => match ParseIP host with Some ip => [ip] | None => [] end
  | None => []
  end.

Definition nodeTemplate (serial : Z) (subject : string) (now : Z) (addr : string) : Certificate :=
  mkCertificate serial subject now (now + oneYear) false [ExtKeyUsageServerAuth; ExtKeyUsageClientAuth] (ipSANs addr) 0 0.

Definition SignCSR (ca : CA) (der : bytes) (addr : string) (serial : Z + string) (now : Z) : bytes + string :=
  match ParseCertificateRequest der with
  | inr e => inr ("certmanager: parse CSR: " +:+ e)%string
  | inl csr =>
      if negb (csr_Signer csr =? csr_PublicKey csr)
      then inr "certmanager: CSR signature invalid: x509: Ed25519 verification failure"%string
      else
        match serial with
        | inr e => inr ("certmanager: generate serial: " +:+ e)%string
        | inl serial =>
            match CreateCertificate (nodeTemplate serial (csr_CommonName csr) now addr) (Some (ca_Cert ca))
                    (csr_PublicKey csr) (ca_Key ca) with
            | inr e => inr ("certmanager: sign cert: " +:+ e)%string
            | inl der => inl der
            end
        end
  end.

Definition GenerateNodeCert (ca : CA) (nodeID addr : string) (key : PrivateKey + string) (serial : Z + string) (now : Z) :
    NodeCert + string :=
  match key with
  | inr e => inr ("certmanager: generate node key: " +:+ e)%string
  | inl priv =>
      match serial with
      | inr e => inr ("certmanager: generate serial: " +:+ e)%string
      | inl serial =>
          match CreateCertificate (nodeTemplate serial nodeID now addr) (Some (ca_Cert ca)) (Public priv) (ca_Key ca) with
          | inr e => inr ("certmanager: sign node cert: " +:+ e)%string
          | inl der =>
              match ParseCertificate der with
              | inr e => inr ("certmanager: parse node cert: " +:+ e)%string
              | inl cert => inl (mkNodeCert cert der priv)
              end
          end
      end
  end.

(** The parts of [tls.Config] that are set. *)
Record TLSConfig := mkTLSConfig {
  tls_Certificate : NodeCert;
  tls_ClientCAs : option Certificate;
  tls_RootCAs : option Certificate;
  tls_RequireAndVerifyClientCert : bool
}.

Definition ServerTLSConfig (ca : CA) (node : NodeCert) : TLSConfig := mkTLSConfig node (Some (ca_Cert ca)) None true.
Definition ClientTLSConfig (ca : CA) (node : NodeCert) : TLSConfig := mkTLSConfig node None (Some (ca_Cert ca)) false.

(** ** Persistence *)

Definition cert_files (ca : CA) (node : NodeCert) : gmap string fileData :=
  {[fileCACert := PEM "CERTIFICATE" (ca_CertDER ca);
    fileCAKey := PEM "PRIVATE KEY" (MarshalPKCS8PrivateKey (ca_Key ca));
    fileNodeCert := PEM "CERTIFICATE" (nc_CertDER node);
    fileNodeKey := PEM "PRIVATE KEY" (MarshalPKCS8PrivateKey (nc_Key node))]}.

(** [SaveCerts]: the loop over the files, in the order a Go map happens to give;
    a failed write ends it. *)
Fixpoint write_files (dir : string) (writeErr : string -> option string) (files : list (string * fileData))
    (fs : fileSystem) : fileSystem * option string :=
  match files with
  | [] => (fs, None)
  | (name, block) :: files =>
      match writeErr name with
      | Some e => (fs, Some ("certmanager: write " +:+ name +:+ ": " +:+ e)%string)
      | None => write_files dir writeErr files (<[(dir, name) := block]> fs)
      end
  end.

Definition SaveCerts (dir : string) (ca : CA) (node : NodeCert) (mkdirErr : option string)
    (order : list (string * fileData)) (writeErr : string -> option string) (fs : fileSystem) : fileSystem * option string :=
  match mkdirErr with
  | Some e => (fs, Some ("certmanager: mkdir " +:+ dir +:+ ": " +:+ e)%string)
  | None => write_files dir writeErr order fs
  end.

Definition loadPEM (dir name expectedType : string) (fs : fileSystem) : bytes + string :=
  let path := dir +:+ "/" +:+ name in
  match fs !! (dir, name) with
  | None => inr ("certmanager: read " +:+ path +:+ ": open " +:+ path +:+ ": no such file or directory")%string
  | Some NotPEM => inr ("certmanager: no PEM block in " +:+ path)%string
  | Some (PEM type bs) =>
      if negb (bool_decide (type = expectedType))
      then inr ("certmanager: " +:+ path +:+ ": expected " +:+ expectedType +:+ ", got " +:+ type)%string
      else inl bs
  end.

Definition parseED25519Key (pkcs8 : bytes) : PrivateKey + string :=
  match ParsePKCS8PrivateKey pkcs8 with
  | inr e => inr e
  | inl (Ed25519Key k) => inl k
  | inl WrappedEd25519 =>
      inr "certmanager: key is crypto.Signer with ed25519 public key but not ed25519.PrivateKey"%string
  | inl (OtherKey type) => inr ("certmanager: expected ed25519 key, got " +:+ type)%string
  end.

Definition ParseKey (pkcs8 : bytes) : PrivateKey + string := parseED25519Key pkcs8.

(** An error is prefixed by what failed. *)
Definition wrapped {A} (what : string) (r : A + string) : A + string :=
  match r with inl a => inl a | inr e => inr (what +:+ ": " +:+ e)%string end.

Definition and_then {A B} (r : A + string) (k : A -> B + string) : B + string :=
  match r with inl a => k a | inr e => inr e end.

Definition LoadCerts (dir : string) (fs : fileSystem) : (CA * NodeCert) + string :=
  and_then (loadPEM dir fileCACert "CERTIFICATE" fs) (fun caCertDER =>
  and_then (loadPEM dir fileCAKey "PRIVATE KEY" fs) (fun caKeyBytes =>
  and_then (loadPEM dir fileNodeCert "CERTIFICATE" fs) (fun nodeCertDER =>
  and_then (loadPEM dir fileNodeKey "PRIVATE KEY" fs) (fun nodeKeyBytes =>
  and_then (wrapped "certmanager: parse CA cert" (ParseCertificate caCertDER)) (fun caCert =>
  and_then (wrapped "certmanager: parse CA key" (parseED25519Key caKeyBytes)) (fun caKey =>
  and_then (wrapped "certmanager: parse node cert" (ParseCertificate nodeCertDER)) (fun nodeCert =>
  and_then (wrapped "certmanager: parse node key" (parseED25519Key nodeKeyBytes)) (fun nodeKey =>
  inl (mkCA caCert caCertDER caKey, mkNodeCert nodeCert nodeCertDER nodeKey))))))))).

Definition CertsExist (dir : string) (fs : fileSystem) : bool :=
  forallb (fun f => bool_decide (is_Some (fs !! (dir, f)))) [fileCACert; fileCAKey; fileNodeCert; fileNodeKey].
End certs.

(** ** Authentication by certificate ([CertAuth]) *)

Section verify.
Context `{Encodings}.

Definition validAt (now : Z) (c : Certificate) : bool := (c_NotBefore c <=? now) && (now <=? c_NotAfter c).

(** [Certificate.Verify] with one root, for the default use, server
    authentication. *)
Definition x509_Verify (now : Z) (root c : Certificate) : option string :=
  if negb (validAt now c) then Some "x509: certificate has expired or is not yet valid"%string
  else if bool_decide (c = root) then None
  else if negb ((c_Signer c =? c_PublicKey root) && c_IsCA root)
  then Some "x509: certificate signed by unknown authority"%string
  else if negb (validAt now root) then Some "x509: certificate has expired or is not yet valid"%string
  else if negb (bool_decide (c_ExtKeyUsage c = [])) && negb (bool_decide (ExtKeyUsageServerAuth ∈ c_ExtKeyUsage c))
  then Some "x509: certificate specifies an incompatible key usage"%string
  else None.

Record CertAuth := mkCertAuth { cta_CACert : option Certificate; cta_NodeCert : option Certificate }.

Definition NewCertAuth (caCert nodeCert : Certificate) : CertAuth := mkCertAuth (Some caCert) (Some nodeCert).

Definition CertAuth_Credentials (a : CertAuth) : bytes + string :=
  match cta_NodeCert a with
  | None => inr "cert_auth: no node certificate configured"%string
  | Some c => inl (certDER c)
  end.

Definition CertAuth_Verify (a : CertAuth) (now : Z) (peerCredentials : bytes) : option string :=
  match cta_CACert a with
  | None => Some "cert_auth: no CA certificate configured"%string
  | Some root =>
      if bool_decide (peerCredentials = []) then Some (ErrAuthRejected +:+ ": no certificate provided")%string
      else
        match ParseCertificate peerCredentials with
        | inr e => Some (ErrAuthRejected +:+ ": invalid certificate: " +:+ e)%string
        | inl c =>
            match x509_Verify now root c with
            | Some e => Some (ErrAuthRejected +:+ ": certificate verification failed: " +:+ e)%string
            | None => None
            end
        end
  end.

Definition PeerNodeID (peerCredentials : bytes) : NodeID + string :=
  match ParseCertificate peerCredentials with
  | inr e => inr ("parse peer cert: " +:+ e)%string
  | inl c => if bool_decide (c_CommonName c = ""%string) then inr "peer certificate has no Common Name"%string
             else inl (c_CommonName c)
  end.
End verify.

(** ** What is generated verifies *)

Section theorems.
Context `{EncodingLaws}.

Definition ca_ok (ca : CA) : Prop :=
  c_IsCA (ca_Cert ca) = true /\ c_PublicKey (ca_Cert ca) = Public (ca_Key ca) /\ ca_CertDER ca = certDER (ca_Cert ca).

(** A certificate of the node [id] under [ca]. *)
Definition issued (ca : CA) (id : string) (c : Certificate) : Prop :=
  c_CommonName c = id /\ c_Signer c = Public (ca_Key ca) /\ ExtKeyUsageServerAuth ∈ c_ExtKeyUsage c /\
  c_NotAfter c = c_NotBefore c + oneYear.

Definition node_ok (ca : CA) (id : string) (node : NodeCert) : Prop :=
  issued ca id (nc_Cert node) /\ c_PublicKey (nc_Cert node) = Public (nc_Key node) /\
  nc_CertDER node = certDER (nc_Cert node).

Lemma GenerateCA_ok key serial now ca : GenerateCA key serial now = inl ca -> ca_ok ca.
Proof.
  unfold GenerateCA, CreateCertificate. destruct key as [k|]; [|done]. destruct serial; [|done].
  rewrite parse_cert. by intros [= <-].
Qed.

Lemma GenerateNodeCert_ok ca id addr key serial now node :
  GenerateNodeCert ca id addr key serial now = inl node -> node_ok ca id node.
Proof.
  unfold GenerateNodeCert, CreateCertificate. destruct key as [k|]; [|done]. destruct serial; [|done].
  destruct (_ =? _); [|done]. rewrite parse_cert. intros [= <-]. split; [|by split]. split_and!; try done. cbn. left.
Qed.

(** A request signed by the key it is for gets a certificate for that key under
    the name it asks for; one signed by another key gets none. *)
Lemma SignCSR_ok ca id key csr addr serial now der :
  GenerateCSR id (inl key) = inl (csr, key) -> SignCSR ca csr addr serial now = inl der ->
  exists c, der = certDER c /\ issued ca id c /\ c_PublicKey c = Public key.
Proof.
  intros [= <-]. unfold SignCSR. rewrite parse_csr. cbn [csr_Signer csr_PublicKey csr_CommonName]. rewrite Z.eqb_refl.
  cbn [negb]. destruct serial; [|done]. unfold CreateCertificate. destruct (_ =? _); [|done]. intros [= <-].
  eexists. split; [done|]. split; [|done]. split_and!; try done. cbn. left.
Qed.

Lemma SignCSR_refuses ca r addr serial now :
  csr_Signer r <> csr_PublicKey r -> exists e, SignCSR ca (csrDER r) addr serial now = inr e.
Proof.
  intros Hr. unfold SignCSR. rewrite parse_csr. rewrite (proj2 (Z.eqb_neq _ _) Hr). by eexists.
Qed.

Lemma issued_verifies ca id c now :
  ca_ok ca -> issued ca id c -> validAt now (ca_Cert ca) = true -> validAt now c = true ->
  x509_Verify now (ca_Cert ca) c = None.
Proof.
  intros (Hca & Hpk & _) (_ & Hs & Hu & _) Hv1 Hv2. unfold x509_Verify. rewrite Hv2. cbn [negb].
  destruct (bool_decide _); [done|]. rewrite Hs, Hpk, Z.eqb_refl, Hca, Hv1. cbn [andb negb].
  rewrite (bool_decide_true (_ ∈ _)) by done. by rewrite andb_false_r.
Qed.

(** A certificate that another authority signed is refused. *)
Lemma foreign_refused root c now :
  c <> root -> c_Signer c <> c_PublicKey root -> is_Some (x509_Verify now root c).
Proof.
  intros Hc Hs. unfold x509_Verify. destruct (validAt now c); [|by eexists]. cbn [negb].
  rewrite bool_decide_false by done. rewrite (proj2 (Z.eqb_neq _ _) Hs). by eexists.
Qed.

(** ** Saving and loading *)

Lemma write_files_lookup dir writeErr files fs fs' :
  write_files dir writeErr files fs = (fs', None) -> NoDup files.*1 ->
  forall d n, fs' !! (d, n) = if decide (d = dir) then match (list_to_map files : gmap string fileData) !! n with
                              | Some b => Some b | None => fs !! (d, n) end else fs !! (d, n).
Proof.
  revert fs. induction files as [|[name b] files IH]; intros fs Hw Hn d n; cbn in *.
  { injection Hw as <-. destruct (decide (d = dir)); [by rewrite lookup_empty|done]. }
  destruct (writeErr name); [done|]. apply NoDup_cons in Hn as [Hname Hn]. rewrite (IH _ Hw Hn d n).
  destruct (decide (d = dir)) as [->|Hd].
  - destruct (decide (n = name)) as [->|Hne].
    + by rewrite (not_elem_of_list_to_map_1 files name), !lookup_insert_eq by done.
    + by rewrite !lookup_insert_ne by congruence.
  - rewrite lookup_insert_ne; [done|]. congruence.
Qed.

(** A save that fails has written fewer than all files. *)
Lemma write_files_failed dir writeErr files fs fs' e :
  write_files dir writeErr files fs = (fs', Some e) -> NoDup files.*1 ->
  exists name, name ∈ files.*1 /\ fs' !! (dir, name) = fs !! (dir, name).
Proof.
  revert fs. induction files as [|[name b] files IH]; intros fs Hw Hn; cbn in *; [done|].
  apply NoDup_cons in Hn as [Hname Hn]. destruct (writeErr name).
  - injection Hw as <- _. exists name. split; [left|done].
  - destruct (IH _ Hw Hn) as (n & Hin & E). exists n. split; [by right|]. rewrite E.
    apply lookup_insert_ne. intros [= ->]. done.
Qed.

Definition in_order (ca : CA) (node : NodeCert) (order : list (string * fileData)) : Prop :=
  order ≡ₚ map_to_list (cert_files ca node).

Lemma in_order_nodup ca node order : in_order ca node order -> NoDup order.*1.
Proof. intros ->. apply NoDup_fst_map_to_list. Qed.

Lemma in_order_map ca node order : in_order ca node order -> list_to_map order = cert_files ca node.
Proof.
  intros Ho. rewrite <- (list_to_map_to_list (cert_files ca node)).
  apply list_to_map_proper; [by eapply in_order_nodup|done].
Qed.

(** The files of a save that succeeded. *)
Lemma SaveCerts_lookup dir ca node order writeErr fs fs' d n :
  in_order ca node order -> SaveCerts dir ca node None order writeErr fs = (fs', None) ->
  fs' !! (d, n) = if decide (d = dir) then match cert_files ca node !! n with Some b => Some b | None => fs !! (d, n) end
                  else fs !! (d, n).
Proof.
  intros Ho Hs. unfold SaveCerts in Hs. rewrite (write_files_lookup _ _ _ _ _ Hs); [|by eapply in_order_nodup].
  by rewrite (in_order_map ca node).
Qed.

(** Certificates that were saved are found and load as they were. *)
Lemma SaveCerts_LoadCerts dir ca node order writeErr fs fs' :
  in_order ca node order -> ca_CertDER ca = certDER (ca_Cert ca) -> nc_CertDER node = certDER (nc_Cert node) ->
  SaveCerts dir ca node None order writeErr fs = (fs', None) ->
  CertsExist dir fs' = true /\ LoadCerts dir fs' = inl (ca, node).
Proof.
  intros Ho Hca Hnode Hs.
  assert (forall n b, cert_files ca node !! n = Some b -> fs' !! (dir, n) = Some b) as Hl.
  { intros n b Hn. rewrite (SaveCerts_lookup _ _ _ _ _ _ _ _ _ Ho Hs), decide_True by done. by rewrite Hn. }
  pose proof (Hl fileCACert _ eq_refl) as E1. pose proof (Hl fileCAKey _ eq_refl) as E2.
  pose proof (Hl fileNodeCert _ eq_refl) as E3. pose proof (Hl fileNodeKey _ eq_refl) as E4. split.
  - unfold CertsExist. cbn [forallb]. by rewrite E1, E2, E3, E4.
  - unfold LoadCerts, loadPEM. rewrite E1, E2, E3, E4, Hca, Hnode. cbn [negb and_then wrapped].
    rewrite !bool_decide_true by done. cbn [negb and_then wrapped]. unfold parseED25519Key.
    rewrite !parse_cert, !parse_key. cbn [and_then wrapped]. destruct ca, node. cbn in *. by subst.
Qed.

(** Saving certificates is all or nothing to a later start: in a directory
    without certificates, a save that succeeds makes them load exactly as they
    were saved, in whatever order the files are written, and a save that fails
    after any of its steps leaves a directory that counts as having none. *)
Theorem saved_certs_load (dir : string) (ca : CA) (node : NodeCert) (mkdirErr : option string)
    (order : list (string * fileData)) (writeErr : string -> option string) (fs : fileSystem) :
  in_order ca node order -> ca_CertDER ca = certDER (ca_Cert ca) -> nc_CertDER node = certDER (nc_Cert node) ->
  (forall n, fs !! (dir, n) = None) ->
  match SaveCerts dir ca node mkdirErr order writeErr fs with
  | (fs', None) => CertsExist dir fs' = true /\ LoadCerts dir fs' = inl (ca, node)
  | (fs', Some _) => CertsExist dir fs' = false
  end.
Proof.
  intros Ho Hca Hnode Hfs.
  assert (forall fs' : fileSystem, (exists n, n ∈ order.*1 /\ fs' !! (dir, n) = None) -> CertsExist dir fs' = false) as Hne.
  { intros fs' (n & Hn & E). unfold CertsExist. apply not_true_iff_false. rewrite forallb_forall. intros Ha.
    assert (n ∈ [fileCACert; fileCAKey; fileNodeCert; fileNodeKey]) as Hin.
    { apply list_elem_of_fmap in Hn as ([n' b] & -> & Hn). rewrite Ho in Hn. apply elem_of_map_to_list in Hn.
      unfold cert_files in Hn. cbn. rewrite !lookup_insert_Some, lookup_singleton_Some in Hn. rewrite !elem_of_cons.
      naive_solver. }
    specialize (Ha n ltac:(by apply list_elem_of_In)). by rewrite E in Ha. }
  destruct mkdirErr as [e|].
  { cbn. apply Hne. exists fileCACert. split; [|apply Hfs]. apply list_elem_of_fmap.
    exists (fileCACert, PEM "CERTIFICATE" (ca_CertDER ca)). split; [done|]. rewrite Ho. by apply elem_of_map_to_list. }
  destruct (SaveCerts dir ca node None order writeErr fs) as [fs' [e|]] eqn:Hs.
  - apply Hne. unfold SaveCerts in Hs. destruct (write_files_failed _ _ _ _ _ _ Hs) as (n & Hn & E);
      [by eapply in_order_nodup|]. exists n. by rewrite E.
  - by eapply SaveCerts_LoadCerts.
Qed.
End theorems.

(** ** An instance of the encodings *)

#[export] Instance PrivateKey_countable : Countable PrivateKey.
Proof. refine (inj_countable' key_secret mkPrivateKey _). by intros []. Defined.

#[export] Instance extKeyUsage_countable : Countable extKeyUsage.
Proof.
  refine (inj_countable' (fun u => match u with ExtKeyUsageServerAuth => true | ExtKeyUsageClientAuth => false end)
    (fun b : bool => if b then ExtKeyUsageServerAuth else ExtKeyUsageClientAuth) _). by intros [].
Defined.

(** Field by field, so that the code stays short. *)
#[export] Instance Certificate_countable : Countable Certificate.
Proof.
  refine (inj_countable (fun c => [encode (c_SerialNumber c); encode (c_CommonName c); encode (c_NotBefore c);
      encode (c_NotAfter c); encode (c_IsCA c); encode (c_ExtKeyUsage c); encode (c_IPAddresses c);
      encode (c_PublicKey c); encode (c_Signer c)])
    (fun l => match l with
      | [s; cn; nb; na; ca; u; ips; pk; sg] =>
          s ← decode s; cn ← decode cn; nb ← decode nb; na ← decode na; ca ← decode ca; u ← decode u;
          ips ← decode ips; pk ← decode pk; sg ← decode sg; Some (mkCertificate s cn nb na ca u ips pk sg)
      | _ => None
      end) _).
  intros []. cbn -[encode decode]. by rewrite !decode_encode.
Defined.

#[export] Instance CertificateRequest_eq_dec : EqDecision CertificateRequest.
Proof. solve_decision. Defined.

#[export] Instance CertificateRequest_countable : Countable CertificateRequest.
Proof.
  refine (inj_countable' (fun r => (csr_CommonName r, csr_PublicKey r, csr_Signer r))
    (fun '(cn, pk, sg) => mkCertificateRequest cn pk sg) _). by intros [].
Defined.

Definition tagged_bytes {A} `{Countable A} (a : A) : bytes := "0"%char :: countable_bytes a.

Definition parse_tagged {A} `{Countable A} (bs : bytes) : A + string :=
  match bs with
  | _ :: bs => match bytes_countable bs with Some a => inl a | None => inr "asn1: syntax error"%string end
  | [] => inr "asn1: syntax error: sequence truncated"%string
  end.

Lemma parse_tagged_bytes {A} `{Countable A} (a : A) : parse_tagged (tagged_bytes a) = inl a.
Proof. unfold parse_tagged, tagged_bytes. by rewrite bytes_countable_bytes. Qed.

Definition example_encodings : Encodings := {|
  certDER := tagged_bytes;
  ParseCertificate := parse_tagged;
  csrDER := tagged_bytes;
  ParseCertificateRequest := parse_tagged;
  MarshalPKCS8PrivateKey := tagged_bytes;
  ParsePKCS8PrivateKey bs := match parse_tagged bs with inl k => inl (Ed25519Key k) | inr e => inr e end;
  ParseIP s := if hasByte ":" s then None else Some s
|}.

Lemma example_laws : @EncodingLaws example_encodings.
Proof.
  split; [apply parse_tagged_bytes|apply parse_tagged_bytes| |done]. intros k.
  change ((match parse_tagged (tagged_bytes k) with inl k => inl (Ed25519Key k) | inr e => inr e end
    : parsedKey + string) = inl (Ed25519Key k)). by rewrite parse_tagged_bytes.
Qed.

Section example.
#[local] Existing Instance example_encodings.
#[local] Existing Instance example_laws.

Definition example_ca : CA :=
  let c := mkCertificate 1 "westcoast-cluster-ca" 1000 (1000 + tenYears) true [] [] 11 11 in
  mkCA c (certDER c) (mkPrivateKey 11).

Definition example_node : NodeCert :=
  let c := mkCertificate 2 "n1" 1000 (1000 + oneYear) false [ExtKeyUsageServerAuth] ["10.0.0.1"%string] 12 11 in
  mkNodeCert c (certDER c) (mkPrivateKey 12).

(** The third write fails. *)
Definition example_writeErr (name : string) : option string :=
  if bool_decide (name = fileNodeCert) then Some "no space left on device"%string else None.

Lemma saved_certs_load_witness :
  (match SaveCerts "certs" example_ca example_node None (map_to_list (cert_files example_ca example_node)) (fun _ => None) ∅ with
   | (fs', None) => CertsExist "certs" fs' = true /\ LoadCerts "certs" fs' = inl (example_ca, example_node)
   | (fs', Some _) => CertsExist "certs" fs' = false
   end) /\
  (match SaveCerts "certs" example_ca example_node None (map_to_list (cert_files example_ca example_node)) example_writeErr ∅ with
   | (fs', None) => CertsExist "certs" fs' = true /\ LoadCerts "certs" fs' = inl (example_ca, example_node)
   | (fs', Some _) => CertsExist "certs" fs' = false
   end).
Proof.
  split; (apply saved_certs_load; [unfold in_order; reflexivity|reflexivity|reflexivity|intros n; reflexivity]).
Defined.
End example.
