(* ===== verification/Secure.v ===== *)
(** * The secure provider ([cluster/provider_secure.go])

    A node gets its certificates from disk, by founding a cluster, or by joining
    one through a seed; it then answers joins itself and wraps the seed-list
    provider.  [JoinClient] of [Join.v] is an argument of the operations that
    dial; [None] is a nil dereference. *)

From S2P Require Import Prelude Nodes Feed Seeds ByteStream Join Auth Certs.

Record SecureFixedProviderConfig := mkSecureFixedProviderConfig {
  sc_Seeds : list string;
  sc_Token : bytes;
  sc_DataDir : string;
  sc_JoinAddr : string;
  sc_HeartbeatInterval : Z;
  sc_OnJoin : option (NodeID -> option bytes + string);
  sc_OnJoined : option (bytes -> option string)
}.

Record SecureFixedProvider := mkSecureFixedProvider {
  sp_cfg : SecureFixedProviderConfig;
  sp_inner : option FixedProvider.FixedProvider;
  sp_ca : option CA;
  sp_node : option NodeCert;
  sp_js : option string;  (* the address of the join server *)
  sp_joinedSeed : option NodeMeta
}.

Definition NewSecureFixedProvider (cfg : SecureFixedProviderConfig) : SecureFixedProvider :=
  mkSecureFixedProvider cfg None None None None None.

Definition set_certs (ca : CA) (node : NodeCert) (sp : SecureFixedProvider) : SecureFixedProvider :=
  mkSecureFixedProvider (sp_cfg sp) (sp_inner sp) (Some ca) (Some node) (sp_js sp) (sp_joinedSeed sp).

Definition set_joinedSeed (m : NodeMeta) (sp : SecureFixedProvider) : SecureFixedProvider :=
  mkSecureFixedProvider (sp_cfg sp) (sp_inner sp) (sp_ca sp) (sp_node sp) (sp_js sp) (Some m).

Definition set_inner (p : FixedProvider.FixedProvider) (sp : SecureFixedProvider) : SecureFixedProvider :=
  mkSecureFixedProvider (sp_cfg sp) (Some p) (sp_ca sp) (sp_node sp) (sp_js sp) (sp_joinedSeed sp).

Definition set_js (addr : string) (sp : SecureFixedProvider) : SecureFixedProvider :=
  mkSecureFixedProvider (sp_cfg sp) (sp_inner sp) (sp_ca sp) (sp_node sp) (Some addr) (sp_joinedSeed sp).

(** [host:port] to [host:port+1]; a port that is no number stays. *)
Definition incrementPort (addr : string) : string :=
  match SplitHostPort addr with
  | None => addr
  | Some (host, portStr) =>
      match Atoi portStr with
      | None => addr
      | Some port => if port =? 0 then JoinHostPort host "0" else JoinHostPort host (pretty (i64 (port + 1)))
      end
  end.

Definition joinAddr (clusterAddr : string) (sp : SecureFixedProvider) : string :=
  if negb (bool_decide (sc_JoinAddr (sp_cfg sp) = ""%string)) then sc_JoinAddr (sp_cfg sp)
  else incrementPort clusterAddr.

Section secure.
Context `{Encodings}.

(** ** Joining *)

Section joining.
Variable join : string -> JoinRequest -> JoinResponse + string.

(** What a response gives a node whose request was for [key]. *)
Definition accept_response (key : PrivateKey) (resp : JoinResponse) : (CA * NodeCert) + string :=
  and_then (wrapped "parse CA cert" (ParseCertificate (jr_CACertDER resp))) (fun caCert =>
  and_then (wrapped "parse node cert" (ParseCertificate (jr_NodeCertDER resp))) (fun nodeCert =>
  and_then (wrapped "parse CA key" (ParseKey (jr_CAKeyPKCS8 resp))) (fun caKey =>
  inl (mkCA caCert (jr_CACertDER resp) caKey, mkNodeCert nodeCert (jr_NodeCertDER resp) key)))).

(** The loop over the seeds; [lastErr] is the error of the last one tried. *)
Fixpoint join_seeds (self : NodeMeta) (csr : bytes) (key : PrivateKey) (seeds : list string) (lastErr : string)
    (sp : SecureFixedProvider) : SecureFixedProvider * option string :=
  match seeds with
  | [] => (sp, Some ("failed to join any seed: " +:+ lastErr)%string)
  | seed :: seeds =>
      match join seed (mkJoinRequest (nm_ID self) (nm_Addr self) csr) with
      | inr e => join_seeds self csr key seeds e sp
      | inl resp =>
          match accept_response key resp with
          | inr e => join_seeds self csr key seeds e sp
          | inl (ca, node) =>
              let sp := set_joinedSeed (mkNodeMeta (jr_ServerID resp) (jr_ClusterAddr resp) ∅ 0) (set_certs ca node sp) in
              match sc_OnJoined (sp_cfg sp), jr_Payload resp with
              | Some f, Some payload =>
                  match f payload with
                  | Some e => (sp, Some ("OnJoined callback: " +:+ e)%string)
                  | None => (sp, None)
                  end
              | _, _ => (sp, None)
              end
          end
      end
  end.

Definition joinCluster (self : NodeMeta) (key : PrivateKey + string) (sp : SecureFixedProvider) :
    SecureFixedProvider * option string :=
  match GenerateCSR (nm_ID self) key with
  | inr e => (sp, Some e)
  | inl (csr, key) => join_seeds self csr key (sc_Seeds (sp_cfg sp)) "%!w(<nil>)" sp
  end.
End joining.

(** ** Answering joins: the handler of [startJoinServer] *)

Definition joinHandler (selfID : NodeID) (configAddr : string) (serial : Z + string) (now : Z) (req : JoinRequest)
    (sp : SecureFixedProvider) : option (SecureFixedProvider * (JoinResponse + string)) :=
  ca ← sp_ca sp;
  match SignCSR ca (jq_CSRDER req) (jq_ClusterAddr req) serial now with
  | inr e => Some (sp, inr ("sign CSR: " +:+ e)%string)
  | inl der =>
      match (match sc_OnJoin (sp_cfg sp) with Some f => f (jq_NodeID req) | None => inl None end) with
      | inr e => Some (sp, inr ("OnJoin callback: " +:+ e)%string)
      | inl payload =>
          let sp :=
            match sp_inner sp with
            | Some p => set_inner (FixedProvider.AddSeed (mkNodeMeta (jq_NodeID req) (jq_ClusterAddr req) ∅ 0) p) sp
            | None => sp
            end in
          Some (sp, inl (mkJoinResponse der (ca_CertDER ca) (MarshalPKCS8PrivateKey (ca_Key ca)) selfID configAddr payload))
      end
  end.

(** ** Bootstrapping *)

(** What [Bootstrap] finds in its environment. *)
Record bootstrapEnv := mkBootstrapEnv {
  be_caKey : PrivateKey + string;
  be_caSerial : Z + string;
  be_nodeKey : PrivateKey + string;
  be_nodeSerial : Z + string;
  be_now : Z;
  be_join : string -> JoinRequest -> JoinResponse + string;
  be_mkdirErr : option string;
  be_order : CA -> NodeCert -> list (string * fileData);
  be_writeErr : string -> option string;
  be_listen : string -> string + string;  (* the address listened on *)
  be_factory : bool
}.

Definition certDir (sp : SecureFixedProvider) : string := sc_DataDir (sp_cfg sp) +:+ "/certs".

(** Saving the certificates a provider has. *)
Definition save_own (env : bootstrapEnv) (sp : SecureFixedProvider) (fs : fileSystem) : fileSystem * option string :=
  match sp_ca sp, sp_node sp with
  | Some ca, Some node =>
      SaveCerts (certDir sp) ca node (be_mkdirErr env) (be_order env ca node) (be_writeErr env) fs
  | _, _ => (fs, None)
  end.

Definition failing {A} (what : string) (e : string) : A + string := inr ("secure provider: " +:+ what +:+ ": " +:+ e)%string.

(** The founder's certificates. *)
Definition found (env : bootstrapEnv) (self : NodeMeta) : (CA * NodeCert) + string :=
  match GenerateCA (be_caKey env) (be_caSerial env) (be_now env) with
  | inr e => failing "generate CA" e
  | inl ca =>
      match GenerateNodeCert ca (nm_ID self) (nm_Addr self) (be_nodeKey env) (be_nodeSerial env) (be_now env) with
      | inr e => failing "generate node cert" e
      | inl node => inl (ca, node)
      end
  end.

(** The certificates: loaded, founded or received. *)
Definition obtain (env : bootstrapEnv) (self : NodeMeta) (sp : SecureFixedProvider) (fs : fileSystem) :
    SecureFixedProvider * fileSystem * option string :=
  if CertsExist (certDir sp) fs then
    match LoadCerts (certDir sp) fs with
    | inr e => (sp, fs, Some ("secure provider: load certs: " +:+ e)%string)
    | inl (ca, node) => (set_certs ca node sp, fs, None)
    end
  else
    let saved sp :=
      let '(fs, err) := save_own env sp fs in
      (sp, fs, match err with Some e => Some ("secure provider: save certs: " +:+ e)%string | None => None end) in
    match sc_Seeds (sp_cfg sp) with
    | [] =>
        match found env self with
        | inr e => (sp, fs, Some e)
        | inl (ca, node) => saved (set_certs ca node sp)
        end
    | _ =>
        match joinCluster (be_join env) self (be_nodeKey env) sp with
        | (sp, Some e) => (sp, fs, Some ("secure provider: join: " +:+ e)%string)
        | (sp, None) => saved sp
        end
    end.

(** [Bootstrap] after the certificates. *)
Definition serve (env : bootstrapEnv) (self : NodeMeta) (sp : SecureFixedProvider) :
    option (SecureFixedProvider * ((TLSConfig * CertAuth) + string)) :=
  match be_listen env (joinAddr (nm_Addr self) sp) with
  | inr e => Some (sp, failing "join server" e)
  | inl addr =>
      let inner := FixedProvider.NewFixedProvider (FixedProvider.mkFixedProviderConfig [] (sc_HeartbeatInterval (sp_cfg sp)) 0) in
      let inner := match sp_joinedSeed sp with Some m => FixedProvider.AddSeed m inner | None => inner end in
      let sp := set_inner inner (set_js addr sp) in
      ca ← sp_ca sp; node ← sp_node sp;
      let server := ServerTLSConfig ca node in
      let tls := mkTLSConfig (tls_Certificate server) (tls_ClientCAs server) (tls_RootCAs (ClientTLSConfig ca node))
                   (tls_RequireAndVerifyClientCert server) in
      if negb (be_factory env) then Some (sp, inr "no transport factory registered (import grpctransport)"%string)
      else Some (sp, inl (tls, NewCertAuth (ca_Cert ca) (nc_Cert node)))
  end.

Definition Bootstrap (env : bootstrapEnv) (self : NodeMeta) (sp : SecureFixedProvider) (fs : fileSystem) :
    option (SecureFixedProvider * fileSystem * ((TLSConfig * CertAuth) + string)) :=
  match obtain env self sp fs with
  | (sp, fs, Some e) => Some (sp, fs, inr e)
  | (sp, fs, None) => '(sp, r) ← serve env self sp; Some (sp, fs, r)
  end.

(** ** The wrapped provider *)

(** An operation of the seed-list provider on the inner one. *)
Definition on_inner {A} (op : FixedProvider.FixedProvider -> option (FixedProvider.FixedProvider * A))
    (sp : SecureFixedProvider) : option (SecureFixedProvider * A) :=
  p ← sp_inner sp; '(p, a) ← op p; Some (set_inner p sp, a).

Definition Secure_Start (self : NodeMeta) (sp : SecureFixedProvider) : option (SecureFixedProvider * option string) :=
  on_inner (fun p => Some (FixedProvider.Start self p)) sp.

(** [Stop] also closes the listener of the join server, which it keeps. *)
Definition Secure_Stop (sp : SecureFixedProvider) : option (SecureFixedProvider * option string) :=
  on_inner FixedProvider.Stop sp.

Definition Secure_Members (sp : SecureFixedProvider) : option (list NodeMeta) :=
  p ← sp_inner sp; Some (FixedProvider.Members p).

Definition Secure_HasSeeds (sp : SecureFixedProvider) : bool := negb (bool_decide (sc_Seeds (sp_cfg sp) = [])).

Definition Secure_AddSeed (m : NodeMeta) (sp : SecureFixedProvider) : option SecureFixedProvider :=
  r ← on_inner (fun p => Some (FixedProvider.AddSeed m p, tt)) sp; Some r.1.

Definition JoinServerAddr (sp : SecureFixedProvider) : string := default ""%string (sp_js sp).
End secure.

(** ** A growing cluster *)

Section theorems.
Context `{EncodingLaws}.
Variable hmac : bytes -> bytes -> bytes.
Hypothesis hmac_size : forall key m, length (hmac key m) = hmacSize.
Variable token : bytes.

(** A started node: its provider, its disk, and what [Bootstrap] returned. *)
Record secureNode := mkSecureNode {
  sn_self : NodeMeta;
  sn_sp : SecureFixedProvider;
  sn_fs : fileSystem;
  sn_tls : TLSConfig;
  sn_auth : CertAuth
}.

(** The handler of a node's join server. *)
Definition node_handler (serial : Z + string) (now : Z) (n : secureNode) (req : JoinRequest) : JoinResponse + string :=
  match joinHandler (nm_ID (sn_self n)) (nm_Addr (sn_self n)) serial now req (sn_sp n) with
  | Some (_, r) => r
  | None => inr "panic"%string
  end.

(** A join succeeds only as a handshake with the join server of a node. *)
Definition answered_by (l : list secureNode) (join : string -> JoinRequest -> JoinResponse + string) : Prop :=
  forall seed req resp, join seed req = inl resp ->
  exists n nonceC nonceS serial now, n ∈ l /\ length nonceC = nonceSize /\ length nonceS = nonceSize /\
    request_fits req /\ (forall r, node_handler serial now n req = inl r -> response_fits r) /\
    exchange 2 (joinConn hmac token (inl nonceC) req) (handleConn hmac token (inl nonceS) (node_handler serial now n)) [] [] =
      Some (inl resp, Some req).

(** Files are written in some order. *)
Definition env_ok (env : bootstrapEnv) : Prop := forall ca node, in_order ca node (be_order env ca node).

Definition bootstrapped (env : bootstrapEnv) (self : NodeMeta) (cfg : SecureFixedProviderConfig) (fs : fileSystem)
    (n : secureNode) : Prop :=
  sn_self n = self /\
  Bootstrap env self (NewSecureFixedProvider cfg) fs = Some (sn_sp n, sn_fs n, inl (sn_tls n, sn_auth n)).

(** The clusters there can be: a founder, then nodes that join through any of
    the nodes there are, restart from their disks, and answer requests. *)
Inductive grown : list secureNode -> Prop :=
  | grown_found env self cfg fs n :
      env_ok env -> sc_Seeds cfg = [] -> CertsExist (sc_DataDir cfg +:+ "/certs") fs = false ->
      bootstrapped env self cfg fs n -> grown [n]
  | grown_join l env self cfg fs n :
      grown l -> env_ok env -> sc_Seeds cfg <> [] -> CertsExist (sc_DataDir cfg +:+ "/certs") fs = false ->
      answered_by l (be_join env) -> bootstrapped env self cfg fs n -> grown (l ++ [n])
  | grown_restart l1 n l2 env n' :
      grown (l1 ++ n :: l2) -> bootstrapped env (sn_self n) (sp_cfg (sn_sp n)) (sn_fs n) n' -> grown (l1 ++ n' :: l2)
  | grown_answer l1 n l2 serial now req sp r :
      grown (l1 ++ n :: l2) ->
      joinHandler (nm_ID (sn_self n)) (nm_Addr (sn_self n)) serial now req (sn_sp n) = Some (sp, r) ->
      grown (l1 ++ mkSecureNode (sn_self n) sp (sn_fs n) (sn_tls n) (sn_auth n) :: l2).

(** What a provider holds, in memory and on disk. *)
Definition holds (ca : CA) (id : NodeID) (node : NodeCert) (sp : SecureFixedProvider) (fs : fileSystem) : Prop :=
  sp_ca sp = Some ca /\ sp_node sp = Some node /\ node_ok ca id node /\
  CertsExist (certDir sp) fs = true /\ LoadCerts (certDir sp) fs = inl (ca, node).

Definition node_inv (ca : CA) (n : secureNode) : Prop :=
  exists node, holds ca (nm_ID (sn_self n)) node (sn_sp n) (sn_fs n) /\
    sn_tls n = mkTLSConfig node (Some (ca_Cert ca)) (Some (ca_Cert ca)) true /\
    sn_auth n = NewCertAuth (ca_Cert ca) (nc_Cert node).

Lemma serve_ok env self sp sp' tls auth :
  serve env self sp = Some (sp', inl (tls, auth)) ->
  exists ca node, sp_ca sp = Some ca /\ sp_node sp = Some node /\ sp_ca sp' = Some ca /\ sp_node sp' = Some node /\
    sp_cfg sp' = sp_cfg sp /\ tls = mkTLSConfig node (Some (ca_Cert ca)) (Some (ca_Cert ca)) true /\
    auth = NewCertAuth (ca_Cert ca) (nc_Cert node).
Proof.
  unfold serve. destruct (be_listen _ _); [|done]. cbn [sp_ca sp_node set_inner set_js].
  destruct (sp_ca sp) as [ca|] eqn:E1; [|done]. destruct (sp_node sp) as [node|] eqn:E2; [|done]. cbn [mbind option_bind].
  destruct (negb _); [done|]. intros [= <- <- <-]. exists ca, node. cbn. by rewrite E1, E2.
Qed.

(** A successful bootstrap, in two parts. *)
Lemma bootstrapped_inv env self cfg fs n :
  bootstrapped env self cfg fs n ->
  exists sp ca node, obtain env self (NewSecureFixedProvider cfg) fs = (sp, sn_fs n, None) /\
    sp_ca sp = Some ca /\ sp_node sp = Some node /\ sp_ca (sn_sp n) = Some ca /\ sp_node (sn_sp n) = Some node /\
    sp_cfg (sn_sp n) = sp_cfg sp /\ sn_tls n = mkTLSConfig node (Some (ca_Cert ca)) (Some (ca_Cert ca)) true /\
    sn_auth n = NewCertAuth (ca_Cert ca) (nc_Cert node).
Proof.
  intros [_ Hb]. unfold Bootstrap in Hb. destruct (obtain _ _ _ _) as [[sp fs1] [e|]]; [done|].
  destruct (serve env self sp) as [[sp' r]|] eqn:Es; [|done]. cbn in Hb. injection Hb as -> -> ->.
  destruct (serve_ok _ _ _ _ _ _ Es) as (ca & node & ?). exists sp, ca, node. naive_solver.
Qed.

(** What is saved is on disk. *)
Lemma save_own_holds env sp fs fs' ca id node :
  env_ok env -> sp_ca sp = Some ca -> sp_node sp = Some node -> ca_ok ca -> node_ok ca id node ->
  save_own env sp fs = (fs', None) -> holds ca id node sp fs'.
Proof.
  intros He E1 E2 Hca Hnode Hs. unfold save_own in Hs. rewrite E1, E2 in Hs.
  destruct (be_mkdirErr env); [by destruct Hca|].
  split_and!; [done..| |]; eapply SaveCerts_LoadCerts; [apply He|apply Hca|apply Hnode|exact Hs|apply He|apply Hca|apply Hnode|exact Hs].
Qed.

Lemma found_ok env self ca node :
  found env self = inl (ca, node) -> ca_ok ca /\ node_ok ca (nm_ID self) node.
Proof.
  unfold found. destruct (GenerateCA _ _ _) as [ca'|] eqn:E1; [|done].
  destruct (GenerateNodeCert _ _ _ _ _ _) as [node'|] eqn:E2; [|done]. intros [= <- <-].
  split; [by eapply GenerateCA_ok|by eapply GenerateNodeCert_ok].
Qed.

(** Joining succeeds with the certificates of some response. *)
Lemma join_seeds_inv join self csr key seeds e sp sp' :
  join_seeds join self csr key seeds e sp = (sp', None) ->
  exists seed resp ca node, join seed (mkJoinRequest (nm_ID self) (nm_Addr self) csr) = inl resp /\
    accept_response key resp = inl (ca, node) /\ sp_ca sp' = Some ca /\ sp_node sp' = Some node /\ sp_cfg sp' = sp_cfg sp.
Proof.
  revert e. induction seeds as [|seed seeds IH]; intros e Hj; cbn in Hj; [done|].
  destruct (join seed _) as [resp|e1] eqn:Ej; [|by eapply IH].
  destruct (accept_response key resp) as [[ca node]|e1] eqn:Ea; [|by eapply IH].
  exists seed, resp, ca, node. split_and!; [done|done|..];
    (destruct (sc_OnJoined _); [destruct (jr_Payload resp); [destruct (o _); [done|]|]|]); by injection Hj as <-.
Qed.

(** What a node of a cluster under [ca] answers makes the requester a node under
    [ca]. *)
Lemma answer_accepted ca n serial now self key csr resp0 ca' node' :
  ca_ok ca -> sp_ca (sn_sp n) = Some ca -> GenerateCSR (nm_ID self) (inl key) = inl (csr, key) ->
  node_handler serial now n (mkJoinRequest (nm_ID self) (nm_Addr self) csr) = inl resp0 ->
  accept_response key (received resp0) = inl (ca', node') -> ca' = ca /\ node_ok ca (nm_ID self) node'.
Proof.
  intros Hca E Hcsr Hh Ha. unfold node_handler, joinHandler in Hh. rewrite E in Hh. cbn [mbind option_bind jq_CSRDER jq_ClusterAddr jq_NodeID] in Hh.
  destruct (SignCSR _ _ _ _ _) as [der|] eqn:Es; [|done].
  destruct (SignCSR_ok _ _ _ _ _ _ _ _ Hcsr Es) as (c & -> & Hc & Hk).
  destruct (match sc_OnJoin _ with Some f => _ | None => _ end) as [payload|]; [|done]. injection Hh as <-.
  destruct Hca as (_ & _ & Hder). unfold accept_response, ParseKey, parseED25519Key in Ha.
  cbn [received jr_CACertDER jr_NodeCertDER jr_CAKeyPKCS8] in Ha. rewrite Hder, !parse_cert, parse_key in Ha.
  cbn [and_then wrapped] in Ha. injection Ha as <- <-. split; [|done]. destruct ca. cbn in *. by subst.
Qed.

Lemma joinHandler_keeps selfID addr serial now req sp sp' r :
  joinHandler selfID addr serial now req sp = Some (sp', r) ->
  sp_ca sp' = sp_ca sp /\ sp_node sp' = sp_node sp /\ sp_cfg sp' = sp_cfg sp.
Proof.
  unfold joinHandler. intros Hj. apply bind_Some in Hj as (ca & _ & Hj).
  destruct (SignCSR _ _ _ _ _); [|by injection Hj as <- _].
  destruct (match sc_OnJoin _ with Some f => _ | None => _ end); [|by injection Hj as <- _].
  injection Hj as <- _. by destruct (sp_inner sp).
Qed.

Lemma obtain_join env self sp fs sp' fs' :
  CertsExist (certDir sp) fs = false -> sc_Seeds (sp_cfg sp) <> [] -> obtain env self sp fs = (sp', fs', None) ->
  joinCluster (be_join env) self (be_nodeKey env) sp = (sp', None) /\ save_own env sp' fs = (fs', None).
Proof.
  intros E Hs. unfold obtain. rewrite E. destruct (sc_Seeds (sp_cfg sp)); [done|].
  destruct (joinCluster _ _ _ _) as [sp1 [e|]]; [done|]. destruct (save_own env sp1 fs) as [fs1 [e|]] eqn:Ew; [done|].
  by intros [= <- <-].
Qed.

Lemma joined_ok l ca env self cfg fs n :
  ca_ok ca -> (forall m, m ∈ l -> node_inv ca m) -> env_ok env -> sc_Seeds cfg <> [] ->
  CertsExist (sc_DataDir cfg +:+ "/certs") fs = false -> answered_by l (be_join env) ->
  bootstrapped env self cfg fs n -> node_inv ca n.
Proof.
  intros Hca Hl He Hseeds Hex Hans Hb. pose proof (proj1 Hb) as Eself.
  destruct (bootstrapped_inv _ _ _ _ _ Hb) as (sp & ca' & node & Ho & E1 & E2 & E3 & E4 & E5 & E6 & E7).
  destruct (obtain_join env self (NewSecureFixedProvider cfg) fs sp (sn_fs n) Hex Hseeds Ho) as [Hj Hw]. unfold joinCluster in Hj.
  destruct (GenerateCSR _ _) as [[csr key]|e] eqn:Ecsr; [|done].
  assert (be_nodeKey env = inl key) as Ek.
  { unfold GenerateCSR in Ecsr. destruct (be_nodeKey env); [by simplify_eq|done]. }
  rewrite Ek in Ecsr.
  destruct (join_seeds_inv _ _ _ _ _ _ _ _ Hj) as (seed & resp & ca1 & node1 & Ej & Ea & F1 & F2 & F3).
  assert (ca1 = ca' /\ node1 = node) as [-> ->] by (split; congruence).
  destruct (Hans _ _ _ Ej) as (m & nonceC & nonceS & serial & now & Hm & Hc & Hs & Hreq & Hresp & Ex).
  rewrite (handshake_agrees hmac hmac_size) in Ex by done.
  destruct (node_handler serial now m _) as [resp0|] eqn:Eh; [|done]. injection Ex as <-.
  destruct (Hl m Hm) as (nm & (Hca' & _) & _).
  destruct (answer_accepted ca m serial now self key csr resp0 ca' node Hca Hca' Ecsr Eh Ea) as [-> Hok].
  exists node. split; [|done]. rewrite Eself.
  assert (holds ca (nm_ID self) node sp (sn_fs n)) as (_ & _ & _ & H1 & H2) by by eapply save_own_holds.
  unfold holds, certDir in *. split_and!; [done|done|done| |]; by rewrite E5.
Qed.

Lemma founded_ok env self cfg fs n :
  env_ok env -> sc_Seeds cfg = [] -> CertsExist (sc_DataDir cfg +:+ "/certs") fs = false ->
  bootstrapped env self cfg fs n -> exists ca, ca_ok ca /\ node_inv ca n.
Proof.
  intros He Hseeds Hex Hb. pose proof (proj1 Hb) as Eself.
  destruct (bootstrapped_inv _ _ _ _ _ Hb) as (sp & ca & node & Ho & E1 & E2 & E3 & E4 & E5 & E6 & E7).
  unfold obtain in Ho. unfold certDir in Ho at 1. cbn [sp_cfg NewSecureFixedProvider] in Ho. rewrite Hex, Hseeds in Ho.
  destruct (found env self) as [[ca' node']|] eqn:Ef; [|done]. destruct (save_own _ _ fs) as [fs1 [e|]] eqn:Ew; [done|].
  injection Ho as <- ->. cbn in E1, E2. injection E1 as ->. injection E2 as ->.
  destruct (found_ok _ _ _ _ Ef) as [Hca Hnode].
  assert (holds ca (nm_ID self) node (set_certs ca node (NewSecureFixedProvider cfg)) (sn_fs n)) as (_ & _ & _ & H1 & H2)
    by by eapply save_own_holds.
  exists ca. split; [done|]. exists node. split; [|done]. rewrite Eself. unfold holds, certDir in *.
  split_and!; [done|done|done| |]; by rewrite E5.
Qed.

Lemma restarted_ok ca env n n' :
  node_inv ca n -> bootstrapped env (sn_self n) (sp_cfg (sn_sp n)) (sn_fs n) n' -> node_inv ca n'.
Proof.
  intros (node & (H1 & H2 & H3 & H4 & H5) & H6 & H7) Hb. pose proof (proj1 Hb) as Eself.
  destruct (bootstrapped_inv _ _ _ _ _ Hb) as (sp & ca' & node' & Ho & E1 & E2 & E3 & E4 & E5 & E6 & E7).
  unfold certDir in *. unfold obtain, certDir in Ho. cbn [sp_cfg NewSecureFixedProvider] in Ho. rewrite H4, H5 in Ho.
  injection Ho as <- Efs. cbn in E1, E2, E5. injection E1 as ->. injection E2 as ->.
  exists node'. split; [|done]. unfold holds, certDir. rewrite Eself, <- Efs, E5. by split_and!.
Qed.

Lemma elem_of_swap {A} (l1 l2 : list A) x y z : z ∈ l1 ++ y :: l2 -> z = y \/ z ∈ l1 ++ x :: l2.
Proof. rewrite !elem_of_app, !elem_of_cons. tauto. Qed.

Lemma grown_inv l : grown l -> exists ca, ca_ok ca /\ forall n, n ∈ l -> node_inv ca n.
Proof.
  induction 1 as [env self cfg fs n He Hs Hex Hb|l env self cfg fs n _ (ca & Hca & Hl) He Hs Hex Hans Hb
    |l1 n l2 env n' _ (ca & Hca & Hl) Hb|l1 n l2 serial now req sp r _ (ca & Hca & Hl) Hj].
  - destruct (founded_ok _ _ _ _ _ He Hs Hex Hb) as (ca & Hca & Hn). exists ca. split; [done|].
    intros m Hm. by apply list_elem_of_singleton in Hm as ->.
  - exists ca. split; [done|]. intros m Hm. apply elem_of_app in Hm as [Hm|Hm]; [by apply Hl|].
    apply list_elem_of_singleton in Hm as ->. by eapply joined_ok.
  - exists ca. split; [done|]. intros m Hm. apply (elem_of_swap _ _ n) in Hm as [->|Hm]; [|by apply Hl].
    eapply restarted_ok; [|exact Hb]. apply Hl, elem_of_app. right. left.
  - exists ca. split; [done|]. intros m Hm. apply (elem_of_swap _ _ n) in Hm as [->|Hm]; [|by apply Hl].
    destruct (Hl n) as (node & (H1 & H2 & H3 & H4 & H5) & H6 & H7); [apply elem_of_app; right; left|].
    destruct (joinHandler_keeps _ _ _ _ _ _ _ _ Hj) as (F1 & F2 & F3). exists node. split; [|done].
    unfold certDir in *. split_and!; cbn; [congruence|congruence|done| |]; unfold certDir; by rewrite F3.
Qed.

(** C33: a secure cluster trusts itself.  However a cluster grows - a founder,
    nodes that join through any node there is, restarts from disk, requests
    answered in between - every node accepts every node's certificate, in its
    authentication and in both directions of TLS, while that certificate and the
    founder's are valid, and reads the right node ID from it; a certificate
    signed by another authority is refused. *)
Theorem secure_cluster_trusts_itself (l : list secureNode) (a b : secureNode) (now : Z) :
  grown l -> a ∈ l -> b ∈ l -> nm_ID (sn_self b) <> ""%string ->
  exists root cert, cta_CACert (sn_auth a) = Some root /\ tls_RootCAs (sn_tls a) = Some root /\
    tls_ClientCAs (sn_tls a) = Some root /\ nc_Cert (tls_Certificate (sn_tls b)) = cert /\
    CertAuth_Credentials (sn_auth b) = inl (certDER cert) /\ PeerNodeID (certDER cert) = inl (nm_ID (sn_self b)) /\
    c_NotAfter cert = c_NotBefore cert + oneYear /\
    (validAt now root = true -> validAt now cert = true ->
       x509_Verify now root cert = None /\ CertAuth_Verify (sn_auth a) now (certDER cert) = None) /\
    (forall c, c <> root -> c_Signer c <> c_PublicKey root -> is_Some (CertAuth_Verify (sn_auth a) now (certDER c))).
Proof.
  intros Hg Ha Hb Hid. destruct (grown_inv l Hg) as (ca & Hca & Hl).
  destruct (Hl a Ha) as (na & _ & Ea1 & Ea2), (Hl b Hb) as (nb & (_ & _ & (Hok & _) & _) & Eb1 & Eb2).
  exists (ca_Cert ca), (nc_Cert nb). rewrite Ea1, Ea2, Eb1, Eb2. pose proof Hok as (Hcn & _ & _ & Hna).
  unfold CertAuth_Verify, PeerNodeID. cbn. rewrite !parse_cert, Hcn, (bool_decide_false (nm_ID _ = _)) by done.
  split_and!; try done.
  - intros Hv1 Hv2. pose proof (issued_verifies _ _ _ now Hca Hok Hv1 Hv2) as E.
    by rewrite E, bool_decide_false by apply cert_not_empty.
  - intros c Hc Hs. rewrite parse_cert, bool_decide_false by apply cert_not_empty.
    destruct (foreign_refused (ca_Cert ca) c now Hc Hs) as [e ->]. by eexists.
Qed.
End theorems.

(** ** A founder and a node that joins it *)

Section example.
#[local] Existing Instance example_encodings.
#[local] Existing Instance example_laws.

Definition example_token : bytes := toBytes "secret".

#[local] Instance request_fits_dec req : Decision (request_fits req).
Proof. unfold request_fits, fits. apply _. Defined.
#[local] Instance response_fits_dec resp : Decision (response_fits resp).
Proof. unfold response_fits, fits. apply _. Defined.

(** Joining through the join server of [n]. *)
Definition join_via (n : secureNode) (_ : string) (req : JoinRequest) : JoinResponse + string :=
  let handler := node_handler (inl 7) 5000 n in
  if decide (request_fits req) then
    if (match handler req with inl r => bool_decide (response_fits r) | inr _ => true end) then
      match exchange 2 (joinConn example_hmac example_token (inl (example_nonce "c")) req)
              (handleConn example_hmac example_token (inl (example_nonce "s")) handler) [] [] with
      | Some (r, _) => r
      | None => inr "timeout"%string
      end
    else inr "too large"%string
  else inr "too large"%string.

Lemma join_via_answers n l : n ∈ l -> answered_by example_hmac example_token l (join_via n).
Proof.
  intros Hn seed req resp. unfold join_via. destruct (decide _) as [Hreq|]; [|done].
  destruct (match node_handler _ _ n req with inl r => _ | inr _ => _ end) eqn:Hr; [|done].
  assert (forall r, node_handler (inl 7) 5000 n req = inl r -> response_fits r) as Hresp.
  { intros r E. rewrite E in Hr. by apply bool_decide_eq_true in Hr. }
  destruct (exchange _ _ _ _ _) as [[r o]|] eqn:Ex; [|done]. intros ->.
  exists n, (example_nonce "c"), (example_nonce "s"), (inl 7), 5000. split_and!; [done|done|done|done|done|].
  rewrite (handshake_agrees example_hmac example_hmac_size) in * by done. injection Ex as <- <-. done.
Qed.

Definition example_env (join : string -> JoinRequest -> JoinResponse + string) (key : Z) : bootstrapEnv :=
  mkBootstrapEnv (inl (mkPrivateKey 1)) (inl 1) (inl (mkPrivateKey key)) (inl 2) 1000 join None
    (fun ca node => map_to_list (cert_files ca node)) (fun _ => None) inl true.

Lemma example_env_ok join key : env_ok (example_env join key).
Proof. intros ca node. unfold in_order. reflexivity. Qed.

(** The node that a bootstrap makes. *)
Definition started (env : bootstrapEnv) (self : NodeMeta) (cfg : SecureFixedProviderConfig) (fs : fileSystem) :
    option secureNode :=
  match Bootstrap env self (NewSecureFixedProvider cfg) fs with
  | Some (sp, fs, inl (tls, auth)) => Some (mkSecureNode self sp fs tls auth)
  | _ => None
  end.

Lemma started_bootstrapped env self cfg fs n : started env self cfg fs = Some n -> bootstrapped env self cfg fs n.
Proof.
  unfold started, bootstrapped. destruct (Bootstrap _ _ _ _) as [[[sp fs'] [[tls auth]|]]|]; [|done|done].
  by intros [= <-].
Qed.

Definition secure_cfg (seeds : list string) : SecureFixedProviderConfig :=
  mkSecureFixedProviderConfig seeds example_token "data" "" 0 None None.

Definition founder_env : bootstrapEnv := example_env (fun _ _ => inr "no"%string) 12.
Definition founder_self : NodeMeta := mkNodeMeta "n1" "10.0.0.1:7946" ∅ 0.
Definition joiner_self : NodeMeta := mkNodeMeta "n2" "10.0.0.2:7946" ∅ 0.

Definition founder : option secureNode := started founder_env founder_self (secure_cfg []) ∅.
Definition joiner (n : secureNode) : option secureNode :=
  started (example_env (join_via n) 13) joiner_self (secure_cfg ["10.0.0.1:7947"%string]) ∅.

Definition both_start : bool :=
  match founder with Some n => match joiner n with Some _ => true | None => false end | None => false end.

Lemma they_start : both_start = true.
Proof. vm_compute. reflexivity. Qed.

Lemma secure_cluster_trusts_itself_witness :
  exists n1 n2 root cert, founder = Some n1 /\ joiner n1 = Some n2 /\ grown example_hmac example_token [n1; n2] /\
    cta_CACert (sn_auth n1) = Some root /\ nc_Cert (tls_Certificate (sn_tls n2)) = cert /\
    PeerNodeID (certDER cert) = inl "n2"%string /\
    (validAt 6000 root = true -> validAt 6000 cert = true ->
      x509_Verify 6000 root cert = None /\ CertAuth_Verify (sn_auth n1) 6000 (certDER cert) = None).
Proof.
  pose proof they_start as Hs. unfold both_start in Hs. destruct founder as [n1|] eqn:E1; [|discriminate].
  destruct (joiner n1) as [n2|] eqn:E2; [|discriminate].
  pose proof (started_bootstrapped _ _ _ _ _ E1) as B1. pose proof (started_bootstrapped _ _ _ _ _ E2) as B2.
  assert (grown example_hmac example_token [n1]) as G1.
  { apply (grown_found example_hmac example_token founder_env founder_self (secure_cfg []) ∅ n1); [apply example_env_ok|reflexivity|reflexivity|exact B1]. }
  assert (grown example_hmac example_token [n1; n2]) as G2.
  { apply (grown_join example_hmac example_token [n1] (example_env (join_via n1) 13) joiner_self
      (secure_cfg ["10.0.0.1:7947"%string]) ∅ n2 G1); [apply example_env_ok|discriminate|reflexivity| |exact B2].
    apply join_via_answers. left. }
  pose proof (proj1 B2) as Eself.
  destruct (secure_cluster_trusts_itself example_hmac example_hmac_size example_token [n1; n2] n1 n2 6000 G2)
    as (root & cert & H1 & _ & _ & H2 & _ & H3 & _ & H4 & _).
  - left.
  - right. left.
  - rewrite Eself. discriminate.
  - exists n1, n2, root, cert. rewrite Eself in H3. repeat (split; [assumption || reflexivity|]). exact H4.
Defined.
End example.

(** ** Restarts *)

Section restart.
Context `{Encodings}.

Lemma probe_nothing rounds p :
  FixedProvider.Seeds (FixedProvider.cfg p) = [] ->
  foldl (fun o '(now, probe) => o ≫= FixedProvider.probeAll now probe) (Some p) rounds = Some p.
Proof.
  intros Hp. induction rounds as [|[now probe] rounds IH]; [done|]. cbn [foldl mbind option_bind].
  unfold FixedProvider.probeAll at 2. rewrite Hp. exact IH.
Qed.

(** The provider of a node that starts again from the certificates on its disk. *)
Lemma restarted_provider env self cfg fs fs' sp sp' e r :
  CertsExist (sc_DataDir cfg +:+ "/certs") fs = true ->
  Bootstrap env self (NewSecureFixedProvider cfg) fs = Some (sp, fs', inl r) -> Secure_Start self sp = Some (sp', e) ->
  Secure_HasSeeds sp' = negb (bool_decide (sc_Seeds cfg = [])) /\ e = None /\
  exists p, sp_inner sp' = Some p /\ FixedProvider.Seeds (FixedProvider.cfg p) = [] /\ FixedProvider.members p = ∅ /\
    ef_ch (FixedProvider.feed p) = [].
Proof.
  intros Hex Hb Hs. unfold Bootstrap, obtain, certDir in Hb. cbn [sp_cfg NewSecureFixedProvider] in Hb. rewrite Hex in Hb.
  destruct (LoadCerts _ _) as [[ca node]|]; [|done]. unfold serve in Hb.
  destruct (be_listen _ _); [|done]. cbn -[ServerTLSConfig ClientTLSConfig FixedProvider.NewFixedProvider] in Hb.
  destruct (negb (be_factory env)); [done|]. injection Hb as <- _ _.
  unfold Secure_Start, on_inner in Hs. cbn in Hs. injection Hs as <- <-. split_and!; [done|done|]. by eexists.
Qed.

(** A node that starts again from the certificates on its disk forgets its
    seeds: it still reports that it has them, but no number of probe rounds finds
    a member or reports an event, until another node joins through it. *)
Theorem restart_forgets_seeds (env : bootstrapEnv) (self : NodeMeta) (cfg : SecureFixedProviderConfig) (fs fs' : fileSystem)
    (sp sp' : SecureFixedProvider) (e : option string) r (rounds : list (Z * option (string -> bool))) :
  CertsExist (sc_DataDir cfg +:+ "/certs") fs = true ->
  Bootstrap env self (NewSecureFixedProvider cfg) fs = Some (sp, fs', inl r) ->
  Secure_Start self sp = Some (sp', e) ->
  Secure_HasSeeds sp' = negb (bool_decide (sc_Seeds cfg = [])) /\ e = None /\
  exists p, sp_inner sp' = Some p /\
    foldl (fun o '(now, probe) => o ≫= FixedProvider.probeAll now probe) (Some p) rounds = Some p /\
    FixedProvider.Members p = [] /\ ef_ch (FixedProvider.feed p) = [].
Proof.
  intros Hex Hb Hs. destruct (restarted_provider _ _ _ _ _ _ _ _ _ Hex Hb Hs) as (H1 & H2 & p & H3 & H4 & H5 & H6).
  split_and!; [done|done|]. exists p. split_and!; [done|by apply probe_nothing| |done].
  unfold FixedProvider.Members. by rewrite H5.
Qed.
End restart.

Section restart_example.
#[local] Existing Instance example_encodings.

(** The founder of the example again, on its disk, now with a seed. *)
Definition restart_cfg : SecureFixedProviderConfig := secure_cfg ["10.0.0.9:7947"%string].

Definition restarts : bool :=
  match founder with
  | Some n =>
      CertsExist (sc_DataDir restart_cfg +:+ "/certs") (sn_fs n) &&
      match Bootstrap founder_env founder_self (NewSecureFixedProvider restart_cfg) (sn_fs n) with
      | Some (sp, _, inl _) => bool_decide (is_Some (Secure_Start founder_self sp))
      | _ => false
      end
  | None => false
  end.

Lemma restarts_true : restarts = true.
Proof. vm_compute. reflexivity. Qed.

Lemma restart_forgets_seeds_witness :
  exists n sp fs r sp' e, founder = Some n /\
    Bootstrap founder_env founder_self (NewSecureFixedProvider restart_cfg) (sn_fs n) = Some (sp, fs, inl r) /\
    Secure_Start founder_self sp = Some (sp', e) /\ Secure_HasSeeds sp' = true /\
    exists p, sp_inner sp' = Some p /\ FixedProvider.Members p = [].
Proof.
  pose proof restarts_true as Hr. unfold restarts in Hr. destruct founder as [n|] eqn:En; [|discriminate].
  apply andb_prop in Hr as [Hex Hr].
  destruct (Bootstrap founder_env founder_self (NewSecureFixedProvider restart_cfg) (sn_fs n))
    as [[[sp fs] [r|]]|] eqn:Eb; [|discriminate|discriminate].
  apply bool_decide_eq_true in Hr. destruct Hr as [[sp' e] Es].
  destruct (restart_forgets_seeds founder_env founder_self restart_cfg (sn_fs n) fs sp sp' e r
    [(7, Some (fun _ => true)); (9, None)] Hex Eb Es) as (H1 & _ & p & H2 & _ & H3 & _).
  exists n, sp, fs, r, sp', e. repeat (split; [assumption || reflexivity|]). exists p. split; assumption.
Defined.
End restart_example.

(** ** Join addresses *)

Lemma append_assoc a b c : (a +:+ b) +:+ c = a +:+ (b +:+ c).
Proof.
  induction a as [|x a IH]; [done|]. change (String x ((a +:+ b) +:+ c) = String x (a +:+ (b +:+ c))). by rewrite IH.
Qed.

Lemma hasByte_cons c x s : hasByte c (String x s) = (if ascii_dec x c then true else hasByte c s).
Proof.
  unfold hasByte. cbn. destruct (ascii_dec x c); [by apply bool_decide_eq_true_2|].
  destruct (cutFirst c s) as [[a b]|]; [by rewrite !bool_decide_eq_true_2 by done|done].
Qed.

Lemma cutLast_app c a b : hasByte c b = false -> cutLast c (a +:+ String c b) = Some (a, b).
Proof.
  intros Hb. assert (cutLast c b = None) as E.
  { clear a. induction b as [|x b IH]; [done|]. unfold hasByte in *. cbn in *.
    destruct (ascii_dec x c); [done|]. rewrite IH; [done|]. by destruct (cutFirst c b) as [[]|]. }
  induction a as [|x a IH].
  - change (cutLast c (String c b) = Some (EmptyString, b)). cbn. rewrite E. by destruct (ascii_dec c c).
  - change (String x a +:+ String c b) with (String x (a +:+ String c b)). cbn. by rewrite IH.
Qed.

Lemma cutFirst_app c a b : hasByte c a = false -> cutFirst c (a +:+ String c b) = Some (a, b).
Proof.
  induction a as [|x a IH]; intros Ha.
  - change (cutFirst c (String c b) = Some (EmptyString, b)). cbn. by destruct (ascii_dec c c).
  - change (String x a +:+ String c b) with (String x (a +:+ String c b)). rewrite hasByte_cons in Ha. cbn.
    destruct (ascii_dec x c); [done|]. by rewrite IH.
Qed.

Lemma hasByte_app c a b : hasByte c (a +:+ b) = hasByte c a || hasByte c b.
Proof.
  induction a as [|x a IH]; [done|]. change (String x a +:+ b) with (String x (a +:+ b)).
  rewrite !hasByte_cons. destruct (ascii_dec x c); [done|exact IH].
Qed.

(** A host and a port without delimiters of their own are read back, also for
    hosts with colons. *)
Lemma SplitHostPort_JoinHostPort host port :
  hasByte "[" host = false -> hasByte "]" host = false ->
  hasByte ":" port = false -> hasByte "[" port = false -> hasByte "]" port = false ->
  SplitHostPort (JoinHostPort host port) = Some (host, port).
Proof.
  intros H1 H2 P1 P2 P3. unfold JoinHostPort, SplitHostPort. destruct (hasByte ":" host) eqn:E.
  - replace ("[" +:+ host +:+ "]:" +:+ port) with (("[" +:+ host +:+ "]") +:+ String ":" port)
      by (change (String "[" ((host +:+ "]") +:+ String ":" port) = String "[" (host +:+ String "]" (String ":" port)));
          by rewrite append_assoc).
    rewrite cutLast_app by done. change ("[" +:+ host +:+ "]") with (String "[" (host +:+ String "]" "")). cbn.
    rewrite cutFirst_app by done. by rewrite hasByte_app, H1, P2, P3.
  - change (host +:+ ":" +:+ port) with (host +:+ String ":" port). rewrite cutLast_app by done.
    assert (hasByte "[" (host +:+ String ":" port) = false /\ hasByte "]" (host +:+ String ":" port) = false) as [F1 F2]
      by (rewrite !hasByte_app, !hasByte_cons, H1, H2, P2, P3; done).
    destruct host as [|x h]; [by rewrite E, F1, F2|].
    rewrite E, F1, F2. cbn [orb]. rewrite hasByte_cons in H1.
    destruct x as [[] [] [] [] [] [] [] []]; try done.
Qed.

(** The last port has no next one: the join server of such a node cannot
    listen. *)
Example incrementPort_overflows :
  incrementPort "10.0.0.1:65535" = "10.0.0.1:65536"%string /\ incrementPort "[::1]:7946" = "[::1]:7947"%string /\
  incrementPort "10.0.0.1:0" = "10.0.0.1:0"%string /\ incrementPort "10.0.0.1" = "10.0.0.1"%string.
Proof. split_and!; vm_compute; reflexivity. Qed.
