(* ===== verification/Clouds.v ===== *)
(** * Discovery through cloud interfaces ([pkg/awsprovider], [pkg/gcpprovider],
      [pkg/azureprovider])

    Each provider lists the instances of a cloud account, keeps those that run,
    and turns them into members for the poller of [Polling.v].  What a listing
    returns is the environment's: a client is a function of the time of the call.
    The types of the cloud libraries are parameters with the accessors the clients
    use.  [None] is a nil dereference, a call of a nil function, or a panic of the
    poller. *)

From S2P Require Import Prelude Nodes Feed Seeds Polling Detection Certs Secure.

Import Poller.

(** ** What the providers share *)

(** Whether an address answers, at a time. *)
Abbreviation ProbeFunc := (Z -> string -> bool) (only parsing).

(** The loop over the instances of a listing; [None] skips one. *)
Fixpoint collect {Info} (member : Z -> Info -> option (option NodeMeta)) (now : nat -> Z) (instances : list Info) :
    option (list NodeMeta) :=
  match instances with
  | [] => Some []
  | inst :: rest =>
      m ← member (now 0%nat) inst; ms ← collect member (fun i => now (S i)) rest;
      Some (match m with Some m => m :: ms | None => ms end)
  end.

(** [fmt.Sprintf("%s:%d", ip, port)]. *)
Definition ipPort (ip : string) (port : Z) : string := ip +:+ ":" +:+ pretty port.

Definition orZero (d v : Z) : Z := if v <=? 0 then d else v.

(** One poll of a provider: its discovery, through the probe if there is one. *)
Definition pollOnce (discovered : option (list NodeMeta + string)) (probe : option (string -> bool)) (p : Poller) :
    option Poller :=
  r ← discovered;
  let found := match r with inl members => Some members | inr _ => None end in
  poll (match probe with Some f => WithProbe found f | None => found end) p.

(** The poller of a provider that was started; [Stop] and [Members] on a nil one. *)
Definition stopPoller (p : option Poller) : option (option Poller * option string) :=
  match p with
  | None => Some (None, Some ErrProviderNotStarted)
  | Some p => '(p, e) ← Stop p; Some (Some p, e)
  end.

Definition pollerMembers (p : option Poller) : list NodeMeta := match p with None => [] | Some p => Members p end.

(** [Events], as what a receive returns; a nil channel has nothing. *)
Definition pollerRecv (p : option Poller) : option Poller * option MemberEvent :=
  match p with None => (None, None) | Some p => let '(p, ev) := recv p in (Some p, ev) end.

(** ** AWS *)

Record aws_InstanceInfo := mkAwsInstance {
  ai_ID : string;
  ai_PrivateIP : string;
  ai_State : string;
  ai_Tags : gmap string string;
  ai_Region : string;
  ai_Zone : string;
  ai_InstanceType : string
}.

Definition aws_InstanceLister : Type := Z -> gmap string string -> list aws_InstanceInfo + string.

Record aws_Config := mkAwsConfig {
  ac_Region : string;
  ac_TagFilters : gmap string string;
  ac_Port : Z;
  ac_AddrFunc : option (string -> aws_InstanceInfo -> string);
  ac_NodeIDFrom : option (aws_InstanceInfo -> NodeID);
  ac_PollInterval : Z;
  ac_FailureThreshold : Z;
  ac_Client : option aws_InstanceLister;
  ac_Probe : option ProbeFunc
}.

Definition aws_setDefaults (c : aws_Config) : aws_Config :=
  let port := if ac_Port c =? 0 then 9000 else ac_Port c in
  mkAwsConfig (ac_Region c) (ac_TagFilters c) port
    (Some (match ac_AddrFunc c with Some f => f | None => fun ip _ => ipPort ip port end))
    (Some (match ac_NodeIDFrom c with Some f => f | None => ai_ID end))
    (orZero 10000000000 (ac_PollInterval c)) (orZero 3 (ac_FailureThreshold c)) (ac_Client c) (ac_Probe c).

(** [AWSProvider], with the client its discovery function holds. *)
Record AWSProvider := mkAWSProvider {
  ap_cfg : aws_Config;
  ap_client : option aws_InstanceLister;
  ap_poller : option Poller
}.

Definition aws_NewWithConfig (c : aws_Config) : AWSProvider := mkAWSProvider (aws_setDefaults c) None None.

Definition aws_New : AWSProvider := aws_NewWithConfig (mkAwsConfig "" ∅ 0 None None 0 0 None None).

Definition aws_tags (inst : aws_InstanceInfo) : gmap string string :=
  <["cloud.instance-type"%string := ai_InstanceType inst]> (<["cloud.instance-id"%string := ai_ID inst]>
  (<["cloud.zone"%string := ai_Zone inst]> (<["cloud.region"%string := ai_Region inst]>
  (<["cloud.provider"%string := "aws"%string]> (ai_Tags inst))))).

(** The body of the loop of [buildDiscover]. *)
Definition aws_member (cfg : aws_Config) (now : Z) (inst : aws_InstanceInfo) : option (option NodeMeta) :=
  if negb (bool_decide (ai_State inst = "running"%string)) then Some None
  else
    nodeID ← ac_NodeIDFrom cfg; addr ← ac_AddrFunc cfg;
    Some (Some (mkNodeMeta (nodeID inst) (addr (ai_PrivateIP inst) inst) (aws_tags inst) now)).

Definition buildDiscover (cfg : aws_Config) (client : aws_InstanceLister) (t : Z) (now : nat -> Z) :
    option (list NodeMeta + string) :=
  match client t (ac_TagFilters cfg) with
  | inr e => Some (inr e)
  | inl instances => members ← collect (aws_member cfg) now instances; Some (inl members)
  end.

Definition aws_Start (newClient : aws_InstanceLister + string) (self : NodeMeta) (p : AWSProvider) :
    AWSProvider * option string :=
  match (match ac_Client (ap_cfg p) with Some c => inl c | None => newClient end) with
  | inr e => (p, Some ("awsprovider: " +:+ e)%string)
  | inl client =>
      let '(poller, err) := Start self (NewPoller (mkPollerConfig (ac_PollInterval (ap_cfg p)) (ac_FailureThreshold (ap_cfg p)) 0)) in
      (mkAWSProvider (ap_cfg p) (Some client) (Some poller), err)
  end.

(** A poll of the running provider, at time [t]. *)
Definition aws_poll (t : Z) (now : nat -> Z) (p : AWSProvider) : option AWSProvider :=
  client ← ap_client p; poller ← ap_poller p;
  poller ← pollOnce (buildDiscover (ap_cfg p) client t now) ((fun f => f t) <$> ac_Probe (ap_cfg p)) poller;
  Some (mkAWSProvider (ap_cfg p) (ap_client p) (Some poller)).

Definition aws_Stop (p : AWSProvider) : option (AWSProvider * option string) :=
  '(poller, e) ← stopPoller (ap_poller p); Some (mkAWSProvider (ap_cfg p) (ap_client p) poller, e).

Definition aws_Members (p : AWSProvider) : list NodeMeta := pollerMembers (ap_poller p).

Definition aws_Events (p : AWSProvider) : AWSProvider * option MemberEvent :=
  let '(poller, ev) := pollerRecv (ap_poller p) in (mkAWSProvider (ap_cfg p) (ap_client p) poller, ev).

(** The default client, over the library's instances. *)
Class Ec2Instance (T : Type) := {
  ec2_InstanceId : T -> option string;
  ec2_PrivateIpAddress : T -> option string;
  ec2_State : T -> option string;
  ec2_Placement : T -> option (option string);
  ec2_InstanceType : T -> string;
  ec2_Tags : T -> list (option string * option string)
}.

Definition ec2_info `{Ec2Instance T} (region : string) (inst : T) : aws_InstanceInfo :=
  mkAwsInstance (default ""%string (ec2_InstanceId inst)) (default ""%string (ec2_PrivateIpAddress inst))
    (default ""%string (ec2_State inst))
    (foldl (fun tags '(k, v) => match k, v with Some k, Some v => <[k := v]> tags | _, _ => tags end) ∅ (ec2_Tags inst))
    region (default ""%string (default None (ec2_Placement inst))) (ec2_InstanceType inst).

(** The filters of a request, in the order in which the map is ranged over. *)
Definition ec2_filters (filters : list (string * string)) : list (string * list string) :=
  (fun '(k, v) => ("tag:" +:+ k, [v])) <$> filters.

(** [ListInstances]: pages of reservations of instances, or an error. *)
Fixpoint aws_ListInstances `{Ec2Instance T} (region : string) (pages : list (list (list T) + string))
    (instances : list aws_InstanceInfo) : list aws_InstanceInfo + string :=
  match pages with
  | [] => inl instances
  | inr e :: _ => inr ("ec2 describe instances: " +:+ e)%string
  | inl reservations :: pages =>
      aws_ListInstances region pages (instances ++ (ec2_info region <$> concat reservations))
  end.

(** ** Google Cloud *)

Record gcp_InstanceInfo := mkGcpInstance {
  gi_ID : string;
  gi_Name : string;
  gi_PrivateIP : string;
  gi_Status : string;
  gi_Labels : gmap string string;
  gi_Zone : string;
  gi_MachineType : string
}.

Definition gcp_InstanceLister : Type :=
  Z -> string -> string -> gmap string string -> list gcp_InstanceInfo + string.

Record gcp_Config := mkGcpConfig {
  gc_Project : string;
  gc_Zone : string;
  gc_LabelFilters : gmap string string;
  gc_Port : Z;
  gc_AddrFunc : option (string -> gcp_InstanceInfo -> string);
  gc_NodeIDFrom : option (gcp_InstanceInfo -> NodeID);
  gc_PollInterval : Z;
  gc_FailureThreshold : Z;
  gc_Client : option gcp_InstanceLister;
  gc_Probe : option ProbeFunc
}.

Definition gcp_setDefaults (c : gcp_Config) : gcp_Config :=
  mkGcpConfig (gc_Project c) (gc_Zone c) (gc_LabelFilters c) (orZero 9000 (gc_Port c)) (gc_AddrFunc c) (gc_NodeIDFrom c)
    (orZero 10000000000 (gc_PollInterval c)) (orZero 3 (gc_FailureThreshold c)) (gc_Client c) (gc_Probe c).

Record GCPProvider := mkGCPProvider { gp_cfg : gcp_Config; gp_poller : option Poller }.

Definition gcp_NewWithConfig (c : gcp_Config) : GCPProvider := mkGCPProvider (gcp_setDefaults c) None.

Definition gcp_New (project zone : string) : GCPProvider :=
  gcp_NewWithConfig (mkGcpConfig project zone ∅ 0 None None 0 0 None None).

Definition gcp_nodeID (cfg : gcp_Config) (info : gcp_InstanceInfo) : NodeID :=
  match gc_NodeIDFrom cfg with Some f => f info | None => gi_Name info end.

Definition gcp_addr (cfg : gcp_Config) (info : gcp_InstanceInfo) : string :=
  match gc_AddrFunc cfg with Some f => f (gi_PrivateIP info) info | None => ipPort (gi_PrivateIP info) (gc_Port cfg) end.

Definition gcp_buildTags (info : gcp_InstanceInfo) : gmap string string :=
  <["cloud.instance-type"%string := gi_MachineType info]> (<["cloud.instance-id"%string := gi_ID info]>
  (<["cloud.zone"%string := gi_Zone info]> (<["cloud.provider"%string := "gcp"%string]> (gi_Labels info)))).

Definition gcp_member (cfg : gcp_Config) (now : Z) (inst : gcp_InstanceInfo) : option (option NodeMeta) :=
  if negb (bool_decide (gi_Status inst = "RUNNING"%string)) then Some None
  else if bool_decide (gi_PrivateIP inst = ""%string) then Some None
  else Some (Some (mkNodeMeta (gcp_nodeID cfg inst) (gcp_addr cfg inst) (gcp_buildTags inst) now)).

(** [Start] has stored the client in the configuration. *)
Definition makeDiscoverFunc (cfg : gcp_Config) (t : Z) (now : nat -> Z) : option (list NodeMeta + string) :=
  client ← gc_Client cfg;
  match client t (gc_Project cfg) (gc_Zone cfg) (gc_LabelFilters cfg) with
  | inr e => Some (inr e)
  | inl instances => members ← collect (gcp_member cfg) now instances; Some (inl members)
  end.

Definition gcp_set_Client (client : gcp_InstanceLister) (c : gcp_Config) : gcp_Config :=
  mkGcpConfig (gc_Project c) (gc_Zone c) (gc_LabelFilters c) (gc_Port c) (gc_AddrFunc c) (gc_NodeIDFrom c)
    (gc_PollInterval c) (gc_FailureThreshold c) (Some client) (gc_Probe c).

Definition gcp_Start (newClient : gcp_InstanceLister + string) (self : NodeMeta) (p : GCPProvider) :
    GCPProvider * option string :=
  match (match gc_Client (gp_cfg p) with Some c => inl c | None => newClient end) with
  | inr e => (p, Some ("gcpprovider: " +:+ e)%string)
  | inl client =>
      let cfg := gcp_set_Client client (gp_cfg p) in
      let '(poller, err) := Start self (NewPoller (mkPollerConfig (gc_PollInterval cfg) (gc_FailureThreshold cfg) 0)) in
      (mkGCPProvider cfg (Some poller), err)
  end.

Definition gcp_poll (t : Z) (now : nat -> Z) (p : GCPProvider) : option GCPProvider :=
  poller ← gp_poller p;
  poller ← pollOnce (makeDiscoverFunc (gp_cfg p) t now) ((fun f => f t) <$> gc_Probe (gp_cfg p)) poller;
  Some (mkGCPProvider (gp_cfg p) (Some poller)).

Definition gcp_Stop (p : GCPProvider) : option (GCPProvider * option string) :=
  '(poller, e) ← stopPoller (gp_poller p); Some (mkGCPProvider (gp_cfg p) poller, e).

Definition gcp_Members (p : GCPProvider) : list NodeMeta := pollerMembers (gp_poller p).

Definition gcp_Events (p : GCPProvider) : GCPProvider * option MemberEvent :=
  let '(poller, ev) := pollerRecv (gp_poller p) in (mkGCPProvider (gp_cfg p) poller, ev).

(** The default client, over the library's instances. *)
Class GceInstance (T : Type) := {
  gce_GetName : T -> string;
  gce_GetStatus : T -> string;
  gce_GetLabels : T -> gmap string string;
  gce_Id : T -> option Z;
  gce_NetworkIPs : T -> list string;  (* of its network interfaces *)
  gce_GetMachineType : T -> string
}.

(** The parts of the expression, in the order in which the map is ranged over. *)
Definition buildFilter (labels : list (string * string)) : string :=
  String.concat " AND " ((fun '(k, v) => "labels." +:+ k +:+ "=" +:+ v) <$> labels).

Definition extractMachineType (fullURL : string) : string :=
  match cutLast "/" fullURL with Some (_, short) => short | None => fullURL end.

Definition gce_info `{GceInstance T} (zone : string) (inst : T) : gcp_InstanceInfo :=
  mkGcpInstance (match gce_Id inst with Some id => pretty id | None => ""%string end) (gce_GetName inst)
    (match gce_NetworkIPs inst with ip :: _ => ip | [] => ""%string end) (gce_GetStatus inst) (gce_GetLabels inst) zone
    (if bool_decide (gce_GetMachineType inst = ""%string) then ""%string else extractMachineType (gce_GetMachineType inst)).

(** [ListInstances]: what the iterator yields until it is done, or an error. *)
Fixpoint gcp_ListInstances `{GceInstance T} (zone : string) (it : list (T + string)) (instances : list gcp_InstanceInfo) :
    list gcp_InstanceInfo + string :=
  match it with
  | [] => inl instances
  | inr e :: _ => inr ("gcpprovider: list instances: " +:+ e)%string
  | inl inst :: it => gcp_ListInstances zone it (instances ++ [gce_info zone inst])
  end.

(** ** Azure *)

Record VMInfo := mkVMInfo {
  vi_ID : string;
  vi_Name : string;
  vi_PrivateIP : string;
  vi_State : string;
  vi_Tags : gmap string string;
  vi_Location : string;
  vi_VMSize : string
}.

Definition VMLister : Type := Z -> string -> gmap string string -> list VMInfo + string.

Record az_Config := mkAzConfig {
  zc_SubscriptionID : string;
  zc_ResourceGroup : string;
  zc_TagFilters : gmap string string;
  zc_Port : Z;
  zc_AddrFunc : option (string -> VMInfo -> string);
  zc_NodeIDFrom : option (VMInfo -> NodeID);
  zc_PollInterval : Z;
  zc_FailureThreshold : Z;
  zc_Client : option VMLister;
  zc_Probe : option ProbeFunc
}.

Definition az_setDefaults (c : az_Config) : az_Config :=
  let port := orZero 9000 (zc_Port c) in
  mkAzConfig (zc_SubscriptionID c) (zc_ResourceGroup c) (zc_TagFilters c) port
    (Some (match zc_AddrFunc c with Some f => f | None => fun ip _ => ipPort ip port end))
    (Some (match zc_NodeIDFrom c with Some f => f | None => vi_Name end))
    (orZero 10000000000 (zc_PollInterval c)) (orZero 3 (zc_FailureThreshold c)) (zc_Client c) (zc_Probe c).

Record AzureProvider := mkAzureProvider { zp_cfg : az_Config; zp_poller : option Poller }.

Definition az_NewWithConfig (c : az_Config) : AzureProvider := mkAzureProvider (az_setDefaults c) None.

Definition az_New (subscriptionID resourceGroup : string) : AzureProvider :=
  az_NewWithConfig (mkAzConfig subscriptionID resourceGroup ∅ 0 None None 0 0 None None).

(** [strings.ToLower] on ASCII letters. *)
Definition lowerByte (c : ascii) : ascii :=
  let n := nat_of_ascii c in if (65 <=? n)%nat && (n <=? 90)%nat then ascii_of_nat (n + 32) else c.

Fixpoint ToLower (s : string) : string :=
  match s with EmptyString => EmptyString | String c s => String (lowerByte c) (ToLower s) end.

(** [strings.Contains]. *)
Fixpoint Contains (s sub : string) : bool :=
  String.prefix sub s || match s with EmptyString => false | String _ s => Contains s sub end.

Definition az_running (vm : VMInfo) : bool := Contains (ToLower (vi_State vm)) "running".

Definition az_tag (k v : string) (tags : gmap string string) : gmap string string :=
  if bool_decide (v = ""%string) then tags else <[k := v]> tags.

Definition az_tags (vm : VMInfo) : gmap string string :=
  az_tag "cloud.instance-type" (vi_VMSize vm) (az_tag "cloud.instance-id" (vi_ID vm)
  (az_tag "cloud.region" (vi_Location vm) (<["cloud.provider"%string := "azure"%string]> (vi_Tags vm)))).

Definition az_member (cfg : az_Config) (now : Z) (vm : VMInfo) : option (option NodeMeta) :=
  if negb (az_running vm) then Some None
  else if bool_decide (vi_PrivateIP vm = ""%string) then Some None
  else
    nodeID ← zc_NodeIDFrom cfg; addr ← zc_AddrFunc cfg;
    Some (Some (mkNodeMeta (nodeID vm) (addr (vi_PrivateIP vm) vm) (az_tags vm) now)).

Definition discoverFunc (cfg : az_Config) (t : Z) (now : nat -> Z) : option (list NodeMeta + string) :=
  client ← zc_Client cfg;
  match client t (zc_ResourceGroup cfg) (zc_TagFilters cfg) with
  | inr e => Some (inr e)
  | inl vms => members ← collect (az_member cfg) now vms; Some (inl members)
  end.

Definition az_set_Client (client : VMLister) (c : az_Config) : az_Config :=
  mkAzConfig (zc_SubscriptionID c) (zc_ResourceGroup c) (zc_TagFilters c) (zc_Port c) (zc_AddrFunc c) (zc_NodeIDFrom c)
    (zc_PollInterval c) (zc_FailureThreshold c) (Some client) (zc_Probe c).

Definition az_Start (newClient : VMLister + string) (self : NodeMeta) (p : AzureProvider) :
    AzureProvider * option string :=
  match (match zc_Client (zp_cfg p) with Some c => inl c | None => newClient end) with
  | inr e => (p, Some ("azureprovider: start: " +:+ e)%string)
  | inl client =>
      let cfg := az_set_Client client (zp_cfg p) in
      let '(poller, err) := Start self (NewPoller (mkPollerConfig (zc_PollInterval cfg) (zc_FailureThreshold cfg) 0)) in
      (mkAzureProvider cfg (Some poller), err)
  end.

Definition az_poll (t : Z) (now : nat -> Z) (p : AzureProvider) : option AzureProvider :=
  poller ← zp_poller p;
  poller ← pollOnce (discoverFunc (zp_cfg p) t now) ((fun f => f t) <$> zc_Probe (zp_cfg p)) poller;
  Some (mkAzureProvider (zp_cfg p) (Some poller)).

Definition az_Stop (p : AzureProvider) : option (AzureProvider * option string) :=
  '(poller, e) ← stopPoller (zp_poller p); Some (mkAzureProvider (zp_cfg p) poller, e).

Definition az_Members (p : AzureProvider) : list NodeMeta := pollerMembers (zp_poller p).

Definition az_Events (p : AzureProvider) : AzureProvider * option MemberEvent :=
  let '(poller, ev) := pollerRecv (zp_poller p) in (mkAzureProvider (zp_cfg p) poller, ev).

(** The default client, over the library's virtual machines: the fields the
    client reads, [None] where a pointer is nil. *)
Class AzureVM (T P : Type) := {
  vm_Name : T -> option string;
  vm_ID : T -> option string;
  vm_Location : T -> option string;
  vm_Tags : T -> option (gmap string (option string));
  vm_Properties : T -> option P;
  vp_HardwareProfile : P -> option (option string);  (* its size *)
  vp_InstanceView : P -> option (list (option (option string)));  (* the codes of its statuses *)
  vp_NetworkProfile : P -> option (list (option (option string)))  (* the IDs of its interfaces *)
}.

Definition deref (s : option string) : string := default ""%string s.

Definition flattenTags (tags : option (gmap string (option string))) : gmap string string :=
  match tags with None => ∅ | Some tags => omap (fun v => v) tags end.

Definition matchesTags (vmTags filter : gmap string string) : bool :=
  forallb (fun '(k, v) => bool_decide (default ""%string (vmTags !! k) = v)) (map_to_list filter).

(** The first interface with an ID; its properties change nothing. *)
Fixpoint firstNic (nics : list (option (option string))) : string :=
  match nics with
  | [] => ""%string
  | Some (Some id) :: _ => id
  | _ :: nics => firstNic nics
  end.

Definition extractPrivateIP `{AzureVM T P} (vm : T) : string :=
  match vm_Properties vm with
  | None => ""%string
  | Some props => match vp_NetworkProfile props with None => ""%string | Some nics => firstNic nics end
  end.

(** The first status that is a power state; a nil status is dereferenced. *)
Fixpoint powerState (statuses : list (option (option string))) : option string :=
  match statuses with
  | [] => Some ""%string
  | None :: _ => None
  | Some code :: statuses =>
      match code with
      | Some code => if String.prefix "PowerState/" code then Some code else powerState statuses
      | None => powerState statuses
      end
  end.

Definition vm_info `{AzureVM T P} (vm : T) (props : P) : option VMInfo :=
  state ← match vp_InstanceView props with Some statuses => powerState statuses | None => Some ""%string end;
  Some (mkVMInfo (deref (vm_ID vm)) (deref (vm_Name vm)) (extractPrivateIP vm) state (flattenTags (vm_Tags vm))
    (deref (vm_Location vm)) (match vp_HardwareProfile props with Some size => deref size | None => ""%string end)).

(** The loop over the machines of a page. *)
Fixpoint list_page `{AzureVM T P} (tags : gmap string string) (page : list (option T)) (results : list VMInfo) :
    option (list VMInfo) :=
  match page with
  | [] => Some results
  | None :: page => list_page tags page results
  | Some vm :: page =>
      match vm_Properties vm with
      | None => list_page tags page results
      | Some props =>
          info ← vm_info vm props;
          list_page tags page (if matchesTags (vi_Tags info) tags then results ++ [info] else results)
      end
  end.

Fixpoint ListVMs `{AzureVM T P} (tags : gmap string string) (pages : list (list (option T) + string))
    (results : list VMInfo) : option (list VMInfo + string) :=
  match pages with
  | [] => Some (inl results)
  | inr e :: _ => Some (inr ("azureprovider: list vms: " +:+ e)%string)
  | inl page :: pages => results ← list_page tags page results; ListVMs tags pages results
  end.

(** ** What a provider promises

    [CloudDiscovery] states what a discovery function does: it passes errors on,
    and otherwise finds the eligible instances of the listing under their ID and
    address. *)

Class CloudDiscovery (Info : Type) := {
  cd_list : Z -> list Info + string;
  cd_discover : Z -> (nat -> Z) -> option (list NodeMeta + string);
  cd_eligible : Info -> bool;
  cd_id : Info -> NodeID;
  cd_addr : Info -> string
}.

Class CloudDiscoveryLaws Info `{CloudDiscovery Info} := {
  cd_fails t now e : cd_list t = inr e -> cd_discover t now = Some (inr e);
  cd_finds t now l : cd_list t = inl l ->
    exists ms, cd_discover t now = Some (inl ms) /\
      (fun m => (nm_ID m, nm_Addr m)) <$> ms = (fun i => (cd_id i, cd_addr i)) <$> filter (fun i => cd_eligible i = true) l
}.

(** The members other than [self] are the nodes that some listing showed and
    that have been missing from fewer listings than the threshold. *)
Definition follows (self : NodeMeta) (threshold : Z) (hist : NodeID -> list bool) (members : list NodeMeta) : Prop :=
  forall id, id <> nm_ID self ->
    id ∈ nm_ID <$> members <-> true ∈ hist id /\ Z.of_nat (trailing (hist id)) < threshold.

(** The polls of a running provider. *)
Definition polls {P} (step : Z -> (nat -> Z) -> P -> option P) (rounds : list (Z * (nat -> Z))) (p : P) : option P :=
  foldl (fun o '(t, now) => o ≫= step t now) (Some p) rounds.

Lemma orZero_twice d v : 0 < d -> orZero d (orZero d v) = orZero d v.
Proof.
  intros Hd. unfold orZero. destruct (v <=? 0) eqn:E; [|by rewrite E]. by rewrite (proj2 (Z.leb_gt d 0)) by lia.
Qed.

Section discovery.
Context `{CloudDiscoveryLaws Info}.
Variable probe : option ProbeFunc.

(** Whether a listing shows a node: an eligible instance that answers. *)
Definition shown (t : Z) (id : NodeID) (l : list Info) : bool :=
  existsb (fun i => cd_eligible i && bool_decide (cd_id i = id) &&
    match probe with Some f => f t (cd_addr i) | None => true end) l.

(** Whether each successful listing shows a node. *)
Definition presence (rounds : list (Z * (nat -> Z))) (id : NodeID) : list bool :=
  omap (fun '(t, _) => match cd_list t with inl l => Some (shown t id l) | inr _ => None end) rounds.

Definition poll_rounds (rounds : list (Z * (nat -> Z))) (p : Poller) : option Poller :=
  foldl (fun o '(t, now) => o ≫= pollOnce (cd_discover t now) ((fun f => f t) <$> probe)) (Some p) rounds.

(** What a round gives the poller. *)
Definition discovered (t : Z) (now : nat -> Z) : option (list NodeMeta) :=
  match cd_discover t now with
  | Some (inl ms) => Some (match probe with Some f => filter (fun m => f t (nm_Addr m) = true) ms | None => ms end)
  | _ => None
  end.

Lemma pollOnce_discovered t now p :
  pollOnce (cd_discover t now) ((fun f => f t) <$> probe) p = poll (discovered t now) p.
Proof.
  unfold pollOnce, discovered. destruct (cd_list t) as [l|e] eqn:E.
  - destruct (cd_finds t now l E) as (ms & -> & _). cbn. by destruct probe.
  - rewrite (cd_fails t now e E). cbn. by destruct probe.
Qed.

Lemma foldl_none {A B} (f : A -> B -> option B) (l : list A) : foldl (fun o a => o ≫= f a) None l = None.
Proof. by induction l. Qed.

Lemma poll_rounds_run rounds p :
  poll_rounds rounds p = run_polls ((fun '(t, now) => discovered t now) <$> rounds) p.
Proof.
  unfold poll_rounds. revert p. induction rounds as [|[t now] rounds IH]; intros p; [done|].
  cbn [foldl fmap list_fmap run_polls mbind option_bind]. rewrite pollOnce_discovered.
  destruct (poll _ _) as [p'|]; [apply IH|].
  clear IH. induction rounds as [|[t' now'] rounds IH]; [done|exact IH].
Qed.

Lemma found_shown t now l id :
  cd_list t = inl l -> exists ms, discovered t now = Some ms /\ Detection.found id ms = shown t id l.
Proof.
  intros E. destruct (cd_finds t now l E) as (ms & Ed & Em). unfold discovered. rewrite Ed. eexists. split; [done|].
  clear E Ed. revert ms Em. induction l as [|i l IH]; intros ms Em.
  { destruct ms; [|done]. by destruct probe. }
  unfold shown. cbn [existsb]. rewrite filter_cons in Em. destruct (cd_eligible i); cbn in Em.
  - destruct ms as [|m ms]; [done|]. injection Em as E1 E2 Em. specialize (IH ms Em). unfold shown in IH. rewrite <- IH.
    cbn. destruct probe as [f|]; unfold Detection.found.
    + rewrite E2. destruct (f t (cd_addr i)) eqn:Ef; cbn.
      * rewrite decide_True, andb_true_r by done. cbn. by rewrite E1.
      * by rewrite decide_False, andb_false_r by done.
    + cbn. by rewrite andb_true_r, E1.
  - cbn. by apply IH.
Qed.

Lemma history_presence rounds id :
  history id ((fun '(t, now) => discovered t now) <$> rounds) = presence rounds id.
Proof.
  unfold history, presence. induction rounds as [|[t now] rounds IH]; [done|]. cbn.
  destruct (cd_list t) as [l|e] eqn:E.
  - destruct (found_shown t now l id E) as (ms & -> & <-). cbn. f_equal. exact IH.
  - unfold discovered at 1. rewrite (cd_fails t now e E). exact IH.
Qed.

(** The poller of a provider runs, and its members are the nodes that were shown
    and have not been missing from too many listings. *)
Lemma poll_rounds_members c self rounds :
  exists p, poll_rounds rounds (Start self (NewPoller c)).1 = Some p /\
    forall id, id <> nm_ID self ->
      id ∈ nm_ID <$> Members p <->
      true ∈ presence rounds id /\ Z.of_nat (trailing (presence rounds id)) < FailureThreshold (setDefaults c).
Proof.
  rewrite poll_rounds_run. set (polls := _ <$> rounds).
  destruct (run_polls_runs polls (Start self (NewPoller c)).1) as (p & Hp & Hok); [done|apply map_Forall_empty|].
  exists p. split; [done|]. intros id Hid. rewrite <- (history_presence rounds id). fold polls.
  destruct (polls_detect c self polls p id Hid Hp) as [D1 D2]. unfold Members. rewrite list_elem_of_fmap. split.
  - intros (m & -> & Hm). apply list_elem_of_omap in Hm as ([k ps] & Hk & Hm). apply elem_of_map_to_list in Hk.
    destruct (alive ps) eqn:Ea; [|done]. injection Hm as <-. pose proof (Hok _ _ Hk) as Ek. cbn in Ek. subst k.
    split; [apply D1; by eexists|by apply (D2 ps)].
  - intros [Hin Ht]. apply D1 in Hin as [ps Hps]. pose proof (Hok _ _ Hps) as Ek. cbn in Ek.
    exists (meta ps). split; [done|]. apply list_elem_of_omap. exists (id, ps).
    rewrite elem_of_map_to_list. split; [done|]. by rewrite (proj2 (D2 ps Hps) Ht).
Qed.

(** A provider that passes its rounds to its poller. *)
Lemma provider_rounds {P} (step : Z -> (nat -> Z) -> P -> option P) (wrap : Poller -> P) rounds q :
  (forall t now q, step t now (wrap q) =
    q' ← pollOnce (cd_discover t now) ((fun f => f t) <$> probe) q; Some (wrap q')) ->
  foldl (fun o '(t, now) => o ≫= step t now) (Some (wrap q)) rounds = wrap <$> poll_rounds rounds q.
Proof.
  intros Hs. unfold poll_rounds. revert q. induction rounds as [|[t now] rounds IH]; intros q; [done|].
  cbn [foldl mbind option_bind]. rewrite Hs. destruct (pollOnce _ _ _) as [q'|]; [apply IH|]. cbn. clear IH.
  induction rounds as [|[t' now'] rounds IH]; [done|exact IH].
Qed.

(** Such a provider follows the instances. *)
Lemma provider_follows {P} (step : Z -> (nat -> Z) -> P -> option P) (wrap : Poller -> P) (members : P -> list NodeMeta)
    self interval threshold rounds :
  (forall t now q, step t now (wrap q) =
    q' ← pollOnce (cd_discover t now) ((fun f => f t) <$> probe) q; Some (wrap q')) ->
  (forall q, members (wrap q) = Members q) ->
  exists p', polls step rounds (wrap (Start self (NewPoller (mkPollerConfig interval (orZero 3 threshold) 0))).1) = Some p' /\
    follows self (orZero 3 threshold) (presence rounds) (members p').
Proof.
  intros Hs Hm. destruct (poll_rounds_members (mkPollerConfig interval (orZero 3 threshold) 0) self rounds) as (q & Hq & Hf).
  exists (wrap q). split; [unfold polls; rewrite (provider_rounds step wrap) by done; by rewrite Hq|].
  intros id Hid. rewrite Hm, <- (orZero_twice 3) by done. exact (Hf id Hid).
Qed.
End discovery.

(** ** The three providers *)

Lemma collect_ok {Info} (member : Z -> Info -> option (option NodeMeta)) (eligible : Info -> bool) (f : Info -> NodeID * string) :
  (forall now i, eligible i = false -> member now i = Some None) ->
  (forall now i, eligible i = true -> exists m, member now i = Some (Some m) /\ (nm_ID m, nm_Addr m) = f i) ->
  forall now l, exists ms, collect member now l = Some ms /\
    (fun m => (nm_ID m, nm_Addr m)) <$> ms = f <$> filter (fun i => eligible i = true) l.
Proof.
  intros Hno Hyes now l. revert now. induction l as [|i l IH]; intros now; [by eexists|]. cbn [collect].
  destruct (IH (fun i => now (S i))) as (ms & -> & Ems). destruct (eligible i) eqn:E.
  - rewrite filter_cons_True by done. destruct (Hyes (now 0%nat) i E) as (m & -> & Em). eexists. split; [done|]. cbn. f_equal; [exact Em|exact Ems].
  - rewrite filter_cons_False by (by rewrite E). rewrite (Hno _ _ E). by eexists.
Qed.

(** [ac_NodeIDFrom] and [ac_AddrFunc] of a configuration that has them. *)
Definition aws_nodeID (cfg : aws_Config) (inst : aws_InstanceInfo) : NodeID :=
  match ac_NodeIDFrom cfg with Some f => f inst | None => ""%string end.
Definition aws_addr (cfg : aws_Config) (inst : aws_InstanceInfo) : string :=
  match ac_AddrFunc cfg with Some f => f (ai_PrivateIP inst) inst | None => ""%string end.
Definition az_nodeID (cfg : az_Config) (vm : VMInfo) : NodeID :=
  match zc_NodeIDFrom cfg with Some f => f vm | None => ""%string end.
Definition az_addr (cfg : az_Config) (vm : VMInfo) : string :=
  match zc_AddrFunc cfg with Some f => f (vi_PrivateIP vm) vm | None => ""%string end.

Definition has_ip (ip : string) : bool := negb (bool_decide (ip = ""%string)).

#[local] Instance aws_discovery (c : aws_Config) (client : aws_InstanceLister) : CloudDiscovery aws_InstanceInfo := {|
  cd_list t := client t (ac_TagFilters c);
  cd_discover := buildDiscover (aws_setDefaults c) client;
  cd_eligible inst := bool_decide (ai_State inst = "running"%string);
  cd_id := aws_nodeID (aws_setDefaults c);
  cd_addr := aws_addr (aws_setDefaults c)
|}.

#[local] Instance gcp_discovery (c : gcp_Config) (client : gcp_InstanceLister) : CloudDiscovery gcp_InstanceInfo := {|
  cd_list t := client t (gc_Project c) (gc_Zone c) (gc_LabelFilters c);
  cd_discover := makeDiscoverFunc (gcp_set_Client client (gcp_setDefaults c));
  cd_eligible inst := bool_decide (gi_Status inst = "RUNNING"%string) && has_ip (gi_PrivateIP inst);
  cd_id := gcp_nodeID (gcp_setDefaults c);
  cd_addr := gcp_addr (gcp_setDefaults c)
|}.

#[local] Instance az_discovery (c : az_Config) (client : VMLister) : CloudDiscovery VMInfo := {|
  cd_list t := client t (zc_ResourceGroup c) (zc_TagFilters c);
  cd_discover := discoverFunc (az_set_Client client (az_setDefaults c));
  cd_eligible vm := az_running vm && has_ip (vi_PrivateIP vm);
  cd_id := az_nodeID (az_setDefaults c);
  cd_addr := az_addr (az_setDefaults c)
|}.

#[local] Instance aws_laws c client : @CloudDiscoveryLaws _ (aws_discovery c client).
Proof.
  split; cbn; unfold buildDiscover; intros t now r E; cbn in *; rewrite E; [done|].
  destruct (collect_ok (aws_member (aws_setDefaults c)) (fun inst => bool_decide (ai_State inst = "running"%string))
    (fun i => (aws_nodeID (aws_setDefaults c) i, aws_addr (aws_setDefaults c) i))) with now r as (ms & -> & Hms);
    [| |by exists ms].
  - intros n i Hi. unfold aws_member. by rewrite Hi.
  - intros n i Hi. unfold aws_member. rewrite Hi. by eexists.
Qed.

#[local] Instance gcp_laws c client : @CloudDiscoveryLaws _ (gcp_discovery c client).
Proof.
  split; cbn; unfold makeDiscoverFunc; intros t now r E; cbn in *; rewrite E; [done|].
  destruct (collect_ok (gcp_member (gcp_set_Client client (gcp_setDefaults c)))
    (fun i => bool_decide (gi_Status i = "RUNNING"%string) && has_ip (gi_PrivateIP i))
    (fun i => (gcp_nodeID (gcp_setDefaults c) i, gcp_addr (gcp_setDefaults c) i))) with now r as (ms & -> & Hms);
    [| |by exists ms]; unfold gcp_member, has_ip; intros n i Hi; destruct (bool_decide (gi_Status i = _)); cbn in *;
    try done; destruct (bool_decide (gi_PrivateIP i = _)); cbn in *; try done; by eexists.
Qed.

#[local] Instance az_laws c client : @CloudDiscoveryLaws _ (az_discovery c client).
Proof.
  split; cbn -[az_running]; unfold discoverFunc; intros t now r E; cbn -[az_running] in *; rewrite E; [done|].
  destruct (collect_ok (az_member (az_set_Client client (az_setDefaults c)))
    (fun i => az_running i && has_ip (vi_PrivateIP i))
    (fun i => (az_nodeID (az_setDefaults c) i, az_addr (az_setDefaults c) i))) with now r as (ms & -> & Hms);
    [| |by exists ms]; unfold az_member, has_ip; intros n i Hi; destruct (az_running i); cbn in *;
    try done; destruct (bool_decide (vi_PrivateIP i = _)); cbn in *; try done; by eexists.
Qed.

(** C36: a provider that was started keeps polling, whatever the listings and
    probes return, and its members are the nodes whose instances the listings
    show running: on AWS those in state running, on Google Cloud and Azure also
    with an address; with a probe, only those that answer. *)
Theorem cloud_members_follow_instances (self : NodeMeta) (rounds : list (Z * (nat -> Z))) :
  (forall c newClient client p,
    aws_Start newClient self (aws_NewWithConfig c) = (p, None) -> ap_client p = Some client ->
    exists p', polls aws_poll rounds p = Some p' /\
      follows self (orZero 3 (ac_FailureThreshold c)) (presence (H := aws_discovery c client) (ac_Probe c) rounds) (aws_Members p')) /\
  (forall c newClient client p,
    gcp_Start newClient self (gcp_NewWithConfig c) = (p, None) -> gc_Client (gp_cfg p) = Some client ->
    exists p', polls gcp_poll rounds p = Some p' /\
      follows self (orZero 3 (gc_FailureThreshold c)) (presence (H := gcp_discovery c client) (gc_Probe c) rounds) (gcp_Members p')) /\
  (forall c newClient client p,
    az_Start newClient self (az_NewWithConfig c) = (p, None) -> zc_Client (zp_cfg p) = Some client ->
    exists p', polls az_poll rounds p = Some p' /\
      follows self (orZero 3 (zc_FailureThreshold c)) (presence (H := az_discovery c client) (zc_Probe c) rounds) (az_Members p')).
Proof.
  split_and!; intros c nc client p Hs Hc.
  - unfold aws_Start in Hs. destruct (match ac_Client _ with Some _ => _ | None => _ end) as [cl|e]; [|done].
    cbn in Hs. injection Hs as <-. injection Hc as ->.
    by apply (provider_follows (H := aws_discovery c client) (ac_Probe c) aws_poll
      (fun q => mkAWSProvider (aws_setDefaults c) (Some client) (Some q)) aws_Members).
  - unfold gcp_Start in Hs. destruct (match gc_Client _ with Some _ => _ | None => _ end) as [cl|e]; [|done].
    cbn in Hs. injection Hs as <-. injection Hc as ->.
    by apply (provider_follows (H := gcp_discovery c client) (gc_Probe c) gcp_poll
      (fun q => mkGCPProvider (gcp_set_Client client (gcp_setDefaults c)) (Some q)) gcp_Members).
  - unfold az_Start in Hs. destruct (match zc_Client _ with Some _ => _ | None => _ end) as [cl|e]; [|done].
    cbn in Hs. injection Hs as <-. injection Hc as ->.
    by apply (provider_follows (H := az_discovery c client) (zc_Probe c) az_poll
      (fun q => mkAzureProvider (az_set_Client client (az_setDefaults c)) (Some q)) az_Members).
Qed.

(** ** Tags, filters and listings *)

(** What AWS and Google Cloud report cannot be overridden by an instance's own
    tags, which are otherwise kept. *)
Lemma cloud_tags_win_aws inst :
  aws_tags inst !! "cloud.provider"%string = Some "aws"%string /\
  aws_tags inst !! "cloud.region"%string = Some (ai_Region inst) /\
  aws_tags inst !! "cloud.zone"%string = Some (ai_Zone inst) /\
  aws_tags inst !! "cloud.instance-id"%string = Some (ai_ID inst) /\
  aws_tags inst !! "cloud.instance-type"%string = Some (ai_InstanceType inst) /\
  (forall k v, ai_Tags inst !! k = Some v -> String.prefix "cloud." k = false -> aws_tags inst !! k = Some v).
Proof.
  unfold aws_tags. split_and!;
    [by simplify_map_eq|by simplify_map_eq|by simplify_map_eq|by simplify_map_eq|by simplify_map_eq|].
  intros k v Hk Hp. rewrite !lookup_insert_ne by (intros <-; discriminate Hp). done.
Qed.

Lemma cloud_tags_win_gcp info :
  gcp_buildTags info !! "cloud.provider"%string = Some "gcp"%string /\
  gcp_buildTags info !! "cloud.zone"%string = Some (gi_Zone info) /\
  gcp_buildTags info !! "cloud.instance-id"%string = Some (gi_ID info) /\
  gcp_buildTags info !! "cloud.instance-type"%string = Some (gi_MachineType info) /\
  (forall k v, gi_Labels info !! k = Some v -> String.prefix "cloud." k = false -> gcp_buildTags info !! k = Some v).
Proof.
  unfold gcp_buildTags. split_and!; [by simplify_map_eq|by simplify_map_eq|by simplify_map_eq|by simplify_map_eq|].
  intros k v Hk Hp. rewrite !lookup_insert_ne by (intros <-; discriminate Hp). done.
Qed.

(** Azure writes only what it knows: a machine's own tag stands in for a missing
    location. *)
Example azure_tag_spoofs_region :
  az_tags (mkVMInfo "vm1" "n2" "10.0.0.2" "PowerState/running" {["cloud.region"%string := "elsewhere"%string]} "" "B1")
    !! "cloud.region"%string = Some "elsewhere"%string.
Proof. vm_compute. reflexivity. Qed.

(** AWS keeps a running instance without an address. *)
Example aws_member_without_address :
  option_map (option_map nm_Addr) (aws_member (aws_setDefaults (mkAwsConfig "" ∅ 0 None None 0 0 None None)) 0
    (mkAwsInstance "i-1" "" "running" ∅ "" "" "")) = Some (Some ":9000"%string).
Proof. vm_compute. reflexivity. Qed.

(** The default address of an IPv6 instance has no host and port. *)
Example ipv6_address_does_not_split :
  SplitHostPort (ipPort "fe80::1" 9000) = None /\ SplitHostPort (ipPort "10.0.0.1" 9000) = Some ("10.0.0.1"%string, "9000"%string).
Proof. split; vm_compute; reflexivity. Qed.

(** The filter asks for equal values; a missing tag counts as an empty one. *)
Lemma matchesTags_spec vmTags filter :
  matchesTags vmTags filter = true <-> forall k v, filter !! k = Some v -> default ""%string (vmTags !! k) = v.
Proof.
  unfold matchesTags. rewrite forallb_forall. split.
  - intros Hf k v Hk. specialize (Hf (k, v)). cbn in Hf. apply bool_decide_eq_true in Hf; [done|].
    apply list_elem_of_In. by apply elem_of_map_to_list.
  - intros Hf [k v] Hk. apply list_elem_of_In, elem_of_map_to_list in Hk. apply bool_decide_eq_true. by apply Hf.
Qed.

(** A second [Start] is not refused: it replaces the poller, whose goroutine goes
    on. *)
Lemma second_start_replaces_poller newClient self self' c client :
  ac_Client c = Some client ->
  (aws_Start newClient self' (aws_Start newClient self (aws_NewWithConfig c)).1).2 = None.
Proof. intros Hc. unfold aws_Start. cbn. rewrite Hc. cbn. by rewrite Hc. Qed.

Section azure_client.
Context `{AzureVM T P}.

(** The machines of a page that the client describes. *)
Definition described (page : list (option T)) : list (T * P) :=
  omap (fun o => vm ← o; props ← vm_Properties vm; Some (vm, props)) page.

Definition selects (tags : gmap string string) (infos : list VMInfo) : list VMInfo :=
  filter (fun i => matchesTags (vi_Tags i) tags = true) infos.

Lemma list_page_spec tags page results :
  list_page tags page results =
  (fun infos => results ++ selects tags infos) <$> mapM (fun '(vm, props) => vm_info vm props) (described page).
Proof.
  revert results. induction page as [|[vm|] page IH]; intros results; cbn; [by rewrite app_nil_r| |apply IH].
  destruct (vm_Properties vm) as [props|]; cbn; [|apply IH].
  destruct (vm_info vm props) as [info|]; cbn; [|done]. rewrite IH. fold (described page).
  destruct (mapM _ (described page)) as [infos|]; [|done]. cbn [fmap option_fmap option_map mbind option_bind mret option_ret].
  f_equal. unfold selects. destruct (matchesTags (vi_Tags info) tags) eqn:E.
  - rewrite filter_cons_True by done. by rewrite <- app_assoc.
  - by rewrite filter_cons_False by (by rewrite E).
Qed.

(** The first error of a page is the whole result; otherwise the result is the
    matching machines of all pages, in order. *)
Lemma ListVMs_spec tags pages results :
  ListVMs tags (inl <$> pages) results =
  (fun infos => inl (results ++ selects tags (concat infos))) <$>
    mapM (fun page => mapM (fun '(vm, props) => vm_info vm props) (described page)) pages.
Proof.
  revert results. induction pages as [|page pages IH]; intros results; [cbn; by rewrite app_nil_r|].
  change (inl <$> page :: pages) with (@inl _ string page :: (inl <$> pages)). cbn [ListVMs]. rewrite list_page_spec.
  cbn [mapM]. destruct (mapM _ (described page)) as [infos|]; [|done]. cbn [fmap option_fmap option_map mbind option_bind].
  rewrite IH. destruct (mapM _ pages) as [rest|]; [|done]. cbn. unfold selects. by rewrite filter_app, app_assoc.
Qed.

Lemma ListVMs_fails tags pages e rest results results' :
  ListVMs tags (inl <$> pages) results = Some (inl results') ->
  ListVMs tags ((inl <$> pages) ++ inr e :: rest) results = Some (inr ("azureprovider: list vms: " +:+ e)%string).
Proof.
  revert results. induction pages as [|page pages IH]; intros results Hl; [done|].
  change (inl <$> page :: pages) with (@inl _ string page :: (inl <$> pages)) in *. cbn [ListVMs app] in *.
  destruct (list_page tags page results) as [r|]; [|done]. cbn in *. by apply IH.
Qed.
End azure_client.

(** ** Concrete providers *)

Definition example_self : NodeMeta := mkNodeMeta "n1" "10.0.0.1:9000" ∅ 0.
Definition example_rounds : list (Z * (nat -> Z)) := [(1, fun _ => 1); (2, fun _ => 2); (3, fun _ => 3)].

Definition aws_example_client : aws_InstanceLister := fun t _ =>
  if t =? 2 then inr "throttled"%string
  else inl [mkAwsInstance "i-1" "10.0.0.2" "running" ∅ "r" "z" "m"; mkAwsInstance "i-2" "10.0.0.3" "stopped" ∅ "r" "z" "m"].
Definition aws_example : aws_Config := mkAwsConfig "r" ∅ 0 None None 0 2 (Some aws_example_client) None.

Definition gcp_example_client : gcp_InstanceLister := fun t _ _ _ =>
  inl (if t =? 1 then [mkGcpInstance "7" "n2" "10.0.0.2" "RUNNING" ∅ "z" "m"] else []).
Definition gcp_example : gcp_Config := mkGcpConfig "p" "z" ∅ 0 None None 0 2 (Some gcp_example_client) None.

Definition az_example_client : VMLister := fun _ _ _ =>
  inl [mkVMInfo "vm2" "n2" "10.0.0.2" "PowerState/Running" ∅ "l" "B1"; mkVMInfo "vm3" "n3" "10.0.0.3" "PowerState/running" ∅ "l" "B1"].
Definition az_example : az_Config :=
  mkAzConfig "s" "g" ∅ 0 None None 0 0 (Some az_example_client) (Some (fun _ addr => bool_decide (addr = "10.0.0.2:9000"%string))).

Lemma cloud_members_follow_instances_witness :
  (exists p p', aws_Start (inr "none"%string) example_self (aws_NewWithConfig aws_example) = (p, None) /\
    polls aws_poll example_rounds p = Some p' /\ nm_ID <$> aws_Members p' = ["i-1"%string] /\
    follows example_self 2 (presence (H := aws_discovery aws_example aws_example_client) None example_rounds) (aws_Members p')) /\
  (exists p p', gcp_Start (inr "none"%string) example_self (gcp_NewWithConfig gcp_example) = (p, None) /\
    polls gcp_poll example_rounds p = Some p' /\ gcp_Members p' = [] /\
    follows example_self 2 (presence (H := gcp_discovery gcp_example gcp_example_client) None example_rounds) (gcp_Members p')) /\
  (exists p p', az_Start (inr "none"%string) example_self (az_NewWithConfig az_example) = (p, None) /\
    polls az_poll example_rounds p = Some p' /\ nm_ID <$> az_Members p' = ["n2"%string] /\
    follows example_self 3 (presence (H := az_discovery az_example az_example_client) (zc_Probe az_example) example_rounds) (az_Members p')).
Proof.
  destruct (cloud_members_follow_instances example_self example_rounds) as (A & G & Z). split; [|split].
  - destruct (A aws_example (inr "none"%string) aws_example_client _ eq_refl eq_refl) as (p' & H1 & H2).
    exists (aws_Start (inr "none"%string) example_self (aws_NewWithConfig aws_example)).1, p'.
    split; [reflexivity|]. split; [exact H1|]. split; [|exact H2]. vm_compute in H1. injection H1 as <-. vm_compute. reflexivity.
  - destruct (G gcp_example (inr "none"%string) gcp_example_client _ eq_refl eq_refl) as (p' & H1 & H2).
    exists (gcp_Start (inr "none"%string) example_self (gcp_NewWithConfig gcp_example)).1, p'.
    split; [reflexivity|]. split; [exact H1|]. split; [|exact H2]. vm_compute in H1. injection H1 as <-. vm_compute. reflexivity.
  - destruct (Z az_example (inr "none"%string) az_example_client _ eq_refl eq_refl) as (p' & H1 & H2).
    exists (az_Start (inr "none"%string) example_self (az_NewWithConfig az_example)).1, p'.
    split; [reflexivity|]. split; [exact H1|]. split; [|exact H2]. vm_compute in H1. injection H1 as <-. vm_compute. reflexivity.
Defined.
