(* ===== verification/Startup.v ===== *)
(** * A node from its start ([Start] of [cluster/start.go] and the high-level
      operations of [cluster/cluster.go])

    [Start] checks the configuration, creates the parts, connects them to the
    runtime, starts transport and provider, waits for a first peer if the
    provider has seeds, and starts the managers.  While it waits, events and
    connections arrive; the wait sees the cluster as its iterations find it. *)

From S2P Require Import Prelude Types Mailbox Resolver Registry Routing Program State Emit Send Lifecycle Broker Cron.
From S2P Require Import Refs Prim System Invariants Scheduler Safety.
From S2P Require Import GoSort Nodes Topology Placement Election Ring Feed Seeds Cluster Remote Daemons DistRegistry.
From S2P Require Import ServiceRouter Singleton Handover Wiring ByteStream Join Auth Certs Secure.

(** ** The node *)

(** [Cluster] with the parts [Start] stores on it; they are nil on a cluster made
    by [NewCluster]. *)
Record clusterNode (D : Type) := mkClusterNode {
  cn_cluster : Cluster;
  cn_wired : option (wiredNode D);
  cn_daemons : option DaemonSetManager
}.
Arguments mkClusterNode {D} _ _ _.
Arguments cn_cluster {D} _.
Arguments cn_wired {D} _.
Arguments cn_daemons {D} _.

Section node.
Context {D : Type} `{ORMap D}.
Variable fuel : nat.
Implicit Types (n : clusterNode D) (w : wiredNode D).

Definition with_manager (sm : SingletonManager D) w : wiredNode D := mkWiredNode sm (wn_resolver w).

(** The managers hold a pointer to the cluster: their copies of it are the node's. *)
Definition share n : clusterNode D :=
  let c := cn_cluster n in
  mkClusterNode c
    ((fun w => with_manager
        (let sm := wn_manager w in
         mkSingletonManager (sm_runtime sm) (sm_election sm) (sm_registry sm) (Some c) (sm_clustered sm) (sm_singletons sm)
           (sm_failedNodes sm) (sm_prevLeaders sm) (sm_handoffWaits sm) (sm_ops sm) (sm_nextOp sm) (sm_outbox sm)
           (sm_started sm)) w) <$> cn_wired n)
    ((fun dm => mkDaemonSetManager (Some c) (dm_codec dm) (dm_daemons dm) (dm_started dm) (dm_types dm) (dm_closed dm))
       <$> cn_daemons n).

(** Apply an operation of the singleton manager, if there is one. *)
Definition on_manager (f : SingletonManager D -> option (SingletonManager D)) n : option (clusterNode D) :=
  let n := share n in
  match cn_wired n with
  | None => Some n
  | Some w => sm ← f (wn_manager w); Some (mkClusterNode (cn_cluster n) (Some (with_manager sm w)) (cn_daemons n))
  end.

(** Apply an operation of the daemon manager, on the runtime it shares with the
    singleton manager. *)
Definition on_daemons (f : DaemonSetManager -> Runtime -> option (DaemonSetManager * Runtime)) n : option (clusterNode D) :=
  let n := share n in
  match cn_wired n, cn_daemons n with
  | Some w, Some dm =>
      '(dm, r) ← f dm (sm_runtime (wn_manager w));
      Some (mkClusterNode (cn_cluster n) (Some (with_manager (with_runtime r (wn_manager w)) w)) (Some dm))
  | _, _ => Some n
  end.

Definition RegisterSingleton (spec : SingletonSpec) n : option (clusterNode D) :=
  on_manager (fun sm => Some (Singleton.Register spec sm)) n.

Definition RebalanceSingletons n : option (clusterNode D) := on_manager (Rebalance fuel) n.

Definition RegisterDaemon (spec : DaemonSpec) n : option (clusterNode D) := on_daemons (Daemons.Register fuel spec) n.

Definition Cluster_Register (name : string) (pid : PID) n : clusterNode D * option string :=
  match cn_wired n with
  | Some w =>
      match sm_registry (wn_manager w) with
      | Some d =>
          let '(d, e) := DistRegistry.Register name pid d in
          (mkClusterNode (cn_cluster n) (Some (with_manager (with_registry (Some d) (wn_manager w)) w)) (cn_daemons n), e)
      | None => (n, Some "cluster: no registry (use cluster.Start)"%string)
      end
  | None => (n, Some "cluster: no registry (use cluster.Start)"%string)
  end.

Definition Cluster_Lookup (name : string) n : option PID :=
  w ← cn_wired n; d ← sm_registry (wn_manager w); DistRegistry.Lookup name d.

Definition Cluster_Unregister (name : string) n : clusterNode D :=
  match cn_wired n with
  | Some w =>
      match sm_registry (wn_manager w) with
      | Some d =>
          mkClusterNode (cn_cluster n) (Some (with_manager (with_registry (Some (DistRegistry.Unregister name d).1) (wn_manager w)) w))
            (cn_daemons n)
      | None => n
      end
  | None => n
  end.

(** The callback for membership events, if [Start] installed one. *)
Definition member_callback (now : Z) (ev : MemberEvent) n : option (clusterNode D) :=
  let n := share n in
  match cn_wired n with
  | None => Some n
  | Some w => w ← onMemberEvent fuel now ev w; Some (mkClusterNode (cn_cluster n) (Some w) (cn_daemons n))
  end.

(** [handleMemberEvent]: the cluster's part under its lock, then the callback. *)
Definition handle_event (now : Z) (ev : MemberEvent) n : option (clusterNode D) :=
  member_callback now ev (mkClusterNode (Cluster.handleMemberEvent ev (cn_cluster n)) (cn_wired n) (cn_daemons n)).

Definition NewRouter n : ClusterRouter := NewClusterRouter (Some (cn_cluster n)).

(** What the runtime is given to list the members. *)
Definition clusterMembers (c : Cluster) : list ClusterMemberInfo :=
  (fun m => mkClusterMemberInfo (nm_ID m) (nm_Addr m) (nm_Tags m)) <$> Cluster.Members c.

(** ** The start *)

Definition hasConnection (c : Cluster) : bool := existsb (fun m => IsConnected (nm_ID m) c) (Cluster.Members c).

(** The wait for a first peer: the nodes its iterations find, until the context
    expires. *)
Fixpoint waitForPeer (observed : list (clusterNode D)) : clusterNode D + string :=
  match observed with
  | [] => inr "cluster: timeout waiting for peer connection"%string
  | n :: observed => if hasConnection (cn_cluster n) then inl n else waitForPeer observed
  end.

(** What [Start] finds in its environment.  [se_observe] lists the nodes that the
    wait for a peer finds, given the node at its beginning; [se_orders] the choices
    of the node's election (see [Election.v]). *)
Record startEnv := mkStartEnv {
  se_bootstrap : option (option string);
  se_factory : bool;
  se_listenErr : option string;
  se_providerErr : option string;
  se_hasSeeds : bool;
  se_observe : clusterNode D -> list (clusterNode D);
  se_discovered : bool * list (NodeID * list string);
  se_orders : gmap string (list nat)
}.

(** The runtime with the hooks that [Start] installs; [send] and [ask] are the
    remote sender's, [lookup] the registry's. *)
Definition hookRuntime (send : RemoteSenderFunc) (ask : RemoteAskSenderFunc) (lookup : string -> option PID) (r : Runtime) :
    Runtime :=
  SetClusterRegistry true (Some lookup) true (SetRemoteAskSend (Some ask) (SetRemoteSend (Some send) r)).

(** Step 13: the managers start. *)
Definition startManagers (env : startEnv) n : option (clusterNode D) :=
  n ← on_manager (fun sm => Some (Singleton.Start (se_discovered env).1 (se_discovered env).2 sm)) n;
  on_daemons (Daemons.Start fuel) n.

(** The node after the parts were created and the transport and provider started. *)
Definition createNode (cfg : Config) (env : startEnv) (send : RemoteSenderFunc) (ask : RemoteAskSenderFunc)
    (lookup : string -> option PID) (codec : option Codec) (d : D) (r : Runtime) : clusterNode D + string :=
  match startConfig (NodeID_of r) cfg (se_bootstrap env) (se_factory env) with
  | inr e => inr e
  | inl cc =>
      match NewCluster cc with
      | inr e => inr ("cluster: " +:+ e)%string
      | inl c =>
          let w := wire (se_orders env) (hookRuntime send ask lookup r) d cc c in
          match Cluster.Start (se_listenErr env) (se_providerErr env) c with
          | (_, Some e) => inr ("cluster start: " +:+ e)%string
          | (c, None) => inl (mkClusterNode c (Some w) (Some (NewDaemonSetManager (Some c) codec)))
          end
      end
  end.

(** [Start]; the outer [None] is a nil dereference of the managers. *)
Definition startNode (cfg : Config) (env : startEnv) (send : RemoteSenderFunc) (ask : RemoteAskSenderFunc)
    (lookup : string -> option PID) (codec : option Codec) (d : D) (r : Runtime) : option (clusterNode D + string) :=
  match createNode cfg env send ask lookup codec d r with
  | inr e => Some (inr e)
  | inl n =>
      match (if se_hasSeeds env then waitForPeer (se_observe env n) else inl n) with
      | inr e => Some (inr e)
      | inl n => n ← startManagers env n; Some (inl n)
      end
  end.

(** [Stop]: the managers stop, the registry closes its replication, the
    connections are closed; provider and transport stop on their own. *)
Definition stopNode n : option (clusterNode D) :=
  if negb (cl_started (cn_cluster n)) then Some n
  else
    n ← on_manager (Singleton.StopAll fuel) n;
    n ← on_daemons (Daemons.StopAll fuel) n;
    Some (mkClusterNode (Cluster.Stop (cn_cluster n)) (cn_wired n) (cn_daemons n)).
End node.

(** ** The wait for a first peer *)

Section waiting.
Context {D : Type} `{ORMap D}.

Lemma waitForPeer_spec (observed : list (clusterNode D)) :
  match waitForPeer observed with
  | inl n => n ∈ observed /\ exists m, m ∈ Cluster.Members (cn_cluster n) /\ IsConnected (nm_ID m) (cn_cluster n) = true
  | inr _ => forall n, n ∈ observed -> hasConnection (cn_cluster n) = false
  end.
Proof.
  induction observed as [|n observed IH]; cbn; [intros n Hn; by apply not_elem_of_nil in Hn|].
  destruct (hasConnection (cn_cluster n)) eqn:E.
  - split; [left|]. unfold hasConnection in E. apply existsb_exists in E as (m & Hm & E). exists m. split; [|done].
    by apply list_elem_of_In.
  - destruct (waitForPeer observed) as [n'|e].
    + destruct IH as [H1 H2]. split; [by right|done].
    + intros n' [->|Hn]%elem_of_cons; auto.
Qed.

Lemma no_peers_no_connection c : cl_peers c = ∅ -> hasConnection c = false.
Proof. intros Hp. unfold hasConnection, Cluster.Members. by rewrite Hp. Qed.
End waiting.

(** What happens to a node with the secure provider while it waits, as long as no
    node joins through it: probe rounds, events of the provider, connections that
    come in and dials that end. *)
Inductive wait_step : Cluster * SecureFixedProvider -> Cluster * SecureFixedProvider -> Prop :=
  | wait_probe c sp now probe p p' :
      sp_inner sp = Some p -> FixedProvider.probeAll now probe p = Some p' -> wait_step (c, sp) (c, set_inner p' sp)
  | wait_event c sp p p' ev :
      sp_inner sp = Some p -> FixedProvider.recv p = (p', Some ev) ->
      wait_step (c, sp) (handleMemberEvent ev c, set_inner p' sp)
  | wait_inbound c sp remote conn : wait_step (c, sp) (OnConnectionEstablished remote conn c, sp)
  | wait_dialed c sp meta dialed : meta ∈ cl_dials c -> wait_step (c, sp) (dialPeer meta dialed c, sp).

(** A node that knows nobody. *)
Definition lonely (st : Cluster * SecureFixedProvider) : Prop :=
  cl_peers st.1 = ∅ /\
  exists p, sp_inner st.2 = Some p /\ FixedProvider.Seeds (FixedProvider.cfg p) = [] /\ FixedProvider.members p = ∅ /\
    ef_ch (FixedProvider.feed p) = [].

Lemma wait_step_lonely st st' : wait_step st st' -> lonely st -> lonely st'.
Proof.
  intros Hs (Hc & p & Hp & H1 & H2 & H3). destruct Hs as [c sp now probe p0 p' E Ep|c sp p0 p' ev E Ep|c sp remote conn|c sp meta [conn|e] _];
    cbn in *.
  - rewrite Hp in E. injection E as <-. unfold FixedProvider.probeAll in Ep. rewrite H1 in Ep. injection Ep as <-.
    split; [done|]. by exists p.
  - rewrite Hp in E. injection E as <-. unfold FixedProvider.recv, recvFeed in Ep. rewrite H3 in Ep. discriminate.
  - split; [by unfold OnConnectionEstablished; destruct (cl_conns c !! remote)|]. by exists p.
  - split; [|by exists p]. unfold dialPeer. cbn. by destruct (cl_conns c !! nm_ID meta).
  - split; [done|]. by exists p.
Qed.

Lemma NewCluster_peers cc c : NewCluster cc = inl c -> cl_peers c = ∅ /\ cl_Self c = cc_Self cc.
Proof.
  unfold NewCluster. destruct (bool_decide _); [done|]. destruct (bool_decide _); [done|].
  destruct (negb _); [done|]. destruct (negb _); [done|]. by intros [= <-].
Qed.

Lemma Start_peers le pe c : cl_peers (Cluster.Start le pe c).1 = cl_peers c.
Proof. unfold Cluster.Start. destruct (cl_started c); [done|]. destruct le; [done|]. by destruct pe. Qed.

Section secure_restart.
Context {D : Type} `{ORMap D} `{Encodings}.

Lemma createNode_peers cfg env send ask lookup codec (d : D) r n :
  createNode cfg env send ask lookup codec d r = inl n -> cl_peers (cn_cluster n) = ∅.
Proof.
  unfold createNode. destruct (startConfig _ _ _ _) as [cc|e]; [|done]. destruct (NewCluster cc) as [c|e] eqn:E; [|done].
  pose proof (Start_peers (se_listenErr env) (se_providerErr env) c) as Hp.
  destruct (Cluster.Start _ _ c) as [c' [e|]]; [done|]. intros [= <-]. cbn in *. rewrite Hp. by apply (NewCluster_peers cc).
Qed.

(** C34: a node with seeds that starts again from the certificates on its disk does
    not start, unless another node joins through it while it waits: it knows no
    member, whatever connections come in, and the wait for a first peer ends in
    an error. *)
Theorem secure_restart_times_out (fuel : nat) (benv : bootstrapEnv) (self : NodeMeta) (scfg : SecureFixedProviderConfig)
    (fs fs' : fileSystem) (sp sp' : SecureFixedProvider) (e : option string) tls
    (cfg : Config) (env : startEnv (D := D)) send ask lookup codec (d : D) (r : Runtime) :
  CertsExist (sc_DataDir scfg +:+ "/certs") fs = true -> sc_Seeds scfg <> [] ->
  Bootstrap benv self (NewSecureFixedProvider scfg) fs = Some (sp, fs', inl tls) -> Secure_Start self sp = Some (sp', e) ->
  se_hasSeeds env = Secure_HasSeeds sp' ->
  (forall n n', n' ∈ se_observe env n -> exists sp2, rtc wait_step (cn_cluster n, sp') (cn_cluster n', sp2)) ->
  exists err, startNode fuel cfg env send ask lookup codec d r = Some (inr err) /\
    forall n, createNode cfg env send ask lookup codec d r = inl n -> err = "cluster: timeout waiting for peer connection"%string.
Proof.
  intros Hex Hseeds Hb Hs Hh Ho. destruct (restarted_provider _ _ _ _ _ _ _ _ _ Hex Hb Hs) as (H1 & _ & p & Hp).
  unfold startNode. destruct (createNode _ _ _ _ _ _ _ _) as [n|err] eqn:En; [|by exists err].
  rewrite Hh, H1, bool_decide_false by done. cbn [negb].
  assert (forall n', n' ∈ se_observe env n -> hasConnection (cn_cluster n') = false) as Hno.
  { intros n' Hn'. destruct (Ho n n' Hn') as [sp2 Hr]. apply no_peers_no_connection.
    assert (lonely (cn_cluster n', sp2)) as [Hl _]; [|exact Hl].
    apply (rtc_invariant wait_step lonely _ _ wait_step_lonely Hr).
    split; [by eapply createNode_peers|by exists p]. }
  assert (waitForPeer (se_observe env n) = inr "cluster: timeout waiting for peer connection"%string) as ->.
  { clear Ho. induction (se_observe env n) as [|n' l IH]; [done|]. cbn. rewrite Hno by left. apply IH.
    intros m Hm. apply Hno. by right. }
  eexists. split; [done|]. done.
Qed.
End secure_restart.

(** ** The founder of the example, again *)

Section startup_example.
#[local] Existing Instance example_encodings.

Definition restart_env (sp : SecureFixedProvider) : startEnv (D := gmap string PID) :=
  mkStartEnv (Some None) true None None (Secure_HasSeeds sp) (fun n => [n; n]) (true, []) ∅.

Definition no_send : RemoteSenderFunc := fun _ pid _ _ => (mkPIDSendAck PIDDelivered 0, None).
Definition no_ask : RemoteAskSenderFunc := fun _ pid _ _ _ _ => (mkPIDSendAck PIDDelivered 0, None).

Definition restarted_runtime : Runtime := NewRuntime (named_cfg "n1") true 0.

(** Its node, created and started up to the wait. *)
Definition restarted_node (sp : SecureFixedProvider) : clusterNode (gmap string PID) + string :=
  createNode (mkConfig "10.0.0.1:7946" true false false None) (restart_env sp) no_send no_ask (fun _ => None) None ∅
    restarted_runtime.

Lemma restarted_node_starts sp : match restarted_node sp with inl _ => true | inr _ => false end = true.
Proof. vm_compute. reflexivity. Qed.

Lemma seen_twice {D} (n n' : clusterNode D) sp : n' ∈ [n; n] -> exists sp', rtc wait_step (cn_cluster n, sp) (cn_cluster n', sp').
Proof. intros [->|[->|Hn%not_elem_of_nil]%elem_of_cons]%elem_of_cons; [| |done]; exists sp; apply rtc_refl. Qed.

Lemma secure_restart_times_out_witness :
  exists n sp fs r sp' e, founder = Some n /\
    Bootstrap founder_env founder_self (NewSecureFixedProvider restart_cfg) (sn_fs n) = Some (sp, fs, inl r) /\
    Secure_Start founder_self sp = Some (sp', e) /\
    startNode 100 (mkConfig "10.0.0.1:7946" true false false None) (restart_env sp') no_send no_ask (fun _ => None) None ∅
      restarted_runtime = Some (inr "cluster: timeout waiting for peer connection"%string).
Proof.
  pose proof restarts_true as Hr. unfold restarts in Hr. destruct founder as [n|] eqn:En; [|discriminate].
  apply andb_prop in Hr as [Hex Hr].
  destruct (Bootstrap founder_env founder_self (NewSecureFixedProvider restart_cfg) (sn_fs n))
    as [[[sp fs] [r|]]|] eqn:Eb; [|discriminate|discriminate].
  apply bool_decide_eq_true in Hr. destruct Hr as [[sp' e] Es].
  destruct (secure_restart_times_out 100 founder_env founder_self restart_cfg (sn_fs n) fs sp sp' e r
    (mkConfig "10.0.0.1:7946" true false false None) (restart_env sp') no_send no_ask (fun _ => None) None ∅
    restarted_runtime Hex) as (err & H1 & H2); [discriminate|exact Eb|exact Es|reflexivity| |].
  - intros m m' Hm. exact (seen_twice m m' sp' Hm).
  - pose proof (restarted_node_starts sp') as Hn. unfold restarted_node in Hn. destruct (createNode _ _ _ _ _ _ _ _) as [m|] eqn:Ec; [|discriminate].
    exists n, sp, fs, r, sp', e. split; [reflexivity|]. split; [exact Eb|]. split; [exact Es|].
    rewrite H1. rewrite (H2 m eq_refl). reflexivity.
Defined.
End startup_example.
