(* ===== verification/Drain.v ===== *)
(** * Draining a node ([cluster/drain.go])

    [Drain] tells the node's own subsystems that it leaves, lets them hand over,
    stops them, waits and stops the cluster.  It has two waits, in which the node
    goes on: membership events, elections and handoffs go through its managers.
    A node that was drained runs no singleton and no daemon in its last wait -
    unless a singleton has a placement, which elects among nodes that include it. *)

From S2P Require Import Prelude Types Mailbox Resolver Registry Routing Program State Emit Send Lifecycle Broker Cron.
From S2P Require Import Fnv Prim System Invariants Scheduler Safety Delivery Shutdown.
From S2P Require Import GoSort Nodes Topology Placement Election Ring Feed Cluster Remote Daemons DistRegistry Singleton.
From S2P Require Import Handover Wiring Gossip Spread Routes Startup.

(** ** The code *)

Section options.
Context {R : Type} `{DeltaMap R}.

(** The options; those that pass a manager or the registry pass the node's own,
    [WithPubSubAdapter] the adapter's map. *)
Inductive DrainOption :=
  | WithSingletonManager
  | WithDaemonSetManager
  | WithRegistry
  | WithPubSubAdapter (a : R)
  | WithHandoffGrace (d : Z).

Record drainOptions := mkDrainOptions {
  do_singletonManager : bool;
  do_daemonSetManager : bool;
  do_registry : bool;
  do_pubsubAdapter : option R;
  do_handoffGrace : Z
}.

Definition apply_option (o : drainOptions) (opt : DrainOption) : drainOptions :=
  match opt with
  | WithSingletonManager =>
      mkDrainOptions true (do_daemonSetManager o) (do_registry o) (do_pubsubAdapter o) (do_handoffGrace o)
  | WithDaemonSetManager =>
      mkDrainOptions (do_singletonManager o) true (do_registry o) (do_pubsubAdapter o) (do_handoffGrace o)
  | WithRegistry =>
      mkDrainOptions (do_singletonManager o) (do_daemonSetManager o) true (do_pubsubAdapter o) (do_handoffGrace o)
  | WithPubSubAdapter a =>
      mkDrainOptions (do_singletonManager o) (do_daemonSetManager o) (do_registry o) (Some a) (do_handoffGrace o)
  | WithHandoffGrace d =>
      mkDrainOptions (do_singletonManager o) (do_daemonSetManager o) (do_registry o) (do_pubsubAdapter o) d
  end.

Definition drain_options (opts : list DrainOption) : drainOptions :=
  foldl apply_option (mkDrainOptions false false false None 0) opts.

(** The waits: for handoffs, if singletons are to be stopped, and for messages. *)
Definition drainTimeout (timeout : Z) : Z := if bool_decide (timeout = 0) then 30000000000 else timeout.
Definition handoff_wait (o : drainOptions) : Z := if 0 <? do_handoffGrace o then do_handoffGrace o else 2000000000.
Definition drain_wait (timeout : Z) : Z := drainTimeout timeout ÷ 2.
End options.
Arguments DrainOption : clear implicits.
Arguments drainOptions : clear implicits.

Section drain.
Context {D : Type} `{ORMap D} {R : Type} `{DeltaMap R}.
Variable fuel : nat.
Implicit Types (n : clusterNode D) (w : wiredNode D) (o : drainOptions R).

Definition leave_event n : MemberEvent := mkMemberEvent MemberLeave (cl_Self (cn_cluster n)).

(** Step 1: the membership callback, if there is one, on the node's own departure. *)
Definition drain_notify (now : Z) n : option (clusterNode D) := member_callback fuel now (leave_event n) n.

Definition unregister_node n : clusterNode D :=
  match cn_wired n with
  | Some w =>
      match sm_registry (wn_manager w) with
      | Some d =>
          mkClusterNode (cn_cluster n)
            (Some (with_manager (with_registry (Some (UnregisterByNode (LocalNodeID (cn_cluster n)) d).1) (wn_manager w)) w))
            (cn_daemons n)
      | None => n
      end
  | None => n
  end.

(** Steps 2 and 3, after the wait for handoffs. *)
Definition drain_stop o n : option (clusterNode D * option R) :=
  n ← (if do_singletonManager o then on_manager (Singleton.StopAll fuel) n else Some n);
  n ← (if do_daemonSetManager o then on_daemons (Daemons.StopAll fuel) n else Some n);
  let n := if do_registry o then unregister_node n else n in
  Some (n, Routes.OnMembershipChange (leave_event n) <$> do_pubsubAdapter o).

(** ** What happens on the node in the waits *)

(** The critical sections of the manager and of its goroutines, and changes of
    the objects it holds.  The watched names have no placement; the registry
    changes in any way, by registrations on this node or by what arrives from
    other replicas. *)
Inductive manager_step : SingletonManager D -> SingletonManager D -> Prop :=
  | ms_watch name ev sm : manager_step sm (watch_event name ev sm)
  | ms_receive scope i sm : manager_step sm (with_election (Election.receive scope i (sm_election sm)).1 sm)
  | ms_register spec sm : ss_Placement spec = None -> manager_step sm (Singleton.Register spec sm)
  | ms_rebalance sm sm' : Rebalance fuel sm = Some sm' -> manager_step sm sm'
  | ms_handoff_send op e sm sm' : handoff_send op e sm = Some sm' -> manager_step sm sm'
  | ms_handoff_wake op k sm sm' : handoff_wake op k sm = Some sm' -> manager_step sm sm'
  | ms_deactivation_end op sm sm' : deactivation_end fuel op sm = Some sm' -> manager_step sm sm'
  | ms_expire op sm : manager_step sm (finish_op op sm)
  | ms_request from corr req sm sm' : onHandoffRequest fuel from corr req sm = Some sm' -> manager_step sm sm'
  | ms_response corr resp sm : manager_step sm (onHandoffResponse corr resp sm)
  | ms_discover from corr sm : manager_step sm (onDiscoverRequest from corr sm)
  | ms_runtime r sm : manager_step sm (with_runtime r sm)
  | ms_bind name pid d sm :
      sm_registry sm = Some d -> manager_step sm (with_registry (Some (DistRegistry.Register name pid d).1) sm)
  | ms_registry d sm : manager_step sm (with_registry (Some d) sm).

(** The steps of the node: those, the membership callback on anything but its own
    arrival, the daemon manager's operations and changes of the cluster. *)
Inductive node_step : clusterNode D -> clusterNode D -> Prop :=
  | ns_callback now ev n n' :
      member_callback fuel now ev n = Some n' ->
      me_Type ev = MemberLeave \/ me_Type ev = MemberFailed \/ nm_ID (me_Member ev) <> LocalNodeID (cn_cluster n) ->
      node_step n n'
  | ns_manager f n n' :
      (forall sm sm', f sm = Some sm' -> manager_step sm sm') ->
      on_manager f n = Some n' -> node_step n n'
  | ns_reconcile n n' : on_daemons (Daemons.Reconcile fuel) n = Some n' -> node_step n n'
  | ns_register spec replicated n n' : on_daemons (registerDaemon fuel spec replicated) n = Some n' -> node_step n n'
  | ns_cluster c n :
      LocalNodeID c = LocalNodeID (cn_cluster n) -> node_step n (mkClusterNode c (cn_wired n) (cn_daemons n)).
End drain.

(** ** A node that its own election does not count *)

(** [id] is not a member and leads no scope; the singletons have no placement and
    are in a phase that is [ok]. *)
Record retired {D : Type} `{ORMap D} (ok : singletonPhase -> Prop) (id : NodeID)
    (sm : SingletonManager D) : Prop := {
  rt_local : el_localID (sm_election sm) = id;
  rt_members : id ∉ el_members (sm_election sm);
  rt_scopes : map_Forall (fun _ s => es_leader s <> id) (el_scopes (sm_election sm));
  rt_singles : map_Forall (fun _ s => ss_Placement (st_spec s) = None /\ ok (st_phase s)) (sm_singletons sm)
}.

Lemma computeLeader_other o scope members id : id <> ""%string -> id ∉ members -> computeLeader o scope members <> id.
Proof.
  intros Hid Hm. destruct (decide (members = ∅)) as [->|Hne]; [by unfold computeLeader; rewrite decide_True|].
  destruct (computeLeader_least o scope members Hne) as [Hin _]. by intros <-.
Qed.

Section retired.
Context {D : Type} `{ORMapLaws D}.
Variables (ok : singletonPhase -> Prop) (id : NodeID).
Hypothesis (Hid : id <> ""%string).
Implicit Types sm : SingletonManager D.
Abbreviation retired := (retired ok id).

Lemma retired_same sm sm' :
  sm_election sm' = sm_election sm -> sm_singletons sm' = sm_singletons sm -> retired sm -> retired sm'.
Proof. intros E1 E2 [H1 H2 H3 H4]. split; rewrite ?E1, ?E2; done. Qed.

Lemma retired_put name s sm :
  ss_Placement (st_spec s) = None -> ok (st_phase s) -> retired sm -> retired (put_singleton name s sm).
Proof. intros Hp Hok [H1 H2 H3 H4]. split; try done. cbn. by apply map_Forall_insert_2. Qed.

Lemma retired_single name s sm : retired sm -> sm_singletons sm !! name = Some s -> ss_Placement (st_spec s) = None /\ ok (st_phase s).
Proof. intros [_ _ _ H4] Hs. by apply (H4 name s). Qed.

Lemma retired_registry d sm : retired sm -> retired (with_registry d sm).
Proof. by apply retired_same. Qed.

Lemma retired_unregister name sm : retired sm -> retired (unregister name sm).
Proof. intros Hr. unfold unregister. destruct (sm_registry sm); [by apply retired_registry|done]. Qed.

Lemma retired_cancel s sm :
  retired sm -> retired (cancel_op s sm).2 /\ st_spec (cancel_op s sm).1 = st_spec s /\
  st_phase (cancel_op s sm).1 = st_phase s /\ sm_singletons (cancel_op s sm).2 = sm_singletons sm.
Proof. intros Hr. unfold cancel_op. destruct (st_cancel s); [|done]. split; [by apply (retired_same sm)|done]. Qed.

(** Such a node does not lead. *)
Lemma retired_scope scope sm :
  retired sm ->
  let e := (IsLeader scope (sm_election sm)).1 in retired (with_election e sm) /\ (IsLeader scope (sm_election sm)).2 = false.
Proof.
  intros [H1 H2 H3 H4]. unfold IsLeader, Leader, ensureScopeLocked.
  destruct (el_scopes (sm_election sm) !! scope) as [s|] eqn:E; cbn.
  - split; [by split|]. apply bool_decide_eq_false. pose proof (H3 scope s E) as Hl. cbn in Hl. rewrite H1.
    destruct (bool_decide _); congruence.
  - pose proof (computeLeader_other (next_order scope (sm_election sm)) scope _ id Hid H2) as Hl. split.
    + split; try done. cbn. by apply map_Forall_insert_2.
    + apply bool_decide_eq_false. rewrite H1. destruct (bool_decide _); congruence.
Qed.

Lemma retired_leads name s sm :
  retired sm -> ss_Placement (st_spec s) = None ->
  retired (leads name (st_spec s) sm).1 /\ (leads name (st_spec s) sm).2 = false /\
  sm_singletons (leads name (st_spec s) sm).1 = sm_singletons sm.
Proof.
  intros Hr Hp. unfold leads. rewrite Hp. destruct (retired_scope (scopeOf name) sm Hr) as [H1 H2].
  by destruct (IsLeader (scopeOf name) (sm_election sm)).
Qed.

Hypothesis (Hidle : ok phaseIdle).

(** Singletons only become idle, and those named in [names] are not in phase [ph]. *)
Definition only_idles (ph : singletonPhase) (names : list string) sm sm' : Prop :=
  forall k s', sm_singletons sm' !! k = Some s' ->
    exists s, sm_singletons sm !! k = Some s /\ (st_phase s' = st_phase s \/ st_phase s' = phaseIdle) /\
      (k ∈ names -> st_phase s' <> ph).

Lemma only_idles_refl ph sm : only_idles ph [] sm sm.
Proof. intros k s' Hs. exists s'. split_and!; [done|by left|]. intros Hk. by apply not_elem_of_nil in Hk. Qed.

Lemma only_idles_trans ph l1 l2 a b c :
  ph <> phaseIdle -> only_idles ph l1 a b -> only_idles ph l2 b c -> only_idles ph (l1 ++ l2) a c.
Proof.
  intros Hph Hab Hbc k s3 H3. destruct (Hbc k s3 H3) as (s2 & H2 & E2 & F2). destruct (Hab k s2 H2) as (s1 & H1 & E1 & F1).
  exists s1. split_and!; [done|destruct E2 as [->|]; [done|by right]|].
  intros [Hk|Hk]%elem_of_app; [|by apply F2]. destruct E2 as [->| ->]; [by apply F1|done].
Qed.

(** One singleton became idle, or its phase is another already. *)
Lemma only_idles_put ph name s s' sm sm' :
  sm_singletons sm !! name = Some s -> sm_singletons sm' = <[name := s']> (sm_singletons sm) ->
  st_phase s' = st_phase s \/ st_phase s' = phaseIdle -> st_phase s' <> ph -> only_idles ph [name] sm sm'.
Proof.
  intros Hs E Hph Hne k t. rewrite E. destruct (decide (k = name)) as [->|Hk].
  - rewrite lookup_insert_eq. intros [= <-]. by exists s.
  - rewrite lookup_insert_ne by done. intros Ht. exists t. split_and!; [done|by left|]. by intros Hk'%list_elem_of_singleton.
Qed.

Lemma only_idles_same ph name sm sm' :
  sm_singletons sm' = sm_singletons sm ->
  (forall s, sm_singletons sm !! name = Some s -> st_phase s <> ph) -> only_idles ph [name] sm sm'.
Proof.
  intros E Hn k t. rewrite E. intros Ht. exists t. split_and!; [done|by left|]. intros ->%list_elem_of_singleton. by apply Hn.
Qed.

(** [reconcile] starts nothing, and what was activating becomes idle. *)
Lemma retired_reconcile_one name sm :
  retired sm -> retired (reconcile_one sm name) /\ only_idles phaseActivating [name] sm (reconcile_one sm name).
Proof.
  intros Hr. unfold reconcile_one. destruct (sm_singletons sm !! name) as [s|] eqn:Es;
    [|split; [done|apply only_idles_same; [done|congruence]]].
  destruct (retired_single name s sm Hr Es) as [Hp Hok]. destruct (retired_leads name s sm Hr Hp) as (H1 & H2 & H3).
  destruct (leads name (st_spec s) sm) as [sm1 b]. cbn [fst snd] in *. subst b. cbn zeta.
  assert (st_phase s <> phaseActivating -> retired sm1 /\ only_idles phaseActivating [name] sm sm1) as Hkeep.
  { intros Hph. split; [done|]. apply only_idles_same; [done|congruence]. }
  destruct (st_phase s) eqn:Eph; [by apply Hkeep| |by apply Hkeep..]. cbn [negb].
  destruct (retired_cancel s sm1 H1) as (C1 & C2 & C3 & C4). destruct (cancel_op s sm1) as [s2 sm2]. cbn [fst snd] in *.
  split; [apply retired_put; [by cbn; congruence|done|done]|].
  eapply (only_idles_put _ _ s); [done|cbn; by rewrite C4, H3|by right|done].
Qed.

Lemma retired_reconcile_names names sm :
  retired sm -> retired (foldl reconcile_one sm names) /\ only_idles phaseActivating names sm (foldl reconcile_one sm names).
Proof.
  revert sm. induction names as [|y names IH]; intros sm Hr; cbn [foldl]; [split; [done|apply only_idles_refl]|].
  destruct (retired_reconcile_one y sm Hr) as [H1 H2]. destruct (IH _ H1) as [H3 H4]. split; [done|].
  change (y :: names) with ([y] ++ names). by eapply only_idles_trans.
Qed.

Lemma retired_reconcile sm : retired sm -> retired (reconcile sm).
Proof. intros Hr. by apply retired_reconcile_names. Qed.

(** None is activating after [reconcile]. *)
Lemma reconcile_no_activating sm k s : retired sm -> sm_singletons (reconcile sm) !! k = Some s -> st_phase s <> phaseActivating.
Proof.
  intros Hr Hk. destruct (retired_reconcile_names (singleton_names sm) sm Hr) as [_ Hi].
  destruct (Hi k s Hk) as (s0 & Hs0 & _ & Hn). apply Hn. unfold singleton_names. apply list_elem_of_fmap.
  exists (k, s0). split; [done|]. by apply elem_of_map_to_list.
Qed.

(** ** Stopping and the steps *)

Variable fuel : nat.

Lemma retired_stop_loop names sm sm' :
  retired sm -> stop_loop fuel names sm = Some sm' ->
  retired sm' /\ only_idles phaseActive names sm sm' /\ only_idles phaseDeactivating names sm sm'.
Proof.
  revert sm. induction names as [|y names IH]; intros sm Hr; cbn [stop_loop].
  { intros [= <-]. split_and!; [done|apply only_idles_refl..]. }
  destruct (sm_singletons sm !! y) as [s|] eqn:Es.
  2:{ cbn [mbind option_bind]. intros E. destruct (IH sm Hr E) as (H1 & H2 & H3). split_and!; [done|..].
      all: change (y :: names) with ([y] ++ names); eapply only_idles_trans; [done| |done].
      all: apply only_idles_same; [done|congruence]. }
  destruct (retired_single y s sm Hr Es) as [Hp Hok]. destruct (retired_cancel s sm Hr) as (C1 & C2 & C3 & C4).
  destruct (cancel_op s sm) as [s2 sm2]. cbn [fst snd] in *.
  assert (forall r ph, ok ph -> ph = st_phase s \/ ph = phaseIdle -> ph <> phaseActive -> ph <> phaseDeactivating ->
    let sm3 := put_singleton y (set_phase ph s2) (with_runtime r sm2) in
    retired sm3 /\ only_idles phaseActive [y] sm sm3 /\ only_idles phaseDeactivating [y] sm sm3) as Hput.
  { intros r ph Ho Hph H1 H2. split_and!.
    - apply retired_put; [by cbn; congruence|done|by apply (retired_same sm2)].
    - by eapply (only_idles_put _ _ s); [done|cbn; by rewrite C4|..].
    - by eapply (only_idles_put _ _ s); [done|cbn; by rewrite C4|..]. }
  match goal with |- context [mbind _ ?x] => assert (forall sm3, x = Some sm3 ->
    retired sm3 /\ only_idles phaseActive [y] sm sm3 /\ only_idles phaseDeactivating [y] sm sm3) as Hone end.
  { intros sm3. destruct (_ || _) eqn:Eb.
    - destruct (Lifecycle.Stop fuel y _) as [[r u]|]; cbn [mbind option_bind]; [|done]. intros [= <-].
      apply Hput; [done|by right|done..].
    - intros [= <-]. apply orb_false_iff in Eb as [B1 B2]. bprop.
      specialize (Hput (sm_runtime sm2) (st_phase s2)). destruct s2, sm2. cbn in *. apply Hput; [congruence|by left|done..]. }
  match goal with |- context [mbind _ ?x] => destruct x as [sm3|]; [|done] end. cbn [mbind option_bind].
  intros E. destruct (Hone _ eq_refl) as (H1 & H2 & H3). destruct (IH _ H1 E) as (H4 & H5 & H6).
  split_and!; [done|..]; change (y :: names) with ([y] ++ names); by eapply only_idles_trans.
Qed.

Lemma in_singleton_names k s sm : sm_singletons sm !! k = Some s -> k ∈ singleton_names sm.
Proof. intros Hk. unfold singleton_names. apply list_elem_of_fmap. exists (k, s). split; [done|]. by apply elem_of_map_to_list. Qed.

Lemma retired_stopAndCleanup name s sm sm' :
  retired sm -> ss_Placement (st_spec s) = None -> stopAndCleanup fuel name s sm = Some sm' -> retired sm'.
Proof.
  intros Hr Hp. unfold stopAndCleanup. destruct (Lifecycle.Stop fuel name _) as [[r u]|]; cbn [mbind option_bind]; [|done].
  destruct (retired_cancel (set_phase phaseIdle s) (with_runtime r sm)) as (C1 & C2 & C3 & _); [by apply (retired_same sm)|].
  destruct (cancel_op _ _) as [s2 sm2]. cbn [fst snd] in *. intros [= <-]. apply retired_unregister, retired_put; [by rewrite C2|by rewrite C3|done].
Qed.

(** Elections in which every leader is another node. *)
Lemma retired_election e sm :
  el_localID e = el_localID (sm_election sm) -> id ∉ el_members e -> map_Forall (fun _ s => es_leader s <> id) (el_scopes e) ->
  retired sm -> retired (with_election e sm).
Proof. intros E1 E2 E3 [H1 H2 H3 H4]. split; try done. cbn. congruence. Qed.

Lemma retired_watch scope sm : retired sm -> retired (with_election (Watch scope (sm_election sm)) sm).
Proof.
  intros Hr. pose proof Hr as [H1 H2 H3 H4]. unfold Watch, ensureScopeLocked.
  destruct (el_scopes (sm_election sm) !! scope) as [s|] eqn:E; apply retired_election; try done; cbn.
  - apply map_Forall_insert_2; [|done]. cbn. by apply (H3 scope s E).
  - apply map_Forall_insert_2; [by apply computeLeader_other|]. by apply map_Forall_insert_2; [apply computeLeader_other|].
Qed.

Lemma retired_receive scope i sm : retired sm -> retired (with_election (Election.receive scope i (sm_election sm)).1 sm).
Proof.
  intros Hr. pose proof Hr as [H1 H2 H3 H4]. unfold Election.receive.
  destruct (el_scopes (sm_election sm) !! scope) as [s|] eqn:E; [|by apply retired_election].
  destruct (es_watchers s !! i) as [[|ev ch]|]; apply retired_election; try done; cbn.
  apply map_Forall_insert_2; [|done]. cbn. by apply (H3 scope s E).
Qed.

Hypotheses (Hact : ~ ok phaseActivating) (Hde : ok phaseActive -> ok phaseDeactivating).

Lemma retired_rebalance_one name sm sm' : retired sm -> rebalance_one fuel name sm = Some sm' -> retired sm'.
Proof.
  intros Hr. unfold rebalance_one. destruct (sm_singletons sm !! name) as [s|] eqn:Es; [|by intros [= <-]].
  destruct (retired_single name s sm Hr Es) as [Hp Hok]. destruct (retired_leads name s sm Hr Hp) as (H1 & H2 & H3).
  destruct (leads name (st_spec s) sm) as [sm1 b]. cbn [fst snd] in *. subst b. cbn zeta. rewrite andb_true_r.
  destruct (bool_decide (st_phase s = phaseActive)) eqn:Eb; cbn [mbind option_bind].
  2:{ intros [= <-]. by rewrite andb_false_r. }
  unfold loseLeadership. destruct (negb _).
  - destruct (stopAndCleanup fuel name s sm1) as [sm2|] eqn:E2; cbn [mbind option_bind]; [|done].
    intros [= <-]. rewrite andb_false_r. by apply (retired_stopAndCleanup name s sm1).
  - cbn [mbind option_bind]. intros [= <-]. rewrite andb_false_r. apply retired_put; [done| |by apply (retired_same sm1)].
    cbn. bprop. apply Hde. by rewrite <- Eb.
Qed.

Lemma retired_rebalance sm sm' : retired sm -> Rebalance fuel sm = Some sm' -> retired sm'.
Proof.
  unfold Rebalance. generalize (singleton_names sm). intros names. revert sm.
  induction names as [|y names IH]; intros sm Hr; cbn [rebalance_loop]; [by intros [= <-]|].
  destruct (rebalance_one fuel y sm) as [sm1|] eqn:E; cbn [mbind option_bind]; [|done]. intros E2.
  apply (IH sm1); [by apply (retired_rebalance_one y sm)|done].
Qed.

Lemma retired_completeActivation name term st sm : retired sm -> completeActivation name term st sm = sm.
Proof.
  intros Hr. unfold completeActivation. destruct (sm_singletons sm !! name) as [s|] eqn:Es; [|done].
  destruct (retired_single name s sm Hr Es) as [_ Hok]. by rewrite bool_decide_false by (intros E; by rewrite E in Hok).
Qed.

Lemma retired_handoff_wake op k sm sm' : retired sm -> handoff_wake op k sm = Some sm' -> retired sm'.
Proof.
  intros Hr. unfold handoff_wake.
  destruct (sm_ops sm !! op) as [[[name prev term [| |]|name] fin]|]; try done; destruct k; try done.
  - destruct fin; [|done]. intros [= <-]. by apply (retired_same sm).
  - intros [= <-]. rewrite retired_completeActivation by done. by apply (retired_same sm).
  - destruct (sm_handoffWaits sm !! _) as [[|[resp|]]|]; try done. intros [= <-].
    rewrite retired_completeActivation by done. by apply (retired_same sm).
  - destruct fin; [|done]. intros [= <-]. rewrite retired_completeActivation by done. by apply (retired_same sm).
Qed.

Lemma retired_request from corr req sm sm' : retired sm -> onHandoffRequest fuel from corr req sm = Some sm' -> retired sm'.
Proof.
  intros Hr. unfold onHandoffRequest. destruct (sm_singletons sm !! hq_Name req) as [s|] eqn:Es.
  2:{ intros [= <-]. by apply (retired_same sm). }
  destruct (retired_single _ s sm Hr Es) as [Hp Hok].
  destruct (_ && _); [intros [= <-]; by apply (retired_same sm)|].
  destruct (StopAndCapture fuel _ _) as [[r [v u]]|]; cbn [mbind option_bind]; [|done].
  destruct (retired_cancel s (with_runtime r sm)) as (C1 & C2 & C3 & _); [by apply (retired_same sm)|].
  destruct (cancel_op s _) as [s2 sm2]. cbn [fst snd] in *. intros [= <-].
  set (sm3 := unregister _ _). apply (retired_same sm3); [done..|]. apply retired_unregister, retired_put; [by cbn; congruence|done|done].
Qed.

Lemma retired_manager_step sm sm' : manager_step fuel sm sm' -> retired sm -> retired sm'.
Proof.
  intros Hs Hr. destruct Hs as [name ev sm|scope i sm|spec sm Hp|sm sm' E|op e sm sm' E|op k sm sm' E|op sm sm' E|op sm|
    from corr req sm sm' E|corr resp sm|from corr sm|r sm|name pid d sm Ed|d sm].
  - unfold watch_event. apply retired_reconcile. destruct (negb _); [by apply (retired_same sm)|done].
  - by apply retired_receive.
  - unfold Singleton.Register. set (sm1 := put_singleton _ _ sm).
    assert (retired sm1) as H1 by (by apply retired_put). destruct (sm_started sm1); [|done].
    by apply retired_reconcile, retired_watch.
  - by apply (retired_rebalance sm).
  - unfold handoff_send in E. destruct (sm_ops sm !! op) as [[[name prev term [| |]|name] fin]|]; try done.
    destruct e; injection E as <-; by apply (retired_same sm).
  - by apply (retired_handoff_wake op k sm).
  - unfold deactivation_end in E. destruct (sm_ops sm !! op) as [[[|name] [|]]|]; try done. cbv zeta in E.
    set (sm1 := with_ops _ _ sm) in E. assert (retired sm1) as H1 by (by apply (retired_same sm)).
    destruct (sm_singletons sm1 !! name) as [s|] eqn:Es; [|by injection E as <-].
    destruct (bool_decide _); [|by injection E as <-].
    apply (retired_stopAndCleanup name s sm1); [done|by eapply retired_single|done].
  - by apply (retired_same sm).
  - by apply (retired_request from corr req sm).
  - unfold onHandoffResponse. destruct (sm_handoffWaits sm !! corr) as [[|[|]]|]; try done. by apply (retired_same sm).
  - by apply (retired_same sm).
  - by apply (retired_same sm).
  - by apply retired_registry.
  - by apply retired_registry.
Qed.
End retired.

Definition not_activating (ph : singletonPhase) : Prop := ph <> phaseActivating.
Definition is_idle (ph : singletonPhase) : Prop := ph = phaseIdle.

Section draining.
Context {D : Type} `{ORMapLaws D}.
Variables (fuel : nat) (id : NodeID).
Hypothesis (Hid : id <> ""%string).
Implicit Types sm : SingletonManager D.

Lemma retired_weaken (ok ok' : singletonPhase -> Prop) sm :
  (forall k s, sm_singletons sm !! k = Some s -> ok' (st_phase s)) -> retired ok id sm -> retired ok' id sm.
Proof.
  intros Hok [H1 H2 H3 H4]. split; try done. intros k s Hs. split; [by apply (H4 k s)|by eapply Hok].
Qed.

(** After [Stop] every singleton is idle. *)
Lemma StopAll_idle sm sm' :
  retired not_activating id sm -> Singleton.StopAll fuel sm = Some sm' -> retired is_idle id sm'.
Proof.
  intros Hr E. destruct (retired_stop_loop not_activating id ltac:(done) fuel _ sm sm' Hr E) as (H1 & H2 & H3).
  eapply (retired_weaken not_activating); [|exact H1]. intros k s Hs.
  destruct (H2 k s Hs) as (s0 & Hs0 & Hph & Hna). destruct (H3 k s Hs) as (_ & _ & _ & Hnd).
  pose proof (in_singleton_names k s0 sm Hs0) as Hk. specialize (Hna Hk). specialize (Hnd Hk).
  destruct (retired_single _ _ k s sm' H1 Hs) as [_ Hnn]. unfold not_activating in Hnn. unfold is_idle.
  by destruct (st_phase s).
Qed.

(** The election and the events of other nodes. *)
Lemma retired_membership (ok : singletonPhase -> Prop) ev sm :
  me_Type ev = MemberLeave \/ me_Type ev = MemberFailed \/ nm_ID (me_Member ev) <> id ->
  retired ok id sm -> retired ok id (with_election (Election.OnMembershipChange ev (sm_election sm)) sm).
Proof.
  intros Hev [H1 H2 H3 H4].
  assert (id ∉ membersAfter ev (el_members (sm_election sm))) as Hm.
  { unfold membersAfter. destruct Hev as [E|[E|Hne]]; [rewrite E; set_solver..|]. destruct (me_Type ev); set_solver. }
  split; try done. cbn. intros scope s Hs. rewrite map_lookup_imap in Hs.
  destruct (el_scopes (sm_election sm) !! scope) as [s0|] eqn:E0; [|done]. cbn in Hs. injection Hs as <-.
  unfold recompute. destruct (bool_decide _) eqn:Eb; [cbn; by apply computeLeader_other|]. by apply (H3 scope s0 E0).
Qed.

(** The departure of the node itself. *)
Lemma leave_retires ev sm :
  me_Type ev = MemberLeave -> nm_ID (me_Member ev) = id -> el_localID (sm_election sm) = id ->
  map_Forall (fun _ s => ss_Placement (st_spec s) = None) (sm_singletons sm) ->
  retired (fun _ => True) id (with_election (Election.OnMembershipChange ev (sm_election sm)) sm).
Proof.
  intros Et Em El Hp.
  assert (id ∉ membersAfter ev (el_members (sm_election sm))) as Hm by (unfold membersAfter; rewrite Et, Em; set_solver).
  split; [done|done| |].
  - cbn. intros scope s Hs. rewrite map_lookup_imap in Hs.
    destruct (el_scopes (sm_election sm) !! scope) as [s0|] eqn:E0; [|done]. cbn in Hs. injection Hs as <-.
    pose proof (computeLeader_other (next_order scope (sm_election sm)) scope _ id Hid Hm) as Hl. unfold recompute.
    destruct (bool_decide _) eqn:Eb; [exact Hl|]. bprop. intros E. apply Hl.
    destruct (decide (computeLeader (next_order scope (sm_election sm)) scope (membersAfter ev (el_members (sm_election sm))) = es_leader s0)) as [->|]; [done|].
    exfalso. by apply Eb.
  - cbn. intros k s Hs. by split; [apply (Hp k s Hs)|].
Qed.

Lemma no_names_after_leave ev d name pid :
  me_Type ev = MemberLeave -> nm_ID (me_Member ev) = id ->
  Lookup name (DistRegistry.OnMembershipChange ev d) = Some pid -> Namespace pid <> id.
Proof.
  intros Et Em. unfold DistRegistry.OnMembershipChange, Lookup. rewrite Et, Em, UnregisterByNode_lookup.
  destruct (om_Get name d) as [p|]; [|done]. destruct (decide _); [done|]. by intros [= <-].
Qed.

Lemma retired_member_event (ok : singletonPhase -> Prop) now ev sm :
  ok phaseIdle -> me_Type ev = MemberLeave \/ me_Type ev = MemberFailed \/ nm_ID (me_Member ev) <> id ->
  retired ok id sm -> retired ok id (member_event now ev sm).
Proof.
  intros Hidle Hev Hr. unfold member_event. cbv zeta. apply (retired_membership _ ev) in Hr; [|done].
  set (sm0 := with_election _ sm) in *. assert (retired ok id (OnMemberEvent now ev sm0)) as H1.
  { unfold OnMemberEvent. apply retired_reconcile; [done..|]. by apply (retired_same _ _ sm0). }
  destruct (sm_registry (OnMemberEvent now ev sm0)) as [d|] eqn:Ed; [|done].
  by apply retired_registry.
Qed.

Lemma leave_event_retires now ev sm :
  me_Type ev = MemberLeave -> nm_ID (me_Member ev) = id -> el_localID (sm_election sm) = id ->
  map_Forall (fun _ s => ss_Placement (st_spec s) = None) (sm_singletons sm) ->
  retired not_activating id (member_event now ev sm).
Proof.
  intros Et Em El Hp. unfold member_event. cbv zeta.
  pose proof (leave_retires ev sm Et Em El Hp) as Hr. set (sm0 := with_election _ sm) in *.
  assert (retired (fun _ => True) id (OnMemberEvent now ev sm0) /\
    forall k s, sm_singletons (OnMemberEvent now ev sm0) !! k = Some s -> not_activating (st_phase s)) as [H1 H2].
  { unfold OnMemberEvent. rewrite Et. set (sm1 := with_failed _ sm0).
    assert (retired (fun _ => True) id sm1) as H1 by (by apply (retired_same _ _ sm0)). split.
    - by apply retired_reconcile.
    - intros k s. by apply (reconcile_no_activating (fun _ => True) id Hid). }
  assert (retired not_activating id (OnMemberEvent now ev sm0)) as H3 by (by eapply (retired_weaken (fun _ => True))).
  destruct (sm_registry _); [by apply retired_registry|done].
Qed.

(** Its names go with it. *)
Lemma leave_event_names now ev sm name pid :
  me_Type ev = MemberLeave -> nm_ID (me_Member ev) = id ->
  lookup_name name (member_event now ev sm) = Some pid -> Namespace pid <> id.
Proof.
  intros Et Em. unfold member_event. cbv zeta. set (sm1 := OnMemberEvent now ev _).
  unfold lookup_name. destruct (sm_registry sm1) as [d|] eqn:Ed; cbn; [|by rewrite Ed].
  by apply no_names_after_leave.
Qed.
End draining.

(** ** The daemons *)

(** The manager has stopped and so have its daemons. *)
Definition daemons_off (dm : DaemonSetManager) : Prop :=
  dm_started dm = false /\ map_Forall (fun _ d => dst_running d = false) (dm_daemons dm).

Lemma daemons_off_Running dm : daemons_off dm -> Daemons.Running dm = [].
Proof.
  intros [_ Hoff]. unfold Daemons.Running. apply elem_of_nil_inv. intros name. rewrite list_elem_of_omap.
  intros ([k d] & Hin & E). apply elem_of_map_to_list in Hin. specialize (Hoff k d Hin). cbn in Hoff. by rewrite Hoff in E.
Qed.

Lemma stopDaemon_daemons fuel name d dm r dm' r' :
  stopDaemon fuel name d dm r = Some (dm', r') ->
  dm_started dm' = dm_started dm /\ dm_daemons dm' = <[name := ran false false d]> (dm_daemons dm).
Proof.
  unfold stopDaemon. destruct (Lifecycle.Stop fuel name r) as [[r1 u]|]; cbn [mbind option_bind]; [|done].
  intros [= <- <-]. by destruct (dst_closer d).
Qed.

Lemma stop_all_daemons fuel names dm r dm' r' :
  stop_all fuel names dm r = Some (dm', r') ->
  dm_started dm' = dm_started dm /\
  forall k d', dm_daemons dm' !! k = Some d' ->
    exists d, dm_daemons dm !! k = Some d /\ (dst_running d' = dst_running d \/ dst_running d' = false) /\
      (k ∈ names -> dst_running d' = false).
Proof.
  revert dm r. induction names as [|y names IH]; intros dm r; cbn [stop_all].
  { intros [= <- <-]. split; [done|]. intros k d Hd. exists d. split_and!; [done|by left|]. intros Hk. by apply not_elem_of_nil in Hk. }
  match goal with |- context [mbind _ ?x] => destruct x as [[dm1 r1]|] eqn:E1; [|done] end. cbn [mbind option_bind].
  intros E2. destruct (IH dm1 r1 E2) as [H1 H2].
  assert (dm_started dm1 = dm_started dm /\ forall k d', dm_daemons dm1 !! k = Some d' ->
    exists d, dm_daemons dm !! k = Some d /\ (dst_running d' = dst_running d \/ dst_running d' = false) /\
      (k = y -> dst_running d' = false)) as [H3 H4].
  { destruct (dm_daemons dm !! y) as [d|] eqn:Ed; [destruct (dst_running d) eqn:Er|].
    - apply stopDaemon_daemons in E1 as [E3 E4]. split; [done|]. intros k d'. rewrite E4.
      destruct (decide (k = y)) as [->|Hne]; [rewrite lookup_insert_eq; intros [= <-]; exists d; by split_and!; [|right|]|].
      rewrite lookup_insert_ne by done. intros Hd'. exists d'. by split_and!; [|left|].
    - injection E1 as <- <-. split; [done|]. intros k d' Hd'. exists d'. split_and!; [done|by left|]. intros ->. congruence.
    - injection E1 as <- <-. split; [done|]. intros k d' Hd'. exists d'. split_and!; [done|by left|]. intros ->. congruence. }
  split; [congruence|]. intros k d' Hd'. destruct (H2 k d' Hd') as (d1 & Hd1 & A1 & A2). destruct (H4 k d1 Hd1) as (d & Hd & B1 & B2).
  exists d. split_and!; [done|destruct A1 as [->|]; [done|by right]|].
  intros [->|Hk]%elem_of_cons; [|by apply A2]. destruct A1 as [->|]; [by apply B2|done].
Qed.

Lemma StopAll_off fuel dm r dm' r' : Daemons.StopAll fuel dm r = Some (dm', r') -> daemons_off dm'.
Proof.
  unfold Daemons.StopAll. intros E. apply stop_all_daemons in E as [H1 H2]. split; [done|]. intros k d Hd. destruct (H2 k d Hd) as (d0 & Hd0 & _ & Hr).
  apply Hr. unfold daemon_names. apply list_elem_of_fmap. exists (k, d0). split; [done|]. by apply elem_of_map_to_list.
Qed.

Lemma registerDaemon_off fuel spec replicated dm r dm' r' :
  daemons_off dm -> registerDaemon fuel spec replicated dm r = Some (dm', r') -> daemons_off dm'.
Proof.
  intros [H1 H2]. unfold registerDaemon. cbn. rewrite H1. intros [= <- <-]. split; [done|]. cbn.
  by apply map_Forall_insert_2.
Qed.

(** ** The node *)

Section node.
Context {D : Type} `{ORMapLaws D} {R : Type} `{DeltaMapLaws R}.
Variables (fuel : nat) (id : NodeID).
Hypothesis (Hid : id <> ""%string).
Implicit Types n : clusterNode D.

(** The node with its managers, as [Start] makes it; [off] says whether its
    daemons were stopped. *)
Definition draining (ok : singletonPhase -> Prop) (off : Prop) n : Prop :=
  LocalNodeID (cn_cluster n) = id /\
  exists w dm, cn_wired n = Some w /\ cn_daemons n = Some dm /\ retired ok id (wn_manager w) /\ (off -> daemons_off dm).

Lemma draining_share ok off n : draining ok off n -> draining ok off (share n).
Proof.
  intros (Hl & w & dm & Hw & Hdm & Hr & Ho). split; [done|]. unfold share. rewrite Hw, Hdm. cbn.
  eexists _, _. split_and!; [done|done|by apply (retired_same _ _ (wn_manager w))|]. intros Hoff. by destruct (Ho Hoff).
Qed.

Lemma draining_manager (ok ok' : singletonPhase -> Prop) (off : Prop) f n n' :
  (forall sm sm', retired ok id sm -> f sm = Some sm' -> retired ok' id sm') ->
  draining ok off n -> on_manager f n = Some n' -> draining ok' off n'.
Proof.
  intros Hf Hd. apply draining_share in Hd as (Hl & w & dm & Hw & Hdm & Hr & Ho). unfold on_manager.
  rewrite Hw. destruct (f (wn_manager w)) as [sm|] eqn:E; cbn [mbind option_bind]; [|done]. intros [= <-].
  split; [done|]. exists (with_manager sm w), dm. split_and!; [done|done| |done]. by apply (Hf (wn_manager w)).
Qed.

Lemma draining_daemons (ok : singletonPhase -> Prop) (off off' : Prop) f n n' :
  (forall dm r dm' r', (off -> daemons_off dm) -> f dm r = Some (dm', r') -> off' -> daemons_off dm') ->
  draining ok off n -> on_daemons f n = Some n' -> draining ok off' n'.
Proof.
  intros Hf Hd. apply draining_share in Hd as (Hl & w & dm & Hw & Hdm & Hr & Ho). unfold on_daemons.
  rewrite Hw, Hdm. destruct (f dm _) as [[dm' r']|] eqn:E; cbn [mbind option_bind]; [|done]. intros [= <-].
  split; [done|]. eexists _, dm'. split_and!; [done|done|by apply (retired_same _ _ (wn_manager w))|].
  by apply (Hf dm (sm_runtime (wn_manager w)) dm' r').
Qed.

Lemma draining_callback (ok ok' : singletonPhase -> Prop) (off : Prop) now ev n n' :
  (forall sm, retired ok id sm -> retired ok' id (member_event now ev sm)) ->
  draining ok off n -> member_callback fuel now ev n = Some n' -> draining ok' off n'.
Proof.
  intros Hev Hd. apply draining_share in Hd as (Hl & w & dm & Hw & Hdm & Hr & Ho). unfold member_callback. rewrite Hw.
  unfold onMemberEvent. destruct (PublishMembershipEvent _ _ _ _) as [[r u]|]; cbn [mbind option_bind]; [|done].
  intros [= <-]. split; [done|]. eexists _, dm. split_and!; [done|done| |done]. cbn [wn_manager].
  apply (retired_same _ _ (member_event now ev (wn_manager w))); [done..|]. by apply Hev.
Qed.

Lemma draining_step (ok : singletonPhase -> Prop) (off : Prop) n n' :
  ok phaseIdle -> ~ ok phaseActivating -> (ok phaseActive -> ok phaseDeactivating) ->
  node_step fuel n n' -> draining ok off n -> draining ok off n'.
Proof.
  intros Hi Ha Hde Hs Hd. destruct Hs as [now ev n n' Hcb Hev|f n n' Hf E|n n' E|spec replicated n n' E|c n Hc].
  - apply (draining_callback ok ok off now ev n n'); [|done|done]. intros sm Hr.
    apply retired_member_event; try done. destruct Hd as [Hl _]. by rewrite <- Hl.
  - apply (draining_manager ok _ _ f n); [|done|done]. intros sm sm' Hr Ef.
    apply (retired_manager_step ok id Hid Hi fuel Ha Hde sm); [by apply Hf|done].
  - eapply (draining_daemons ok off off); [|done|done]. intros dm r dm' r' Ho Er Hoff. destruct (Ho Hoff) as [H5 H6].
    unfold Daemons.Reconcile in Er. rewrite H5 in Er. injection Er as <- <-. done.
  - eapply (draining_daemons ok off off); [|done|done]. intros dm r dm' r' Ho Er Hoff.
    by eapply registerDaemon_off; [apply Ho|].
  - destruct Hd as (Hl & w & dm & Hw & Hdm & Hr & Ho). split; [cbn; congruence|]. by exists w, dm.
Qed.

Lemma draining_steps (ok : singletonPhase -> Prop) (off : Prop) n n' :
  ok phaseIdle -> ~ ok phaseActivating -> (ok phaseActive -> ok phaseDeactivating) ->
  rtc (node_step fuel) n n' -> draining ok off n -> draining ok off n'.
Proof. intros Hi Ha Hde Hs Hd. induction Hs as [n|n1 n2 n3 Hst1 _ IH]; [done|]. by apply IH, (draining_step ok off n1). Qed.

Lemma idle_Running (sm : SingletonManager D) : retired is_idle id sm -> Singleton.Running sm = [].
Proof.
  intros Hr. unfold Singleton.Running. apply elem_of_nil_inv. intros name. rewrite list_elem_of_omap.
  intros ([k s] & Hin & E). apply elem_of_map_to_list in Hin. destruct (retired_single _ _ k s sm Hr Hin) as [_ Hk].
  unfold is_idle in Hk. by rewrite Hk in E.
Qed.

(** What [Drain] leaves of the registry. *)
Lemma unregister_node_names n name pid w' :
  cn_wired (unregister_node n) = Some w' -> LocalNodeID (cn_cluster n) = id ->
  lookup_name name (wn_manager w') = Some pid -> Namespace pid <> id.
Proof.
  intros Hw <-. unfold unregister_node in Hw. destruct (cn_wired n) as [w|] eqn:E; [|congruence].
  unfold lookup_name. destruct (sm_registry (wn_manager w)) as [d|] eqn:Ed.
  - injection Hw as <-. cbn [wn_manager with_manager].
    change (Lookup name (UnregisterByNode (LocalNodeID (cn_cluster n)) d).1 = Some pid -> Namespace pid <> LocalNodeID (cn_cluster n)).
    unfold Lookup. rewrite UnregisterByNode_lookup.
    destruct (om_Get name d); [|done]. destruct (decide _); [done|]. by intros [= <-].
  - rewrite E in Hw. injection Hw as <-. by rewrite Ed.
Qed.

(** The first step of [Drain]. *)
Lemma drain_notify_retires now n n1 w dm :
  LocalNodeID (cn_cluster n) = id -> cn_wired n = Some w -> cn_daemons n = Some dm ->
  el_localID (sm_election (wn_manager w)) = id ->
  map_Forall (fun _ s => ss_Placement (st_spec s) = None) (sm_singletons (wn_manager w)) ->
  drain_notify fuel now n = Some n1 ->
  draining not_activating False n1 /\
  exists w1, cn_wired n1 = Some w1 /\
    forall name pid, lookup_name name (wn_manager w1) = Some pid -> Namespace pid <> id.
Proof.
  intros Hl Hw Hdm Hel Hp Hn.
  unfold drain_notify, member_callback, share in Hn. rewrite Hw, Hdm in Hn. cbn [fmap option_fmap option_map cn_wired] in Hn.
  unfold onMemberEvent in Hn. cbn [cn_cluster cn_daemons] in Hn.
  destruct (PublishMembershipEvent _ _ _ _) as [[r u]|]; cbn [mbind option_bind] in Hn; [|done]. injection Hn as <-. split.
  - split; [done|]. eexists _, _. split_and!; [done|done| |done]. cbn [wn_manager with_manager].
    match goal with |- context [with_runtime r ?x] => apply (retired_same _ _ x); [done..|] end.
    by apply leave_event_retires.
  - eexists. split; [done|]. cbn [wn_manager with_manager]. intros name pid Hname.
    match type of Hname with lookup_name _ (with_runtime r ?x) = _ => change (lookup_name name x = Some pid) in Hname end.
    by apply (leave_event_names id now (leave_event n) _ name pid) in Hname.
Qed.

(** C40: a drained node stays idle.  [Drain], with both managers among its
    options, first clears the registry of the node's names, and with the
    registry option again when it stops the managers.  Whatever happens while
    it waits - events of other nodes, elections, handoffs, expiring contexts,
    changes of connections, new registrations of singletons, daemons and names,
    changes of the registry by other replicas - once it has stopped the
    managers, and until the cluster stops, the node runs no singleton and no
    daemon; provided its singletons have no placement. *)
Theorem drained_node_stays_idle (o : drainOptions R) (now : Z) (n n1 n2 n3 n4 : clusterNode D) (w : wiredNode D)
    (dm : DaemonSetManager) (a : option R) :
  LocalNodeID (cn_cluster n) = id -> cn_wired n = Some w -> cn_daemons n = Some dm ->
  el_localID (sm_election (wn_manager w)) = id ->
  map_Forall (fun _ s => ss_Placement (st_spec s) = None) (sm_singletons (wn_manager w)) ->
  do_singletonManager o = true -> do_daemonSetManager o = true ->
  drain_notify fuel now n = Some n1 -> rtc (node_step fuel) n1 n2 ->
  drain_stop fuel o n2 = Some (n3, a) -> rtc (node_step fuel) n3 n4 ->
  let nameless n := exists w, cn_wired n = Some w /\
    forall name pid, lookup_name name (wn_manager w) = Some pid -> Namespace pid <> id in
  nameless n1 /\ (do_registry o = true -> nameless n3) /\
  exists w' dm', cn_wired n4 = Some w' /\ cn_daemons n4 = Some dm' /\
    Singleton.Running (wn_manager w') = [] /\ Daemons.Running dm' = [].
Proof.
  intros Hl Hw Hdm Hel Hp Hs Hds Hn Hr1 Hst Hr2 nameless.
  destruct (drain_notify_retires now n n1 w dm Hl Hw Hdm Hel Hp Hn) as [Hd1 Hn1]. split; [done|].
  apply (draining_steps not_activating False n1 n2) in Hd1; [|done|by intros Hna; apply Hna|done|done].
  unfold drain_stop in Hst. rewrite Hs, Hds in Hst.
  destruct (on_manager _ n2) as [n2a|] eqn:E1; cbn [mbind option_bind] in Hst; [|done].
  apply (draining_manager not_activating is_idle False) in E1; [|intros sm sm' Hr E; by apply (StopAll_idle fuel id sm)|done].
  destruct (on_daemons _ n2a) as [n2b|] eqn:E2; cbn [mbind option_bind] in Hst; [|done].
  apply (draining_daemons is_idle False True) in E2; [|intros dm0 r dm' r' _ E _; by eapply StopAll_off|done].
  assert (draining is_idle True n3 /\ (do_registry o = true -> nameless n3)) as [Hd3 Hn3].
  { injection Hst as <- _. destruct E2 as (Hl2 & w2 & dm2 & Hw2 & Hdm2 & Hr2' & Ho2).
    assert (draining is_idle True (unregister_node n2b)) as Hu.
    { unfold unregister_node. rewrite Hw2. destruct (sm_registry (wn_manager w2)) as [d|]; [|split; [done|by exists w2, dm2]].
      split; [done|]. eexists _, dm2. split_and!; [done|done| |done]. by apply retired_registry. }
    destruct (do_registry o); [|split; [split; [done|by exists w2, dm2]|done]]. split; [done|]. intros _.
    destruct Hu as (_ & w3 & _ & Hw3 & _). exists w3. split; [done|]. intros name pid. by apply (unregister_node_names n2b). }
  split; [done|]. apply (draining_steps is_idle True n3 n4) in Hd3; [|done..].
  destruct Hd3 as (_ & w' & dm' & Hw' & Hdm' & Hr & Ho). exists w', dm'. split_and!; [done|done| |].
  - by eapply idle_Running.
  - by apply daemons_off_Running, Ho.
Qed.
End node.

(** ** A node of the example drains *)

Abbreviation names_map := (gmap string PID) (only parsing).
Abbreviation routes_map := (gmap string (gset string)) (only parsing).

(** [n1] runs the singleton, with a placement or without. *)
Definition leaving_spec (p : option NodeMatcher) : SingletonSpec :=
  mkSingletonSpec cron_name (job 0) (Some accumulator) [] p 0 None.

Definition leaving (p : option NodeMatcher) : clusterNode names_map :=
  mkClusterNode (peer_cluster "n1" "n2")
    (Some (mkWiredNode
       (put_singleton cron_name (mkSingletonState (leaving_spec p) phaseActive 1 None false)
          (manager_of "n1" "n2" owner_runtime {[cron_name := mkPID "n1" cron_name 1]}))
       (NewRemotePIDResolver NewInMemoryPIDResolver "n1")))
    (Some (NewDaemonSetManager None None)).

Definition all_options : drainOptions routes_map :=
  drain_options [WithSingletonManager; WithDaemonSetManager; WithRegistry; WithHandoffGrace 1000000000].

(** [n3] joins while [n1] waits. *)
Definition third_joins : MemberEvent := mkMemberEvent MemberJoin (mkNodeMeta "n3" "n3:9000" ∅ 0).

Definition drained (p : option NodeMatcher) : option (clusterNode names_map) :=
  n ← drain_notify 2 5 (leaving p); fst <$> drain_stop 2 all_options n.

Definition drained_then_join (p : option NodeMatcher) : option (clusterNode names_map) :=
  n ← drained p; member_callback 2 6 third_joins n.

Lemma drain_stop_adapter {D} `{ORMap D} {R} `{DeltaMap R} fuel (o : drainOptions R) (n n' : clusterNode D) a :
  do_pubsubAdapter o = None -> drain_stop fuel o n = Some (n', a) -> a = None.
Proof.
  intros Ho. unfold drain_stop. rewrite Ho. intros (n1 & _ & E)%bind_Some. apply bind_Some in E as (n2 & _ & E). by injection E.
Qed.

Lemma drained_node_stays_idle_witness :
  exists n1 n3 n4, drain_notify 2 5 (leaving None) = Some n1 /\ drain_stop 2 all_options n1 = Some (n3, None) /\
    drained_then_join None = Some n4 /\
    (exists w, cn_wired n3 = Some w /\
      forall name pid, lookup_name name (wn_manager w) = Some pid -> Namespace pid <> "n1"%string) /\
    exists w' dm', cn_wired n4 = Some w' /\ cn_daemons n4 = Some dm' /\
    Singleton.Running (wn_manager w') = [] /\ Daemons.Running dm' = [].
Proof.
  assert (bool_decide (is_Some (drained_then_join None)) && bool_decide (LocalNodeID ∘ cn_cluster <$> drained None = Some "n1"%string)
    = true) as E by (vm_compute; reflexivity).
  apply andb_prop in E as [E4 El]. apply bool_decide_eq_true in E4 as [n4 E4]. pose proof E4 as E4'. apply bool_decide_eq_true in El.
  apply fmap_Some in El as (n3 & Ed & El). pose proof Ed as Ed'. unfold drained in Ed'. apply bind_Some in Ed' as (n1 & E1 & E3).
  apply fmap_Some in E3 as ([n3' a] & E3 & E). cbn [fst] in E. subst n3'.
  pose proof (drain_stop_adapter 2 all_options n1 n3 a eq_refl E3) as Ea. subst a.
  unfold drained_then_join in E4. apply bind_Some in E4 as (n3' & En & E4). rewrite Ed in En. injection En as <-.
  exists n1, n3, n4. split; [exact E1|]. split; [exact E3|]. split; [exact E4'|].
  match goal with |- ?A /\ ?B => enough ((exists w, cn_wired n1 = Some w /\
    forall name pid, lookup_name name (wn_manager w) = Some pid -> Namespace pid <> "n1"%string) /\ (true = true -> A) /\ B)
    as (_ & Ha & Hb) by (split; [exact (Ha eq_refl)|exact Hb]) end.
  apply (drained_node_stays_idle 2 "n1" ltac:(discriminate) all_options 5 (leaving None) n1 n1 n3 n4 _ _ None eq_refl eq_refl eq_refl).
  - vm_compute. reflexivity.
  - intros k s Hs. cbn in Hs. apply lookup_singleton_Some in Hs as [_ <-]. reflexivity.
  - reflexivity.
  - reflexivity.
  - exact E1.
  - apply rtc_refl.
  - exact E3.
  - apply rtc_once. apply (ns_callback 2 6 third_joins n3 n4 E4). right. right. unfold compose in El. rewrite <- El. discriminate.
Defined.

(** ** Singletons with a placement *)

(** A draining node starts its placed singletons again.  The leader of a singleton
    with a placement is chosen among the members of the cluster and the node
    itself (here: the node, by distinct hashes), whatever its election says; so once the drain has stopped such a
    singleton, the next membership event of any node starts it again. *)
Theorem draining_node_restarts_placed_singleton {D : Type} `{ORMapLaws D} (fuel : nat) (n n' : clusterNode D)
    (w : wiredNode D) (name : string) (s : singletonState) (h : handler) (p : NodeMatcher) (now : Z) (ev : MemberEvent) :
  cn_wired (share n) = Some w -> sm_singletons (wn_manager w) !! name = Some s -> st_phase s = phaseIdle ->
  ss_Placement (st_spec s) = Some p -> ss_Handler (st_spec s) = Some h -> name <> ""%string ->
  name_free name (sm_runtime (wn_manager w)) ->
  let nodes := Members (cn_cluster n) ++ [Self (cn_cluster n)] in
  hashes_distinct (scopeOf name) (node_ids (FilterNodes nodes (Some p))) ->
  LeaderAmong 0 (scopeOf name) (Some p) nodes = Some (localNode (wn_manager w)) ->
  findPrevLeader name (wn_manager w) = ""%string \/ findPrevLeader name (wn_manager w) = localNode (wn_manager w) ->
  member_callback fuel now ev n = Some n' ->
  exists w', cn_wired n' = Some w' /\ name ∈ Singleton.Running (wn_manager w').
Proof.
  intros Hw Hs Hph Hp Hh Hne Hf nodes Hd Hl Hprev. unfold member_callback, onMemberEvent. rewrite Hw.
  destruct (PublishMembershipEvent _ _ _ _) as [[r u]|]; cbn [mbind option_bind]; [|done]. intros [= <-].
  eexists. split; [done|]. cbn [wn_manager].
  change (name ∈ Singleton.Running (member_event now ev (wn_manager w))). unfold member_event. cbv zeta.
  set (sm0 := with_election _ (wn_manager w)).
  assert (name ∈ Singleton.Running (OnMemberEvent now ev sm0)) as Hr.
  { apply (event_starts sm0 name s h now ev); try done.
    - unfold leads. rewrite Hp. unfold share in Hw. destruct (cn_wired n) as [w0|]; [|done]. injection Hw as <-. cbn.
      apply bool_decide_eq_true. etransitivity; [by apply (LeaderAmong_orders _ 0)|exact Hl].
    - destruct Hprev; [by left|by right; left]. }
  by destruct (sm_registry (OnMemberEvent now ev sm0)).
Qed.

(** The node of the example, with a placement on itself, is stopped, then started
    again while it drains. *)
Definition on_n1 (m : NodeMeta) : bool := bool_decide (nm_ID m = "n1"%string).

(** What the theorem asks of the node after the stop. *)
Definition stopped_on_n1 (n : clusterNode names_map) (w : wiredNode names_map) : bool :=
  let sm := wn_manager w in
  match sm_singletons sm !! cron_name, lookup_actor cron_name (sm_runtime sm) with
  | Some s, Some l =>
      match ss_Placement (st_spec s), ss_Handler (st_spec s), instance l (sm_runtime sm) with
      | Some p, Some _, Some inst =>
          bool_decide (st_phase s = phaseIdle) && (l <? ap_next (rt_actors (sm_runtime sm)))%nat &&
          bool_decide (ai_status inst = ActorStoppedCode) && bool_decide (findPrevLeader cron_name sm = ""%string) &&
          bool_decide (LeaderAmong 0 (scopeOf cron_name) (Some p) (Members (cn_cluster n) ++ [Self (cn_cluster n)]) = Some (localNode sm)) &&
          bool_decide (NoDup (hashPair (scopeOf cron_name) <$>
            elements (node_ids (FilterNodes (Members (cn_cluster n) ++ [Self (cn_cluster n)]) (Some p)))))
      | _, _, _ => false
      end
  | _, _ => false
  end.

Definition restarts_placed : bool :=
  match drained (Some on_n1) with
  | Some n =>
      match cn_wired (share n) with
      | Some w => bool_decide (Singleton.Running (wn_manager w) = []) && stopped_on_n1 n w &&
          bool_decide (is_Some (member_callback 2 6 third_joins n))
      | None => false
      end
  | None => false
  end.

Lemma restarts_placed_true : restarts_placed = true.
Proof. vm_compute. reflexivity. Qed.

Lemma draining_node_restarts_placed_singleton_witness :
  exists n w n', drained (Some on_n1) = Some n /\
    cn_wired (share n) = Some w /\ Singleton.Running (wn_manager w) = [] /\
    member_callback 2 6 third_joins n = Some n' /\
    exists w', cn_wired n' = Some w' /\ cron_name ∈ Singleton.Running (wn_manager w').
Proof.
  pose proof restarts_placed_true as Hr. unfold restarts_placed in Hr.
  destruct (drained (Some on_n1)) as [n|] eqn:En; [|discriminate]. destruct (cn_wired (share n)) as [w|] eqn:Ew; [|discriminate].
  apply andb_prop in Hr as [Hr H2]. apply andb_prop in Hr as [H0 H1]. apply bool_decide_eq_true in H0, H2.
  destruct H2 as [n' Ew']. exists n, w, n'. split; [reflexivity|]. split; [exact Ew|]. split; [exact H0|]. split; [exact Ew'|].
  unfold stopped_on_n1 in H1. cbv zeta in H1. destruct (sm_singletons (wn_manager w) !! cron_name) as [s|] eqn:Es; [|discriminate].
  destruct (lookup_actor cron_name (sm_runtime (wn_manager w))) as [l|] eqn:Ea; [|discriminate].
  destruct (ss_Placement (st_spec s)) as [p|] eqn:Ep; [|discriminate]. destruct (ss_Handler (st_spec s)) as [h|] eqn:Eh; [|discriminate].
  destruct (instance l (sm_runtime (wn_manager w))) as [inst|] eqn:Ei; [|discriminate].
  apply andb_prop in H1 as [H1 P6]. apply andb_prop in H1 as [H1 P5]. apply andb_prop in H1 as [H1 P4]. apply andb_prop in H1 as [H1 P3]. apply andb_prop in H1 as [P1 P2].
  apply bool_decide_eq_true in P1, P3, P4, P5, P6. apply Nat.ltb_lt in P2.
  apply (draining_node_restarts_placed_singleton 2 n n' w cron_name s h p 6 third_joins Ew Es P1 Ep Eh).
  - discriminate.
  - unfold name_free. rewrite Ea. split; [exact P2|]. exists inst. split; [exact Ei|exact P3].
  - apply keys_distinct_NoDup. exact P6.
  - exact P5.
  - left. exact P4.
  - exact Ew'.
Defined.
