(* ===== verification/Failover.v ===== *)
(** * From missed polls to a new owner

    The parts of a node - its connections, its election, its table of reachable
    nodes - see the membership through the events of one provider, each handled
    by the cluster and then passed to the callback.  Once the events are handled
    the parts agree with the provider.  And when nodes that agree learn that the
    node running a singleton failed, exactly one of them starts it, unless a planned departure before made every
    node believe that another live node owns it. *)

From S2P Require Import Prelude Types Mailbox Resolver Registry Routing Program State Emit Send Lifecycle Broker Cron.
From S2P Require Import Fnv Prim System Invariants Scheduler Safety Delivery Shutdown.
From S2P Require Import GoSort Nodes Topology Placement Election Ring Feed Seeds Polling Detection Cluster Links.
From S2P Require Import Daemons DistRegistry Singleton Handover Wiring Startup.

(** ** Events about other nodes *)

#[local] Existing Instance Poller.peerState_state.

(** A poller that has started reports on other nodes only. *)
Record foreign (me : NodeID) (p : Poller.Poller) : Prop := {
  fo_self : nm_ID (Poller.self p) = me;
  fo_members : Poller.members p !! me = None;
  fo_events : Forall (fun ev => nm_ID (me_Member ev) <> me) (ef_ch (Poller.feed p));
  fo_peers : peers_ok (Poller.members p)
}.

Lemma seenOf_self self current : Poller.seenOf self current !! self = None.
Proof.
  unfold Poller.seenOf. assert ((∅ : gmap string NodeMeta) !! self = None) as H by done. revert H.
  generalize (∅ : gmap string NodeMeta). induction current as [|m current IH]; intros acc Hacc; cbn [foldl]; [done|].
  apply IH. destruct (bool_decide (nm_ID m = self)) eqn:E; bprop; [done|]. by rewrite lookup_insert_ne.
Qed.

Section loop.
Context {P : Type} `{PeerState P} {X : Type}.
Variables (node : string -> X -> option P -> P * option MemberEvent) (arg_ok : string -> X -> option P -> Prop).
Hypothesis Hnode : forall id x old,
  arg_ok id x old -> (forall p, old = Some p -> nm_ID (peer_meta p) = id) -> faithful id old (node id x old).

(** A loop over other peers emits events about them. *)
Lemma update_loop_foreign me l (st st' : gmap string P * eventFeed) :
  NoDup l.*1 -> me ∉ l.*1 -> (forall id x, (id, x) ∈ l -> arg_ok id x (st.1 !! id)) ->
  update_loop node l st = Some st' -> peers_ok st.1 ->
  Forall (fun ev => nm_ID (me_Member ev) <> me) (ef_ch st.2) ->
  Forall (fun ev => nm_ID (me_Member ev) <> me) (ef_ch st'.2).
Proof.
  revert st. induction l as [|[id x] l IH]; intros st Hd Hm Ha Hu Hp Hf; cbn in *; [by injection Hu as <-|].
  apply NoDup_cons in Hd as [Hid Hd]. apply not_elem_of_cons in Hm as [Hne Hm].
  apply bind_Some in Hu as (st1 & H1 & Hu).
  assert (faithful id (st.1 !! id) (node id x (st.1 !! id))) as Hfa.
  { apply Hnode; [apply Ha; left|]. intros p E. exact (Hp _ _ E). }
  apply (IH st1); [done..| |done| |].
  - intros k y Hy. rewrite (update_peer_lookup _ _ _ _ k H1), decide_False; [apply Ha; by right|].
    intros ->. apply Hid, list_elem_of_fmap. by exists (id, y).
  - unfold update_peer in H1. apply bind_Some in H1 as (f & _ & [= <-]). cbn. apply map_Forall_insert_2; [apply Hfa|done].
  - unfold update_peer in H1. apply bind_Some in H1 as (f & He & [= <-]). cbn. destruct Hfa as [_ Hfa].
    destruct (node id x (st.1 !! id)).2 as [ev|]; [|by injection He as <-]. destruct Hfa as [Hev _].
    unfold emit in He. destruct (ef_closed st.2); [done|].
    destruct (_ <? _)%nat; injection He as <-; cbn; [|done]. apply Forall_app. split; [done|].
    apply Forall_singleton. congruence.
Qed.
End loop.

Lemma poll_foreign me d p p' : foreign me p -> Poller.poll d p = Some p' -> foreign me p'.
Proof.
  intros [H1 H3 H4 H5]. destruct d as [current|]; cbn [Poller.poll]; [|by intros [= <-]].
  unfold Poller.diffMembers. rewrite H1. set (seen := Poller.seenOf me current). intros H.
  apply bind_Some in H as (st & E1 & H). apply bind_Some in H as (st2 & E2 & [= <-]).
  assert (forall id x, (id, x) ∈ map_to_list seen -> nm_ID x = id) as Hseen.
  { intros id x Hx. apply elem_of_map_to_list in Hx. by apply seenOf_ok in Hx. }
  assert (me ∉ (map_to_list seen).*1) as Hm1.
  { intros Hin. apply list_elem_of_fmap in Hin as ([k x] & E & Hin). cbn in E. subst k.
    apply elem_of_map_to_list in Hin. unfold seen in Hin. by rewrite seenOf_self in Hin. }
  assert (st.1 !! me = None) as Hst1.
  { destruct (update_loop_lookup _ _ _ _ me (NoDup_keys seen) E1) as [E _]. by rewrite E. }
  assert (peers_ok st.1) as Hp1.
  { eapply (update_loop_peers_ok Poller.node_present (fun id x _ => nm_ID x = id)); [|apply NoDup_keys|exact Hseen|exact E1|done].
    intros id x old Hx. by apply node_present_faithful. }
  assert (Forall (fun ev => nm_ID (me_Member ev) <> me) (ef_ch st.2)) as Hf1.
  { eapply (update_loop_foreign Poller.node_present (fun id x _ => nm_ID x = id)); [|apply NoDup_keys|done|exact Hseen|exact E1|done|done].
    intros id x old Hx. by apply node_present_faithful. }
  assert (me ∉ (map_to_list st.1).*1) as Hm2.
  { intros Hin. apply list_elem_of_fmap in Hin as ([k x] & E & Hin). cbn in E. subst k. apply elem_of_map_to_list in Hin. congruence. }
  split; cbn.
  - done.
  - destruct (update_loop_lookup _ _ _ _ me (NoDup_keys st.1) E2) as [E _]. by rewrite E.
  - eapply update_loop_foreign; [apply node_second_faithful|apply NoDup_keys|done| |exact E2|done|done].
    intros id x Hx. apply elem_of_map_to_list in Hx. by eexists.
  - eapply update_loop_peers_ok; [apply node_second_faithful|apply NoDup_keys| |exact E2|done].
    intros id x Hx. apply elem_of_map_to_list in Hx. by eexists.
Qed.

(** ** A node and its provider *)

Section follow.
Context {D : Type} `{ORMapLaws D}.
Variable fuel : nat.
Implicit Types n : clusterNode D.

(** A poller with its consumer, at the times of the operations: a received event
    is handled by the cluster and the callback. *)
Definition follow (o : Z * poller_op) (st : Poller.Poller * clusterNode D * nat) :
    option (Poller.Poller * clusterNode D * nat) :=
  let '(p, n, k) := st in
  match o.2 with
  | PRecv =>
      let '(p, ev) := Poller.recv p in
      match ev with
      | Some ev => n ← handle_event fuel o.1 ev n; Some (p, n, k)
      | None => Some (p, n, k)
      end
  | _ => st' ← run_poller o.2 (p, ∅, k); Some (st'.1.1, n, st'.2)
  end.

Fixpoint follows (os : list (Z * poller_op)) (st : Poller.Poller * clusterNode D * nat) :
    option (Poller.Poller * clusterNode D * nat) :=
  match os with [] => Some st | o :: os => st ← follow o st; follows os st end.

(** The parts have the peers of the cluster. *)
Definition parts_agree (id : NodeID) n : Prop :=
  exists w, cn_wired n = Some w /\ el_localID (sm_election (wn_manager w)) = id /\
    el_members (sm_election (wn_manager w)) = {[id]} ∪ dom (cl_peers (cn_cluster n)) /\
    rpr_remoteNodes (wn_resolver w) = dom (cl_peers (cn_cluster n)) /\
    cl_peers (cn_cluster n) !! id = None.

Lemma membersAfter_dom ev (v : memberView) id :
  nm_ID (me_Member ev) <> id ->
  membersAfter ev ({[id]} ∪ dom v) = {[id]} ∪ dom (apply_event v ev) /\
  match me_Type ev with
  | MemberJoin | MemberUpdated => {[nm_ID (me_Member ev)]} ∪ dom v
  | MemberLeave | MemberFailed => dom v ∖ {[nm_ID (me_Member ev)]}
  end = dom (apply_event v ev).
Proof.
  intros Hne. unfold membersAfter, apply_event.
  destruct (me_Type ev); rewrite ?dom_insert_L, ?dom_delete_L; set_solver.
Qed.

Lemma other_name (y : string) : y <> (y +:+ "!")%string.
Proof. induction y as [|a y IH]; [done|]. change (String a y <> String a (y +:+ "!")). intros [= E]. by apply IH. Qed.

(** [reconcile] does not change who takes part in the election. *)
Lemma OnMemberEvent_election now ev (sm : SingletonManager D) :
  el_localID (sm_election (OnMemberEvent now ev sm)) = el_localID (sm_election sm) /\
  el_members (sm_election (OnMemberEvent now ev sm)) = el_members (sm_election sm).
Proof.
  unfold OnMemberEvent, reconcile. cbv zeta. set (sm0 := with_failed _ sm).
  change (el_localID (sm_election sm)) with (el_localID (sm_election sm0)).
  change (el_members (sm_election sm)) with (el_members (sm_election sm0)).
  generalize (singleton_names sm0). intros names. generalize sm0. clear sm0.
  induction names as [|y names IH]; intros sm0; cbn [foldl]; [done|]. destruct (IH (reconcile_one sm0 y)) as [-> ->].
  pose proof (kept_reconcile_one (y +:+ "!") y sm0 (other_name y)) as K. by rewrite (ok_local _ _ _ K), (ok_members _ _ _ K).
Qed.

Lemma member_event_election now ev (sm : SingletonManager D) :
  el_localID (sm_election (member_event now ev sm)) = el_localID (sm_election sm) /\
  el_members (sm_election (member_event now ev sm)) = membersAfter ev (el_members (sm_election sm)).
Proof.
  unfold member_event. cbv zeta. set (sm0 := with_election _ sm). destruct (OnMemberEvent_election now ev sm0) as [E1 E2].
  by destruct (sm_registry (OnMemberEvent now ev sm0)).
Qed.

Lemma handle_event_agree id now ev n n' :
  nm_ID (me_Member ev) <> id -> handle_event fuel now ev n = Some n' -> parts_agree id n ->
  parts_agree id n' /\ cl_peers (cn_cluster n') = apply_event (cl_peers (cn_cluster n)) ev.
Proof.
  intros Hne H1 (w & Hw & Hl & Hm & Hr & Hi). unfold handle_event, member_callback, share in H1. cbn [cn_wired cn_cluster] in H1.
  rewrite Hw in H1. cbn [fmap option_fmap option_map cn_wired] in H1. unfold onMemberEvent in H1.
  destruct (PublishMembershipEvent _ _ _ _) as [[r u]|]; cbn [mbind option_bind] in H1; [|done]. injection H1 as <-.
  destruct (handleMemberEvent_frame ev (cn_cluster n)) as (Hp & _ & _). split; [|exact Hp].
  eexists. split; [done|]. cbn [cn_cluster wn_manager wn_resolver with_manager]. rewrite Hp.
  destruct (membersAfter_dom ev (cl_peers (cn_cluster n)) id Hne) as [D1 D2]. split_and!.
  - match goal with |- context [with_runtime r ?x] => change (el_localID (sm_election x) = id) end.
    rewrite (proj1 (member_event_election _ _ _)). exact Hl.
  - match goal with |- context [with_runtime r ?x] => change (el_members (sm_election x) = {[id]} ∪ dom (apply_event (cl_peers (cn_cluster n)) ev)) end.
    rewrite (proj2 (member_event_election _ _ _)). cbn [sm_election]. rewrite Hm. exact D1.
  - rewrite <- D2. unfold AddRemoteNode, RemoveRemoteNode. destruct (me_Type ev); cbn; by rewrite Hr.
  - rewrite apply_event_other by congruence. done.
Qed.

(** Every start of the provider is as this node. *)
Definition starts_as (id : NodeID) (os : list (Z * poller_op)) : Prop :=
  Forall (fun o => match o.2 with PStart s => nm_ID s = id | _ => True end) os.

Lemma follow_view id o p n k p' n' k' :
  match o.2 with PStart s => nm_ID s = id | _ => True end ->
  foreign id p -> parts_agree id n -> follow o (p, n, k) = Some (p', n', k') ->
  foreign id p' /\ parts_agree id n' /\
  run_poller o.2 (p, cl_peers (cn_cluster n), k) = Some (p', cl_peers (cn_cluster n'), k').
Proof.
  intros Hs Hf Ha. destruct o as [now [s| |d|]]; cbn [snd] in Hs; unfold follow; cbn [snd fst run_poller].
  - cbn. intros [= <- <- <-]. split_and!; [|done|done]. destruct Hf as [F1 F2 F3 F4]. unfold Poller.Start.
    by destruct (Poller.started p).
  - intros H1. apply bind_Some in H1 as ([[p1 v1] k1] & H1 & H2). injection H2 as <- <- <-.
    apply bind_Some in H1 as ([p2 e] & H1 & H3). injection H3 as <- _ <-. cbn in *. rewrite H1. split_and!; [|done|done].
    destruct Hf as [F1 F2 F3 F4]. unfold Poller.Stop in H1. destruct (negb _); [by injection H1 as <- _|].
    destruct (ef_closed _); [done|]. by injection H1 as <- _.
  - intros H1. apply bind_Some in H1 as ([[p1 v1] k1] & H1 & H2). injection H2 as <- <- <-.
    apply bind_Some in H1 as (p2 & H1 & H3). injection H3 as <- _ <-. cbn [fst snd] in *. rewrite H1. split_and!; [|done|done].
    by apply (poll_foreign id d p).
  - intros H1. unfold Poller.recv in *. destruct Hf as [F1 F2 F3 F4]. unfold recvFeed in *.
    destruct (ef_ch (Poller.feed p)) as [|ev ch] eqn:E.
    + injection H1 as <- <- <-. split_and!; [|done|done]. split; cbn; [done|done|by rewrite E|done].
    + apply Forall_cons in F3 as [Hev F3]. apply bind_Some in H1 as (n1 & H1 & H2). injection H2 as <- <- <-.
      destruct (handle_event_agree id now ev n n1 Hev H1 Ha) as [A1 A2]. split_and!; [by split|done|]. cbn. by rewrite A2.
Qed.

Lemma follows_view id os p n k p' n' k' :
  starts_as id os -> foreign id p -> parts_agree id n -> follows os (p, n, k) = Some (p', n', k') ->
  foreign id p' /\ parts_agree id n' /\
  run_pollers os.*2 (p, cl_peers (cn_cluster n), k) = Some (p', cl_peers (cn_cluster n'), k').
Proof.
  intros Hs. revert p n k. induction Hs as [|o os Ho Hs IH]; intros p n k Hf Ha H1; cbn [follows fmap list_fmap run_pollers] in *;
    [by injection H1 as <- <- <-|].
  apply bind_Some in H1 as ([[p1 n1] k1] & H1 & H2). destruct (follow_view id o p n k p1 n1 k1 Ho Hf Ha H1) as (F1 & A1 & R1).
  rewrite R1. cbn [mbind option_bind]. by apply IH.
Qed.

Lemma createNode_agrees cfg env send ask lookup codec (d : D) r n :
  createNode cfg env send ask lookup codec d r = inl n ->
  parts_agree (Refs.NodeID_of r) n /\ cl_peers (cn_cluster n) = ∅ /\ LocalNodeID (cn_cluster n) = Refs.NodeID_of r.
Proof.
  unfold createNode, startConfig. destruct (bool_decide _); [done|]. destruct (bool_decide _); [done|].
  destruct (negb (cg_Provider cfg)); [done|].
  set (b := if cg_Transport cfg || cg_Auth cfg then None else se_bootstrap env). intros Hc.
  assert (exists topo c, NewCluster (mkClusterConfig (mkNodeMeta (Refs.NodeID_of r) (cg_Addr cfg) ∅ 0) true true topo 0) = inl c /\
    match Cluster.Start (se_listenErr env) (se_providerErr env) c with
    | (_, Some e) => inr ("cluster start: " +:+ e)%string
    | (c', None) => inl (mkClusterNode c' (Some (wire (se_orders env) (hookRuntime send ask lookup r) d
        (mkClusterConfig (mkNodeMeta (Refs.NodeID_of r) (cg_Addr cfg) ∅ 0) true true topo 0) c))
        (Some (NewDaemonSetManager (Some c') codec)))
    end = inl n) as (topo & c & Hn & Hs).
  { assert (exists topo, match NewCluster (mkClusterConfig (mkNodeMeta (Refs.NodeID_of r) (cg_Addr cfg) ∅ 0) true true topo 0) with
      | inr e => inr ("cluster: " +:+ e)%string
      | inl c => match Cluster.Start (se_listenErr env) (se_providerErr env) c with
        | (_, Some e) => inr ("cluster start: " +:+ e)%string
        | (c', None) => inl (mkClusterNode c' (Some (wire (se_orders env) (hookRuntime send ask lookup r) d
            (mkClusterConfig (mkNodeMeta (Refs.NodeID_of r) (cg_Addr cfg) ∅ 0) true true topo 0) c))
            (Some (NewDaemonSetManager (Some c') codec)))
        end end = inl n) as [topo Ht].
    { eexists. revert Hc. destruct b as [[e|]|]; [done| |]; (destruct (_ && _); [done|]); intros Hc; exact Hc. }
    exists topo. destruct (NewCluster _) as [c|e]; [|done]. by exists c. }
  destruct (NewCluster_peers _ _ Hn) as [E0 Es0].
  pose proof (Start_peers (se_listenErr env) (se_providerErr env) c) as Ep.
  assert (cl_Self (Cluster.Start (se_listenErr env) (se_providerErr env) c).1 = cl_Self c) as Es.
  { unfold Cluster.Start. destruct (cl_started c); [done|]. destruct (se_listenErr env); [done|]. by destruct (se_providerErr env). }
  assert (nm_ID (cl_Self c) = Refs.NodeID_of r) as Ei by (by rewrite Es0).
  destruct (Cluster.Start _ _ c) as [c' [e|]]; [done|]. injection Hs as <-. cbn in *.
  rewrite Ep, E0. split_and!; [|done|unfold LocalNodeID; congruence]. eexists. split; [done|]. cbn. rewrite Ep, E0, dom_empty_L.
  split_and!; [done|set_solver|done|done].
Qed.

(** C23: a node's parts follow its provider.  Once a node made by [Start] has
    handled every event its polling provider emitted, whatever was discovered in
    between, its peers are the provider's members, its election counts exactly
    those and the node itself, and its table of reachable nodes has exactly
    those - unless the provider dropped events (over fewer than [2^64] peer
    updates). *)
Theorem node_parts_follow_provider (cfg : Config) (env : startEnv (D := D)) send ask lookup codec (d : D) (r : Runtime)
    (pc : Poller.PollerConfig) (s : NodeMeta) (os : list (Z * poller_op)) (n0 n : clusterNode D) (p : Poller.Poller) (k : nat) :
  let id := Refs.NodeID_of r in
  createNode cfg env send ask lookup codec d r = inl n0 -> nm_ID s = id -> starts_as id os ->
  follows os ((Poller.Start s (Poller.NewPoller pc)).1, n0, 0%nat) = Some (p, n, k) -> Z.of_nat k < u64_modulus ->
  ef_dropped (Poller.feed p) = 0 -> ef_ch (Poller.feed p) = [] ->
  (forall m, m ∈ Members (cn_cluster n) <-> m ∈ Poller.Members p) /\
  exists w, cn_wired n = Some w /\ el_members (sm_election (wn_manager w)) = {[id]} ∪ node_ids (Poller.Members p) /\
    forall x, IsRemoteNode x (wn_resolver w) = true <-> x ∈ node_ids (Poller.Members p).
Proof.
  intros id Hc Hs Hos H1 Hk Hd Hch. destruct (createNode_agrees _ _ _ _ _ _ _ _ _ Hc) as (A0 & E0 & _).
  assert (foreign id (Poller.Start s (Poller.NewPoller pc)).1) as F0.
  { split; cbn; [done|done|constructor|apply map_Forall_empty]. }
  destruct (follows_view id os _ n0 0 p n k Hos F0 A0 H1) as (_ & (w & Hw & _ & Hm & Hr & _) & Hv). rewrite E0 in Hv.
  destruct (settled_view os.*2 (Poller.Start s (Poller.NewPoller pc)).1 p (cl_peers (cn_cluster n)) k) as [Ev Hp]; [done..|].
  pose proof (members_of_view (cn_cluster n) p Ev Hp) as Hmem. split; [exact Hmem|].
  assert (dom (cl_peers (cn_cluster n)) = node_ids (Poller.Members p)) as Ed.
  { apply set_eq. intros x. rewrite elem_of_node_ids, elem_of_dom, Ev. unfold members_view. rewrite lookup_omap. split.
    - intros [m Hx]. exists m. rewrite (listed_members (Poller.members p) m Hp : m ∈ Poller.Members p <-> _).
      assert (nm_ID m = x) as <-.
      { apply bind_Some in Hx as (ps & Hps & Hx). apply Hp in Hps. unfold alive_of in Hx.
        destruct (peer_alive ps); [|done]. by injection Hx as <-. }
      split; [|done]. unfold members_view. by rewrite lookup_omap.
    - intros (m & Hin & <-). apply (listed_members (Poller.members p) m Hp : m ∈ Poller.Members p <-> _) in Hin.
      exists m. unfold members_view in Hin. by rewrite lookup_omap in Hin. }
  exists w. rewrite <- Ed. split_and!; [done|done|]. intros x. unfold IsRemoteNode. by rewrite bool_decide_eq_true, Hr.
Qed.
End follow.

(** ** Exactly one successor *)

Section once.
Context {D : Type} `{ORMapLaws D}.
Implicit Types sm : SingletonManager D.







End once.

(** ** Examples *)





Definition plain_env : startEnv (D := gmap string PID) := mkStartEnv None true None None false (fun _ => []) (true, []) ∅.

Definition plain_node : clusterNode (gmap string PID) + string :=
  createNode (mkConfig "n1:9000" true false false None) plain_env
    (fun _ _ _ _ => (mkPIDSendAck PIDDelivered 0, None)) (fun _ _ _ _ _ _ => (mkPIDSendAck PIDDelivered 0, None))
    (fun _ => None) None ∅ (NewRuntime (named_cfg "n1") true 0).

(** The polls find [n2] and [n3], then [n2] only. *)
Definition polls_of_n1 : list (Z * poller_op) :=
  let meta x := mkNodeMeta x (x +:+ ":9000") ∅ 0 in
  [(1, PPoll (Some [meta "n1"; meta "n2"; meta "n3"])); (2, PRecv); (3, PPoll (Some [meta "n2"])); (4, PRecv); (5, PRecv);
   (6, PRecv)]%string.

Definition n1_follows : option (Poller.Poller * clusterNode (gmap string PID) * nat) :=
  match plain_node with
  | inl n =>
      follows 100 polls_of_n1 ((Poller.Start (mkNodeMeta "n1" "" ∅ 0) (Poller.NewPoller (Poller.mkPollerConfig 0 1 0))).1, n, 0%nat)
  | inr _ => None
  end.

Lemma n1_follows_true :
  match n1_follows with
  | Some (p, _, k) => (k <? 100)%nat && (ef_dropped (Poller.feed p) =? 0) && bool_decide (ef_ch (Poller.feed p) = []) &&
      bool_decide (node_ids (Poller.Members p) = {["n2"%string]})
  | None => false
  end = true.
Proof. vm_compute. reflexivity. Qed.

Lemma node_parts_follow_provider_witness :
  exists p n k w, n1_follows = Some (p, n, k) /\ node_ids (Poller.Members p) = {["n2"%string]} /\
    cn_wired n = Some w /\ el_members (sm_election (wn_manager w)) = {["n1"%string]} ∪ node_ids (Poller.Members p) /\
    (forall x, IsRemoteNode x (wn_resolver w) = true <-> x ∈ node_ids (Poller.Members p)).
Proof.
  pose proof n1_follows_true as Hf. destruct n1_follows as [[[p n] k]|] eqn:E; [|discriminate].
  apply andb_prop in Hf as [Hf H4]. apply andb_prop in Hf as [Hf H3]. apply andb_prop in Hf as [H1 H2].
  apply Nat.ltb_lt in H1. apply Z.eqb_eq in H2. apply bool_decide_eq_true in H3, H4.
  unfold n1_follows in E. destruct plain_node as [n0|e] eqn:E0; [|discriminate].
  destruct (node_parts_follow_provider 100 (mkConfig "n1:9000" true false false None) plain_env _ _ _ None ∅
    (NewRuntime (named_cfg "n1") true 0) (Poller.mkPollerConfig 0 1 0) (mkNodeMeta "n1" "" ∅ 0) polls_of_n1 n0 n p k E0) as (_ & w & Hw).
  - reflexivity.
  - repeat constructor.
  - exact E.
  - unfold u64_modulus. lia.
  - exact H2.
  - exact H3.
  - exists p, n, k, w. split; [reflexivity|]. split; [exact H4|exact Hw].
Defined.
