(* ===== verification/Supervision.v ===== *)
(** * Supervised clusters ([cluster/supervision_cluster.go])

    A [ClusterSupervisor] on every node decides where the actors of a failed node
    are to run; the election makes one of them decide.  Its [Start] takes the
    membership callback of the cluster for itself, so a node that [cluster.Start]
    made loses the callback it had. *)

From S2P Require Import Prelude Types Mailbox Resolver Registry Routing Program State Emit Send Lifecycle Broker Cron.
From S2P Require Import Fnv Prim System Invariants Scheduler Safety.
From S2P Require Import GoSort Nodes Topology Placement Election Ring Feed Seeds Cluster.
From S2P Require Import Daemons DistRegistry Singleton Handover Wiring Startup Failover.

(** ** One decision per failure *)

(** A supervisor with the parts of its node. *)
Record supervised (D : Type) := mkSupervised {
  su_cluster : Cluster;
  su_election : RingElection;
  su_registry : D;
  su_supervisor : ClusterSupervisor
}.
Arguments mkSupervised {D} _ _ _ _.
Arguments su_cluster {D} _.
Arguments su_election {D} _.
Arguments su_registry {D} _.
Arguments su_supervisor {D} _.

Section decisions.
Context {D : Type} `{ORMapLaws D}.
Implicit Types su : supervised D.

(** The callback on an event of the node's cluster. *)
Definition supervised_event (ev : MemberEvent) (term' : Z) su : supervised D :=
  let c := Cluster.handleMemberEvent ev (su_cluster su) in
  let '(e, d, cs) := supervise ev term' c (su_election su) (su_registry su) (su_supervisor su) in
  mkSupervised c e d cs.

(** What every node knows before the failure: the same members, and that the failed
    node runs actors. *)
Record watches (scope : string) (failed : NodeID) (ids : gset NodeID) su : Prop := {
  wa_scope : cs_scope (su_supervisor su) = scope;
  wa_local : el_localID (su_election su) ∈ ids;
  wa_members : el_members (su_election su) = {[failed]} ∪ ids;
  wa_election : el_ok (su_election su);
  wa_names : NamesByNode failed (su_registry su) <> []
}.

(** The term of the supervisor's scope once the election has seen the event. *)
Definition term_after (ev : MemberEvent) su : Z :=
  Term (cs_scope (su_supervisor su))
    (IsLeader (cs_scope (su_supervisor su)) (Election.OnMembershipChange ev (su_election su))).1.

Lemma watches_leads scope failed ids su :
  watches scope (nm_ID failed) ids su -> hashes_distinct scope ids -> nm_ID failed ∉ ids -> ""%string ∉ ids ->
  (IsLeader scope (Election.OnMembershipChange (mkMemberEvent MemberFailed failed) (su_election su))).2 =
    bool_decide (computeLeader 0 scope ids = el_localID (su_election su)).
Proof. intros [_ Hl Hm Hok _] Hd Hf He. by apply (failed_leads 0 scope failed). Qed.

(** A supervisor that does not lead leaves its registry and its decisions alone. *)
Lemma follower_stays ev term' su failed :
  ev = mkMemberEvent MemberFailed failed ->
  (IsLeader (cs_scope (su_supervisor su)) (Election.OnMembershipChange ev (su_election su))).2 = false ->
  su_registry (supervised_event ev term' su) = su_registry su /\
  su_supervisor (supervised_event ev term' su) = su_supervisor su.
Proof.
  intros -> Hl. unfold supervised_event, supervise, handleNodeFailure. cbn [me_Type me_Member].
  destruct (IsLeader _ _) as [e b]. cbn in Hl. by subst b.
Qed.

(** The leader records what its policy answers for the actors of the failed node
    and the other peers, and frees their names. *)
Lemma leader_decides ev su failed :
  ev = mkMemberEvent MemberFailed failed ->
  (IsLeader (cs_scope (su_supervisor su)) (Election.OnMembershipChange ev (su_election su))).2 = true ->
  NamesByNode (nm_ID failed) (su_registry su) <> [] ->
  let su' := supervised_event ev (term_after ev su) su in
  let cs := su_supervisor su in
  su_registry su' = (UnregisterByNode (nm_ID failed) (su_registry su)).1 /\
  cs_decisions (su_supervisor su') = cs_decisions cs ++
    cs_policy cs (nm_ID failed) (NamesByNode (nm_ID failed) (su_registry su))
      (filter (fun m => nm_ID m <> nm_ID failed) (Members (su_cluster su'))).
Proof.
  intros -> Hl Hn. unfold supervised_event, supervise, handleNodeFailure, term_after. cbn [me_Type me_Member].
  destruct (IsLeader _ _) as [e b]. cbn in Hl |- *. subst b. cbn [negb].
  rewrite (bool_decide_false (length (NamesByNode (nm_ID failed) (su_registry su)) = 0%nat)) by (by intros ?%length_zero_iff_nil).
  rewrite Z.eqb_refl. done.
Qed.

(** A failure is decided once.  When supervisors that know the same members, with
    distinct hashes under the supervisors' scope, learn that a node failed, each at its own time and none seeing the leadership change
    while its policy answers, exactly one of them records decisions: the leader they
    agree on.  With the restart policy these name each of the failed node's
    actors once and target one of the leader's other peers, and the leader's
    registry has none of the node's names left; the others keep theirs. *)
Theorem failure_is_decided_once (nodes : list (supervised D)) (scope : string) (failed : NodeMeta) :
  let ids : gset NodeID := list_to_set ((fun su => el_localID (su_election su)) <$> nodes) in
  let ev := mkMemberEvent MemberFailed failed in
  let after su := supervised_event ev (term_after ev su) su in
  nodes <> [] -> NoDup ((fun su => el_localID (su_election su)) <$> nodes) -> hashes_distinct scope ids ->
  nm_ID failed ∉ ids -> ""%string ∉ ids -> Forall (watches scope (nm_ID failed) ids) nodes ->
  exists su, su ∈ nodes /\
    (cs_policy (su_supervisor su) = SimpleRestart_OnNodeFailed -> cs_decisions (su_supervisor su) = [] ->
     (exists m, m ∈ Members (su_cluster (after su)) /\ nm_ID m <> nm_ID failed) ->
     let ds := cs_decisions (su_supervisor (after su)) in
     pd_ActorName <$> ds = NamesByNode (nm_ID failed) (su_registry su) /\
     forall d, d ∈ ds -> pd_Action d = PlacementRestart /\ pd_TargetNode d <> nm_ID failed /\
       exists m, m ∈ Members (su_cluster (after su)) /\ nm_ID m = pd_TargetNode d) /\
    NamesByNode (nm_ID failed) (su_registry (after su)) = [] /\
    forall su', su' ∈ nodes -> su' <> su ->
      su_registry (after su') = su_registry su' /\ su_supervisor (after su') = su_supervisor su'.
Proof.
  intros ids ev after Hne Hnd Hdist Hf He Hall.
  assert (ids <> ∅) as Hids. { destruct nodes as [|su nodes]; [done|]. unfold ids. cbn. set_solver. }
  destruct (computeLeader_least 0 scope ids Hids) as [Hin _].
  apply elem_of_list_to_set, list_elem_of_fmap in Hin as (su & El & Hin).
  assert (watches scope (nm_ID failed) ids su) as Hw by (by eapply Forall_forall in Hall).
  pose proof (watches_leads _ _ _ _ Hw Hdist Hf He) as Hl. rewrite (bool_decide_eq_true_2 _ El) in Hl.
  rewrite <- (wa_scope _ _ _ _ Hw) in Hl.
  destruct (leader_decides ev su failed eq_refl Hl (wa_names _ _ _ _ Hw)) as [Er Ed]. exists su. split_and!.
  - done.
  - intros Hp Hd (m & Hm & Hmf). cbv zeta. unfold after. rewrite Ed, Hp, Hd. cbn [app].
    set (live := filter _ _). assert (m ∈ live) as Hml by (by apply list_elem_of_filter).
    destruct (SimpleRestart_spec (nm_ID failed) (NamesByNode (nm_ID failed) (su_registry su)) live) as (_ & Hn & Hd').
    split; [apply Hn; by intros E; rewrite E in Hml; apply not_elem_of_nil in Hml|].
    intros x Hx. destruct (Hd' x Hx) as [Ha Ht]. apply list_elem_of_fmap in Ht as (m' & -> & Hm').
    apply list_elem_of_filter in Hm' as [Hne' Hm']. split_and!; [done|done|by exists m'].
  - unfold after. rewrite Er. apply unregistered_names.
  - intros su' Hin' Hne'. assert (watches scope (nm_ID failed) ids su') as Hw' by (by eapply Forall_forall in Hall).
    apply (follower_stays _ _ _ failed); [done|]. rewrite (wa_scope _ _ _ _ Hw').
    refine (eq_trans (watches_leads _ _ _ _ Hw' Hdist Hf He) _).
    apply bool_decide_eq_false. intros El'. apply Hne'.
    apply list_elem_of_lookup in Hin as [i Hi]. apply list_elem_of_lookup in Hin' as [j Hj].
    assert (i = j) as ->; [|congruence]. eapply (NoDup_lookup _ i j); [exact Hnd|by rewrite list_lookup_fmap, Hi|].
    rewrite list_lookup_fmap, Hj. cbn. congruence.
Qed.
End decisions.

(** ** The callback of a supervised node *)

Section callback.
Context {D : Type} `{ORMap D}.
Implicit Types n : clusterNode D.

(** [Start] of a supervisor over a node's election and registry replaces the
    node's callback; an event then is handled by the cluster and by the
    supervisor.  [None] is a nil dereference. *)
Definition supervised_handle (ev : MemberEvent) (term' : Z) (cs : ClusterSupervisor) n :
    option (clusterNode D * ClusterSupervisor) :=
  let n := share (mkClusterNode (Cluster.handleMemberEvent ev (cn_cluster n)) (cn_wired n) (cn_daemons n)) in
  w ← cn_wired n;
  d ← sm_registry (wn_manager w);
  let '(e, d, cs) := supervise ev term' (cn_cluster n) (sm_election (wn_manager w)) d cs in
  Some (mkClusterNode (cn_cluster n) (Some (with_manager (with_registry (Some d) (with_election e (wn_manager w))) w))
          (cn_daemons n), cs).

(** The rest of the node no longer hears of the membership: whatever the event, no
    singleton starts or stops, nothing is published, and the table of reachable
    nodes stays. *)
Theorem supervised_node_is_deaf ev term' cs cs' n n' w :
  supervised_handle ev term' cs n = Some (n', cs') -> cn_wired n = Some w ->
  exists w', cn_wired n' = Some w' /\ wn_resolver w' = wn_resolver w /\
    sm_runtime (wn_manager w') = sm_runtime (wn_manager w) /\
    sm_failedNodes (wn_manager w') = sm_failedNodes (wn_manager w) /\
    Singleton.Running (wn_manager w') = Singleton.Running (wn_manager w) /\
    el_members (sm_election (wn_manager w')) = membersAfter ev (el_members (sm_election (wn_manager w))).
Proof.
  unfold supervised_handle, share. cbn [cn_wired cn_cluster]. intros Hs Hw. rewrite Hw in Hs.
  cbn [fmap option_fmap option_map mbind option_bind wn_manager with_manager] in Hs.
  apply bind_Some in Hs as (d & Hd & Hs). cbn [sm_election] in Hs.
  assert (forall c e0 d0 cs0, el_members (supervise ev term' c e0 d0 cs0).1.1 = membersAfter ev (el_members e0)) as Hmem.
  { intros c e0 d0 cs0. unfold supervise, handleNodeFailure.
    assert (el_members (Election.OnMembershipChange ev e0) = membersAfter ev (el_members e0)) as E by done.
    destruct (me_Type ev); try exact E. cbn zeta. pose proof (IsLeader_members (cs_scope cs0) (Election.OnMembershipChange ev e0)) as El.
    destruct (IsLeader _ _) as [e1 b]. cbn [fst] in El. rewrite E in El.
    destruct b; cbn [negb]; [|exact El]. destruct (bool_decide _); [exact El|]. by destruct (negb _). }
  specialize (Hmem (Cluster.handleMemberEvent ev (cn_cluster n)) (sm_election (wn_manager w)) d cs).
  destruct (supervise _ _ _ _ _ _) as [[e d1] cs1]. injection Hs as <- <-. eexists. split; [done|]. by split_and!.
Qed.
End callback.

(** ** Examples *)

(** [n2] and [n3] supervise; [n1] ran an actor. *)
Definition watching (id peer : NodeID) : supervised (gmap string PID) :=
  mkSupervised
    (match NewCluster (mkClusterConfig (mkNodeMeta id (id +:+ ":9000") ∅ 0) true true None 0) with
     | inl c => foldl (fun c m => Cluster.handleMemberEvent (mkMemberEvent MemberJoin m) c) c
                  [mkNodeMeta "n1" "" ∅ 0; mkNodeMeta peer "" ∅ 0]
     | inr _ => peer_cluster id peer
     end)
    (SetMembers [mkNodeMeta "n1" "" ∅ 0; mkNodeMeta peer "" ∅ 0] (NewRingElection ∅ id))
    {["worker"%string := mkPID "n1" "worker" 1]}
    (NewClusterSupervisor SimpleRestart_OnNodeFailed "").

Lemma watching_watches id peer ids :
  id ∈ ids -> {["n1"%string]} ∪ ids = {[id]} ∪ node_ids [mkNodeMeta "n1" "" ∅ 0; mkNodeMeta peer "" ∅ 0] ->
  watches clusterSupervisorScope "n1" ids (watching id peer).
Proof.
  intros Hin E. split.
  - done.
  - exact Hin.
  - by rewrite E.
  - apply (run_els_ok [ESetMembers [mkNodeMeta "n1" "" ∅ 0; mkNodeMeta peer "" ∅ 0]]).
  - intros E'. apply (f_equal (@length _)) in E'. vm_compute in E'. discriminate.
Qed.

Lemma failure_is_decided_once_witness :
  let failed := mkNodeMeta "n1" "" ∅ 0 in
  let ev := mkMemberEvent MemberFailed failed in
  let after (su : supervised (gmap string PID)) := supervised_event ev (term_after ev su) su in
  exists su, su ∈ [watching "n2" "n3"; watching "n3" "n2"] /\
    (cs_policy (su_supervisor su) = SimpleRestart_OnNodeFailed -> cs_decisions (su_supervisor su) = [] ->
     (exists m, m ∈ Members (su_cluster (after su)) /\ nm_ID m <> nm_ID failed) ->
     let ds := cs_decisions (su_supervisor (after su)) in
     pd_ActorName <$> ds = NamesByNode "n1" (su_registry su) /\
     forall d, d ∈ ds -> pd_Action d = PlacementRestart /\ pd_TargetNode d <> "n1"%string /\
       exists m, m ∈ Members (su_cluster (after su)) /\ nm_ID m = pd_TargetNode d) /\
    NamesByNode "n1" (su_registry (after su)) = [] /\
    forall su', su' ∈ [watching "n2" "n3"; watching "n3" "n2"] -> su' <> su ->
      su_registry (after su') = su_registry su' /\ su_supervisor (after su') = su_supervisor su'.
Proof.
  apply (failure_is_decided_once [watching "n2" "n3"; watching "n3" "n2"] clusterSupervisorScope (mkNodeMeta "n1" "" ∅ 0)).
  - discriminate.
  - cbn. repeat constructor; set_solver.
  - apply keys_distinct_NoDup, (bool_decide_unpack _). vm_compute. exact I.
  - cbn. set_solver.
  - cbn. set_solver.
  - apply Forall_cons; split; [|apply Forall_cons; split; [|apply Forall_nil; exact I]];
      (apply watching_watches; cbn; set_solver).
Defined.

(** The decisions of both: one restart, on the leader's other peer. *)
Definition decided (su : supervised (gmap string PID)) : list (string * NodeID) * list string :=
  let ev := mkMemberEvent MemberFailed (mkNodeMeta "n1" "" ∅ 0) in
  let su := supervised_event ev (term_after ev su) su in
  ((fun d => (pd_ActorName d, pd_TargetNode d)) <$> cs_decisions (su_supervisor su), NamesByNode "n1" (su_registry su)).

Example decisions_after_failure :
  decided <$> [watching "n2" "n3"; watching "n3" "n2"] = [([("worker", "n3")], []); ([], ["worker"])]%string.
Proof. vm_compute. reflexivity. Qed.

(** The deciding node is not among the live members it hands to its policy: the
    last survivor frees the names and places nothing. *)
Example last_survivor_places_nothing : decided (watching "n2" "n1") = ([], []).
Proof. vm_compute. reflexivity. Qed.
