(* ===== verification/Loops.v ===== *)
(** * Background loops

    The providers and the gossip protocol work in goroutines of one form: a
    first round (some of them), then a [select] between a ticker and the end,
    with a round per tick.  Rounds are operations of the components; what else
    happens to a component happens between them.  The ticker's channel holds one
    tick, so of the ticks that come during a round one is kept; when tick and end
    are both there the [select] may take either.  The join server and the
    multicast listener instead wait for their socket. *)

From S2P Require Import Prelude Types State.
From S2P Require Import Nodes Topology Feed Seeds Polling Detection Cluster Multicast ByteStream Join Gossip.

#[local] Existing Instance Poller.peerState_state.

Inductive loopPoint := AtFirst | AtSelect | Returned | Panicked.

#[export] Instance loopPoint_eq_dec : EqDecision loopPoint.
Proof. solve_decision. Defined.

(** A component with its goroutine: whether a tick is pending and whether the end
    has come (a cancelled context or a closed channel). *)
Record loop (S : Type) := mkLoop { lp_state : S; lp_tick : bool; lp_end : bool; lp_at : loopPoint }.
Arguments mkLoop {S} _ _ _ _.
Arguments lp_state {S} _.
Arguments lp_tick {S} _.
Arguments lp_end {S} _.
Arguments lp_at {S} _.

Section loops.
Context {S I : Type}.

(** A round on what the environment gives it; [None] is a panic. *)
Variable round : I -> S -> option S.
Implicit Types l : loop S.

(** What the ticker, the goroutine and the others do. *)
Inductive loopAction :=
  | LTick
  | LRound (i : I)
  | LReturn
  | LEnd
  | LOther (f : S -> S).

Definition with_point (p : loopPoint) l : loop S := mkLoop (lp_state l) (lp_tick l) (lp_end l) p.

Definition do_round (i : I) l : loop S :=
  match round i (lp_state l) with
  | Some s => mkLoop s (lp_tick l) (lp_end l) AtSelect
  | None => with_point Panicked l
  end.

(** [None]: the action is not possible. *)
Definition loop_do (a : loopAction) l : option (loop S) :=
  match a, lp_at l with
  | LTick, AtSelect => Some (mkLoop (lp_state l) true (lp_end l) AtSelect)
  | LRound i, AtFirst => Some (do_round i l)
  | LRound i, AtSelect => if lp_tick l then Some (do_round i (mkLoop (lp_state l) false (lp_end l) AtSelect)) else None
  | LReturn, AtSelect => if lp_end l then Some (with_point Returned l) else None
  | LEnd, _ => Some (mkLoop (lp_state l) (lp_tick l) true (lp_at l))
  | LOther f, _ => Some (mkLoop (f (lp_state l)) (lp_tick l) (lp_end l) (lp_at l))
  | _, _ => None
  end.

Fixpoint loop_run (acts : list loopAction) l : option (loop S) :=
  match acts with [] => Some l | a :: acts => l ← loop_do a l; loop_run acts l end.

(** The goroutine at its start; [immediate]: it begins with a round. *)
Definition start_loop (immediate : bool) (s : S) : loop S :=
  mkLoop s false false (if immediate then AtFirst else AtSelect).

Definition is_round (a : loopAction) : bool := match a with LRound _ => true | _ => false end.
Definition is_tick (a : loopAction) : bool := match a with LTick => true | _ => false end.
Definition rounds (acts : list loopAction) : nat := length (List.filter is_round acts).
Definition ticks (acts : list loopAction) : nat := length (List.filter is_tick acts).

Definition at_first l : bool := match lp_at l with AtFirst => true | _ => false end.

(** There is at most a round per tick, after the first one. *)
Lemma rounds_bounded acts l l' :
  loop_run acts l = Some l' ->
  (rounds acts <= ticks acts + (if lp_tick l then 1 else 0) + (if at_first l then 1 else 0))%nat.
Proof.
  unfold rounds, ticks, at_first. revert l. induction acts as [|a acts IH]; intros l H; cbn [loop_run] in H; [cbn; lia|].
  apply bind_Some in H as (l1 & H1 & H). specialize (IH l1 H).
  destruct a as [|i| | |f]; cbn [loop_do] in H1; cbn [List.filter is_round is_tick length].
  - destruct (lp_at l) eqn:E; try done. injection H1 as <-. cbn in IH. destruct (lp_tick l); lia.
  - destruct (lp_at l) eqn:E; try done.
    + injection H1 as <-. unfold do_round in IH. destruct (round i (lp_state l)); cbn in IH; destruct (lp_tick l); lia.
    + destruct (lp_tick l); [|done]. injection H1 as <-. unfold do_round in IH. cbn [lp_state] in IH.
      destruct (round i (lp_state l)); cbn in IH; lia.
  - destruct (lp_at l) eqn:E; try done. destruct (lp_end l); [|done]. injection H1 as <-. cbn in IH. destruct (lp_tick l); lia.
  - injection H1 as <-. exact IH.
  - injection H1 as <-. exact IH.
Qed.

(** Once it has returned a loop does nothing; others may. *)
Lemma returned_is_quiet acts l l' :
  lp_at l = Returned -> loop_run acts l = Some l' -> lp_at l' = Returned /\ rounds acts = 0%nat.
Proof.
  unfold rounds. revert l. induction acts as [|a acts IH]; intros l Hl H; cbn [loop_run] in H; [by injection H as <-|].
  apply bind_Some in H as (l1 & H1 & H).
  destruct a as [|i| | |f]; cbn [loop_do] in H1; rewrite Hl in H1; try done; injection H1 as <-;
    (eapply IH; [|exact H]; done).
Qed.

(** After the end, a loop that did not panic needs at most one more round to
    return. *)
Lemma ended_loop_returns i l :
  lp_end l = true -> lp_at l <> Panicked -> (lp_at l = AtFirst -> is_Some (round i (lp_state l))) ->
  exists acts l', (rounds acts <= 1)%nat /\ loop_run acts l = Some l' /\ lp_at l' = Returned.
Proof.
  intros He Hp Hr. destruct l as [s t e p]. cbn in He, Hp, Hr. subst e. destruct p; [| | |done].
  - destruct (Hr eq_refl) as [s' Es]. exists [LRound i; LReturn]. eexists. split; [cbn; lia|]. cbn. unfold do_round. cbn. by rewrite Es.
  - exists [LReturn]. eexists. split; [cbn; lia|]. done.
  - exists []. eexists. split; [cbn; lia|]. done.
Qed.

(** An invariant that rounds and the others keep, and under which rounds do not
    panic, holds all the time, and the loop never panics. *)
Lemma loop_invariant (inv : S -> Prop) (allowed : (S -> S) -> Prop) acts l l' :
  (forall i s, inv s -> exists s', round i s = Some s' /\ inv s') ->
  (forall f s, allowed f -> inv s -> inv (f s)) ->
  Forall (fun a => match a with LOther f => allowed f | _ => True end) acts ->
  inv (lp_state l) -> lp_at l <> Panicked -> loop_run acts l = Some l' -> inv (lp_state l') /\ lp_at l' <> Panicked.
Proof.
  intros Hround Hother Hacts. revert l. induction Hacts as [|a acts Ha Hacts IH]; intros l Hi Hp H; cbn [loop_run] in H; [by injection H as <-|].
  apply bind_Some in H as (l1 & H1 & H).
  assert (forall i l0, inv (lp_state l0) -> inv (lp_state (do_round i l0)) /\ lp_at (do_round i l0) <> Panicked) as Hdo.
  { intros i l0 Hl0. destruct (Hround i _ Hl0) as (s' & Es & Hs'). unfold do_round. by rewrite Es. }
  destruct a as [|i| | |f]; cbn [loop_do] in H1.
  - destruct (lp_at l) eqn:E; try done. injection H1 as <-. by eapply IH; [| |exact H].
  - destruct (lp_at l) eqn:E; try done.
    + injection H1 as <-. destruct (Hdo i l Hi). by eapply IH; [| |exact H].
    + destruct (lp_tick l); [|done]. injection H1 as <-.
      destruct (Hdo i (mkLoop (lp_state l) false (lp_end l) AtSelect) Hi). by eapply IH; [| |exact H].
  - destruct (lp_at l) eqn:E; try done. destruct (lp_end l); [|done]. injection H1 as <-. by eapply IH; [| |exact H].
  - injection H1 as <-. by eapply IH; [| |exact H].
  - injection H1 as <-. eapply IH; [| |exact H]; [|done]. by apply Hother.
Qed.
End loops.

(** ** The loops of the components *)

(** [heartbeatLoop]: the time and the probe of a round. *)
Definition heartbeatLoop : FixedProvider.FixedProvider -> loop FixedProvider.FixedProvider := start_loop true.
Definition heartbeat (i : Z * option (string -> bool)) (p : FixedProvider.FixedProvider) : option FixedProvider.FixedProvider :=
  FixedProvider.probeAll i.1 i.2 p.

(** [pollLoop]: what the discovery returned. *)
Definition pollLoop : Poller.Poller -> loop Poller.Poller := start_loop true.

(** [announceLoop]: the packets sent so far, whether or not writing them
    succeeds. *)
Definition announceLoop (p : MulticastProvider) : loop (MulticastProvider * list announcement) := start_loop true (p, []).
Definition announce_round (_ : unit) (st : MulticastProvider * list announcement) : option (MulticastProvider * list announcement) :=
  Some (st.1, st.2 ++ [announce false st.1]).

(** [sweepLoop]: the time of a round. *)
Definition sweepLoop : MulticastProvider -> loop MulticastProvider := start_loop false.

(** [gossipLoop]: the random numbers of a round; the sends so far. *)
Section gossip.
Context {S : Type} `{HasCluster S}.
Variables (wc : WireCodec) (dialed : string -> Connection + string) (sendErr : Connection -> option string).
Variable g : GossipConfig S.

Definition gossipLoop (s : S) : loop (S * list (NodeID * sendOutcome)) := start_loop false (s, []).
Definition gossip_round (i : Z * (nat -> nat)) (st : S * list (NodeID * sendOutcome)) :
    option (S * list (NodeID * sendOutcome)) :=
  '(s, sent) ← doRound wc i.1 dialed sendErr i.2 g st.1; Some (s, st.2 ++ sent).
End gossip.

(** [listenLoop] on what [ReadFromUDP] returned: a packet, with its announcement
    if it could be decoded, or an error; [None] is a panic. *)
Definition listen_round (now : Z) (read : option announcement + string) (p : MulticastProvider) :
    option (MulticastProvider * bool) :=
  match read with
  | inl (Some ann) => p ← handleAnnouncement now ann p; Some (p, true)
  | inl None => Some (p, true)
  | inr _ => Some (p, negb (mp_stopped p))
  end.

(** While a poller is not stopped its loop does not panic, whatever is discovered
    and received. *)
Definition is_recv (f : Poller.Poller -> Poller.Poller) : Prop := forall p, f p = (Poller.recv p).1.

Lemma pollLoop_runs c self acts l :
  Forall (fun a => match a with LOther f => is_recv f | _ => True end) acts ->
  loop_run Poller.poll acts (pollLoop (Poller.Start self (Poller.NewPoller c)).1) = Some l -> lp_at l <> Panicked.
Proof.
  intros Ha H. eapply (loop_invariant Poller.poll
    (fun p => ef_closed (Poller.feed p) = false /\ peers_ok (Poller.members p)) is_recv); [| |exact Ha| | |exact H].
  - intros d p [H1 H2]. apply poll_runs; done.
  - intros f p Hf [H1 H2]. rewrite Hf. unfold Poller.recv, recvFeed. by destruct (ef_ch (Poller.feed p)).
  - split; [done|apply map_Forall_empty].
  - done.
Qed.

(** [Stop] cancels the context and closes the channel: a round that was due all
    the same and finds a new node sends on the closed channel. *)
Example stopped_poller_panics :
  let stop p := match Poller.Stop p with Some (p, _) => p | None => p end in
  lp_at <$> loop_run Poller.poll [LRound (Some []); LTick; LEnd; LOther stop; LRound (Some [example_node])]
    (pollLoop (Poller.Start (mkNodeMeta "n1" "" ∅ 0) (Poller.NewPoller (Poller.mkPollerConfig 0 0 0))).1) = Some Panicked.
Proof. vm_compute. reflexivity. Qed.

(** Every packet of [announceLoop] describes the node as it is then. *)
Lemma announceLoop_announces acts p l :
  Forall (fun a => match a with LOther f => exists g, f = (fun st => (g st.1, st.2)) | _ => True end) acts ->
  loop_run announce_round acts (announceLoop p) = Some l -> length (lp_state l).2 = rounds acts /\ lp_at l <> Panicked.
Proof.
  intros Ha. assert (forall l0, lp_at l0 <> Panicked -> loop_run announce_round acts l0 = Some l ->
    length (lp_state l).2 = (length (lp_state l0).2 + rounds acts)%nat /\ lp_at l <> Panicked) as Hgen;
    [|intros H; by apply (Hgen (announceLoop p))].
  unfold rounds. induction Ha as [|a acts Ha Hacts IH]; intros l0 Hp H; cbn [loop_run] in H; [injection H as <-; cbn; split; [lia|done]|].
  apply bind_Some in H as (l1 & H1 & H).
  destruct a as [|i| | |f]; cbn [loop_do] in H1; cbn [List.filter is_round is_tick length].
  - destruct (lp_at l0) eqn:E; try done. injection H1 as <-. by apply IH in H.
  - destruct (lp_at l0) eqn:E; try done.
    + injection H1 as <-. apply IH in H; [|done]. cbn in H. rewrite length_app in H. cbn in H. destruct H. split; [lia|done].
    + destruct (lp_tick l0); [|done]. injection H1 as <-. apply IH in H; [|done]. cbn in H. rewrite length_app in H. cbn in H.
      destruct H. split; [lia|done].
  - destruct (lp_at l0) eqn:E; try done. destruct (lp_end l0); [|done]. injection H1 as <-. by apply IH in H.
  - injection H1 as <-. by apply IH in H.
  - injection H1 as <-. destruct Ha as [g ->]. by apply IH in H.
Qed.

(** A round sends to at most as many members as the fanout, so a gossip loop sends
    at most that many envelopes per tick. *)
Section gossip_bound.
Context {S : Type} `{HasCluster S}.
Variables (wc : WireCodec) (dialed : string -> Connection + string) (sendErr : Connection -> option string).
Variable g : GossipConfig S.

Lemma doRound_fanout now rand s s' sent :
  doRound wc now dialed sendErr rand g s = Some (s', sent) -> (length sent <= Z.to_nat (gc_Fanout g))%nat.
Proof.
  unfold doRound. destruct (gc_OnProduce g) as [f|]; [|intros [= _ <-]; cbn; lia].
  destruct (f s) as [s1 [delta|]]; [|intros [= _ <-]; cbn; lia].
  intros (peers & Hp & Hd)%bind_Some. destruct (selectRandomPeers_spec _ _ _ _ Hp) as (_ & _ & Hlen).
  destruct peers as [|p0 peers]; [injection Hd as _ <-; cbn; lia|].
  destruct (wc_Encode _ _) as [bytes|]; [|injection Hd as _ <-; cbn; lia].
  pose proof (send_all_ids now dialed sendErr (gossip_envelope now (cluster_of s1) bytes) (p0 :: peers) (cluster_of s1)) as Hids.
  destruct (send_all _ _ _ _ _ _) as [c' os]. injection Hd as _ <-. cbn [snd] in Hids.
  apply (f_equal length) in Hids. rewrite !length_fmap in Hids. lia.
Qed.

Lemma doRound_runs now rand s : 0 <= gc_Fanout g -> is_Some (doRound wc now dialed sendErr rand g s).
Proof.
  intros Hg. unfold doRound. destruct (gc_OnProduce g) as [f|]; [|by eexists].
  destruct (f s) as [s1 [delta|]]; [|by eexists].
  destruct (selectRandomPeers_total rand (Cluster.Members (cluster_of s1)) (gc_Fanout g) Hg) as [peers ->]. cbn.
  destruct peers; [by eexists|]. destruct (wc_Encode _ _); [|by eexists].
  destruct (send_all _ _ _ _ _ _). by eexists.
Qed.

Lemma gossipLoop_bounded acts s l :
  0 <= gc_Fanout g ->
  Forall (fun a => match a with LOther f => forall st, (f st).2 = st.2 | _ => True end) acts ->
  loop_run (gossip_round wc dialed sendErr g) acts (gossipLoop s) = Some l ->
  (length (lp_state l).2 <= Z.to_nat (gc_Fanout g) * rounds acts)%nat /\ lp_at l <> Panicked.
Proof.
  intros Hg Ha. assert (forall l0, lp_at l0 <> Panicked -> loop_run (gossip_round wc dialed sendErr g) acts l0 = Some l ->
    (length (lp_state l).2 <= length (lp_state l0).2 + Z.to_nat (gc_Fanout g) * rounds acts)%nat /\ lp_at l <> Panicked) as Hgen;
    [|intros H0; by apply (Hgen (gossipLoop s))].
  assert (forall i l0, let l1 := do_round (gossip_round wc dialed sendErr g) i l0 in
    (length (lp_state l1).2 <= length (lp_state l0).2 + Z.to_nat (gc_Fanout g))%nat /\ lp_at l1 <> Panicked) as Hround.
  { intros i l0. unfold do_round, gossip_round. destruct (doRound_runs i.1 i.2 (lp_state l0).1 Hg) as [[s' sent] E].
    rewrite E. cbn. rewrite length_app. apply doRound_fanout in E. split; [lia|done]. }
  unfold rounds. induction Ha as [|a acts Ha Hacts IH]; intros l0 Hp H0; cbn [loop_run] in H0; [injection H0 as <-; cbn; split; [lia|done]|].
  apply bind_Some in H0 as (l1 & H1 & H0).
  destruct a as [|i| | |f]; cbn [loop_do] in H1; cbn [List.filter is_round length].
  - destruct (lp_at l0) eqn:E; try done. injection H1 as <-. by apply IH in H0.
  - destruct (lp_at l0) eqn:E; try done.
    + injection H1 as <-. destruct (Hround i l0). apply IH in H0 as []; [|done]. split; [lia|done].
    + destruct (lp_tick l0); [|done]. injection H1 as <-.
      destruct (Hround i (mkLoop (lp_state l0) false (lp_end l0) AtSelect)) as [Hl ?]. cbn [lp_state] in Hl.
      apply IH in H0 as []; [|done]. split; [lia|done].
  - destruct (lp_at l0) eqn:E; try done. destruct (lp_end l0); [|done]. injection H1 as <-. by apply IH in H0.
  - injection H1 as <-. by apply IH in H0.
  - injection H1 as <-. apply IH in H0; [|done]. cbn [lp_state] in H0. by rewrite Ha in H0.
Qed.
End gossip_bound.

(** ** The join server *)

(** [JoinServer]: whether its listener is open and [closed] is set. *)
Record JoinServer := mkJoinServer { js_token : bytes; js_addr : string; js_listening : bool; js_closed : bool }.

Definition NewJoinServer (addr token : string) (listenErr : option string) : JoinServer + string :=
  match listenErr with
  | Some e => inr ("join server: listen " +:+ addr +:+ ": " +:+ e)%string
  | None => inl (mkJoinServer (toBytes token) addr true false)
  end.

Definition js_close_mark (js : JoinServer) : JoinServer := mkJoinServer (js_token js) (js_addr js) (js_listening js) true.
Definition js_close_listener (js : JoinServer) : JoinServer := mkJoinServer (js_token js) (js_addr js) false (js_closed js).

(** [Serve]: the connections it started a handler for, and whether it returned. *)
Record serving (C : Type) := mkServing { sv_server : JoinServer; sv_handled : list C; sv_returned : bool }.
Arguments mkServing {C} _ _ _.
Arguments sv_server {C} _.
Arguments sv_handled {C} _.
Arguments sv_returned {C} _.

Section serve.
Context {C : Type}.
Implicit Types sv : serving C.

(** What [Accept] of the loop returned, and the two steps of [Close]. *)
Inductive serveAction := Accepted (conn : C) | AcceptFailed | CloseMark | CloseListener.

(** [None]: not possible; a closed listener accepts nothing. *)
Definition Serve_do (a : serveAction) sv : option (serving C) :=
  let 'mkServing js handled returned := sv in
  match a with
  | Accepted conn =>
      if returned || negb (js_listening js) then None else Some (mkServing js (handled ++ [conn]) false)
  | AcceptFailed => if returned then None else Some (mkServing js handled (js_closed js))
  | CloseMark => Some (mkServing (js_close_mark js) handled returned)
  | CloseListener => if js_closed js then Some (mkServing (js_close_listener js) handled returned) else None
  end.

Fixpoint Serve_run (acts : list serveAction) sv : option (serving C) :=
  match acts with [] => Some sv | a :: acts => sv ← Serve_do a sv; Serve_run acts sv end.

Definition accepted (a : serveAction) : option C := match a with Accepted conn => Some conn | _ => None end.

(** The loop ends only after [Close], a closed listener was closed by [Close], and
    every connection that was accepted, and no other, has a handler. *)
Lemma Serve_run_spec acts js sv :
  js_listening js = true -> Serve_run acts (mkServing js [] false) = Some sv ->
  sv_handled sv = omap accepted acts /\
  (sv_returned sv = true -> js_closed (sv_server sv) = true) /\
  (js_listening (sv_server sv) = false -> js_closed (sv_server sv) = true) /\
  js_token (sv_server sv) = js_token js.
Proof.
  intros Hl. assert (forall sv0, Serve_run acts sv0 = Some sv ->
    (sv_returned sv0 = true -> js_closed (sv_server sv0) = true) ->
    (js_listening (sv_server sv0) = false -> js_closed (sv_server sv0) = true) ->
    sv_handled sv = sv_handled sv0 ++ omap accepted acts /\
  (sv_returned sv = true -> js_closed (sv_server sv) = true) /\
  (js_listening (sv_server sv) = false -> js_closed (sv_server sv) = true) /\
  js_token (sv_server sv) = js_token (sv_server sv0)) as Hgen.
  2: { intros Hr. apply (Hgen _ Hr); cbn; congruence. }
  induction acts as [|a acts IH]; intros sv0 Hr H1 H2; [injection Hr as <-; cbn; by rewrite app_nil_r|].
  cbn [Serve_run] in Hr. apply bind_Some in Hr as (sv1 & Hd & Hr). specialize (IH sv1 Hr).
  destruct sv0 as [js0 handled0 ret0]. cbn in H1, H2. destruct a; cbn in Hd.
  - destruct ret0; [done|]. destruct (js_listening js0) eqn:E; [|done]. injection Hd as <-. cbn in *.
    rewrite <- app_assoc in IH. apply IH; [done|congruence].
  - destruct ret0; [done|]. injection Hd as <-. cbn in *. by apply IH.
  - injection Hd as <-. cbn in *. by apply IH.
  - destruct (js_closed js0) eqn:E; [|done]. injection Hd as <-. cbn in *. by apply IH.
Qed.

(** After [Close] the next [Accept] fails, the loop returns, and nothing more is
    handled. *)
Lemma closed_server_returns sv sv' :
  sv_returned sv = false -> Serve_run [CloseMark; CloseListener] sv = Some sv' ->
  (forall conn, Serve_do (Accepted conn) sv' = None) /\
  (sv'' ← Serve_do AcceptFailed sv'; Some (sv_returned sv'', sv_handled sv'')) = Some (true, sv_handled sv).
Proof. destruct sv as [js handled ret]. intros Hr [= <-]. cbn in Hr. by subst ret. Qed.
End serve.
