(* ===== verification/Testnode.v ===== *)
(** * The test node ([cmd/testnode/main.go])

    The program that integration tests run: it reads its peers from the command
    line, starts a clustered runtime with an actor that stores and echoes what it
    receives, and answers HTTP requests by calls of the runtime.

    The flag package, the HTTP server, the JSON encoder and signals are left out:
    a handler takes the parameters of the query and gives the fields of the
    response (or the text of an error).  A query parameter used as payload is a Go
    string, of which [code] is the content.  Handlers that wait for an answer are
    cut in two at the wait, like the operations of the runtime they call. *)

From S2P Require Import Prelude Types Mailbox Resolver Registry Routing Outcomes Monitors PubSub.
From S2P Require Import Fnv Program State Emit Send Lifecycle Broker Cron Actor Prim System Invariants.
From S2P Require Import Scheduler Safety Secure Asks Refs Nodes Topology Cluster Remote Certs.

(** ** The command line *)

(** [strings.SplitN(p, "@", 2)], as a seed; [None] is the fatal error. *)
Definition parsePeer (p : string) : option NodeMeta :=
  match cutFirst "@" p with
  | Some (id, addr) => Some (mkNodeMeta id addr ∅ 0)
  | None => None
  end.

Fixpoint parsePeers (peerList : list string) : list NodeMeta + string :=
  match peerList with
  | [] => inl []
  | p :: rest =>
      match parsePeer p with
      | None => inr ("invalid peer format " +:+ p +:+ ", expected id@addr")%string
      | Some m => match parsePeers rest with inl seeds => inl (m :: seeds) | inr e => inr e end
      end
  end.

(** A node ID holds no at sign; the address may. *)
Lemma parsePeer_spec id addr : hasByte "@" id = false ->
  parsePeer (id +:+ String "@" addr) = Some (mkNodeMeta id addr ∅ 0).
Proof.
  intros Hid. unfold parsePeer. by rewrite cutFirst_app.
Qed.

(** The usage in the program's comment gives peers without their ID: the program
    it shows ends at once. *)
Example documented_usage_is_refused :
  parsePeers ["10.0.0.3:9000"; "10.0.0.4:9000"]%string =
  inr "invalid peer format 10.0.0.3:9000, expected id@addr"%string.
Proof. reflexivity. Qed.

(** ** The node *)

(** The configuration of its cluster. *)
Definition testnodeConfig (nodeID addr : string) : ClusterConfig :=
  mkClusterConfig (mkNodeMeta nodeID addr ∅ 0) true true (Some (TopologyFullMesh FullMesh)) 0.

(** The runtime: the remote sender is given to it, a sender for asks is not. *)
Definition testnodeRuntime (nodeID : string) (send : RemoteSenderFunc) (now : Z) : Runtime :=
  NewRuntimeWith [WithNodeID nodeID; WithRemoteSend (Some send)] now.

Record receivedMsg := mkReceivedMsg { rm_ActorID : string; rm_Payload : payload; rm_At : Z }.

(** [testApp], with the parts that [main] wires to it. *)
Record testApp := mkTestApp {
  ta_rt : Runtime;
  ta_received : list receivedMsg;
  ta_cluster : Cluster;
  ta_resolver : RemotePIDResolver InMemoryPIDResolver
}.

Definition with_rt (r : Runtime) (a : testApp) : testApp :=
  mkTestApp r (ta_received a) (ta_cluster a) (ta_resolver a).

Definition echoID : string := "echo".

(** The echo actor as the runtime sees it: it answers an ask with what it was
    asked, and keeps its state.  [clock] reads the time of the answer. *)
Definition echo (clock : Message -> Z) : handler :=
  HUser (fun state msg =>
    match msg_Ask msg with
    | Some ask =>
        Call (ASendPID (arc_ReplyTo ask) (PAskReplyEnvelope (arc_RequestID ask) (msg_Payload msg) (clock msg)))
          (fun _ => Return (HROk state))
    | None => Return (HROk state)
    end).

(** ... and what it does to the application: the message is stored first. *)
Definition echoStore (at_ : Z) (msg : Message) (a : testApp) : testApp :=
  mkTestApp (ta_rt a) (ta_received a ++ [mkReceivedMsg (msg_ActorID msg) (msg_Payload msg) at_])
    (ta_cluster a) (ta_resolver a).

Definition echoHandler (fuel : nat) (clock : Message -> Z) (state : payload) (msg : Message) (a : testApp) :
    option (testApp * handlerResult) :=
  let a := echoStore (clock msg) msg a in
  '(r, res) ← run_handler fuel (echo clock) state msg (ta_rt a); Some (with_rt r a, res).

Section node.
Context (fuel : nat) (clock : Message -> Z).

(** [setup]; its calls return errors that it ignores. *)
Definition setup (r : Runtime) : Runtime :=
  let r := (CreateActor echoID PNil (Some (echo clock)) [] r).1 in
  let r := (IssuePID "" echoID r).1 in
  (EnsureBrokerActor "" r).1.

(** [main], up to the servers: the fatal errors in their order. *)
Definition main (nodeID addr : string) (peerList : list string) (listenErr providerErr : option string)
    (send : RemoteSenderFunc) (now : Z) : (list NodeMeta * testApp) + string :=
  if bool_decide (nodeID = ""%string) then inr "--id is required"%string
  else
    match parsePeers peerList with
    | inr e => inr e
    | inl seeds =>
        match NewCluster (testnodeConfig nodeID addr) with
        | inr e => inr ("cluster: " +:+ e)%string
        | inl c =>
            let resolver := NewRemotePIDResolver NewInMemoryPIDResolver nodeID in
            match Cluster.Start listenErr providerErr c with
            | (_, Some e) => inr ("cluster start: " +:+ e)%string
            | (c, None) => inl (seeds, mkTestApp (setup (testnodeRuntime nodeID send now)) [] c resolver)
            end
        end
    end.

(** The callback for membership events. *)
Definition onMember (ev : MemberEvent) (a : testApp) : option testApp :=
  let m := me_Member ev in
  let resolver :=
    match me_Type ev with
    | MemberJoin => AddRemoteNode (nm_ID m) (ta_resolver a)
    | MemberLeave | MemberFailed => RemoveRemoteNode (nm_ID m) (ta_resolver a)
    | MemberUpdated => ta_resolver a
    end in
  '(r, _) ← PublishMembershipEvent fuel (MemberEventType_string (me_Type ev))
              (mkClusterMemberInfo (nm_ID m) (nm_Addr m) ∅) (ta_rt a);
  Some (mkTestApp r (ta_received a) (ta_cluster a) resolver).

(** The callback for envelopes: the dispatcher with the cluster, and no handlers
    of subsystems. *)
Definition onEnvelope (codec : Codec) (now : Z) (dialed : string -> Connection + string)
    (sendErr : Connection -> option string) (from : NodeID) (env : Envelope) (a : testApp) :=
  Dispatch (H := unit) (H0 := Runtime_bridge fuel) codec now dialed sendErr from env
    (SetCluster NewInboundDispatcher) (ta_cluster a) (ta_rt a).

(** ** The HTTP interface *)

Inductive value := VString (s : string) | VInt (n : Z) | VPayload (p : payload).

Inductive response :=
  | JSONObject (fields : list (string * value))
  | JSONStrings (l : list string)
  | JSONRecords (l : list (list (string * string)))
  | JSONMessages (l : list receivedMsg)
  | HTTPError (text : string) (status : Z).

Definition text (code : string -> Z) (s : string) : payload :=
  PUser (mkUserValue "string" None None (code s)).

Context (code : string -> Z).

Definition healthHandler : response := JSONObject [("status"%string, VString "ok")].

Definition membersHandler (a : testApp) : response :=
  JSONRecords ((fun m => [("id"%string, nm_ID m); ("addr"%string, nm_Addr m)]) <$> Cluster.Members (ta_cluster a)).

Definition connectedHandler (a : testApp) : response :=
  JSONStrings (nm_ID <$> List.filter (fun m => IsConnected (nm_ID m) (ta_cluster a)) (Cluster.Members (ta_cluster a))).

(** The namespace of a request without one is the node's. *)
Definition queryNamespace (ns : string) (r : Runtime) : string :=
  if bool_decide (ns = ""%string) then NodeID_of r else ns.

Definition sendHandler (target ns payload : string) : M response :=
  ns ← gets (queryNamespace ns);
  ack ← SendPID fuel (mkPID ns target 1) (text code payload);
  mret (JSONObject [("outcome"%string, VString (PIDDeliveryOutcome_string (psa_Outcome ack)));
                    ("message_id"%string, VString (itoa (psa_MessageID ack)))]).

Definition messagesHandler (a : testApp) : response := JSONMessages (ta_received a).

Definition messagesCountHandler (a : testApp) : response :=
  JSONObject [("count"%string, VInt (Z.of_nat (length (ta_received a))))].

(** [/ask] to its wait; [timeout] is what [time.ParseDuration] makes of the
    parameter, which is [5s] when it is missing. *)
Definition askHandlerBegin (target ns payload : string) (timeout : Z + string) : M (pendingAsk + response) :=
  match timeout with
  | inr e => mret (inr (HTTPError ("bad timeout: " +:+ e) 400))
  | inl timeout =>
      ns ← gets (queryNamespace ns);
      begun ← AskPIDBegin fuel (mkPID ns target 1) (text code payload) timeout;
      mret (match begun with
            | inl wait => inl wait
            | inr e => inr (JSONObject [("error"%string, VString e)])
            end)
  end.

(** ... and after it. *)
Definition askHandlerEnd (res : AskResult + string) : response :=
  match res with
  | inr e => JSONObject [("error"%string, VString e)]
  | inl a => JSONObject [("payload"%string, VPayload (ar_Payload a)); ("request_id"%string, VString (ar_RequestID a))]
  end.

Definition publishHandler (topic payload : string) : M response :=
  ack ← BrokerPublish fuel "" topic (text code payload) "http";
  mret (JSONObject [("result"%string, VString (SubmitResult_string (sa_Result ack)))]).

Definition subscribeHandlerBegin (pattern : string) : M (pendingAsk + response) :=
  pid ← gets (PIDForActor echoID);
  match pid with
  | None => mret (inr (HTTPError "echo actor has no PID" 500))
  | Some pid =>
      begun ← BrokerSubscribeBegin fuel "" pid pattern fiveSeconds;
      mret (match begun with inl wait => inl wait | inr e => inr (HTTPError e 500) end)
  end.

Definition subscribeHandlerEnd (res : AskResult + string) : response :=
  match brokerAckOf res with
  | inr e => HTTPError e 500
  | inl ack => JSONObject [("result"%string, VString (BrokerOutcomeType_string (back_Result ack)))]
  end.

Definition registerHandler (name : string) : M response :=
  ns ← gets NodeID_of;
  ack ← total (RegisterName echoID name ns);
  mret (match ack.2 with
        | Some e => HTTPError e 500
        | None => JSONObject [("result"%string, VString (RegistryOperationResult_string (rra_Result ack.1)))]
        end).

Definition lookupHandler (name : string) : M response :=
  ack ← total (LookupName name);
  mret (JSONObject [("result"%string, VString (RegistryOperationResult_string (rla_Result ack)));
                    ("namespace"%string, VString (Namespace (rla_PID ack)));
                    ("actor_id"%string, VString (ActorID (rla_PID ack)))]).
End node.

(** ** What the node does *)

(** The echo actor sends what it was asked to the reply address, before the
    runtime records anything about the message. *)
Lemma echo_run fuel clock state msg r w :
  ask_ok r -> kp_wait (rt_ask r) !! pa_requestID w = Some w -> pa_requestID w <> ""%string ->
  msg_Ask msg = Some (mkAskRequestContext (pa_requestID w) (pa_replyTo w)) ->
  exists r1, run_handler (S fuel) (echo clock) state msg r = Some (r1, HROk state) /\
    kp_ch (rt_ask r1) !! pa_requestID w =
      Some (w, Some (mkAskReplyEnvelope (pa_requestID w) (msg_Payload msg) (clock msg))) /\
    rt_actors r1 = rt_actors r /\ rt_cfg r1 = rt_cfg r.
Proof.
  intros Hok Hw Hne Hm. cbn [run_handler echo]. rewrite Hm. cbn [arc_ReplyTo arc_RequestID run_prog exec_api].
  unfold SendPID, sendPIDWithSender.
  destruct (nextMsgID r) as [r0 m] eqn:En.
  assert (rt_ask r0 = rt_ask r /\ rt_cfg r0 = rt_cfg r /\ rt_actors r0 = rt_actors r /\ rt_now r0 = rt_now r)
    as (E1 & E2 & E3 & E4) by (unfold nextMsgID in En; by simplify_eq).
  destruct (reply_pending w (PAskReplyEnvelope (pa_requestID w) (msg_Payload msg) (clock msg)) m r0)
    as (r1 & Hrep & Hch & _ & _ & Hcfg & Hact).
  - unfold ask_ok. by rewrite E1, E2.
  - by rewrite E1.
  - unfold reply_envelope. cbn. by rewrite bool_decide_eq_false_2.
  - unfold reply_envelope in Hch. cbn in Hch. rewrite bool_decide_eq_false_2 in Hch by done.
    eexists. unfold mbind, M_bind, total, upd, mret, M_ret. rewrite En. cbn [fst snd]. rewrite Hrep.
    cbn [psa_Outcome]. rewrite decide_True by done. split_and!; [reflexivity|exact Hch| |].
    + etransitivity; [|exact E3]. exact Hact.
    + etransitivity; [|exact E2]. exact Hcfg.
Qed.

(** An ask comes back.  When the goroutine of an echo actor processes the
    message of a pending ask, processing completes, the actor keeps its state,
    and the call that waits returns the payload it asked with. *)
Theorem echo_answers fuel cfg d now r l inst clock msg w :
  reachable (S fuel) cfg d now r -> instance l r = Some inst -> ai_handler inst = echo clock ->
  kp_wait (rt_ask r) !! pa_requestID w = Some w -> pa_requestID w <> ""%string ->
  msg_Ask msg = Some (mkAskRequestContext (pa_requestID w) (pa_replyTo w)) ->
  exists r1 r2, processMessage (S fuel) l msg r = Some (r1, tt) /\
    (as_value ∘ ai_state <$> instance l r1) = Some (as_value (ai_state inst)) /\
    AskEnd w WakeReply r1 = Some (r2, inl (mkAskResult (pa_requestID w) (msg_Payload msg))).
Proof.
  intros Hr Hi Hh Hw Hne Hm. pose proof (rok_ask _ (reachable_ok _ _ _ _ _ Hr)) as Hok.
  destruct (echo_run fuel clock (as_value (ai_state inst)) msg r w Hok Hw Hne Hm) as (r1 & Hrun & Hch & Hact & _).
  rewrite <- Hh in Hrun. unfold processMessage. rewrite gets_bind, Hi. unfold mbind at 1, M_bind at 1.
  rewrite Hrun. cbn [handlerError]. rewrite !upd_bind. eexists _, _. split; [reflexivity|]. split.
  - match goal with |- _ <$> instance l (emitLocal _ _ _ _ _ (putOutcome _ _ _ _ ?q)) = _ =>
      change (as_value ∘ ai_state <$> instance l q = Some (as_value (ai_state inst))) end.
    rewrite instance_update_eq. unfold instance. rewrite Hact. fold (instance l r). by rewrite Hi.
  - unfold AskEnd.
    match goal with |- context [kp_ch (rt_ask (emitLocal _ _ _ _ _ (putOutcome _ _ _ _ (update_instance _ _ ?q))))] =>
      change (rt_ask (emitLocal _ _ _ _ _ (putOutcome _ _ _ _ (update_instance _ _ q)))) with (rt_ask q) end.
    rewrite Hch. reflexivity.
Qed.

(** An ask that stays on the node depends on the PID's actor only: neither its
    generation nor its namespace is looked at, whereas a send to the PID is
    refused when the generation is old. *)
Lemma ask_depends_on_the_actor fuel pid pid' p timeout r :
  (cf_remoteAsk (rt_cfg r) = None \/
   IsRemote pid (cf_nodeID (rt_cfg r)) = false /\ IsRemote pid' (cf_nodeID (rt_cfg r)) = false) ->
  ActorID pid = ActorID pid' -> AskPIDBegin fuel pid p timeout r = AskPIDBegin fuel pid' p timeout r.
Proof.
  intros Hq E. unfold AskPIDBegin. destruct (timeout <=? 0); [done|]. rewrite E.
  unfold mbind, M_bind, total, gets. destruct (newAskRequest (ActorID pid') r) as [r1 w] eqn:Eq.
  assert (rt_cfg r1 = rt_cfg r) as -> by (unfold newAskRequest in Eq; by simplify_eq).
  destruct Hq as [->|[-> ->]]; [done|]. by destruct (cf_remoteAsk (rt_cfg r)).
Qed.

(** The node a caller names in [ns] plays no part in an ask: [main] gives the
    runtime no sender for remote asks, so every ask goes to this node's own actor
    of that name (the program offers [ns] for asking actors of other nodes). *)
Theorem ask_ignores_the_node fuel code nodeID send d now r target ns ns' payload timeout :
  reachable fuel (rt_cfg (testnodeRuntime nodeID send now)) d now r ->
  askHandlerBegin fuel code target ns payload timeout r = askHandlerBegin fuel code target ns' payload timeout r.
Proof.
  intros Hr. apply reachable_cfg in Hr as Hc. destruct timeout as [timeout|e]; [|done].
  unfold askHandlerBegin. rewrite !gets_bind. unfold mbind, M_bind.
  rewrite (ask_depends_on_the_actor fuel (mkPID (queryNamespace ns r) target 1)
    (mkPID (queryNamespace ns' r) target 1)); [done| |done]. left. by rewrite Hc.
Qed.

Lemma setup_echo clock nodeID send now : nodeID <> ""%string ->
  let r := setup clock (testnodeRuntime nodeID send now) in
  exists inst, actor_of echoID r = Some inst /\ ai_handler inst = echo clock /\
    PIDForActor echoID r = Some (mkPID nodeID echoID 1) /\
    is_Some (sp_brokers (rt_svc r) !! defaultBrokerID "").
Proof.
  intros Hn. destruct nodeID as [|c s]; [done|]. eexists. split; [vm_compute; reflexivity|].
  split; [reflexivity|]. split; [vm_compute; reflexivity|]. vm_compute. by eexists.
Qed.

(** What [main] leaves behind when nothing fails: the seeds of the command line,
    a started cluster, and a runtime with the echo actor, its PID in the node's
    namespace, and the broker. *)
Theorem main_is_ready clock nodeID addr peerList seeds send now :
  nodeID <> ""%string -> addr <> ""%string -> parsePeers peerList = inl seeds ->
  exists a inst, main clock nodeID addr peerList None None send now = inl (seeds, a) /\
    cl_started (ta_cluster a) = true /\ ta_received a = [] /\
    actor_of echoID (ta_rt a) = Some inst /\ ai_handler inst = echo clock /\
    PIDForActor echoID (ta_rt a) = Some (mkPID nodeID echoID 1) /\
    is_Some (sp_brokers (rt_svc (ta_rt a)) !! defaultBrokerID "").
Proof.
  intros Hn Ha Hp. unfold main. rewrite bool_decide_eq_false_2, Hp by done.
  unfold NewCluster, testnodeConfig. cbn [cc_Self nm_ID nm_Addr cc_Provider cc_Transport negb].
  rewrite !bool_decide_eq_false_2 by done. unfold Cluster.Start. cbn [cl_started].
  destruct (setup_echo clock nodeID send now Hn) as (inst & H1 & H2 & H3 & H4).
  eexists _, inst. split; [reflexivity|]. by split_and!.
Qed.

(** *** An example *)

Definition example_send : RemoteSenderFunc := fun _ _ _ msgID => (mkPIDSendAck PIDDelivered msgID, None).

Definition n1_cfg : config := rt_cfg (testnodeRuntime "n1" example_send 0).

(** The node n1 set up, asked for the echo actor of n2, up to the message. *)
Definition asked_node : list action :=
  [DoApi (ACreateActor echoID PNil (Some (echo (fun _ => 7))) []); DoApi (AIssuePID "" echoID);
   DoApi (AEnsureBrokerActor ""); DoStart 0; DoAskPID (mkPID "n2" echoID 1) (text (fun _ => 3) "hi") fiveSeconds;
   DoWake 0].

Definition asked_runtime : Runtime :=
  default start_runtime (schedule 2 asked_node (NewRuntime n1_cfg false 0)).

Lemma asked_reachable : reachable 2 n1_cfg false 0 asked_runtime.
Proof.
  unfold asked_runtime. destruct (schedule 2 asked_node _) as [r|] eqn:E.
  - by eapply schedule_reachable.
  - apply (f_equal (fun x => match x with Some _ => true | None => false end)) in E.
    vm_compute in E. discriminate E.
Qed.

Definition echo_ask : pendingAsk := mkPendingAsk "ask-1" echoID (mkPID "__ask_reply@n1" "ask-1" 1).

Definition echo_message : Message :=
  mkMessage 1 echoID "" (text (fun _ => 3) "hi") (Some (mkAskRequestContext "ask-1" (pa_replyTo echo_ask))) "string"
    "v1" 0 1.

Lemma echo_answers_witness :
  exists inst, instance 0 asked_runtime = Some inst /\ pending inst = [echo_message] /\
  exists r1 r2, processMessage 2 0 echo_message asked_runtime = Some (r1, tt) /\
    (as_value ∘ ai_state <$> instance 0 r1) = Some (as_value (ai_state inst)) /\
    AskEnd echo_ask WakeReply r1 = Some (r2, inl (mkAskResult "ask-1" (text (fun _ => 3) "hi"))).
Proof.
  eexists. split; [vm_compute; reflexivity|]. split; [vm_compute; reflexivity|].
  apply (echo_answers 1 n1_cfg false 0 asked_runtime 0 _ (fun _ => 7) echo_message echo_ask).
  - apply asked_reachable.
  - vm_compute. reflexivity.
  - vm_compute. reflexivity.
  - vm_compute. reflexivity.
  - discriminate.
  - reflexivity.
Defined.

Lemma ask_ignores_the_node_witness :
  askHandlerBegin 2 (fun _ => 3) echoID "n2" "hi" (inl fiveSeconds) asked_runtime =
  askHandlerBegin 2 (fun _ => 3) echoID "n1" "hi" (inl fiveSeconds) asked_runtime.
Proof. apply (ask_ignores_the_node 2 (fun _ => 3) "n1" example_send false 0). apply asked_reachable. Defined.

Lemma main_is_ready_witness :
  exists a inst, main (fun _ => 7) "n1" "10.0.0.2:9000" ["n2@10.0.0.3:9000"]%string None None example_send 0 =
      inl ([mkNodeMeta "n2" "10.0.0.3:9000" ∅ 0], a) /\
    cl_started (ta_cluster a) = true /\ ta_received a = [] /\
    actor_of echoID (ta_rt a) = Some inst /\ ai_handler inst = echo (fun _ => 7) /\
    PIDForActor echoID (ta_rt a) = Some (mkPID "n1" echoID 1) /\
    is_Some (sp_brokers (rt_svc (ta_rt a)) !! defaultBrokerID "").
Proof. apply main_is_ready; [discriminate|discriminate|reflexivity]. Defined.
